(* ===== verification/_CoqProject ===== *)
-Q . S2P
Prelude.v
Lru.v
Pipeline.v
Pb.v
Db.v
Crypto.v
Keypair.v
Account.v
Exchange.v
TxOps.v
TxManager.v
Ledger.v
Frame.v
Checkpoint.v
Supply.v
Build.v
Quorum.v
Ballot.v
Rpc.v
Peer.v
Download.v
Federated.v
Decree.v
Nomination.v
Outgoing.v
Pledge.v
Agreement.v
Future.v
Validator.v
Converge.v
Managers.v
Space.v
Termination.v
Returns.v
Engine.v
EngineReturns.v
EngineLife.v
Federation.v
EngineSafety.v
Server.v
Config.v
Node.v
Requests.v
Channels.v
Boot.v
Restart.v
Client.v
Network.v
Cmd.v
