(* ===== verification/Prelude.v ===== *)
(** * go-ultiledger: a verification development

    The program is a node of the Ultiledger network, a payment ledger with accounts, issued assets,
    trust lines and a distributed exchange, kept consistent by a federated Byzantine agreement
    protocol.  A client builds, signs and submits a transaction ([client]); the server of a node
    ([rpc/server.go]) checks it and hands it to the node ([node/node.go]) in a future ([future]); the transaction
    manager ([tx/manager.go]) queues it and broadcasts it to the peers ([peer], [rpc/broadcast.go]); the engine
    ([consensus/engine.go]) proposes what is queued; a decree of the consensus engine ([consensus/decree.go]) nominates a value that names a set of
    transactions, ballots on it with the other nodes and externalizes it; the ledger manager then
    has the transaction manager apply the set, charging fees and running the operations
    ([tx/op]), which change accounts and trust lines ([account/manager.go]) and the order book
    ([exchange/manager.go]) in the database ([db]).  Statements of other nodes come in through the server and wait
    in the validator ([consensus/validator.go]) until their quorums and transaction sets have been downloaded.

    ** Files

    - [Prelude]: Go integers at their width, results of functions ([res]: value, error, panic), the
      state monad [M], the choices that Go leaves open ([GoRuntime]: the order of a map, the order of
      equal elements in a sort), strings, sums, and the tactics and hint databases of all the files.
    - [Lru]: the LRU cache that the managers share (golang-lru, vendored in the repository).
    - [Pipeline]: the fan-out of tasks over goroutines and unbuffered channels that [rpc/broadcast.go] and
      [ledger/downloader.go] share, as a step relation with its termination measure and invariant.
    - [Pb]: the protobuf messages of [ultpb] and the codec of [ultpb/codec.go].  Marshalling is a
      parameter ([PbCodec]) with one law: decoding an encoding gives the message back.
    - [Db]: the interfaces of [db/db.go] as classes ([Store], [TxDatabase], with laws for their
      clients) and the two implementations, modules [memdb] and [boltdb], as their instances.
    - [Crypto]: keys and hashes of [crypto/key.go], [crypto/hash.go] and the key functions of
      [ultpb/codec.go].  SHA-256 and base58 are a parameter ([CryptoLib]).
    - [Keypair]: key pairs and signatures of [crypto/keypair.go]; ed25519 is a parameter ([Ed25519]).
    - [Account]: [account/manager.go], over any [Store].
    - [Exchange]: [exchange/manager.go], [exchange/util.go], [exchange/order.go].
    - [TxOps]: the operations of [tx/op]: create account, payment, path payment, trust, offer.
    - [TxManager]: [tx/manager.go] and [tx/txhistory.go]: the pool of pending transactions, the status
      cache, fees, and the application of an externalized list.
    - [Ledger]: [ledger/manager.go], [ledger/buffer.go] and the ordering of [ledger/downloader.go]: closing
      ledgers, catching up, checkpoint and recovery.
    - [Frame]: which buckets of the database the operations of the managers can change.
    - [Supply]: the sum of all balances over any sequence of closed ledgers, modulo 2^64.
    - [Checkpoint]: the checkpoint in the database, kept by every operation, and what a restart makes of it.
    - [Build]: the transaction builder of [client/build].
    - [Quorum]: quorums, slices, v-blocking sets and their normal form, from [consensus/util.go] and
      [consensus/sorter.go], with thresholds as binary64 floats.
    - [Ballot]: statements, ballots, their orders and filters, from [consensus/util.go] and
      [consensus/filter.go].
    - [Rpc]: the calls to peers of [rpc/query.go], [rpc/hello.go] and [rpc/broadcast.go].
    - [Peer]: [peer/manager.go].
    - [Download]: the goroutines of [ledger/downloader.go].
    - [Federated]: federated voting and the candidate searches of [consensus/decree.go].
    - [Decree]: the state of a decree and its ballot protocol.
    - [Nomination]: its nomination protocol, its entry points and its life as a transition system.
    - [Validator]: [consensus/validator.go]: the statements that wait for their quorums and transaction
      sets; its goroutines are steps of a relation.
    - [Outgoing]: what a decree can send: only statements in its own name.
    - [Pledge]: the value that a decree is bound to once it has accepted a commit, as an invariant of its whole protocol.
    - [Agreement]: a network of decrees of honest nodes with arbitrary others, and the register that it implements.
    - [Future]: [future/future.go], with the write-once cell that it refines.
    - [Converge]: when a recursion with fuel comes to an end ([settles]), and the measure of the proofs of termination.
    - [Managers]: the operations of the database, the accounts, the exchange, the transactions and the ledger return.
    - [Space], [Termination], [Returns]: the recursion of a decree ends: the finite space in which it moves, its ballot protocol,
      and every call on a decree; the loops of the validator.
    - [Engine]: [consensus/engine.go] over the decrees, the validator, the ledger and the peers; each case of its
      selects is a step.  [EngineReturns], [EngineLife]: no such step computes for ever.  [EngineSafety]: their invariant.
    - [Federation]: a network of whole engines that hear what the others have broadcast, and two engines that close a ledger.
    - [Server]: the handlers of [rpc/server.go], against the interface [NodeBackend] of the node.
    - [Config]: [node/config.go].
    - [Node]: [node/node.go], which implements [NodeBackend]; its start, its event loop and its life.
    - [Requests]: the handlers of the server and the two event loops of the node as goroutines over unbuffered channels.
    - [Channels]: the goroutines of the engine over unbuffered channels.
    - [Boot]: the contexts and constructors of all the components with the buckets they make, and their [Stop].
    - [Restart]: the life of a node over many runs of its process on one file.
    - [Client]: [client/client.go], [client/types], [client/resolver.go] and [client/watcher.go].
    - [Network]: two nodes.
    - [Cmd]: the logger [log/logger.go] and the commands of [cmd/ult], [cmd/ultcli] and [cmd/ulthub].

    ** How code is modelled

    A function that can only compute is a Rocq function; one that can return an error or panic is in
    [res]; one that changes state is in [M S].  An error keeps the state reached so far, as in Go.
    [Panic] stands for a nil dereference, a division by zero and [log.Fatal].  Integers are [Z] with
    the wrap-around written where an operation can leave its width.  A pointer that may be nil is an
    [option]; where objects are shared and mutated (the order of an exchange, the ballots of a
    decree), the sharing is explicit: the ballots live in a heap, and statements already sent hold
    locations in it.  Interfaces between components are classes: the clients of the database are
    proved against [Store] and its laws, a decree is proved against [DecreeEnv] (validator and ledger
    manager), and [Validator_DecreeEnv] gives it with the modelled validator and ledger manager; the server is proved
    against [NodeBackend], which [Node_NodeBackend] gives; the client against its stub, which a server gives.  A goroutine is a
    set of steps, one for each case of its select, run to its end; only the pipelines have the finer steps of channel
    operations, [Channels] the waits of the engine and [Requests] those of the server.  Elsewhere a channel is a queue, so that the blocking of an unbuffered send is left out.  Logging is left out.

    ** Fuel

    - [quorum_loop] (the loop of federated voting) has 2 rounds, and [quorum_loop_run] shows that the
      loop of the code always stops within them.
    - [recvBallot] and [recvNomination] call themselves through the messages they send to themselves;
      the fuel is the depth.  [decree_life_returns] shows that every call on a decree ends: from some fuel on the outcome is
      the same and is not a lack of fuel.  The other theorems hold for every fuel and every outcome.
    - [release_from] (the tick of the validator) counts up to the largest index received; [tick_ends_iff] says when it ends, and
      [engine_never_loops] that no event of an engine loops or recurses for ever otherwise.
    - [uvarint] has 10 steps, enough for 64 bits.
    - [hand_over] has one step more than entries waiting; [reorder_in_order] shows that it ends.
    - [rebroadcast_loop] has one round more than decrees; [rebroadcast_sends] shows that the loop ends within them.
    - [parseQuorum] has half the depth of the tree of values, 3 for a valid quorum; [parseQuorum_roundtrip].
    - [wait_tx] has 16 rounds; [CreateTestAccount_returns] shows that the timer ends the loop within them.
    All other recursion is structural.

    ** What the theorems show

    - Money: creating an account and paying conserve the sum of balances and touch no other account, modulo 2^64 for a payment, and exactly when the balances
      are not negative and the amount is not the smallest int64;
      fees are charged exactly when they are not negative; over any sequence of ledgers the balances lose the fees charged and nothing else; the exchange never overflows or breaks
      the limits of order and offer when the terms of the prices allow the comparison of their values that it makes, and its rounding is bounded; liabilities and entry counts keep their invariants.
    - Transactions: an applied transaction is all or nothing on BoltDB; the history's cached maximum and
      total agree with its transactions; the status cache agrees with the database.
    - Ledger: the headers form a hash chain with consecutive numbers; a close is complete or leaves the
      chain alone; the checkpoint brings the chain back; downloads are handed over in order.
    - Encodings: keys round-trip; the key of a transaction set does not depend on the order of its list.
    - Quorums: with thresholds that are numbers, the threshold tests count members, are monotone and dual where the needs add up, and two
      majority slices intersect.
    - Voting: a real quorum of regular, known quorums is always recognised; the code's test is exactly one pass of the
      fixpoint; the commit interval found is a valid one.
    - Decrees: the order on ballots and statements is a strict order; p and q keep their invariant; a
      decree announces at most one value, the value of its commit ballot, and nothing it has decided
      changes afterwards; the nomination never withdraws anything; a node alone runs to the end; every call on a decree returns,
      whatever was received before.
    - Agreement: with quorums any two slices of which share an honest node, the decrees of the honest nodes for an index announce at most
      one value, whatever is sent, lost, repeated or reordered and whichever processes die; the network refines a register
      that is written once; three of four nodes come to a decision.  The same holds for whole engines, with everything between the broadcast of a
      statement and the decree that receives it, for every index of which no engine has made two decrees; two engines that need each other
      close a ledger with the value both announced.
    - Validator: every statement handed to the engine has its quorum and its transaction sets in the
      database, however the goroutines interleave; lookups change nothing but caches.
    - Goroutines: a broadcast and a download end under every interleaving, with every peer notified once and every ledger
      asked for once unless a worker crashes; what was downloaded is handed over in order; the table of peers is bounded, its initial peers apart; rebroadcasting ends.
    - Waiting: a statement of the engine is always taken; the goroutine of values can wait for itself, and then waits for ever.
    - Engine: an externalized value closes the ledger, or is buffered while catching up, and drops old decrees for good; the engine sends only
      its own statements, with its own signature; from a new engine on no event of its goroutines computes for ever, with all that it
      makes the decrees, the validator and the managers do.
    - Requests: a future is a write-once cell; every request is answered in a bounded number of steps while the node is not stopped and the operations come back; a client cannot submit for another account; what a
      client builds, the operations accept; what it submits and the manager takes is in the next proposal and is reported as accepted.
    - The whole node: an accepted configuration makes a node; from the start of a network on, whatever clients, peers and
      goroutines do, and however often its process ends and is started again on its file, the ledger is a chain and everything is stored under
      its hash, and the next start succeeds with the ledger of the checkpoint; the constructors, with their checks and buckets, make
      the node that the theorems are about; [ult start] brings a node back; what a node broadcasts is accepted by
      the server of every node that it has greeted.
    - Defects, each proved on the model: theorems whose comment says what the code does instead
      of what it is meant to do ([update_never_abandons], [void_commit_is_fatal],
      [confirm_prepared_drops_commit], [hash_tags_overwritten], and others next to them,
      such as [UpdateBalance_debit_unguarded], [payment_overdraws_and_drains], [smallest_amount_taken_twice], [negative_fee_pays], [Exchange_exceeds_order],
      [nan_threshold_accepted], [new_value_is_fatal], [one_liar_decides], [hollow_ledger_crashes], [stopped_loop_strands],
      [crash_loses_operations], [alone_stops], [recursion_limit_leaks], [tick_ends_iff], [ahead_forgets], [start_errors_are_lost]
      and [hub_routes_crash]).

    ** Assumptions of the model that a reader should know

    - Agreement: that a statement in the name of an honest node was sent by it is part of what a step of the network is, because the
      server lets any peer that it has greeted speak for any node; a decree is not saved, so a node whose process ends does not come
      back for the same index; an engine that jumps ahead can forget a decree ([ahead_forgets]) and make a second one for the index, which [engines_agree] excludes;
      the quorums of the honest nodes do not change.
    - Quorums: a threshold of NaN passes the validation of the code ([nan_threshold_accepted]); the theorems on voting that need monotone slices ask for a number.
    - Counts: the number of ledgers is an int64 that wraps around; a checkpoint with a negative count is refused, which the theorems on recovery exclude.
    - Start: [Start] is one step.  In the code the server, the event loops and the goroutines of engine and managers run already while the genesis
      ledger is made or the checkpoint is read; what a request or a statement meets before that is done is not modelled, and neither is the listener.
    - Requests: that an operation which a loop runs comes back, or ends the process, is assumed in [Requests]; no operation waits for a lock or a channel there.
    - Ends of events: a send leaves its message in the channel; the counters of a statement have the width of their type, which is what decoding gives; no statement is for index
      2^64 - 1 and fewer than 2^64 events happen.
    - Supply: sums are taken modulo 2^64, because additions to a balance are not guarded against overflow everywhere; the keys of
      trust lines are apart from account IDs; offers and path payments are not among the operations that a ledger runs.
    - Restart: a process ends between two steps; [crash_loses_operations] shows what an end inside of closing a ledger can do.

    ** What is not modelled

    The wire format of protocol buffers, gRPC, bolt, viper, SHA-256, base58 and ed25519 are parameters with their documented
    laws.  Of the programs under [cmd] the registration with cobra and the driver of the tests are left out, and the test cases
    of [test], which are test code.  Locks are left out where an
    operation runs at once; the accesses to shared maps without a lock are findings, not behaviours of the model.
    Outside of [Boot] the contexts of the managers are not records of their own: [boot_is_NewNode] shows that this loses nothing.

    What remains, and why: an explicit bound on the depth of [recvBallot], because the counter that should give one leaks, so that only the
    number of ballots heard of bounds it; the end of a process inside of a step, of which one case is a theorem
    ([crash_loses_operations]); agreement for an index that an engine has forgotten, which the code does not give; progress of every network of
    engines, which a schedule has to grant; and the cost of the loops, which the model does not count. *)

From Stdlib Require Export ZArith Lia Ascii.
From stdpp Require Export base tactics decidable countable gmap strings list fin_maps sorting pretty.

#[global] Set Default Goal Selector "!".

Declare Scope go_scope.
Delimit Scope go_scope with go.
Open Scope Z_scope.
Open Scope go_scope.

(** * Machine integers

    A Go integer of width [w] is a [Z] in range; every operation of the source that can leave
    the range is followed by the wrap-around of its type. *)

Definition MaxInt64 : Z := 9223372036854775807.
Definition MinInt64 : Z := -9223372036854775808.
Definition MaxUint64 : Z := 18446744073709551615.
Definition MaxUint32 : Z := 4294967295.
Definition MaxInt32 : Z := 2147483647.
Definition MinInt32 : Z := -2147483648.

Definition wrap64 (z : Z) : Z := (z + 9223372036854775808) mod 18446744073709551616 - 9223372036854775808.
Definition uwrap64 (z : Z) : Z := z mod 18446744073709551616.
Definition wrap32 (z : Z) : Z := (z + 2147483648) mod 4294967296 - 2147483648.
Definition uwrap32 (z : Z) : Z := z mod 4294967296.

Definition int64 (z : Z) : Prop := MinInt64 <= z <= MaxInt64.
Definition int32 (z : Z) : Prop := MinInt32 <= z <= MaxInt32.
Definition uint64 (z : Z) : Prop := 0 <= z <= MaxUint64.
Definition uint32 (z : Z) : Prop := 0 <= z <= MaxUint32.

(** * Results of Go functions

    [Ok] is a normal return, [Err] a returned error (with its message), [Panic] the death of the
    process (a nil dereference, an integer division by zero, or [log.Fatal]), and [NoFuel] the
    exhaustion of the fuel of a loop of the model, which no run of the code produces. *)

Inductive res (A : Type) : Type :=
| Ok (a : A)
| Err (e : string)
| Panic (why : string)
| NoFuel.
Arguments Ok {A} a.
Arguments Err {A} e.
Arguments Panic {A} why.
Arguments NoFuel {A}.

Definition res_bind {A B} (r : res A) (k : A → res B) : res B :=
  match r with
  | Ok a => k a
  | Err e => Err e
  | Panic w => Panic w
  | NoFuel => NoFuel
  end.

(** [fmt.Errorf("prefix: %v", err)] *)
Definition res_wrap {A} (p : string) (r : res A) : res A :=
  match r with
  | Err e => Err (p +:+ e)
  | r => r
  end.

(** A pointer that the source dereferences. *)
Definition deref {A} (o : option A) : res A :=
  match o with
  | Some a => Ok a
  | None => Panic "nil pointer dereference"
  end.

Definition is_Ok {A} (r : res A) : bool := match r with Ok _ => true | _ => false end.
Definition is_Panic {A} (r : res A) : bool := match r with Panic _ => true | _ => false end.

(** * Stateful Go code

    Explicit state passing.  An error or a panic keeps the state reached so far: Go does not
    undo the effects that precede a [return err]. *)

Definition M (S A : Type) : Type := S → S * res A.

Definition ret {S A} (a : A) : M S A := λ s, (s, Ok a).
Definition fail {S A} (e : string) : M S A := λ s, (s, Err e).
Definition panic {S A} (w : string) : M S A := λ s, (s, Panic w).
Definition lift {S A} (r : res A) : M S A := λ s, (s, r).
Definition get {S} : M S S := λ s, (s, Ok s).
Definition put {S} (s : S) : M S unit := λ _, (s, Ok tt).
Definition modify {S} (f : S → S) : M S unit := λ s, (f s, Ok tt).
Definition bind {S A B} (m : M S A) (k : A → M S B) : M S B :=
  λ s, match m s with
       | (s', Ok a) => k a s'
       | (s', Err e) => (s', Err e)
       | (s', Panic w) => (s', Panic w)
       | (s', NoFuel) => (s', NoFuel)
       end.
Definition wrap {S A} (p : string) (m : M S A) : M S A :=
  λ s, let '(s', r) := m s in (s', res_wrap p r).

(** [x, err := m] with the error kept as a value ([_ = err], a log line, a later test). *)
Definition try {S A} (m : M S A) : M S (string + A) :=
  λ s, match m s with
       | (s', Ok a) => (s', Ok (inr a))
       | (s', Err e) => (s', Ok (inl e))
       | (s', Panic w) => (s', Panic w)
       | (s', NoFuel) => (s', NoFuel)
       end.

Notation "'let!' x := m 'in' k" := (bind m (λ x, k))
  (at level 10, x name, m at level 100, k at level 200) : go_scope.
Notation "'let!' ' p := m 'in' k" := (bind m (λ p, k))
  (at level 10, p strict pattern, m at level 100, k at level 200) : go_scope.
Notation "'do!' m 'in' k" := (bind m (λ _, k))
  (at level 10, m at level 100, k at level 200) : go_scope.
Notation "'let?' x := m 'in' k" := (res_bind m (λ x, k))
  (at level 10, x name, m at level 100, k at level 200) : go_scope.

Notation "'let?' ' p := m 'in' k" := (res_bind m (λ p, k))
  (at level 10, p strict pattern, m at level 100, k at level 200) : go_scope.

(** [for _, x := range l { body }] where the body may return. *)
Fixpoint mfor {S A} (l : list A) (body : A → M S unit) : M S unit :=
  match l with
  | [] => ret tt
  | x :: l => do! body x in mfor l body
  end.

(** Run [m] on one component of the state. *)
Definition on_fst {S X A} (m : M S A) : M (S * X) A := λ '(s, x), let '(s', r) := m s in ((s', x), r).
Definition on_snd {S X A} (m : M X A) : M (S * X) A := λ '(s, x), let '(x', r) := m x in ((s, x'), r).

(** A loop that collects results and returns at the first failure. *)
Definition res_map {A B} (f : A → res B) (l : list A) : res (list B) :=
  foldr (λ a acc, let? b := f a in let? bs := acc in Ok (b :: bs)) (Ok []) l.

(** A relation that every run of [m] respects. *)
Definition preserves {S A} (R : S → S → Prop) (m : M S A) : Prop := ∀ s, R s (m s).1.

(** * The parts of the Go runtime that leave a choice open

    [go_range m] is the order in which a [for range] visits a map, [go_sort] is [sort.Sort]:
    both may depend on more than their arguments say, so every theorem quantifies over them. *)

Definition sort_le {A} (less : A → A → bool) (a b : A) : Prop := less a b = true ∨ less b a = false.

(** Transitivity among the elements of a list. *)
Definition transitive_on {A} (l : list A) (R : A → A → Prop) : Prop :=
  ∀ a b c, a ∈ l → b ∈ l → c ∈ l → R a b → R b c → R a c.

Class GoRuntime := {
  go_range : ∀ {V : Type}, gmap string V → list (string * V);
  go_range_perm : ∀ (V : Type) (m : gmap string V), go_range m ≡ₚ map_to_list m;
  go_sort : ∀ {A : Type}, (A → A → bool) → list A → list A;
  go_sort_perm : ∀ (A : Type) (less : A → A → bool) (l : list A), go_sort less l ≡ₚ l;
  go_sort_sorted : ∀ (A : Type) (less : A → A → bool) (l : list A),
    transitive_on l (sort_le less) → StronglySorted (sort_le less) (go_sort less l);
}.

(** The order in which a set is visited. *)
Definition go_iter {Rt : GoRuntime} (X : gset string) : list string := (go_range (gset_to_gmap tt X)).*1.

(** A reference runtime: key order for maps, insertion sort. *)
Fixpoint insert_by {A} (less : A → A → bool) (x : A) (l : list A) : list A :=
  match l with
  | [] => [x]
  | y :: l' => if less x y then x :: l else y :: insert_by less x l'
  end.
Definition insertion_sort {A} (less : A → A → bool) (l : list A) : list A :=
  foldr (insert_by less) [] l.

(** Sum of a function over a list. *)
Definition sumZ {A} (f : A → Z) (l : list A) : Z := foldr (λ a acc, f a + acc) 0 l.

(** * Strings

    A Go string or byte slice is a Rocq [string] (a list of bytes). *)

(** [strings.Compare] *)
Definition strcmp (a b : string) : Z :=
  match String.compare a b with Lt => -1 | Eq => 0 | Gt => 1 end.

(** [strings.HasPrefix], [bytes.HasPrefix] *)
Fixpoint has_prefix (p s : string) : bool :=
  match p, s with
  | EmptyString, _ => true
  | String c p, String d s => bool_decide (c = d) && has_prefix p s
  | _, _ => false
  end.

(** [strings.Join] *)
Fixpoint str_join (sep : string) (l : list string) : string :=
  match l with
  | [] => ""
  | [x] => x
  | x :: l => x +:+ sep +:+ str_join sep l
  end.

(** * Tactics *)

Ltac unfold_int :=
  unfold int64, int32, uint64, uint32, wrap64, wrap32, uwrap64, uwrap32,
    MaxInt64, MinInt64, MaxUint64, MaxUint32, MaxInt32, MinInt32 in *.

(** Linear arithmetic over the machine integers, division and modulo included. *)
Ltac mlia := unfold_int; Z.to_euclidean_division_equations; lia.

Ltac unfold_m :=
  unfold bind, ret, fail, panic, lift, get, put, modify, wrap, try, res_bind, res_wrap in *.

(** Run a monadic hypothesis or goal: unfold, then split on every match that blocks it. *)
Ltac mrun := unfold_m; repeat (simplify_eq/=; case_match); simplify_eq/=.

Create HintDb go_db.
Create HintDb go_preserves.

(** * Lemmas on machine integers *)

Lemma wrap64_id z : int64 z → wrap64 z = z.
Proof. mlia. Qed.

Lemma wrap64_range z : int64 (wrap64 z).
Proof. mlia. Qed.

Lemma uwrap64_id z : uint64 z → uwrap64 z = z.
Proof. mlia. Qed.

Lemma uwrap64_range z : uint64 (uwrap64 z).
Proof. mlia. Qed.

Lemma wrap32_id z : int32 z → wrap32 z = z.
Proof. mlia. Qed.

Lemma wrap32_range z : int32 (wrap32 z).
Proof. mlia. Qed.

Lemma uwrap32_id z : uint32 z → uwrap32 z = z.
Proof. mlia. Qed.

Lemma wrap64_congr a b : (a - b) mod 18446744073709551616 = 0 → wrap64 a = wrap64 b.
Proof.
  intros H. unfold wrap64. f_equal.
  replace (a + 9223372036854775808) with ((b + 9223372036854775808) + (a - b)) by lia.
  by rewrite Z.add_mod, H, Z.add_0_r, Z.mod_mod by lia.
Qed.

Lemma wrap64_add_wrap_l a b : wrap64 (wrap64 a + b) = wrap64 (a + b).
Proof. apply wrap64_congr. mlia. Qed.

Lemma wrap64_uwrap64 z : wrap64 (uwrap64 z) = wrap64 z.
Proof. apply wrap64_congr. mlia. Qed.
Lemma uwrap64_wrap64 z : uwrap64 (wrap64 z) = uwrap64 z.
Proof. destruct (Z.div_mod (z + 9223372036854775808) 18446744073709551616 ltac:(lia)). mlia. Qed.

Lemma wrap64_eq_mod z : ∃ k, wrap64 z = z + 18446744073709551616 * k.
Proof.
  exists (- ((z + 9223372036854775808) / 18446744073709551616)). mlia.
Qed.

#[export] Hint Resolve wrap64_range uwrap64_range wrap32_range : go_db.

(** * Lemmas on strings *)

Lemma strcmp_refl a : strcmp a a = 0.
Proof.
  unfold strcmp. replace (String.compare a a) with Eq; [done|].
  symmetry. pose proof (String.compare_antisym a a) as H. by destruct (String.compare a a).
Qed.

Lemma strcmp_eq a b : strcmp a b = 0 ↔ a = b.
Proof.
  split; [|intros ->; apply strcmp_refl].
  unfold strcmp. destruct (String.compare a b) eqn:E; try done.
  intros _. by apply String.compare_eq_iff.
Qed.

Lemma strcmp_opp a b : strcmp a b = - strcmp b a.
Proof. unfold strcmp. rewrite String.compare_antisym. by destruct (String.compare b a). Qed.

Lemma ascii_compare_lt_trans (a b c : Ascii.ascii) :
  Ascii.compare a b = Lt → Ascii.compare b c = Lt → Ascii.compare a c = Lt.
Proof. unfold Ascii.compare. rewrite !N.compare_lt_iff. lia. Qed.

Lemma string_compare_lt_trans (a b c : string) :
  String.compare a b = Lt → String.compare b c = Lt → String.compare a c = Lt.
Proof.
  revert b c. induction a as [|x a IH]; intros [|y b] [|z c]; simpl; try done.
  destruct (Ascii.compare x y) eqn:E1, (Ascii.compare y z) eqn:E2; try done.
  - apply Ascii.compare_eq_iff in E1 as ->, E2 as ->.
    rewrite (proj2 (N.compare_eq_iff _ _) eq_refl : Ascii.compare z z = Eq). apply IH.
  - apply Ascii.compare_eq_iff in E1 as ->. by rewrite E2.
  - apply Ascii.compare_eq_iff in E2 as ->. by rewrite E1.
  - by rewrite (ascii_compare_lt_trans x y z).
Qed.

Lemma strcmp_lt_iff a b : strcmp a b < 0 ↔ String.compare a b = Lt.
Proof. unfold strcmp. destruct (String.compare a b); split; intros; try done; lia. Qed.

Lemma strcmp_lt_trans a b c : strcmp a b < 0 → strcmp b c < 0 → strcmp a c < 0.
Proof. rewrite !strcmp_lt_iff. apply string_compare_lt_trans. Qed.

Lemma strcmp_cases a b : strcmp a b = -1 ∨ strcmp a b = 0 ∨ strcmp a b = 1.
Proof. unfold strcmp. destruct (String.compare a b); auto. Qed.

Lemma has_prefix_spec p s : has_prefix p s = true ↔ ∃ t, s = p +:+ t.
Proof.
  revert s. induction p as [|c p IH]; intros s; simpl.
  - split; [eauto|done].
  - destruct s as [|d s]; [split; [done|by intros []]|].
    rewrite andb_true_iff, bool_decide_eq_true, IH. split.
    + intros [-> [t ->]]. by exists t.
    + intros [t [= -> ->]]. eauto.
Qed.

Lemma str_app_nil (s : string) : "" +:+ s = s.
Proof. done. Qed.

Lemma str_app_cons c (a b : string) : String c a +:+ b = String c (a +:+ b).
Proof. done. Qed.

Lemma str_app_assoc (a b c : string) : (a +:+ b) +:+ c = a +:+ (b +:+ c).
Proof. induction a as [|x a IH]; [done|]. by rewrite !str_app_cons, IH. Qed.

Lemma str_app_inv_head (a b c : string) : a +:+ b = a +:+ c → b = c.
Proof. induction a as [|x a IH]; [done|]. rewrite !str_app_cons. intros [= H]. auto. Qed.

Lemma str_app_nil_r (a : string) : a +:+ "" = a.
Proof. induction a as [|x a IH]; [done|]. by rewrite str_app_cons, IH. Qed.

Lemma str_app_self (a b : string) : a +:+ b = a → b = "".
Proof. intros H. apply (str_app_inv_head a). by rewrite str_app_nil_r. Qed.

(** * Lemmas on the monad *)

Lemma bind_Ok {S A B} (m : M S A) (k : A → M S B) s s' b :
  bind m k s = (s', Ok b) → ∃ s1 a, m s = (s1, Ok a) ∧ k a s1 = (s', Ok b).
Proof. unfold bind. intros H. repeat case_match; simplify_eq. eauto. Qed.

Lemma bind_eq_Ok {S A B} (m : M S A) (k : A → M S B) s s1 a :
  m s = (s1, Ok a) → bind m k s = k a s1.
Proof. unfold bind. by intros ->. Qed.

Lemma res_map_Ok {A B} (f : A → res B) l bs : Forall2 (λ a b, f a = Ok b) l bs → res_map f l = Ok bs.
Proof. unfold res_map. induction 1 as [|a b l bs Hab _ IH]; simpl; [done|]. by rewrite Hab, IH. Qed.

Lemma res_map_inv {A B} (f : A → res B) l bs : res_map f l = Ok bs → Forall2 (λ a b, f a = Ok b) l bs.
Proof.
  revert bs. induction l as [|a l IH]; intros bs H; simpl in H; [injection H as <-; constructor|].
  destruct (f a) as [b| | |] eqn:Hb; simpl in H; try done. fold (res_map f l) in H.
  destruct (res_map f l) as [bs'| | |]; simpl in H; try done. injection H as <-. constructor; auto.
Qed.

(** A run is known by its result. *)
Lemma run_eq {S A} (m : M S A) s r : (m s).2 = r → m s = ((m s).1, r).
Proof. intros <-. by destruct (m s). Qed.

Lemma wrap_Ok {S A} p (m : M S A) s s' a : wrap p m s = (s', Ok a) ↔ m s = (s', Ok a).
Proof. unfold wrap, res_wrap. destruct (m s) as [? []]; naive_solver. Qed.

Lemma wrap_fst {S A} p (m : M S A) s : (wrap p m s).1 = (m s).1.
Proof. unfold wrap. by destruct (m s). Qed.

Lemma preserves_run {S A} (R : S → S → Prop) (m : M S A) s s' r : m s = (s', r) → preserves R m → R s s'.
Proof. intros H Hm. specialize (Hm s). by rewrite H in Hm. Qed.

Section preserves.
Context {S : Type} (R : S → S → Prop) `{!PreOrder R}.

Lemma preserves_ret {A} (a : A) : preserves R (ret a).
Proof. intros s. reflexivity. Qed.

Lemma preserves_fail {A} e : preserves R (fail (A:=A) e).
Proof. intros s. reflexivity. Qed.

Lemma preserves_panic {A} w : preserves R (panic (A:=A) w).
Proof. intros s. reflexivity. Qed.

Lemma preserves_lift {A} (r : res A) : preserves R (lift r).
Proof. intros s. reflexivity. Qed.

Lemma preserves_get : preserves R get.
Proof. intros s. reflexivity. Qed.

Lemma preserves_bind {A B} (m : M S A) (k : A → M S B) :
  preserves R m → (∀ a, preserves R (k a)) → preserves R (bind m k).
Proof.
  intros Hm Hk s. unfold bind. specialize (Hm s).
  destruct (m s) as [s1 [a|?|?|]]; simpl in *; try done.
  etrans; [done|]. apply Hk.
Qed.

(** The continuation may use the state that [get] returned. *)
Lemma preserves_bind_get {B} (k : S → M S B) :
  (∀ s, R s (k s s).1) → preserves R (bind get k).
Proof. intros Hk s. apply Hk. Qed.

(** The same from one state, for a state that was read and is written back. *)
Lemma bind_at {A B} (m : M S A) (k : A → M S B) s :
  R s (m s).1 → (∀ a s1, m s = (s1, Ok a) → R s1 (k a s1).1) → R s (bind m k s).1.
Proof. intros Hm Hk. unfold bind. destruct (m s) as [s1 [a|?|?|]]; simpl in *; try done. etrans; [done|]. by apply Hk. Qed.

Lemma preserves_wrap {A} p (m : M S A) : preserves R m → preserves R (wrap p m).
Proof. intros Hm s. rewrite wrap_fst. apply Hm. Qed.

Lemma preserves_try {A} (m : M S A) : preserves R m → preserves R (try m).
Proof. intros Hm s. specialize (Hm s). unfold try. by destruct (m s) as [? []]. Qed.

Lemma preserves_mfor {A} (l : list A) (body : A → M S unit) :
  (∀ x, preserves R (body x)) → preserves R (mfor l body).
Proof.
  intros Hb. induction l as [|x l IH]; simpl; [apply preserves_ret|].
  by apply preserves_bind.
Qed.
End preserves.

(** A relation is preserved by a composite when it is by its parts: the parts that are not generic are
    found in [go_preserves]. *)
Ltac pres R := repeat first
  [ progress intros
  | solve [eauto 2 with go_preserves]
  | apply (preserves_ret R) | apply (preserves_fail R) | apply (preserves_panic R) | apply (preserves_lift R)
  | apply (preserves_get R)
  | apply (preserves_bind R)
  | apply (preserves_wrap R)
  | apply (preserves_try R)
  | match goal with
    | |- preserves _ (match ?x with _ => _ end) => destruct x
    | |- preserves _ (modify _) => intros ?; split_and!; reflexivity
    end ].

(** From one state to all states. *)
Ltac at_all R := match goal with |- R ?s (?m ?s).1 => change (R s (m s).1); revert s; change (preserves R m) end.

(** * Lemmas on sums and sorting *)

Lemma sumZ_perm {A} (f : A → Z) l1 l2 : l1 ≡ₚ l2 → sumZ f l1 = sumZ f l2.
Proof. induction 1; simpl; lia. Qed.

Lemma sumZ_ext {A} (f g : A → Z) l : (∀ a, a ∈ l → f a = g a) → sumZ f l = sumZ g l.
Proof.
  induction l as [|a l IH]; simpl; intros H; [done|].
  rewrite IH by set_solver. rewrite H by set_solver. done.
Qed.

Lemma sumZ_app {A} (f : A → Z) l1 l2 : sumZ f (l1 ++ l2) = sumZ f l1 + sumZ f l2.
Proof. induction l1; simpl; lia. Qed.

(** Changing one entry of a duplicate-free list changes the sum by the difference. *)
Lemma sumZ_update {A} (f g : A → Z) l a :
  NoDup l → a ∈ l → (∀ b, b ≠ a → f b = g b) → sumZ g l = sumZ f l + (g a - f a).
Proof.
  induction l as [|x l IH]; intros Hnd Hin Hext; [set_solver|]. simpl.
  apply NoDup_cons in Hnd as [Hx Hnd].
  apply elem_of_cons in Hin as [->|Hin].
  - rewrite (sumZ_ext g f l); [lia|]. intros b Hb. symmetry. apply Hext. set_solver.
  - rewrite (IH Hnd Hin Hext), (Hext x); [lia|set_solver].
Qed.

Lemma insert_by_perm {A} less (x : A) l : insert_by less x l ≡ₚ x :: l.
Proof.
  induction l as [|y l IH]; simpl; [done|]. case_match; [done|].
  rewrite IH. constructor.
Qed.

Lemma insertion_sort_perm {A} less (l : list A) : insertion_sort less l ≡ₚ l.
Proof. induction l as [|x l IH]; simpl; [done|]. by rewrite insert_by_perm, IH. Qed.

Lemma insert_by_sorted {A} less (x : A) l :
  transitive_on (x :: l) (sort_le less) →
  StronglySorted (sort_le less) l → StronglySorted (sort_le less) (insert_by less x l).
Proof.
  intros Htr. induction 1 as [|y l Hs IH Hy]; simpl; [repeat constructor|].
  destruct (less x y) eqn:E.
  - constructor; [by constructor|]. constructor; [by left|].
    apply Forall_forall. intros z Hz. rewrite Forall_forall in Hy.
    apply (Htr x y z); [set_solver..|by left|by apply Hy].
  - constructor.
    + apply IH. intros a b c ???. apply Htr; set_solver.
    + rewrite insert_by_perm. constructor; [by right|done].
Qed.

Lemma insertion_sort_sorted {A} less (l : list A) :
  transitive_on l (sort_le less) → StronglySorted (sort_le less) (insertion_sort less l).
Proof.
  induction l as [|x l IH]; simpl; intros Htr; [constructor|]. apply insert_by_sorted.
  - intros a b c. rewrite insertion_sort_perm. apply Htr.
  - apply IH. intros a b c ???. apply Htr; set_solver.
Qed.

Definition ref_runtime : GoRuntime := {|
  go_range := λ V m, map_to_list m;
  go_range_perm := λ V m, reflexivity _;
  go_sort := @insertion_sort;
  go_sort_perm := @insertion_sort_perm;
  go_sort_sorted := @insertion_sort_sorted;
|}.
