(* ===== verification/Lru.v ===== *)
(** The LRU cache of [simplelru], as the managers of transactions, ledgers and quorums use it: the entries,
    most recently used first. *)

From S2P Require Import Prelude.

Abbreviation lru V := (list (string * V)).

Definition lru_find {V} (k : string) (c : lru V) : option V := snd <$> List.find (λ e, bool_decide (e.1 = k)) c.
Definition lru_remove {V} (k : string) (c : lru V) : lru V := filter (λ e, e.1 ≠ k) c.

Definition lru_Get {V} (k : string) (c : lru V) : lru V * option V :=
  match lru_find k c with
  | Some v => ((k, v) :: lru_remove k c, Some v)
  | None => (c, None)
  end.

(** A cache with room for [n] entries drops the oldest one. *)
Definition lru_AddN {V} (n : nat) (k : string) (v : V) (c : lru V) : lru V :=
  match lru_find k c with
  | Some _ => (k, v) :: lru_remove k c
  | None => take n ((k, v) :: c)
  end.

(** The caches of the transaction and ledger managers have room for 100. *)
Definition lru_size : nat := 100.
Definition lru_Add {V} : string → V → lru V → lru V := lru_AddN lru_size.

(** * Lemmas *)

Lemma lru_find_cons {V} k k' (v : V) c : lru_find k ((k', v) :: c) = if decide (k' = k) then Some v else lru_find k c.
Proof. unfold lru_find. simpl. case_bool_decide; by case_decide. Qed.

Lemma lru_find_remove {V} k k' (c : lru V) : lru_find k (lru_remove k' c) = if decide (k = k') then None else lru_find k c.
Proof.
  unfold lru_remove. induction c as [|[k0 v0] c IH]; [by case_decide|].
  rewrite filter_cons. cbn [fst]. destruct (decide (k0 ≠ k')) as [H0|H0].
  - rewrite !lru_find_cons, IH. repeat case_decide; congruence.
  - rewrite IH, lru_find_cons. destruct (decide (k0 = k')) as [->|]; [|tauto].
    repeat case_decide; congruence.
Qed.

Lemma lru_find_take {V} k n (c : lru V) v : lru_find k (take n c) = Some v → lru_find k c = Some v.
Proof.
  revert n. induction c as [|[k0 v0] c IH]; intros [|n]; try done. cbn [take].
  rewrite !lru_find_cons. case_decide; [done|]. apply IH.
Qed.

(** The cache answers with what was last added, or with nothing. *)
Lemma lru_find_AddN {V} n k (v : V) c k' :
  lru_find k (lru_AddN (S n) k v c) = Some v ∧
  (k' ≠ k → ∀ w, lru_find k' (lru_AddN (S n) k v c) = Some w → lru_find k' c = Some w).
Proof.
  unfold lru_AddN. destruct (lru_find k c) eqn:E.
  - split; [by rewrite lru_find_cons, decide_True|]. intros Hne w.
    rewrite lru_find_cons, decide_False, lru_find_remove, decide_False by done. done.
  - split; [cbn [take]; by rewrite lru_find_cons, decide_True|].
    intros Hne w Hw%lru_find_take. by rewrite lru_find_cons, decide_False in Hw.
Qed.

Lemma lru_find_Add {V} k (v : V) c k' :
  lru_find k (lru_Add k v c) = Some v ∧
  (k' ≠ k → ∀ w, lru_find k' (lru_Add k v c) = Some w → lru_find k' c = Some w).
Proof. apply lru_find_AddN. Qed.

Lemma lru_find_Get {V} k (c : lru V) k' : lru_find k' (lru_Get k c).1 = lru_find k' c ∧ (lru_Get k c).2 = lru_find k c.
Proof.
  unfold lru_Get. destruct (lru_find k c) eqn:E; [|done]. simpl. split; [|done].
  rewrite lru_find_cons, lru_find_remove. repeat case_decide; congruence.
Qed.
