(* ===== verification/Pipeline.v ===== *)
(** The fan-out of requests over goroutines: [prepareTask], [runTask] and the merging of answers, which
    [rpc/broadcast.go] (notifications to peers) and [ledger/downloader.go] (missing ledgers) share.

    A producer offers the tasks on an unbuffered channel and closes it; [n] workers take tasks, call a peer
    and offer the answers on channels of their own, which they close; one multiplexer for each worker
    forwards the answers to the common channel, and a goroutine closes that one when the multiplexers are done; the
    caller ranges over it, then closes [done].  The state has one entry for each goroutine; a send meets its
    receive in one step, and any enabled goroutine may move next.

    The theorems hold for every interleaving: a run ends, nothing blocks for ever, every task is called exactly
    once, and the caller receives exactly the answers that are kept. *)

From S2P Require Import Prelude.
From stdpp Require Import relations.

(** * Goroutines *)

(** The goroutine of [prepareTask]: the tasks left to offer; the channel closed; or returned on [done]. *)
Inductive producer (T : Type) := Sending (l : list T) | ProdClosed | ProdStopped.
Arguments Sending {T} l.
Arguments ProdClosed {T}.
Arguments ProdStopped {T}.

(** A goroutine of [runTask]: waiting for a task, with a task, with an answer to offer, returned after closing its
    channel, returned on [done]. *)
Inductive worker (T R : Type) := WIdle | WTask (t : T) | WResp (r : R) | WClosed | WStopped.
Arguments WIdle {T R}.
Arguments WTask {T R} t.
Arguments WResp {T R} r.
Arguments WClosed {T R}.
Arguments WStopped {T R}.

(** A multiplexer: waiting, with an answer to forward, finished ([wg.Done]). *)
Inductive mux (R : Type) := MIdle | MHold (r : R) | MDone.
Arguments MIdle {R}.
Arguments MHold {R} r.
Arguments MDone {R}.

Record pipe (T R : Type) := mkPipe {
  p_prod : producer T;
  p_workers : list (worker T R);
  p_muxes : list (mux R);
  p_resultClosed : bool;
  p_done : bool;
  p_calls : list (T * R);      (** the calls made, with their answers *)
  p_received : list R;         (** what the caller has received *)
}.
Arguments mkPipe {T R}.
Arguments p_prod {T R}.
Arguments p_workers {T R}.
Arguments p_muxes {T R}.
Arguments p_resultClosed {T R}.
Arguments p_done {T R}.
Arguments p_calls {T R}.
Arguments p_received {T R}.

Definition pipe_init {T R} (n : nat) (tasks : list T) : pipe T R :=
  mkPipe (Sending tasks) (replicate n WIdle) (replicate n MIdle) false false [] [].

Section steps.
Context {T R : Type}.
(** [answers t r]: the call of task [t] may give [r].  [keep r]: a multiplexer forwards [r].  [watches]: the producer
    listens to [done]. *)
Variables (answers : T → R → Prop) (keep : R → bool) (watches : bool).

Inductive pipe_step : pipe T R → pipe T R → Prop :=
| step_take i t l W M rc d cs rs :
    W !! i = Some WIdle →
    pipe_step (mkPipe (Sending (t :: l)) W M rc d cs rs) (mkPipe (Sending l) (<[i := WTask t]> W) M rc d cs rs)
| step_close_tasks W M rc d cs rs :
    pipe_step (mkPipe (Sending []) W M rc d cs rs) (mkPipe ProdClosed W M rc d cs rs)
| step_call i t r P W M rc d cs rs :
    W !! i = Some (WTask t) → answers t r →
    pipe_step (mkPipe P W M rc d cs rs) (mkPipe P (<[i := WResp r]> W) M rc d (cs ++ [(t, r)]) rs)
| step_pass i r P W M rc d cs rs :
    W !! i = Some (WResp r) → M !! i = Some MIdle →
    pipe_step (mkPipe P W M rc d cs rs)
      (mkPipe P (<[i := WIdle]> W) (<[i := if keep r then MHold r else MIdle]> M) rc d cs rs)
| step_worker_exit i W M rc d cs rs :
    W !! i = Some WIdle →
    pipe_step (mkPipe ProdClosed W M rc d cs rs) (mkPipe ProdClosed (<[i := WClosed]> W) M rc d cs rs)
| step_deliver i r P W M rc cs rs :
    M !! i = Some (MHold r) →
    pipe_step (mkPipe P W M rc false cs rs) (mkPipe P W (<[i := MIdle]> M) rc false cs (rs ++ [r]))
| step_mux_exit i P W M rc d cs rs :
    W !! i = Some WClosed → M !! i = Some MIdle →
    pipe_step (mkPipe P W M rc d cs rs) (mkPipe P W (<[i := MDone]> M) rc d cs rs)
| step_close_result P W M d cs rs :
    Forall (λ m, m = MDone) M →
    pipe_step (mkPipe P W M false d cs rs) (mkPipe P W M true d cs rs)
| step_finish P W M cs rs :
    pipe_step (mkPipe P W M true false cs rs) (mkPipe P W M true true cs rs)
| step_stop_producer t l W M rc cs rs :
    watches = true →
    pipe_step (mkPipe (Sending (t :: l)) W M rc true cs rs) (mkPipe ProdStopped W M rc true cs rs)
| step_stop_worker i r P W M rc cs rs :
    W !! i = Some (WResp r) →
    pipe_step (mkPipe P W M rc true cs rs) (mkPipe P (<[i := WStopped]> W) M rc true cs rs)
| step_stop_mux i r P W M rc cs rs :
    M !! i = Some (MHold r) →
    pipe_step (mkPipe P W M rc true cs rs) (mkPipe P W (<[i := MDone]> M) rc true cs rs).

(** * Termination *)

Definition prod_weight (p : producer T) : nat := match p with Sending l => S (5 * length l) | _ => 0 end.
Definition worker_weight (w : worker T R) : nat := match w with WIdle => 1 | WTask _ => 5 | WResp _ => 4 | _ => 0 end.
Definition mux_weight (m : mux R) : nat := match m with MIdle => 1 | MHold _ => 3 | MDone => 0 end.
Definition flag_weight (b : bool) : nat := if b then 0 else 1.

Definition pipe_weight (s : pipe T R) : nat :=
  prod_weight (p_prod s) + sum_list_with worker_weight (p_workers s) + sum_list_with mux_weight (p_muxes s)
  + flag_weight (p_resultClosed s) + flag_weight (p_done s).

Lemma sum_list_with_insert {A} (f : A → nat) l i a b :
  l !! i = Some a → (sum_list_with f (<[i := b]> l) + f a = sum_list_with f l + f b)%nat.
Proof.
  revert i. induction l as [|x l IH]; intros [|i]; simpl; try done; [intros [= ->]; lia|].
  intros H. specialize (IH _ H). lia.
Qed.

Lemma pipe_step_weight s s' : pipe_step s s' → (pipe_weight s' < pipe_weight s)%nat.
Proof.
  destruct 1; unfold pipe_weight; simpl;
    repeat match goal with
    | H : ?l !! ?i = Some _ |- context [sum_list_with ?f (<[?i := ?b]> ?l)] =>
        let E := fresh in pose proof (sum_list_with_insert f l i _ b H) as E; simpl in E;
        generalize dependent (sum_list_with f (<[i := b]> l)); intros
    end; try destruct (keep r); simpl in *; lia.
Qed.

Lemma pipe_run_bounded k s s' : nsteps pipe_step k s s' → (k + pipe_weight s' <= pipe_weight s)%nat.
Proof. induction 1 as [|k s1 s2 s3 H%pipe_step_weight _ IH]; lia. Qed.

Lemma pipe_init_weight n tasks : pipe_weight (pipe_init n tasks) = (5 * length tasks + 2 * n + 3)%nat.
Proof.
  unfold pipe_weight, pipe_init. simpl.
  assert (∀ A (f : A → nat) x, f x = 1%nat → sum_list_with f (replicate n x) = n) as Hr.
  { intros A f x Hx. induction n as [|m IH]; simpl; [done|]. by rewrite IH, Hx. }
  rewrite !Hr by done. lia.
Qed.

End steps.

(** * The invariant *)

Section invariant.
Context {T R : Type} (answers : T → R → Prop) (keep : R → bool) (watches : bool).
Context (n : nat) (tasks : list T) (Hn : n = 0%nat → tasks = []).
Abbreviation step := (pipe_step answers keep watches).
Abbreviation kept := (filter (λ r, keep r = true)).

Definition prod_tasks (p : producer T) : list T := match p with Sending l => l | _ => [] end.
Definition w_tasks (w : worker T R) : list T := match w with WTask t => [t] | _ => [] end.
Definition w_resps (w : worker T R) : list R := match w with WResp r => [r] | _ => [] end.
Definition m_held (m : mux R) : list R := match m with MHold r => [r] | _ => [] end.

(** Every task is in one place, and so is every answer that is kept; goroutines end in order. *)
Record pipe_inv (s : pipe T R) : Prop := {
  pi_workers : length (p_workers s) = n;
  pi_muxes : length (p_muxes s) = n;
  pi_tasks : tasks ≡ₚ (p_calls s).*1 ++ (p_workers s ≫= w_tasks) ++ prod_tasks (p_prod s);
  pi_answers : Forall (λ c, answers c.1 c.2) (p_calls s);
  pi_resps : kept (p_calls s).*2 ≡ₚ p_received s ++ (p_muxes s ≫= m_held) ++ kept (p_workers s ≫= w_resps);
  pi_prod : p_prod s ≠ ProdStopped;
  pi_closed : ∀ i, p_workers s !! i = Some WClosed → p_prod s = ProdClosed;
  pi_live : ∀ i, p_workers s !! i ≠ Some WStopped;
  pi_mdone : ∀ i, p_muxes s !! i = Some MDone → p_workers s !! i = Some WClosed;
  pi_result : p_resultClosed s = true → Forall (λ m, m = MDone) (p_muxes s);
  pi_done : p_done s = true → p_resultClosed s = true;
}.

(** Changing one entry of a list changes its concatenation by that entry. *)
Lemma mbind_insert {A B} (g : A → list B) l i a b :
  l !! i = Some a → (<[i := b]> l ≫= g) ++ g a ≡ₚ (l ≫= g) ++ g b.
Proof.
  revert i. induction l as [|x l IH]; intros [|i]; try done.
  - intros [= ->]. cbn. rewrite <-!app_assoc. rewrite (Permutation_app_comm (g b)), <-app_assoc.
    by rewrite Permutation_app_comm, <-app_assoc, (Permutation_app_comm (g b)).
  - intros H. cbn. rewrite <-!app_assoc. by apply Permutation_app_head, IH.
Qed.

Lemma mbind_replicate_nil {A B} (g : A → list B) k x : g x = [] → replicate k x ≫= g = [].
Proof. intros Hx. induction k as [|k IH]; [done|]. cbn. by rewrite Hx. Qed.

Lemma pipe_inv_init : pipe_inv (pipe_init n tasks).
Proof.
  split; simpl; rewrite ?length_replicate, ?mbind_replicate_nil by done; try done.
  - intros i [? _]%lookup_replicate. done.
  - intros i [? _]%lookup_replicate. done.
  - intros i [? _]%lookup_replicate. done.
Qed.

(** The goroutines of a finished pipeline have ended. *)
Lemma pipe_inv_done s i : pipe_inv s → p_done s = true → (i < n)%nat →
  p_muxes s !! i = Some MDone ∧ p_workers s !! i = Some WClosed.
Proof.
  intros Hs Hd Hi. pose proof (pi_result s Hs (pi_done s Hs Hd)) as Ha.
  destruct (lookup_lt_is_Some_2 (p_muxes s) i) as [m Hm]; [by rewrite (pi_muxes s Hs)|].
  rewrite Forall_lookup in Ha. rewrite (Ha _ _ Hm) in Hm. split; [done|]. by apply (pi_mdone s Hs).
Qed.

Lemma pipe_inv_idle s i : pipe_inv s → p_done s = true → p_workers s !! i = Some WClosed ∨ (n <= i)%nat.
Proof. intros Hs Hd. destruct (decide (i < n)%nat); [left; by apply pipe_inv_done|right; lia]. Qed.

(** One worker moves. *)
Lemma pipe_inv_worker s i a b P cs :
  pipe_inv s → p_workers s !! i = Some a → a ≠ WClosed → b ≠ WStopped → (b = WClosed → P = ProdClosed) →
  P ≠ ProdStopped → (p_prod s = ProdClosed → P = ProdClosed) → Forall (λ c, answers c.1 c.2) cs →
  tasks ≡ₚ cs.*1 ++ (<[i := b]> (p_workers s) ≫= w_tasks) ++ prod_tasks P →
  kept cs.*2 ≡ₚ p_received s ++ (p_muxes s ≫= m_held) ++ kept (<[i := b]> (p_workers s) ≫= w_resps) →
  pipe_inv (mkPipe P (<[i := b]> (p_workers s)) (p_muxes s) (p_resultClosed s) (p_done s) cs (p_received s)).
Proof.
  intros Hs Hi Ha Hb Hbc HP HPc Hcs Ht Hr. pose proof (lookup_lt_Some _ _ _ Hi) as Hlt. destruct Hs. split; simpl; try done.
  - by rewrite length_insert.
  - intros j [(<- & -> & _)|[_ Hj]]%list_lookup_insert_Some; eauto.
  - intros j [(<- & -> & _)|[_ Hj]]%list_lookup_insert_Some; [done|by eapply pi_live0].
  - intros j Hj%pi_mdone0. destruct (decide (i = j)) as [<-|]; [congruence|]. by rewrite list_lookup_insert_ne.
Qed.

(** One multiplexer moves. *)
Lemma pipe_inv_mux s i a b rs :
  pipe_inv s → p_muxes s !! i = Some a → a ≠ MDone → (b = MDone → p_workers s !! i = Some WClosed) →
  kept (p_calls s).*2 ≡ₚ rs ++ (<[i := b]> (p_muxes s) ≫= m_held) ++ kept (p_workers s ≫= w_resps) →
  pipe_inv (mkPipe (p_prod s) (p_workers s) (<[i := b]> (p_muxes s)) (p_resultClosed s) (p_done s) (p_calls s) rs).
Proof.
  intros Hs Hi Ha Hb Hr. pose proof (lookup_lt_Some _ _ _ Hi) as Hlt. destruct Hs. split; simpl; try done.
  - by rewrite length_insert.
  - intros j [(<- & -> & _)|[_ Hj]]%list_lookup_insert_Some; eauto.
  - intros Hrc%pi_result0. rewrite Forall_lookup in Hrc. by apply Hrc in Hi.
Qed.

Lemma pipe_inv_take i t l W M rc d cs rs :
  pipe_inv (mkPipe (Sending (t :: l)) W M rc d cs rs) → W !! i = Some WIdle →
  pipe_inv (mkPipe (Sending l) (<[i := WTask t]> W) M rc d cs rs).
Proof.
  intros Hs Hi. apply (pipe_inv_worker _ i WIdle (WTask t) (Sending l) cs Hs); try done; try apply Hs.
  - pose proof (pi_tasks _ Hs) as Ht. simpl in *.
    pose proof (mbind_insert w_tasks W i _ (WTask t) Hi) as Hp. simpl in Hp. rewrite app_nil_r in Hp.
    by rewrite Hp, <-app_assoc.
  - pose proof (pi_resps _ Hs) as Hr. simpl in *.
    pose proof (mbind_insert w_resps W i _ (WTask t) Hi) as Hp. simpl in Hp. rewrite !app_nil_r in Hp. by rewrite Hp.
Qed.

Lemma pipe_inv_call i t r P W M rc d cs rs :
  pipe_inv (mkPipe P W M rc d cs rs) → W !! i = Some (WTask t) → answers t r →
  pipe_inv (mkPipe P (<[i := WResp r]> W) M rc d (cs ++ [(t, r)]) rs).
Proof.
  intros Hs Hi Ha. apply (pipe_inv_worker _ i (WTask t) (WResp r) P (cs ++ [(t, r)]) Hs); try done; try apply Hs.
  - apply Forall_app. split; [apply Hs|by apply Forall_singleton].
  - pose proof (pi_tasks _ Hs) as Ht. simpl in *.
    pose proof (mbind_insert w_tasks W i _ (WResp r) Hi) as Hp. simpl in Hp. rewrite app_nil_r in Hp.
    rewrite fmap_app, Ht, <-Hp, <-!app_assoc. apply Permutation_app_head. simpl. by rewrite <-Permutation_middle.
  - pose proof (pi_resps _ Hs) as Hr. simpl in *.
    pose proof (mbind_insert w_resps W i _ (WResp r) Hi) as Hp. simpl in Hp. rewrite app_nil_r in Hp.
    by rewrite fmap_app, filter_app, Hr, Hp, filter_app, <-!app_assoc.
Qed.

Lemma pipe_inv_pass i r P W M rc d cs rs :
  pipe_inv (mkPipe P W M rc d cs rs) → W !! i = Some (WResp r) → M !! i = Some MIdle →
  pipe_inv (mkPipe P (<[i := WIdle]> W) (<[i := if keep r then MHold r else MIdle]> M) rc d cs rs).
Proof.
  intros Hs Hi Hm. pose proof (lookup_lt_Some _ _ _ Hm) as Hlt. pose proof (pi_tasks _ Hs) as Ht. pose proof (pi_resps _ Hs) as Hr.
  pose proof (mbind_insert w_tasks W i _ WIdle Hi) as Hpt. pose proof (mbind_insert w_resps W i _ WIdle Hi) as Hpr.
  pose proof (mbind_insert m_held M i _ (if keep r then MHold r else MIdle) Hm) as Hpm.
  simpl in *. rewrite !app_nil_r in *.
  destruct Hs; simpl in *. split; simpl; rewrite ?length_insert; try done.
  - by rewrite Hpt.
  - rewrite Hr, <-Hpr, Hpm, filter_app, <-!app_assoc. apply Permutation_app_head, Permutation_app_head.
    destruct (keep r) eqn:Hk; simpl; rewrite filter_cons, Hk; simpl; [|by rewrite app_nil_r].
    by rewrite Permutation_app_comm.
  - intros j [(<- & ? & _)|[_ Hj]]%list_lookup_insert_Some; eauto. done.
  - intros j [(<- & ? & _)|[_ Hj]]%list_lookup_insert_Some; [done|]. by eapply pi_live0.
  - intros j [(<- & ? & _)|[? Hj]]%list_lookup_insert_Some; [by destruct (keep r)|].
    rewrite list_lookup_insert_ne by done. eauto.
  - intros Hrc%pi_result0. rewrite Forall_lookup in Hrc. by apply Hrc in Hm.
Qed.

Lemma pipe_inv_deliver i r P W M rc d cs rs :
  pipe_inv (mkPipe P W M rc d cs rs) → M !! i = Some (MHold r) →
  pipe_inv (mkPipe P W (<[i := MIdle]> M) rc d cs (rs ++ [r])).
Proof.
  intros Hs Hi. apply (pipe_inv_mux _ i (MHold r) MIdle (rs ++ [r]) Hs); try done. simpl.
  pose proof (pi_resps _ Hs) as Hr. pose proof (mbind_insert m_held M i _ MIdle Hi) as Hp. simpl in *.
  rewrite app_nil_r in Hp. rewrite Hr, <-Hp, <-!app_assoc. apply Permutation_app_head.
  simpl. by rewrite <-Permutation_middle.
Qed.

Lemma pipe_inv_mux_exit i P W M rc d cs rs :
  pipe_inv (mkPipe P W M rc d cs rs) → W !! i = Some WClosed → M !! i = Some MIdle →
  pipe_inv (mkPipe P W (<[i := MDone]> M) rc d cs rs).
Proof.
  intros Hs Hw Hi. apply (pipe_inv_mux _ i MIdle MDone rs Hs); try done. simpl.
  pose proof (pi_resps _ Hs) as Hr. pose proof (mbind_insert m_held M i _ MDone Hi) as Hp. simpl in *.
  rewrite !app_nil_r in Hp. by rewrite Hp.
Qed.

Lemma pipe_inv_worker_exit i W M rc d cs rs :
  pipe_inv (mkPipe ProdClosed W M rc d cs rs) → W !! i = Some WIdle →
  pipe_inv (mkPipe ProdClosed (<[i := WClosed]> W) M rc d cs rs).
Proof.
  intros Hs Hi. apply (pipe_inv_worker _ i WIdle WClosed ProdClosed cs Hs); try done; try apply Hs.
  - pose proof (pi_tasks _ Hs) as Ht. pose proof (mbind_insert w_tasks W i _ WClosed Hi) as Hp. simpl in *.
    rewrite !app_nil_r in Hp. by rewrite Hp.
  - pose proof (pi_resps _ Hs) as Hr. pose proof (mbind_insert w_resps W i _ WClosed Hi) as Hp. simpl in *.
    rewrite !app_nil_r in Hp. by rewrite Hp.
Qed.

Lemma pipe_inv_step s s' : pipe_inv s → step s s' → pipe_inv s'.
Proof.
  intros Hs Hst. destruct Hst; eauto using pipe_inv_take, pipe_inv_call, pipe_inv_pass, pipe_inv_worker_exit, pipe_inv_deliver,
    pipe_inv_mux_exit.
  - by destruct Hs; split.
  - by destruct Hs; split.
  - by destruct Hs; split.
  - exfalso. destruct (decide (n = 0%nat)) as [E|].
    + pose proof (pi_tasks _ Hs) as Ht. rewrite (Hn E) in Ht. simpl in Ht.
      apply Permutation_length in Ht. rewrite !length_app in Ht. simpl in Ht. lia.
    + destruct (pipe_inv_done _ 0 Hs eq_refl) as [_ Hw]; [lia|]. by apply (pi_closed _ Hs) in Hw.
  - exfalso. destruct (pipe_inv_idle _ i Hs eq_refl) as [Hw|Hge]; simpl in *; [congruence|].
    apply lookup_lt_Some in H. pose proof (pi_workers _ Hs). simpl in *. lia.
  - exfalso. pose proof (pi_muxes _ Hs). pose proof (lookup_lt_Some _ _ _ H). simpl in *.
    destruct (pipe_inv_done _ i Hs eq_refl) as [Hw _]; [lia|]. simpl in *. congruence.
Qed.

(** ** Where nothing can move *)

Section stuck.
Context (Htotal : ∀ t, ∃ r, answers t r) (s : pipe T R) (Hs : pipe_inv s) (Hnf : nf step s).

Lemma no_step s' : ¬ step s s'.
Proof. intros H. apply Hnf. by exists s'. Qed.

Lemma stuck_mux i r : p_muxes s !! i ≠ Some (MHold r).
Proof.
  intros Hi. destruct (p_done s) eqn:Hd.
  - pose proof (lookup_lt_Some _ _ _ Hi) as Hlt. rewrite (pi_muxes s Hs) in Hlt.
    destruct (pipe_inv_done s i Hs Hd Hlt) as [? _]. congruence.
  - pose proof no_step as Hno. destruct s. simpl in *. subst. eapply Hno, step_deliver. exact Hi.
Qed.

(** A worker still alive waits for a task. *)
Lemma stuck_worker i w : p_workers s !! i = Some w → w = WIdle ∨ w = WClosed.
Proof.
  intros Hi. pose proof (lookup_lt_Some _ _ _ Hi) as Hlt. rewrite (pi_workers s Hs), <-(pi_muxes s Hs) in Hlt.
  apply lookup_lt_is_Some_2 in Hlt as [m Hm]. destruct w as [|t|r| |]; [by left| | |by right|by apply (pi_live s Hs) in Hi].
  - exfalso. destruct (Htotal t) as [r Hr]. pose proof no_step as Hno. destruct s. simpl in *. eapply Hno, step_call; [exact Hi|exact Hr].
  - exfalso. destruct m as [|r'|].
    + pose proof no_step as Hno. destruct s. simpl in *. eapply Hno, step_pass; [exact Hi|exact Hm].
    + by apply stuck_mux in Hm.
    + apply (pi_mdone s Hs) in Hm. congruence.
Qed.

Lemma stuck_producer : p_prod s = ProdClosed.
Proof.
  destruct (p_prod s) as [[|t l]| |] eqn:HP; [exfalso| |done|by apply (pi_prod s Hs) in HP].
  - pose proof no_step as Hno. destruct s. simpl in *. subst. eapply Hno, step_close_tasks.
  - exfalso. destruct (decide (n = 0%nat)) as [E|].
    + pose proof (pi_tasks s Hs) as Ht. rewrite (Hn E), HP in Ht. apply Permutation_length in Ht. rewrite !length_app in Ht. simpl in Ht. lia.
    + destruct (lookup_lt_is_Some_2 (p_workers s) 0) as [w Hw]; [rewrite (pi_workers s Hs); lia|].
      destruct (stuck_worker 0 w Hw) as [->| ->].
      * pose proof no_step as Hno. destruct s. simpl in *. subst. eapply Hno, step_take. exact Hw.
      * apply (pi_closed s Hs) in Hw. congruence.
Qed.

Lemma stuck_closed i w : p_workers s !! i = Some w → w = WClosed.
Proof.
  intros Hi. destruct (stuck_worker i w Hi) as [->|]; [exfalso|done]. pose proof stuck_producer as HP.
  pose proof no_step as Hno. destruct s. simpl in *. subst. eapply Hno, step_worker_exit. exact Hi.
Qed.

Lemma stuck_mdone i m : p_muxes s !! i = Some m → m = MDone.
Proof.
  intros Hi. destruct m as [|r|]; [exfalso|by apply stuck_mux in Hi|done].
  pose proof (lookup_lt_Some _ _ _ Hi) as Hlt. rewrite (pi_muxes s Hs), <-(pi_workers s Hs) in Hlt.
  apply lookup_lt_is_Some_2 in Hlt as [w Hw]. pose proof (stuck_closed i w Hw) as ->.
  pose proof no_step as Hno. destruct s. simpl in *. eapply Hno, step_mux_exit; [exact Hw|exact Hi].
Qed.

Lemma stuck_done : p_done s = true.
Proof.
  assert (Forall (λ m, m = MDone) (p_muxes s)) as Ha by (apply Forall_lookup; apply stuck_mdone).
  pose proof no_step as Hno. destruct s as [P W M rc d cs rs]. simpl in *. destruct d; [done|exfalso]. destruct rc.
  - eapply Hno, step_finish.
  - eapply Hno, step_close_result. exact Ha.
Qed.

End stuck.

Lemma mbind_all_nil {A B} (g : A → list B) l : (∀ i x, l !! i = Some x → g x = []) → l ≫= g = [].
Proof.
  induction l as [|x l IH]; [done|]. intros H. cbn. rewrite (H 0%nat x) by done. apply IH. intros i y Hy. by apply (H (S i)).
Qed.

(** A run that cannot go on has finished its work. *)
Lemma pipe_stuck_final s :
  (∀ t, ∃ r, answers t r) → pipe_inv s → nf step s →
  p_done s = true ∧ p_prod s = ProdClosed ∧ Forall (λ w, w = WClosed) (p_workers s) ∧
  (p_calls s).*1 ≡ₚ tasks ∧ p_received s ≡ₚ kept (p_calls s).*2 ∧ Forall (λ c, answers c.1 c.2) (p_calls s).
Proof.
  intros Hto Hs Hnf. pose proof (stuck_producer Hto s Hs Hnf) as HP.
  pose proof (pi_tasks s Hs) as Ht. pose proof (pi_resps s Hs) as Hr.
  assert (∀ (B : Type) (g : worker T R → list B), g WClosed = [] → p_workers s ≫= g = []) as Hw.
  { intros B g Hg. apply mbind_all_nil. intros i w Hi. by rewrite (stuck_closed Hto s Hs Hnf i w Hi). }
  assert (p_muxes s ≫= m_held = []) as Hm.
  { apply mbind_all_nil. intros i m Hi. by rewrite (stuck_mdone Hto s Hs Hnf i m Hi). }
  rewrite HP, Hw in Ht by done. rewrite Hm, Hw in Hr by done. simpl in *. rewrite app_nil_r in Ht, Hr.
  split_and!; [by apply stuck_done|done| |done|done|apply Hs].
  apply Forall_lookup. by apply stuck_closed.
Qed.

Lemma pipe_inv_reachable s : rtc step (pipe_init n tasks) s → pipe_inv s.
Proof.
  generalize pipe_inv_init. generalize (pipe_init (T:=T) (R:=R) n tasks). intros s0 H0 Hst.
  induction Hst as [|s1 s2 s3 H12 _ IH]; [done|]. by eapply IH, pipe_inv_step.
Qed.

End invariant.
