(* ===== verification/Pb.v ===== *)
(** The protocol-buffer messages of [ultpb] (and [rpcpb.TxStatus]) and their codec.

    A message is a record with the fields of the generated Go struct; a pointer field is an
    [option], a [repeated] field a list, a proto3 enum an inductive type with one constructor for
    the numbers the [.proto] file does not name.  [proto.Marshal] and [proto.Unmarshal] are a
    parameter, the class [Codec]: what the code relies on is that decoding what was encoded gives
    the message back.  [ref_codec] is a concrete instance. *)

From Stdlib Require Import Ascii.
From S2P Require Import Prelude.

(** * Messages *)

Inductive AssetType := NATIVE | CUSTOM | AssetType_other (n : Z).

Record Asset := mkAsset {
  ast_AssetType : AssetType;
  ast_AssetName : string;
  ast_Issuer : string;
}.

Record Liability := mkLiability { lb_Buying : Z; lb_Selling : Z }.

Record Account := mkAccount {
  acc_AccountID : string;
  acc_Balance : Z;
  acc_Signer : string;
  acc_SeqNum : Z;
  acc_EntryCount : Z;
  acc_TxKeyList : list string;
  acc_Liability : option Liability;
}.

Record Trust := mkTrust {
  tst_AccountID : string;
  tst_Asset : option Asset;
  tst_Balance : Z;
  tst_Limit : Z;
  tst_Liability : option Liability;
  tst_Authorized : Z;
}.

Record Price := mkPrice { pr_Numerator : Z; pr_Denominator : Z }.

Record Offer := mkOffer {
  of_AccountID : string;
  of_OfferID : string;
  of_SellAsset : option Asset;
  of_BuyAsset : option Asset;
  of_Amount : Z;
  of_Price : option Price;
  of_Passive : Z;
}.

Inductive OpType :=
| OpType_CREATE_ACCOUNT
| OpType_PAYMENT
| OpType_PATH_PAYMENT
| OpType_TRUST
| OpType_other (n : Z).

Record CreateAccountOp := mkCreateAccountOp { cao_AccountID : string; cao_Balance : Z }.

Record PaymentOp := mkPaymentOp {
  po_AccountID : string;
  po_Asset : option Asset;
  po_Amount : Z;
}.

Record PathPaymentOp := mkPathPaymentOp {
  ppo_SrcAsset : option Asset;
  ppo_SrcAmount : Z;
  ppo_AccountID : string;
  ppo_DstAsset : option Asset;
  ppo_Path : list Asset;
}.

Record TrustOp := mkTrustOp { to_Asset : option Asset; to_Limit : Z }.

(** The [oneof] of [Op]. *)
Inductive OpBody :=
| Op_CreateAccount (o : CreateAccountOp)
| Op_Payment (o : PaymentOp)
| Op_PathPayment (o : PathPaymentOp)
| Op_Trust (o : TrustOp).

Record Op := mkOp { op_OpType : OpType; op_Op : option OpBody }.

Record Tx := mkTx {
  tx_AccountID : string;
  tx_Fee : Z;
  tx_Note : string;
  tx_SeqNum : Z;
  tx_OpList : list Op;
}.

Record TxSet := mkTxSet { ts_PrevLedgerHash : string; ts_TxList : list Tx }.

Record ConsensusValue := mkConsensusValue { cv_TxSetHash : string; cv_ProposeTime : Z }.

Record LedgerHeader := mkLedgerHeader {
  lh_Version : Z;
  lh_PrevLedgerHash : string;
  lh_TxSetHash : string;
  lh_ConsensusValue : string;
  lh_MaxTxListSize : Z;
  lh_SeqNum : Z;
  lh_TotalTokens : Z;
  lh_BaseFee : Z;
  lh_BaseReserve : Z;
}.

Record Ledger := mkLedger { l_LedgerHeader : option LedgerHeader; l_TxSet : option TxSet }.

Record LedgerCheckpoint := mkLedgerCheckpoint {
  ck_LastCloseTime : Z;
  ck_LedgerHeaderCount : Z;
  ck_LargestConsensusIndex : Z;
  ck_PrevLedgerHeader : option LedgerHeader;
  ck_PrevLedgerHeaderHash : string;
  ck_CurrLedgerHeader : option LedgerHeader;
  ck_CurrLedgerHeaderHash : string;
}.

Inductive TxStatusCode := NOTEXIST | REJECTED | ACCEPTED | CONFIRMED | FAILED | TxStatusCode_other (n : Z).

Record TxStatus := mkTxStatus {
  st_StatusCode : TxStatusCode;
  st_ErrorMessage : string;
  st_Data : string;
}.

(** Field updates, for [acc.Balance = ...] and the like. *)
Definition set_acc_Balance (b : Z) (a : Account) : Account :=
  mkAccount (acc_AccountID a) b (acc_Signer a) (acc_SeqNum a) (acc_EntryCount a)
    (acc_TxKeyList a) (acc_Liability a).
Definition set_acc_SeqNum (n : Z) (a : Account) : Account :=
  mkAccount (acc_AccountID a) (acc_Balance a) (acc_Signer a) n (acc_EntryCount a)
    (acc_TxKeyList a) (acc_Liability a).
Definition set_acc_EntryCount (n : Z) (a : Account) : Account :=
  mkAccount (acc_AccountID a) (acc_Balance a) (acc_Signer a) (acc_SeqNum a) n
    (acc_TxKeyList a) (acc_Liability a).
Definition set_acc_Liability (l : option Liability) (a : Account) : Account :=
  mkAccount (acc_AccountID a) (acc_Balance a) (acc_Signer a) (acc_SeqNum a) (acc_EntryCount a)
    (acc_TxKeyList a) l.
Definition set_tst_Balance (b : Z) (t : Trust) : Trust :=
  mkTrust (tst_AccountID t) (tst_Asset t) b (tst_Limit t) (tst_Liability t) (tst_Authorized t).
Definition set_tst_Limit (l : Z) (t : Trust) : Trust :=
  mkTrust (tst_AccountID t) (tst_Asset t) (tst_Balance t) l (tst_Liability t) (tst_Authorized t).
Definition set_tst_Liability (l : option Liability) (t : Trust) : Trust :=
  mkTrust (tst_AccountID t) (tst_Asset t) (tst_Balance t) (tst_Limit t) l (tst_Authorized t).
Definition set_lb_Buying (b : Z) (l : Liability) : Liability := mkLiability b (lb_Selling l).
Definition set_lb_Selling (b : Z) (l : Liability) : Liability := mkLiability (lb_Buying l) b.
Definition set_of_Amount (n : Z) (o : Offer) : Offer :=
  mkOffer (of_AccountID o) (of_OfferID o) (of_SellAsset o) (of_BuyAsset o) n (of_Price o) (of_Passive o).
Definition set_of_OfferID (id : string) (o : Offer) : Offer :=
  mkOffer (of_AccountID o) id (of_SellAsset o) (of_BuyAsset o) (of_Amount o) (of_Price o) (of_Passive o).

(** * Decidable equality and countability *)

#[global] Instance AssetType_eq_dec : EqDecision AssetType.
Proof. solve_decision. Defined.
#[global] Instance Asset_eq_dec : EqDecision Asset.
Proof. solve_decision. Defined.
#[global] Instance Liability_eq_dec : EqDecision Liability.
Proof. solve_decision. Defined.
#[global] Instance Account_eq_dec : EqDecision Account.
Proof. solve_decision. Defined.
#[global] Instance Trust_eq_dec : EqDecision Trust.
Proof. solve_decision. Defined.
#[global] Instance Price_eq_dec : EqDecision Price.
Proof. solve_decision. Defined.
#[global] Instance Offer_eq_dec : EqDecision Offer.
Proof. solve_decision. Defined.
#[global] Instance OpType_eq_dec : EqDecision OpType.
Proof. solve_decision. Defined.
#[global] Instance CreateAccountOp_eq_dec : EqDecision CreateAccountOp.
Proof. solve_decision. Defined.
#[global] Instance PaymentOp_eq_dec : EqDecision PaymentOp.
Proof. solve_decision. Defined.
#[global] Instance PathPaymentOp_eq_dec : EqDecision PathPaymentOp.
Proof. solve_decision. Defined.
#[global] Instance TrustOp_eq_dec : EqDecision TrustOp.
Proof. solve_decision. Defined.
#[global] Instance OpBody_eq_dec : EqDecision OpBody.
Proof. solve_decision. Defined.
#[global] Instance Op_eq_dec : EqDecision Op.
Proof. solve_decision. Defined.
#[global] Instance Tx_eq_dec : EqDecision Tx.
Proof. solve_decision. Defined.
#[global] Instance TxSet_eq_dec : EqDecision TxSet.
Proof. solve_decision. Defined.
#[global] Instance ConsensusValue_eq_dec : EqDecision ConsensusValue.
Proof. solve_decision. Defined.
#[global] Instance LedgerHeader_eq_dec : EqDecision LedgerHeader.
Proof. solve_decision. Defined.
#[global] Instance Ledger_eq_dec : EqDecision Ledger.
Proof. solve_decision. Defined.
#[global] Instance LedgerCheckpoint_eq_dec : EqDecision LedgerCheckpoint.
Proof. solve_decision. Defined.
#[global] Instance TxStatusCode_eq_dec : EqDecision TxStatusCode.
Proof. solve_decision. Defined.
#[global] Instance TxStatus_eq_dec : EqDecision TxStatus.
Proof. solve_decision. Defined.

#[global] Program Instance AssetType_countable : Countable AssetType :=
  inj_countable' (λ a, match a with NATIVE => inl false | CUSTOM => inl true | AssetType_other n => inr n end)
    (λ a, match a with inl false => NATIVE | inl true => CUSTOM | inr n => AssetType_other n end) _.
Next Obligation. by intros []. Qed.
#[global] Program Instance Asset_countable : Countable Asset :=
  inj_countable' (λ a, (ast_AssetType a, ast_AssetName a, ast_Issuer a))
    (λ '(t, n, i), mkAsset t n i) _.
Next Obligation. by intros []. Qed.
#[global] Program Instance Liability_countable : Countable Liability :=
  inj_countable' (λ a, (lb_Buying a, lb_Selling a)) (λ '(b, s), mkLiability b s) _.
Next Obligation. by intros []. Qed.
#[global] Program Instance Account_countable : Countable Account :=
  inj_countable' (λ a, (acc_AccountID a, acc_Balance a, acc_Signer a, acc_SeqNum a, acc_EntryCount a,
      acc_TxKeyList a, acc_Liability a))
    (λ '(i, b, s, q, e, t, l), mkAccount i b s q e t l) _.
Next Obligation. by intros []. Qed.
#[global] Program Instance Trust_countable : Countable Trust :=
  inj_countable' (λ t, (tst_AccountID t, tst_Asset t, tst_Balance t, tst_Limit t, tst_Liability t, tst_Authorized t))
    (λ '(i, a, b, l, lb, u), mkTrust i a b l lb u) _.
Next Obligation. by intros []. Qed.
#[global] Program Instance Price_countable : Countable Price :=
  inj_countable' (λ a, (pr_Numerator a, pr_Denominator a)) (λ '(b, s), mkPrice b s) _.
Next Obligation. by intros []. Qed.
#[global] Program Instance Offer_countable : Countable Offer :=
  inj_countable' (λ o, (of_AccountID o, of_OfferID o, of_SellAsset o, of_BuyAsset o, of_Amount o, of_Price o, of_Passive o))
    (λ '(a, i, s, b, n, p, q), mkOffer a i s b n p q) _.
Next Obligation. by intros []. Qed.
#[global] Program Instance OpType_countable : Countable OpType :=
  inj_countable' (λ t, match t with
      | OpType_CREATE_ACCOUNT => inl (false, false) | OpType_PAYMENT => inl (false, true)
      | OpType_PATH_PAYMENT => inl (true, false) | OpType_TRUST => inl (true, true)
      | OpType_other n => inr n end)
    (λ t, match t with
      | inl (false, false) => OpType_CREATE_ACCOUNT | inl (false, true) => OpType_PAYMENT
      | inl (true, false) => OpType_PATH_PAYMENT | inl (true, true) => OpType_TRUST
      | inr n => OpType_other n end) _.
Next Obligation. by intros []. Qed.
#[global] Program Instance CreateAccountOp_countable : Countable CreateAccountOp :=
  inj_countable' (λ a, (cao_AccountID a, cao_Balance a)) (λ '(i, b), mkCreateAccountOp i b) _.
Next Obligation. by intros []. Qed.
#[global] Program Instance PaymentOp_countable : Countable PaymentOp :=
  inj_countable' (λ a, (po_AccountID a, po_Asset a, po_Amount a)) (λ '(i, a, n), mkPaymentOp i a n) _.
Next Obligation. by intros []. Qed.
#[global] Program Instance PathPaymentOp_countable : Countable PathPaymentOp :=
  inj_countable' (λ a, (ppo_SrcAsset a, ppo_SrcAmount a, ppo_AccountID a, ppo_DstAsset a, ppo_Path a))
    (λ '(s, n, i, d, p), mkPathPaymentOp s n i d p) _.
Next Obligation. by intros []. Qed.
#[global] Program Instance TrustOp_countable : Countable TrustOp :=
  inj_countable' (λ a, (to_Asset a, to_Limit a)) (λ '(i, b), mkTrustOp i b) _.
Next Obligation. by intros []. Qed.
#[global] Program Instance OpBody_countable : Countable OpBody :=
  inj_countable' (λ b, match b with
      | Op_CreateAccount o => inl (inl o) | Op_Payment o => inl (inr o)
      | Op_PathPayment o => inr (inl o) | Op_Trust o => inr (inr o) end)
    (λ b, match b with
      | inl (inl o) => Op_CreateAccount o | inl (inr o) => Op_Payment o
      | inr (inl o) => Op_PathPayment o | inr (inr o) => Op_Trust o end) _.
Next Obligation. by intros []. Qed.
#[global] Program Instance Op_countable : Countable Op :=
  inj_countable' (λ a, (op_OpType a, op_Op a)) (λ '(i, b), mkOp i b) _.
Next Obligation. by intros []. Qed.
#[global] Program Instance Tx_countable : Countable Tx :=
  inj_countable' (λ t, (tx_AccountID t, tx_Fee t, tx_Note t, tx_SeqNum t, tx_OpList t))
    (λ '(i, f, n, s, o), mkTx i f n s o) _.
Next Obligation. by intros []. Qed.
#[global] Program Instance TxSet_countable : Countable TxSet :=
  inj_countable' (λ a, (ts_PrevLedgerHash a, ts_TxList a)) (λ '(i, b), mkTxSet i b) _.
Next Obligation. by intros []. Qed.
#[global] Program Instance ConsensusValue_countable : Countable ConsensusValue :=
  inj_countable' (λ a, (cv_TxSetHash a, cv_ProposeTime a)) (λ '(i, b), mkConsensusValue i b) _.
Next Obligation. by intros []. Qed.
#[global] Program Instance LedgerHeader_countable : Countable LedgerHeader :=
  inj_countable' (λ h, (lh_Version h, lh_PrevLedgerHash h, lh_TxSetHash h, lh_ConsensusValue h,
      lh_MaxTxListSize h, lh_SeqNum h, lh_TotalTokens h, lh_BaseFee h, lh_BaseReserve h))
    (λ '(v, p, t, c, m, s, n, f, r), mkLedgerHeader v p t c m s n f r) _.
Next Obligation. by intros []. Qed.
#[global] Program Instance Ledger_countable : Countable Ledger :=
  inj_countable' (λ l, (l_LedgerHeader l, l_TxSet l)) (λ '(h, t), mkLedger h t) _.
Next Obligation. by intros []. Qed.
#[global] Program Instance LedgerCheckpoint_countable : Countable LedgerCheckpoint :=
  inj_countable' (λ k, (ck_LastCloseTime k, ck_LedgerHeaderCount k, ck_LargestConsensusIndex k,
      ck_PrevLedgerHeader k, ck_PrevLedgerHeaderHash k, ck_CurrLedgerHeader k, ck_CurrLedgerHeaderHash k))
    (λ '(t, n, i, p, ph, c, ch), mkLedgerCheckpoint t n i p ph c ch) _.
Next Obligation. by intros []. Qed.
#[global] Program Instance TxStatusCode_countable : Countable TxStatusCode :=
  inj_countable' (λ t, match t with
      | NOTEXIST => inl (false, false, false) | REJECTED => inl (false, false, true)
      | ACCEPTED => inl (false, true, false) | CONFIRMED => inl (false, true, true)
      | FAILED => inl (true, false, false) | TxStatusCode_other n => inr n end)
    (λ t, match t with
      | inl (false, false, false) => NOTEXIST | inl (false, false, true) => REJECTED
      | inl (false, true, false) => ACCEPTED | inl (false, true, true) => CONFIRMED
      | inl (true, _, _) => FAILED | inr n => TxStatusCode_other n end) _.
Next Obligation. by intros []. Qed.
#[global] Program Instance TxStatus_countable : Countable TxStatus :=
  inj_countable' (λ a, (st_StatusCode a, st_ErrorMessage a, st_Data a)) (λ '(i, b, c), mkTxStatus i b c) _.
Next Obligation. by intros []. Qed.

(** * The codec

    [Encode] is [ultpb.Encode] ([proto.Marshal], which refuses for instance a string that is not
    UTF-8), [Decode] the [ultpb.Decode...] of the type. *)

Class Codec (A : Type) := {
  Encode : A → option string;
  Decode : string → option A;
  Decode_Encode : ∀ a b, Encode a = Some b → Decode b = Some a;
}.

Definition encode_res {A} `{!Codec A} (a : A) : res string :=
  match Encode a with Some b => Ok b | None => Err "proto: cannot marshal" end.
Definition decode_res {A} `{!Codec A} (b : string) : res A :=
  match Decode b with Some a => Ok a | None => Err "proto: cannot unmarshal" end.

(** [Encode(msg)] of a possibly nil pointer: [proto.Marshal] answers [ErrNil]. *)
Definition encode_ptr {A} `{!Codec A} (o : option A) : res string :=
  match o with Some a => encode_res a | None => Err "proto: Marshal called with nil" end.

(** The codecs of the messages that are stored or sent. *)
Class PbCodec := {
  codec_Asset :: Codec Asset;
  codec_Account :: Codec Account;
  codec_Trust :: Codec Trust;
  codec_Offer :: Codec Offer;
  codec_Tx :: Codec Tx;
  codec_TxSet :: Codec TxSet;
  codec_ConsensusValue :: Codec ConsensusValue;
  codec_LedgerHeader :: Codec LedgerHeader;
  codec_Ledger :: Codec Ledger;
  codec_LedgerCheckpoint :: Codec LedgerCheckpoint;
  codec_TxStatus :: Codec TxStatus;
}.

(** A reference codec: the binary digits of the number [stdpp] gives to the message. *)
Fixpoint pos_to_digits (p : positive) : string :=
  match p with
  | xH => ""
  | xO p => String "0"%char (pos_to_digits p)
  | xI p => String "1"%char (pos_to_digits p)
  end.
Fixpoint digits_to_pos (s : string) : positive :=
  match s with
  | String "0"%char s => xO (digits_to_pos s)
  | String _ s => xI (digits_to_pos s)
  | EmptyString => xH
  end.

Lemma digits_pos_inv p : digits_to_pos (pos_to_digits p) = p.
Proof. induction p; simpl; congruence. Qed.

Program Definition ref_codec_of (A : Type) `{Countable A} : Codec A := {|
  Encode a := Some (pos_to_digits (encode a));
  Decode b := decode (digits_to_pos b);
|}.
Next Obligation. intros A ?? a b [= <-]. by rewrite digits_pos_inv, decode_encode. Qed.

Definition ref_codec : PbCodec := {|
  codec_Asset := ref_codec_of Asset;
  codec_Account := ref_codec_of Account;
  codec_Trust := ref_codec_of Trust;
  codec_Offer := ref_codec_of Offer;
  codec_Tx := ref_codec_of Tx;
  codec_TxSet := ref_codec_of TxSet;
  codec_ConsensusValue := ref_codec_of ConsensusValue;
  codec_LedgerHeader := ref_codec_of LedgerHeader;
  codec_Ledger := ref_codec_of Ledger;
  codec_LedgerCheckpoint := ref_codec_of LedgerCheckpoint;
  codec_TxStatus := ref_codec_of TxStatus;
|}.

Lemma Encode_inj {A} `{!Codec A} (a1 a2 : A) b : Encode a1 = Some b → Encode a2 = Some b → a1 = a2.
Proof. intros H1%Decode_Encode H2%Decode_Encode. congruence. Qed.

Lemma encode_res_Ok {A} `{!Codec A} (a : A) b : encode_res a = Ok b ↔ Encode a = Some b.
Proof. unfold encode_res. destruct (Encode a); naive_solver. Qed.

Lemma decode_encode_res {A} `{!Codec A} (a : A) b : Encode a = Some b → decode_res b = Ok a.
Proof. intros H%Decode_Encode. unfold decode_res. by rewrite H. Qed.

Lemma ref_codec_total (A : Type) `{Countable A} (a : A) : is_Some (@Encode A (ref_codec_of A) a).
Proof. eauto. Qed.

(** A codec for one message, for concrete runs. *)
Program Definition codec_single {A} `{EqDecision A} (a : A) (name : string) : Codec A := {|
  Encode x := if decide (x = a) then Some name else None;
  Decode b := if decide (b = name) then Some a else None;
|}.
Next Obligation. intros A ? a name x b. simpl. case_decide; [|done]. intros [= <-]. by rewrite decide_True; subst. Qed.

(** A codec that refuses everything. *)
Definition codec_none {A} : Codec A := {| Encode _ := None; Decode _ := None; Decode_Encode := λ _ _ H, match H with end |}.
