(* ===== verification/Db.v ===== *)
(** The database layer: the interface of [db/db.go], its in-memory implementation
    [db/memdb/memdb.go] and its implementation over BoltDB [db/boltdb/boltdb.go].

    [Store] is the union of [db.Getter], [db.Putter] and [db.Deleter]; [TxDatabase] adds
    [db.Database.Begin] and [db.Tx].  [StoreLaws] states what the clients (account manager,
    exchange, transaction operations) rely on: a store is a partial map from a bucket and a key to
    a value.  Both implementations are shown to satisfy it. *)

From S2P Require Import Prelude.

(** * Interface *)

Class Store (D : Type) := {
  db_Get : string → string → M D (option string);
  db_GetAll : string → string → M D (list string);
  db_Put : string → string → string → M D unit;
  db_Delete : string → string → M D unit;
}.

Class TxDatabase (D T : Type) := {
  db_Begin : M D T;
  tx_Commit : T → M D unit;
  tx_Rollback : T → M D unit;
}.

(** What a write does to the map a store stands for. *)
Definition view_put (v : string → string → option string) (b k : string) (o : option string)
    : string → string → option string :=
  λ b' k', if decide (b' = b ∧ k' = k) then o else v b' k'.

Class StoreLaws (D : Type) `{!Store D} := {
  (** The handle is open. *)
  db_ok : D → Prop;
  (** The bucket can be used. *)
  db_bucket : D → string → Prop;
  (** The contents. *)
  db_view : D → string → string → option string;
  Get_spec : ∀ d b k, db_ok d → db_bucket d b → db_Get b k d = (d, Ok (db_view d b k));
  Put_spec : ∀ d b k x d' r, db_ok d → db_bucket d b → db_Put b k x d = (d', r) →
    (r = Ok tt ∧ db_ok d' ∧ (∀ b', db_bucket d b' → db_bucket d' b') ∧
      ∀ b' k', db_bucket d b' → db_view d' b' k' = view_put (db_view d) b k (Some x) b' k')
    ∨ (∃ e, r = Err e ∧ d' = d);
  Delete_spec : ∀ d b k d' r, db_ok d → db_bucket d b → db_Delete b k d = (d', r) →
    r = Ok tt ∧ db_ok d' ∧ (∀ b', db_bucket d b' → db_bucket d' b') ∧
      ∀ b' k', db_bucket d b' → db_view d' b' k' = view_put (db_view d) b k None b' k';
  GetAll_spec : ∀ d b p, db_ok d → db_bucket d b →
    ∃ l, db_GetAll b p d = (d, Ok (l.*2)) ∧ NoDup (l.*1) ∧
      ∀ k x, (k, x) ∈ l ↔ has_prefix p k = true ∧ db_view d b k = Some x;
}.

(** * memdb *)

Module memdb.

(** [nil] is the closed database. *)
Abbreviation memdb := (option (gmap string string)).

Definition New : memdb := Some ∅.

Definition closed : string := "Memdb is closed.".

Definition full_key (bucket key : string) : string := bucket +:+ "#" +:+ key.

Definition Put (bucket key value : string) : M memdb unit := λ m,
  match m with
  | None => (m, Err closed)
  | Some db => (Some (<[full_key bucket key := value]> db), Ok tt)
  end.

Definition Delete (bucket key : string) : M memdb unit := λ m,
  match m with
  | None => (m, Err closed)
  | Some db => (Some (delete (full_key bucket key) db), Ok tt)
  end.

Definition Get (bucket key : string) : M memdb (option string) := λ m,
  match m with
  | None => (m, Err closed)
  | Some db => (m, Ok (db !! full_key bucket key))
  end.

Definition GetAll `{!GoRuntime} (bucket keyPrefix : string) : M memdb (list string) := λ m,
  match m with
  | None => (m, Err closed)
  | Some db =>
      let prefix := full_key bucket keyPrefix in
      (m, Ok ((filter (λ kv, has_prefix prefix kv.1 = true) (go_range db)).*2))
  end.

Definition Close : M memdb unit := λ _, (None, Ok tt).

(** The transaction object holds the database itself: reads and writes go straight to it. *)
Definition Begin : M memdb memdb := λ m, (m, Ok m).
Definition Commit (t : memdb) : M memdb unit := λ _, (t, Ok tt).
Definition Rollback (t : memdb) : M memdb unit := λ _, (t, Ok tt).

End memdb.

Abbreviation memdb := memdb.memdb.

#[global] Instance memdb_Store `{!GoRuntime} : Store memdb := {|
  db_Get := memdb.Get;
  db_GetAll := memdb.GetAll;
  db_Put := memdb.Put;
  db_Delete := memdb.Delete;
|}.

#[global] Instance memdb_TxDatabase : TxDatabase memdb memdb := {|
  db_Begin := memdb.Begin;
  tx_Commit := memdb.Commit;
  tx_Rollback := memdb.Rollback;
|}.

(** * boltdb

    The handle is the committed contents, by bucket.  A read-write transaction works on its own
    copy, which [Commit] installs and [Rollback] drops.  A missing bucket is a nil [*bolt.Bucket],
    whose use is a nil dereference; [Put] refuses an empty or oversized key and an oversized value. *)

Module boltdb.

Abbreviation boltdb := (gmap string (gmap string string)).

Definition MaxKeySize : Z := 32768.
Definition MaxValueSize : Z := 2147483646.

Definition NewBucket (name : string) : M boltdb unit := λ db,
  if decide (name = "") then (db, Err "bucket name required")
  else (match db !! name with Some _ => db | None => <[name := ∅]> db end, Ok tt).

Definition Put (bucket key value : string) : M boltdb unit := λ db,
  match db !! bucket with
  | None => (db, Panic "nil pointer dereference")
  | Some b =>
      if decide (key = "") then (db, Err "key required")
      else if decide (MaxKeySize < Z.of_nat (String.length key)) then (db, Err "key too large")
      else if decide (MaxValueSize < Z.of_nat (String.length value)) then (db, Err "value too large")
      else (<[bucket := <[key := value]> b]> db, Ok tt)
  end.

Definition Delete (bucket key : string) : M boltdb unit := λ db,
  match db !! bucket with
  | None => (db, Panic "nil pointer dereference")
  | Some b => (<[bucket := delete key b]> db, Ok tt)
  end.

Definition Get (bucket key : string) : M boltdb (option string) := λ db,
  match db !! bucket with
  | None => (db, Panic "nil pointer dereference")
  | Some b => (db, Ok (b !! key))
  end.

(** The cursor visits the keys in byte order, from [Seek(keyPrefix)] as long as they have the
    prefix: exactly the keys with the prefix, in order. *)
Definition key_le (x y : string * string) : bool := bool_decide (strcmp x.1 y.1 <= 0).
Definition GetAll (bucket keyPrefix : string) : M boltdb (list string) := λ db,
  match db !! bucket with
  | None => (db, Panic "nil pointer dereference")
  | Some b =>
      (db, Ok ((filter (λ kv, has_prefix keyPrefix kv.1 = true)
                  (insertion_sort key_le (map_to_list b))).*2))
  end.

(** The contents stay in the file. *)
Definition Close : M boltdb unit := ret tt.

Definition Begin : M boltdb boltdb := λ db, (db, Ok db).
Definition Commit (t : boltdb) : M boltdb unit := λ _, (t, Ok tt).
Definition Rollback (t : boltdb) : M boltdb unit := λ db, (db, Ok tt).

End boltdb.

Abbreviation boltdb := boltdb.boltdb.

(** The database, and [boltdbTx]: the methods of a transaction look up the bucket in the same way, in the copy of the transaction. *)
#[global] Instance boltdb_Store : Store boltdb := {|
  db_Get := boltdb.Get;
  db_GetAll := boltdb.GetAll;
  db_Put := boltdb.Put;
  db_Delete := boltdb.Delete;
|}.

#[global] Instance boltdb_TxDatabase : TxDatabase boltdb boltdb := {|
  db_Begin := boltdb.Begin;
  tx_Commit := boltdb.Commit;
  tx_Rollback := boltdb.Rollback;
|}.

(** A bucket name without the separator of [memdb]. *)
Fixpoint no_hash (s : string) : Prop :=
  match s with
  | EmptyString => True
  | String c s => c ≠ "#"%char ∧ no_hash s
  end.

#[global] Instance no_hash_dec s : Decision (no_hash s).
Proof. induction s; simpl; apply _. Defined.

(** * Lemmas *)

Lemma full_key_inj b1 b2 k1 k2 :
  no_hash b1 → no_hash b2 → memdb.full_key b1 k1 = memdb.full_key b2 k2 → b1 = b2 ∧ k1 = k2.
Proof.
  unfold memdb.full_key. revert b2.
  induction b1 as [|c b1 IH]; intros [|d b2] Hb1 Hb2; simpl in *.
  - rewrite !str_app_nil, !str_app_cons, !str_app_nil. by intros [= ->].
  - destruct Hb2 as [Hd _]. by intros [= <- _].
  - destruct Hb1 as [Hc _]. by intros [= -> _].
  - rewrite (str_app_cons c), (str_app_cons d). destruct Hb1 as [_ Hb1], Hb2 as [_ Hb2]. intros [= -> H].
    by destruct (IH b2 Hb1 Hb2 H) as [-> ->].
Qed.

Lemma full_key_prefix b p k :
  has_prefix (memdb.full_key b p) (memdb.full_key b k) = has_prefix p k.
Proof.
  unfold memdb.full_key. induction b as [|c b IH].
  - done.
  - rewrite !(str_app_cons c). cbn [has_prefix]. by rewrite bool_decide_true, IH.
Qed.

Lemma full_key_prefix_inv b p s :
  has_prefix (memdb.full_key b p) s = true → ∃ k, s = memdb.full_key b k.
Proof.
  intros [t ->]%has_prefix_spec. exists (p +:+ t). unfold memdb.full_key.
  by rewrite !str_app_assoc.
Qed.

Lemma NoDup_fst_filter {A B} (P : A * B → Prop) `{∀ x, Decision (P x)} (l : list (A * B)) :
  NoDup l.*1 → NoDup (filter P l).*1.
Proof.
  induction l as [|x l IH]; [done|]. rewrite fmap_cons, NoDup_cons. intros [Hx Hl].
  rewrite filter_cons. case_decide; [|auto].
  rewrite fmap_cons, NoDup_cons. split; [|auto].
  intros (y & Hy & [_ Hin]%list_elem_of_filter)%list_elem_of_fmap.
  apply Hx. rewrite Hy. by apply list_elem_of_fmap_2.
Qed.

(** A list of full keys of one bucket, with the bucket stripped. *)
Lemma full_keys_strip b (l : list (string * string)) :
  Forall (λ kv, ∃ k, kv.1 = memdb.full_key b k) l →
  ∃ l', l = prod_map (memdb.full_key b) id <$> l'.
Proof.
  induction 1 as [|[s x] l [k Hk] _ [l' ->]]; [by exists []|].
  exists ((k, x) :: l'). simpl in *. by subst.
Qed.

#[global] Program Instance memdb_StoreLaws `{!GoRuntime} : StoreLaws memdb := {|
  db_ok m := is_Some m;
  db_bucket _ b := no_hash b;
  db_view m b k := m ≫= (.!! memdb.full_key b k);
|}.
Next Obligation. by intros ? m b k [db ->] Hb. Qed.
Next Obligation.
  intros ? m b k x d' r [db ->] Hb [= <- <-]. left. split_and!; eauto.
  intros b' k' Hb'. unfold view_put; simpl. case_decide as Hd.
  - destruct Hd as [-> ->]. by rewrite lookup_insert_eq.
  - rewrite lookup_insert_ne; [done|]. intros Hk. apply Hd.
    apply full_key_inj in Hk as [-> ->]; done.
Qed.
Next Obligation.
  intros ? m b k d' r [db ->] Hb [= <- <-]. split_and!; eauto.
  intros b' k' Hb'. unfold view_put; simpl. case_decide as Hd.
  - destruct Hd as [-> ->]. by rewrite lookup_delete_eq.
  - rewrite lookup_delete_ne; [done|]. intros Hk. apply Hd.
    apply full_key_inj in Hk as [-> ->]; done.
Qed.
Next Obligation.
  intros ? m b p [db ->] Hb. simpl.
  destruct (full_keys_strip b (filter (λ kv, has_prefix (memdb.full_key b p) kv.1 = true) (go_range db)))
    as [l' Hl'].
  { apply Forall_forall. intros kv [Hkv _]%list_elem_of_filter. by apply full_key_prefix_inv in Hkv. }
  exists l'. rewrite Hl'. split_and!.
  - f_equal. f_equal. rewrite <-list_fmap_compose. by apply list_fmap_ext.
  - assert (NoDup (prod_map (memdb.full_key b) id <$> l').*1) as Hnd.
    { rewrite <-Hl'. apply NoDup_fst_filter. rewrite go_range_perm. apply NoDup_fst_map_to_list. }
    replace ((prod_map (memdb.full_key b) id <$> l').*1) with (memdb.full_key b <$> l'.*1) in Hnd.
    + by eapply NoDup_fmap_1.
    + rewrite <-!list_fmap_compose. by apply list_fmap_ext.
  - intros k x.
    assert ((k, x) ∈ l' ↔ (memdb.full_key b k, x) ∈ prod_map (memdb.full_key b) id <$> l') as ->.
    { split.
      - intros Hk. by apply (list_elem_of_fmap_2 (prod_map (memdb.full_key b) id)) in Hk.
      - intros ([k2 x2] & [= H1 ->] & Hin)%list_elem_of_fmap.
        by apply full_key_inj in H1 as [_ ->]. }
    rewrite <-Hl', list_elem_of_filter, go_range_perm, elem_of_map_to_list. simpl.
    by rewrite full_key_prefix.
Qed.

Lemma bolt_sort_filter_elem p (b : gmap string string) k x :
  (k, x) ∈ filter (λ kv, has_prefix p kv.1 = true) (insertion_sort boltdb.key_le (map_to_list b)) ↔
  has_prefix p k = true ∧ b !! k = Some x.
Proof. by rewrite list_elem_of_filter, insertion_sort_perm, elem_of_map_to_list. Qed.

#[global] Program Instance boltdb_StoreLaws : StoreLaws boltdb := {|
  db_ok _ := True;
  db_bucket db b := is_Some (db !! b);
  db_view db b k := db !! b ≫= (.!! k);
|}.
Next Obligation. intros db b k _ [m Hm]. simpl. unfold boltdb.Get. by rewrite Hm. Qed.
Next Obligation.
  intros db b k x d' r _ [m Hm]. simpl. unfold boltdb.Put. rewrite Hm.
  repeat case_decide; intros [= <- <-]; [right; eauto..|left].
  split_and!; [done|done|by intros b' Hb'; apply lookup_insert_is_Some'; right|].
  intros b' k' [m' Hm']. unfold view_put. case_decide as Hd.
  - destruct Hd as [-> ->]. by rewrite lookup_insert_eq; simpl; rewrite lookup_insert_eq.
  - destruct (decide (b' = b)) as [->|].
    + rewrite lookup_insert_eq, Hm. simpl. rewrite lookup_insert_ne; [done|naive_solver].
    + by rewrite lookup_insert_ne.
Qed.
Next Obligation.
  intros db b k d' r _ [m Hm]. simpl. unfold boltdb.Delete. rewrite Hm.
  intros [= <- <-].
  split_and!; [done|done|by intros b' Hb'; apply lookup_insert_is_Some'; right|].
  intros b' k' [m' Hm']. unfold view_put. case_decide as Hd.
  - destruct Hd as [-> ->]. by rewrite lookup_insert_eq; simpl; rewrite lookup_delete_eq.
  - destruct (decide (b' = b)) as [->|].
    + rewrite lookup_insert_eq, Hm. simpl. rewrite lookup_delete_ne; [done|naive_solver].
    + by rewrite lookup_insert_ne.
Qed.
Next Obligation.
  intros db b p _ [m Hm]. simpl. unfold boltdb.GetAll. rewrite Hm.
  eexists. split_and!; [done| |].
  - apply NoDup_fst_filter. rewrite insertion_sort_perm. apply NoDup_fst_map_to_list.
  - intros k x. apply bolt_sort_filter_elem.
Qed.
