(* ===== verification/Crypto.v ===== *)
(** Keys and hashes: [crypto/key.go], [crypto/hash.go] and the key functions of [ultpb/codec.go],
    with the argsort of [util/sorter.go] that orders a transaction set.

    SHA-256 and base58 are parameters, with the documented facts the code relies on: a digest has
    32 bytes, and base58 decoding inverts encoding. *)

From S2P Require Import Prelude Pb.

Class CryptoLib := {
  sum256 : string → string;
  sum256_length : ∀ b, String.length (sum256 b) = 32%nat;
  b58_Encode : string → string;
  b58_Decode : string → option string;
  b58_Decode_Encode : ∀ b, b58_Decode (b58_Encode b) = Some b;
  b58_Encode_empty : b58_Encode "" = "";
}.

(** * Keys *)

Definition KeyTypeAccountID : Z := 1.
Definition KeyTypeSeed : Z := 2.
Definition KeyTypeTx : Z := 3.
Definition KeyTypeTxSet : Z := 4.
Definition KeyTypeNodeID : Z := 5.
Definition KeyTypeLedgerHeader : Z := 6.
Definition KeyTypeOfferID : Z := 7.

Record ULTKey := mkULTKey { key_Code : Z; key_Hash : string }.

#[global] Instance ULTKey_eq_dec : EqDecision ULTKey.
Proof. solve_decision. Defined.

Definition ErrInvalidKey : string := "invalid key string".

Definition byte_of (c : Z) : ascii := ascii_of_N (Z.to_N (c mod 256)).
Definition of_byte (a : ascii) : Z := Z.of_N (N_of_ascii a).

(** [binary.Read] of an [ULTKey]: one byte and 32 bytes; a longer input is not an error. *)
Definition read_key (b : string) : res ULTKey :=
  match b with
  | EmptyString => Err ErrInvalidKey
  | String c rest =>
      if decide (String.length rest < 32)%nat then Err ErrInvalidKey
      else Ok (mkULTKey (of_byte c) (String.substring 0 32 rest))
  end.

Section keys.
Context {Crypto : CryptoLib}.

Definition DecodeKey (key : string) : res ULTKey :=
  if decide (key = "") then Err ErrInvalidKey
  else match b58_Decode key with
  | None => Err ErrInvalidKey
  | Some b =>
      let? ultKey := read_key b in
      if decide (key_Code ultKey ∈ [KeyTypeAccountID; KeyTypeSeed; KeyTypeTx; KeyTypeTxSet;
                                    KeyTypeLedgerHeader; KeyTypeNodeID])
      then Ok ultKey else Err ErrInvalidKey
  end.

Definition EncodeKey (k : ULTKey) : string := b58_Encode (String (byte_of (key_Code k)) (key_Hash k)).

Definition IsValidKey (key : string) : bool := is_Ok (DecodeKey key).
Definition has_code (code : Z) (key : string) : bool :=
  match DecodeKey key with
  | Ok k => bool_decide (key_Code k = code)
  | _ => false
  end.
Definition IsValidAccountKey (key : string) : bool := has_code KeyTypeAccountID key.
Definition IsValidTxKey (key : string) : bool := has_code KeyTypeTx key.

(** * Hashes *)

Definition SHA256Hash (b : string) : string := b58_Encode (sum256 b).
Definition SHA256HashBytes (b : string) : string := sum256 b.

Definition SHA256HashUint64 (b : string) : Z :=
  foldl (λ r c, Z.lor (uwrap64 (Z.shiftl r 8)) (of_byte c)) 0 (String.list_ascii_of_string (sum256 b)).

Context {Pbc : PbCodec} {GoRt : GoRuntime}.

Definition msg_key {A} `{!Codec A} (code : Z) (a : A) : res string :=
  let? b := encode_res a in
  Ok (EncodeKey (mkULTKey code (SHA256HashBytes b))).

Definition GetTxKey (tx : Tx) : res string := msg_key KeyTypeTx tx.
Definition GetLedgerHeaderKey (lh : LedgerHeader) : res string := msg_key KeyTypeLedgerHeader lh.

(** [util.NewStringSlice(false, hashes...)] and its sort: the indexes in the order of the hashes. *)
Definition argsort (hashes : list string) : list nat :=
  (go_sort (λ a b, bool_decide (strcmp a.1 b.1 < 0)) (zip hashes (seq 0 (length hashes)))).*2.

(** An index out of range is a run-time panic. *)
Definition nth_tx (txs : list Tx) (i : nat) : res Tx :=
  match txs !! i with Some tx => Ok tx | None => Panic "index out of range" end.

Definition GetTxSetKey (ts : TxSet) : res string :=
  let? hashes := res_map (λ tx, res_wrap "compute tx hash failed: "
                            (let? b := encode_res tx in Ok (SHA256Hash b))) (ts_TxList ts) in
  match b58_Decode (ts_PrevLedgerHash ts) with
  | None => Ok ""
  | Some prev =>
      let? bs := res_map (λ i, let? tx := nth_tx (ts_TxList ts) i in encode_res tx) (argsort hashes) in
      Ok (EncodeKey (mkULTKey KeyTypeTxSet (SHA256HashBytes (foldl (λ acc b, acc +:+ b) prev bs))))
  end.

End keys.

(** A reference instance: base58 as the identity, and a digest that pads or cuts to 32 bytes. *)
Definition pad32 (b : string) : string :=
  String.substring 0 32 (b +:+ "................................").

Lemma substring_full n (s : string) : (n <= String.length s)%nat → String.length (String.substring 0 n s) = n.
Proof.
  revert s. induction n as [|n IH]; intros [|c s]; simpl; try lia. intros H. rewrite IH; lia.
Qed.

Lemma length_app_str (a b : string) : String.length (a +:+ b) = (String.length a + String.length b)%nat.
Proof. induction a as [|c a IH]; [done|]. rewrite str_app_cons. simpl. by rewrite IH. Qed.

Lemma pad32_length b : String.length (pad32 b) = 32%nat.
Proof. unfold pad32. apply substring_full. rewrite length_app_str. simpl. lia. Qed.

Definition ref_crypto : CryptoLib := {|
  sum256 := pad32;
  sum256_length := pad32_length;
  b58_Encode := id;
  b58_Decode := Some;
  b58_Decode_Encode := λ b, eq_refl;
  b58_Encode_empty := eq_refl;
|}.

(** * Lemmas *)

Lemma of_byte_of c : 0 <= c < 256 → of_byte (byte_of c) = c.
Proof.
  intros Hc. unfold of_byte, byte_of. rewrite Z.mod_small by done. rewrite N_ascii_embedding; lia.
Qed.

Lemma substring_all (s : string) : String.substring 0 (String.length s) s = s.
Proof. induction s as [|c s IH]; simpl; [done|]. by rewrite IH. Qed.

Lemma read_key_written c h : 0 <= c < 256 → String.length h = 32%nat → read_key (String (byte_of c) h) = Ok (mkULTKey c h).
Proof.
  intros Hc Hh. unfold read_key. rewrite Hh, decide_False by lia. rewrite of_byte_of by done.
  by rewrite <- Hh, substring_all.
Qed.

Section key_laws.
Context {Crypto : CryptoLib}.

Lemma DecodeKey_no_panic key : match DecodeKey key with Ok _ | Err _ => True | _ => False end.
Proof.
  unfold DecodeKey. case_decide; [done|]. destruct (b58_Decode key) as [b|]; [|done].
  unfold read_key. destruct b as [|c rest]; simpl; [done|]. case_decide; simpl; [done|]. by case_decide.
Qed.

Lemma EncodeKey_nonempty k : EncodeKey k ≠ "".
Proof.
  unfold EncodeKey. intros H. pose proof (b58_Decode_Encode (String (byte_of (key_Code k)) (key_Hash k))) as Hd.
  rewrite H, <- b58_Encode_empty, b58_Decode_Encode in Hd. done.
Qed.

Lemma DecodeKey_EncodeKey k :
  0 <= key_Code k < 256 → String.length (key_Hash k) = 32%nat →
  DecodeKey (EncodeKey k) = if decide (1 <= key_Code k <= 6) then Ok k else Err ErrInvalidKey.
Proof.
  intros Hc Hh. unfold DecodeKey. rewrite decide_False by apply EncodeKey_nonempty.
  unfold EncodeKey. rewrite b58_Decode_Encode. destruct k as [c h]. cbn [key_Code key_Hash] in *.
  rewrite read_key_written by done. cbn.
  case_decide as H1; case_decide as H2; try done; exfalso;
    unfold KeyTypeAccountID, KeyTypeSeed, KeyTypeTx, KeyTypeTxSet, KeyTypeLedgerHeader, KeyTypeNodeID in *;
    rewrite ?elem_of_cons, ?elem_of_nil in H1; lia.
Qed.

Lemma msg_key_inv {A} `{!Codec A} code (a : A) k :
  0 <= code < 256 → msg_key code a = Ok k → ∃ b, Encode a = Some b ∧ k = EncodeKey (mkULTKey code (sum256 b)).
Proof.
  intros Hc. unfold msg_key, encode_res. destruct (Encode a) as [b|]; simpl; [|done].
  intros [= <-]. eauto.
Qed.

End key_laws.

(** * Properties *)

(** Keys survive encoding.  Decoding the encoding of a key gives the key back for every type
    that the decoder knows, so keys are distinguished by their type and hash; a key of another type,
    in particular that of an offer, is refused. *)
Theorem key_roundtrip {Crypto : CryptoLib} (k : ULTKey) :
  0 <= key_Code k < 256 → String.length (key_Hash k) = 32%nat →
  (1 <= key_Code k <= 6 → DecodeKey (EncodeKey k) = Ok k) ∧
  (key_Code k = KeyTypeOfferID → DecodeKey (EncodeKey k) = Err ErrInvalidKey).
Proof.
  intros Hc Hh. rewrite DecodeKey_EncodeKey by done. unfold KeyTypeOfferID.
  split; intros H; case_decide; done || lia.
Qed.

(** A transaction key is accepted as a transaction key, never as an account key, and tells two
    transactions apart unless their encodings have the same digest. *)
Theorem tx_key_valid {Crypto : CryptoLib} {Pbc : PbCodec} (tx1 tx2 : Tx) (k1 k2 : string) :
  GetTxKey tx1 = Ok k1 → GetTxKey tx2 = Ok k2 →
  IsValidTxKey k1 = true ∧ IsValidAccountKey k1 = false ∧
  (k1 = k2 → ∃ b1 b2, Encode tx1 = Some b1 ∧ Encode tx2 = Some b2 ∧ sum256 b1 = sum256 b2).
Proof.
  intros (b1 & H1 & ->)%msg_key_inv (b2 & H2 & ->)%msg_key_inv; [|by vm_compute..].
  unfold IsValidTxKey, IsValidAccountKey, has_code.
  rewrite !DecodeKey_EncodeKey by (apply sum256_length || by vm_compute). simpl. split_and!; try done.
  intros Heq. exists b1, b2. split_and!; [done..|].
  assert (DecodeKey (EncodeKey (mkULTKey KeyTypeTx (sum256 b1))) = DecodeKey (EncodeKey (mkULTKey KeyTypeTx (sum256 b2))))
    as Hd by by rewrite Heq.
  rewrite !DecodeKey_EncodeKey in Hd by (apply sum256_length || by vm_compute). by injection Hd.
Qed.

(** * The key of a transaction set *)

Definition str_le (a b : string) : Prop := strcmp a b <= 0.

#[global] Instance str_le_antisymm : AntiSymm (=) str_le.
Proof.
  intros a b H1 H2. unfold str_le in *. rewrite strcmp_opp in H2. apply strcmp_eq. lia.
Qed.

Lemma str_le_trans a b c : str_le a b → str_le b c → str_le a c.
Proof.
  unfold str_le. intros H1 H2.
  destruct (decide (strcmp a b = 0)) as [->%strcmp_eq|]; [done|].
  destruct (decide (strcmp b c = 0)) as [<-%strcmp_eq|]; [done|].
  apply Z.lt_le_incl, (strcmp_lt_trans a b c); lia.
Qed.

Section txset.
Context {Crypto : CryptoLib} {Pbc : PbCodec} {GoRt : GoRuntime}.

Definition hash_less (a b : string * nat) : bool := bool_decide (strcmp a.1 b.1 < 0).

Lemma hash_sort_le a b : sort_le hash_less a b ↔ str_le a.1 b.1.
Proof.
  unfold sort_le, hash_less, str_le. rewrite bool_decide_eq_true, bool_decide_eq_false, (strcmp_opp b.1 a.1). lia.
Qed.

Lemma argsort_sorted (hashes : list string) :
  ∃ l, argsort hashes = l.*2 ∧ l ≡ₚ zip hashes (seq 0 (length hashes)) ∧ StronglySorted str_le l.*1.
Proof.
  eexists. split_and!; [done|apply go_sort_perm|].
  assert (StronglySorted (sort_le hash_less) (go_sort hash_less (zip hashes (seq 0 (length hashes))))) as Hs.
  { apply go_sort_sorted. intros a b c _ _ _. rewrite !hash_sort_le. apply str_le_trans. }
  fold hash_less. induction Hs as [|a l Hs IH Ha]; [constructor|]. rewrite fmap_cons. constructor; [done|].
  apply Forall_fmap. eapply Forall_impl; [exact Ha|]. intros b. apply hash_sort_le.
Qed.

(** The encodings in the order of their hashes. *)
Lemma sorted_encodings (txs : list Tx) (encs : list string) :
  Forall2 (λ tx b, Encode tx = Some b) txs encs →
  ∃ bs, res_map (λ i, let? tx := nth_tx txs i in encode_res tx) (argsort (SHA256Hash <$> encs)) = Ok bs ∧
    bs ≡ₚ encs ∧ StronglySorted str_le (SHA256Hash <$> bs).
Proof.
  intros He. destruct (argsort_sorted (SHA256Hash <$> encs)) as (l & -> & Hp & Hs).
  rewrite length_fmap in Hp.
  assert (∀ h i, (h, i) ∈ l → ∃ b, encs !! i = Some b ∧ h = SHA256Hash b) as Hl.
  { intros h i Hi. rewrite Hp in Hi. apply list_elem_of_lookup in Hi as (j & Hj).
    apply lookup_zip_with_Some in Hj as (h' & i' & [= <- <-] & Hh & Hj). apply lookup_seq in Hj as [-> _].
    apply list_lookup_fmap_Some in Hh as (b & ? & ?). eauto. }
  exists ((λ i, default "" (encs !! i)) <$> l.*2). split_and!.
  - apply res_map_Ok. apply Forall2_fmap_r, Forall2_same_length_lookup_2; [done|].
    intros k i i' Hi Hi'. simplify_eq.
    apply list_lookup_fmap_Some in Hi as ([h i'] & -> & Hk). simpl.
    destruct (Hl h i') as (b & Hb & _); [by eapply list_elem_of_lookup_2|].
    destruct (Forall2_lookup_r _ _ _ _ _ He Hb) as (tx & Htx & Hbx).
    unfold nth_tx. rewrite Htx, Hb. simpl. by apply encode_res_Ok.
  - rewrite Hp, snd_zip by (by rewrite length_fmap, length_seq). apply reflexive_eq, list_eq. intros i.
    rewrite list_lookup_fmap. destruct (decide (i < length encs)%nat) as [Hi|Hi].
    + rewrite lookup_seq_lt by done. simpl. by destruct (lookup_lt_is_Some_2 _ _ Hi) as [b ->].
    + rewrite lookup_seq_ge by lia. simpl. symmetry. apply lookup_ge_None. lia.
  - replace (SHA256Hash <$> _) with (l.*1); [done|].
    rewrite <- !list_fmap_compose. apply list_fmap_ext. intros k [h i] Hk. simpl.
    destruct (Hl h i) as (b & -> & ->); [by eapply list_elem_of_lookup_2|done].
Qed.

(** A successful key of a set whose previous ledger hash decodes. *)
Lemma GetTxSetKey_run ts encs prev :
  Forall2 (λ tx b, Encode tx = Some b) (ts_TxList ts) encs → b58_Decode (ts_PrevLedgerHash ts) = Some prev →
  ∃ bs, GetTxSetKey ts = Ok (EncodeKey (mkULTKey KeyTypeTxSet (SHA256HashBytes (foldl (λ acc b, acc +:+ b) prev bs)))) ∧
    bs ≡ₚ encs ∧ StronglySorted str_le (SHA256Hash <$> bs).
Proof.
  intros He Hprev. destruct (sorted_encodings _ _ He) as (bs & Hbs & Hperm & Hs). exists bs. split_and!; [|done..].
  unfold GetTxSetKey. rewrite (res_map_Ok _ _ (SHA256Hash <$> encs)).
  - simpl. by rewrite Hprev, Hbs.
  - apply Forall2_fmap_r. eapply Forall2_impl; [exact He|]. intros tx b Hb. simpl.
    apply encode_res_Ok in Hb. by rewrite Hb.
Qed.

(** A previous ledger hash that is not base58 is not reported: the key is the empty string. *)
Lemma GetTxSetKey_bad_prev ts encs :
  Forall2 (λ tx b, Encode tx = Some b) (ts_TxList ts) encs → b58_Decode (ts_PrevLedgerHash ts) = None →
  GetTxSetKey ts = Ok "".
Proof.
  intros He Hprev. unfold GetTxSetKey. rewrite Hprev.
  rewrite (res_map_Ok _ _ (SHA256Hash <$> encs)); [done|].
  apply Forall2_fmap_r. eapply Forall2_impl; [exact He|]. by intros tx b ->%encode_res_Ok.
Qed.

End txset.

(** C27: the key of a transaction set does not depend on the order of its transactions, as long as
    no two different encodings of the set have the same digest: nodes that collected the same
    transactions in different orders agree on the key. *)
Theorem txset_key_order_independent {Crypto : CryptoLib} {Pbc : PbCodec} {GoRt : GoRuntime}
    (prev : string) (txs1 txs2 : list Tx) (encs : list string) :
  txs1 ≡ₚ txs2 → Forall2 (λ tx b, Encode tx = Some b) txs1 encs →
  (∀ b1 b2, b1 ∈ encs → b2 ∈ encs → SHA256Hash b1 = SHA256Hash b2 → b1 = b2) →
  GetTxSetKey (mkTxSet prev txs1) = GetTxSetKey (mkTxSet prev txs2) ∧ is_Ok (GetTxSetKey (mkTxSet prev txs1)) = true.
Proof.
  intros Hp He1 Hinj. destruct (Permutation_Forall2 Hp He1) as (encs2 & Hp2 & He2).
  destruct (b58_Decode prev) as [pb|] eqn:Hprev.
  - destruct (GetTxSetKey_run (mkTxSet prev txs1) encs pb He1 Hprev) as (bs1 & -> & Hb1 & Hs1).
    destruct (GetTxSetKey_run (mkTxSet prev txs2) encs2 pb He2 Hprev) as (bs2 & -> & Hb2 & Hs2).
    split; [|done]. enough (bs1 = bs2) as -> by done.
    assert (SHA256Hash <$> bs1 = SHA256Hash <$> bs2) as Heq.
    { apply (StronglySorted_unique str_le); [done..|]. by rewrite Hb1, Hb2, Hp2. }
    assert (∀ b, b ∈ bs1 → b ∈ encs) as Hin1 by (intros b; by rewrite Hb1).
    assert (∀ b, b ∈ bs2 → b ∈ encs) as Hin2 by (intros b; by rewrite Hb2, <- Hp2).
    clear -Heq Hin1 Hin2 Hinj. revert bs2 Heq Hin2. induction bs1 as [|b bs1 IH]; intros [|b' bs2]; try done.
    rewrite !fmap_cons. intros [= Hb Heq] Hin2.
    assert (b = b') as -> by (apply Hinj; set_solver). f_equal. apply IH; set_solver.
  - by rewrite (GetTxSetKey_bad_prev _ encs), (GetTxSetKey_bad_prev _ encs2).
Qed.

(** * Witnesses *)

Definition sample_tx (n : Z) : Tx := mkTx "alice" 10 "" n [].

Lemma key_roundtrip_witness :
  let k := mkULTKey KeyTypeTx "0123456789abcdef0123456789abcdef" in
  @DecodeKey ref_crypto (@EncodeKey ref_crypto k) = Ok k.
Proof.
  intros k. apply (@key_roundtrip ref_crypto k); [split; [discriminate|reflexivity]|reflexivity|split; discriminate].
Defined.

Lemma tx_key_valid_witness :
  ∃ k, @GetTxKey ref_crypto ref_codec (sample_tx 1) = Ok k ∧ @IsValidTxKey ref_crypto k = true.
Proof.
  eexists. split; [reflexivity|].
  apply (@tx_key_valid ref_crypto ref_codec (sample_tx 1) (sample_tx 1) _ _ eq_refl eq_refl).
Defined.

Lemma txset_key_order_independent_witness :
  @GetTxSetKey ref_crypto ref_codec ref_runtime (mkTxSet "prev" [sample_tx 1; sample_tx 2]) =
  @GetTxSetKey ref_crypto ref_codec ref_runtime (mkTxSet "prev" [sample_tx 2; sample_tx 1]).
Proof.
  apply (@txset_key_order_independent ref_crypto ref_codec ref_runtime "prev" _ _
    [default "" (@Encode Tx (ref_codec_of Tx) (sample_tx 1)); default "" (@Encode Tx (ref_codec_of Tx) (sample_tx 2))]).
  - constructor.
  - repeat constructor.
  - intros b1 b2 [->|[->|[]%elem_of_nil]%elem_of_cons]%elem_of_cons [->|[->|[]%elem_of_nil]%elem_of_cons]%elem_of_cons;
      intros H; vm_compute in H; first [reflexivity|discriminate H].
Defined.
