(* ===== verification/Keypair.v ===== *)
(** Key pairs and signatures, [crypto/keypair.go] and the offer IDs of [crypto/util.go].

    ed25519 ([golang.org/x/crypto]) is a parameter, with what the code relies on: a public key has 32 bytes, and a
    signature made with the private key of a seed is accepted under its public key.  A reading of the random
    source is an argument: the 32 bytes, or an error. *)

From S2P Require Import Prelude Pb Crypto.

Class Ed25519 := {
  ed_NewKeyFromSeed : string → string;
  ed_Public : string → string;
  ed_Sign : string → string → string;
  ed_Verify : string → string → string → bool;
  ed_Public_length : ∀ seed, String.length seed = 32%nat → String.length (ed_Public (ed_NewKeyFromSeed seed)) = 32%nat;
  ed_Verify_Sign : ∀ seed m, String.length seed = 32%nat →
    ed_Verify (ed_Public (ed_NewKeyFromSeed seed)) m (ed_Sign (ed_NewKeyFromSeed seed) m) = true;
}.

(** A reference scheme without secrets: the private and the public key are the seed. *)
Program Definition ref_ed25519 : Ed25519 := {|
  ed_NewKeyFromSeed seed := seed;
  ed_Public priv := priv;
  ed_Sign priv m := priv +:+ m;
  ed_Verify pub m sn := bool_decide (sn = pub +:+ m);
|}.
Next Obligation. done. Qed.
Next Obligation. intros seed m _. by apply bool_decide_eq_true. Qed.

Section keypair.
Context {Crypto : CryptoLib} {Ed : Ed25519}.

(** [accountKeypair] and [nodeKeypair] differ in the type of the public key. *)
Definition keypair (code : Z) (random : res string) : res (string * string) :=
  let? seed := random in
  let publicKey := ed_Public (ed_NewKeyFromSeed seed) in
  Ok (EncodeKey (mkULTKey code publicKey), EncodeKey (mkULTKey KeyTypeSeed seed)).

Definition accountKeypair (random : res string) : res (string * string) := keypair KeyTypeAccountID random.
Definition nodeKeypair (random : res string) : res (string * string) := keypair KeyTypeNodeID random.

Definition GetAccountKeypair (random : res string) : res (string * string) :=
  let? '(publicKey, seed) := accountKeypair random in Ok (publicKey, seed).
Definition GetNodeKeypair (random : res string) : res (string * string) :=
  let? '(publicKey, seed) := nodeKeypair random in Ok (publicKey, seed).

Definition GetAccountKeypairFromSeed (seed : string) : res (string * string) :=
  if decide (String.length seed ≠ 32%nat) then Err "Invalid seed, byte length is not 32"
  else
    let publicKey := ed_Public (ed_NewKeyFromSeed seed) in
    Ok (EncodeKey (mkULTKey KeyTypeAccountID publicKey), EncodeKey (mkULTKey KeyTypeSeed seed)).

Definition GetOfferID (random : res string) : res string :=
  let? seed := random in
  Ok (EncodeKey (mkULTKey KeyTypeOfferID (ed_Public (ed_NewKeyFromSeed seed)))).

(** The type of the key is not looked at: any key string can sign. *)
Definition getPrivateKey (seed : string) : res string :=
  if decide (seed = "") then Err "empty seed"
  else let? k := DecodeKey seed in Ok (ed_NewKeyFromSeed (key_Hash k)).

Definition Sign (seed data : string) : res string :=
  let? pk := getPrivateKey seed in
  Ok (b58_Encode (ed_Sign pk data)).

Definition VerifyByKey (pk : ULTKey) (signature data : string) : bool :=
  match b58_Decode signature with
  | None => false
  | Some sn => ed_Verify (key_Hash pk) data sn
  end.

Definition Verify (publicKey signature data : string) : bool :=
  match DecodeKey publicKey with
  | Ok pk => VerifyByKey pk signature data
  | _ => false
  end.

(** * Lemmas *)

(** A public key of type [code] and the seed it was made from. *)
Definition pair_of (code : Z) (raw publicKey seed : string) : Prop :=
  String.length raw = 32%nat ∧ seed = EncodeKey (mkULTKey KeyTypeSeed raw) ∧
  publicKey = EncodeKey (mkULTKey code (ed_Public (ed_NewKeyFromSeed raw))).

Lemma keypair_pair_of code raw pub seed :
  String.length raw = 32%nat → keypair code (Ok raw) = Ok (pub, seed) → pair_of code raw pub seed.
Proof. by intros Hr [= <- <-]. Qed.

Lemma pair_of_public code raw pub seed :
  1 <= code <= 6 → pair_of code raw pub seed → DecodeKey pub = Ok (mkULTKey code (ed_Public (ed_NewKeyFromSeed raw))).
Proof.
  intros Hc (Hr & _ & ->). rewrite DecodeKey_EncodeKey; simpl; [by rewrite decide_True|lia|by apply ed_Public_length].
Qed.

Lemma pair_of_Sign code raw pub seed data :
  pair_of code raw pub seed → Sign seed data = Ok (b58_Encode (ed_Sign (ed_NewKeyFromSeed raw) data)).
Proof.
  intros (Hr & -> & _). unfold Sign, getPrivateKey. rewrite decide_False by apply EncodeKey_nonempty.
  rewrite DecodeKey_EncodeKey by by vm_compute. done.
Qed.

Lemma pair_of_verified code raw pub seed data :
  pair_of code raw pub seed →
  VerifyByKey (mkULTKey code (ed_Public (ed_NewKeyFromSeed raw))) (b58_Encode (ed_Sign (ed_NewKeyFromSeed raw) data)) data = true.
Proof. intros (Hr & _). unfold VerifyByKey. rewrite b58_Decode_Encode. by apply ed_Verify_Sign. Qed.

End keypair.

(** * Properties *)

(** Signatures verify.  With a key pair the program generated, from the random source or from a seed, signing
    never fails, the public key is an account key, and the signature is accepted under it. *)
Theorem signature_roundtrip {Crypto : CryptoLib} {Ed : Ed25519} (raw pub seed data : string) :
  String.length raw = 32%nat →
  GetAccountKeypair (Ok raw) = Ok (pub, seed) ∨ GetAccountKeypairFromSeed raw = Ok (pub, seed) →
  IsValidAccountKey pub = true ∧ ∃ sn, Sign seed data = Ok sn ∧ Verify pub sn data = true.
Proof.
  intros Hr H. assert (pair_of KeyTypeAccountID raw pub seed) as Hp.
  { destruct H as [[= <- <-]|H]; [done|]. unfold GetAccountKeypairFromSeed in H.
    rewrite decide_False in H by tauto. by injection H as <- <-. }
  pose proof (pair_of_public KeyTypeAccountID raw pub seed ltac:(by vm_compute) Hp) as Hd.
  unfold IsValidAccountKey, has_code, Verify. rewrite Hd. split; [done|].
  eexists. split; [by eapply pair_of_Sign|]. by eapply pair_of_verified.
Qed.

Lemma signature_roundtrip_witness :
  let c := ref_crypto in let e := ref_ed25519 in
  IsValidAccountKey (EncodeKey (mkULTKey KeyTypeAccountID (pad32 "alice"))) = true ∧
  ∃ sn, Sign (EncodeKey (mkULTKey KeyTypeSeed (pad32 "alice"))) "hello" = Ok sn ∧
    Verify (EncodeKey (mkULTKey KeyTypeAccountID (pad32 "alice"))) sn "hello" = true.
Proof.
  intros c e. apply (signature_roundtrip (pad32 "alice")); [by vm_compute|]. left. by vm_compute.
Defined.
