(* ===== verification/Account.v ===== *)
(** The account manager, [account/manager.go]: accounts of the native asset and trust lines of
    issued assets, both stored in the bucket ["ACCOUNT"].

    The manager itself keeps a database handle, the base reserve and the master account.  The
    operations take the handle ([db.Getter], [db.Putter], [db.Deleter]) as an argument, so here they
    run in the state monad over any [Store].  The pure field updates ([UpdateBalance], ...) return
    the updated message or the error. *)

From S2P Require Import Prelude Pb Db.

Definition account_bucket : string := "ACCOUNT".

Definition ErrBalanceOverflow : string := "account balance overflow".
Definition ErrBalanceUnderflow : string := "account balance underflow".
Definition ErrBalanceUnderfund : string := "account balance underfund".
Definition ErrTrustOverLimit : string := "trust balance over limit".
Definition ErrTrustUnderflow : string := "trust balance underflow".
Definition ErrInvalidUpdate : string := "account update invalid".

(** * Field updates *)

(** [acc.Liability], dereferenced. *)
Definition acc_liab (acc : Account) : res Liability := deref (acc_Liability acc).
Definition tst_liab (trust : Trust) : res Liability := deref (tst_Liability trust).

Definition GetRestLimit (acc : Account) : res Z :=
  let? l := acc_liab acc in
  Ok (wrap64 (wrap64 (MaxInt64 - acc_Balance acc) - lb_Buying l)).

Definition GetBalance (baseReserve : Z) (acc : Account) : res Z :=
  let minBalance := wrap64 (acc_EntryCount acc * baseReserve) in
  let? l := acc_liab acc in
  Ok (wrap64 (wrap64 (acc_Balance acc - minBalance) - lb_Selling l)).

Definition UpdateBalance (acc : Account) (balance : Z) : res Account :=
  if decide (0 < balance ∧ wrap64 (MaxInt64 - balance) < acc_Balance acc) then Err ErrBalanceOverflow
  else if decide (balance < 0 ∧ acc_Balance acc < balance) then Err ErrBalanceUnderflow
  else Ok (set_acc_Balance (wrap64 (acc_Balance acc + balance)) acc).

(** The guard and the update shared by the two sides of a liability. *)
Definition update_side (cur amount : Z) : res Z :=
  if decide (wrap64 (MaxInt64 - cur) < amount ∨ amount < wrap64 (- cur)) then Err ErrInvalidUpdate
  else Ok (wrap64 (cur + amount)).

Definition update_liab (l : Liability) (amount : Z) (buy : bool) : res Liability :=
  if buy then
    let? b := update_side (lb_Buying l) amount in Ok (set_lb_Buying b l)
  else
    let? s := update_side (lb_Selling l) amount in Ok (set_lb_Selling s l).

(** The pointer may be nil: a zero amount returns before it is used. *)
Definition UpdateLiability (acc : option Account) (amount : Z) (buy : bool) : res (option Account) :=
  if decide (amount = 0) then Ok acc
  else
    let? a := deref acc in
    let? l := acc_liab a in
    let? l' := update_liab l amount buy in
    Ok (Some (set_acc_Liability (Some l') a)).

Definition UpdateEntryCount (baseReserve : Z) (acc : Account) (count : Z) : res Account :=
  if decide (count = 0) then Ok acc
  else
    let totalEntry := wrap32 (acc_EntryCount acc + count) in
    let? l := acc_liab acc in
    let balance := wrap64 (wrap64 (totalEntry * baseReserve) + lb_Selling l) in
    if decide (acc_Balance acc < balance) then Err ErrBalanceUnderfund
    else Ok (set_acc_EntryCount totalEntry acc).

Definition GetTrustRestLimit (trust : Trust) : res Z :=
  let? l := tst_liab trust in
  Ok (wrap64 (wrap64 (MaxInt64 - tst_Balance trust) - lb_Buying l)).

Definition GetTrustBalance (trust : Trust) : res Z :=
  let? l := tst_liab trust in
  Ok (wrap64 (tst_Balance trust - lb_Selling l)).

Definition UpdateTrustBalance (trust : Trust) (balance : Z) : res Trust :=
  if decide (0 < balance ∧ tst_Limit trust < wrap64 (tst_Balance trust + balance)) then Err ErrTrustOverLimit
  else if decide (balance < 0 ∧ tst_Balance trust < balance) then Err ErrTrustUnderflow
  else Ok (set_tst_Balance (wrap64 (tst_Balance trust + balance)) trust).

Definition UpdateTrustLiability (trust : option Trust) (amount : Z) (buy : bool) : res (option Trust) :=
  if decide (amount = 0) then Ok trust
  else
    let? t := deref trust in
    let? l := tst_liab t in
    let? l' := update_liab l amount buy in
    Ok (Some (set_tst_Liability (Some l') t)).

(** * Storage *)

Section storage.
Context {D : Type} {StoreD : Store D} {Pbc : PbCodec}.

Definition new_account (accountID : string) (balance : Z) (signer : string) (seqNum : Z) : Account :=
  mkAccount accountID balance signer seqNum 0 [] (Some (mkLiability 0 0)).

Definition CreateAccount (baseReserve : Z) (accountID : string) (balance : Z) (signer : string)
    (seqNum : Z) : M D unit :=
  if decide (balance < baseReserve) then fail "init balance lower than base reserve"
  else
    let acc := new_account accountID balance signer seqNum in
    let! accb := wrap "encode account failed: " (lift (encode_res acc)) in
    wrap "save account in db failed: " (db_Put account_bucket (acc_AccountID acc) accb).

Definition GetAccount (accountID : string) : M D (option Account) :=
  let! b := wrap ("get account " +:+ accountID +:+ " failed: ") (db_Get account_bucket accountID) in
  match b with
  | None => ret None
  | Some b =>
      let! acc := wrap ("account " +:+ accountID +:+ " decode failed: ") (lift (decode_res b)) in
      ret (Some acc)
  end.

Definition SaveAccount (acc : option Account) : M D unit :=
  let! accb := wrap "encode account failed: " (lift (encode_ptr acc)) in
  let! a := lift (deref acc) in
  wrap "save account in db failed: " (db_Put account_bucket (acc_AccountID a) accb).

(** [crypto.GetAccountKeypairFromSeed] (ed25519) is a parameter.  The result is the new value of
    the field [Master]. *)
Definition CreateMasterAccount (keypair : string → res (string * string)) (baseReserve : Z)
    (networkID : string) (balance seqNum : Z) : M D (option Account) :=
  let! '(pubKey, privKey) := lift (keypair networkID) in
  do! wrap "create master account failed: " (CreateAccount baseReserve pubKey balance pubKey seqNum) in
  wrap "get master account failed: " (GetAccount pubKey).

(** The key of a trust line: the account ID followed by the encoded asset. *)
Definition trust_key (accountID : string) (asset : option Asset) : res string :=
  let? assetb := res_wrap "encode asset failed: " (encode_ptr asset) in
  Ok (accountID +:+ assetb).

Definition CreateTrust (accountID : string) (asset : option Asset) (limit : Z) : M D unit :=
  let! a := lift (deref asset) in
  if decide (accountID = ast_Issuer a) then ret tt
  else
    let trust := mkTrust accountID asset 0 limit (Some (mkLiability 0 0)) 1 in
    let! trustb := wrap "encode trust failed: " (lift (encode_res trust)) in
    let! key := lift (trust_key accountID asset) in
    wrap "save trust in db failed: " (db_Put account_bucket key trustb).

Definition GetTrust (accountID : string) (asset : option Asset) : M D (option Trust) :=
  let! a := lift (deref asset) in
  if decide (accountID = ast_Issuer a) then
    ret (Some (mkTrust accountID asset MaxInt64 MaxInt64 None 1))
  else
    let! key := lift (trust_key accountID asset) in
    let! b := wrap "get trust from db failed: " (db_Get account_bucket key) in
    match b with
    | None => ret None
    | Some b =>
        let! trust := wrap "decode trust failed: " (lift (decode_res b)) in
        ret (Some trust)
    end.

Definition SaveTrust (trust : option Trust) : M D unit :=
  let! trustb := wrap "encode account failed: " (lift (encode_ptr trust)) in
  let! t := lift (deref trust) in
  let! key := lift (trust_key (tst_AccountID t) (tst_Asset t)) in
  wrap "save account in db failed: " (db_Put account_bucket key trustb).

Definition DeleteTrust (accountID : string) (asset : option Asset) : M D unit :=
  let! key := lift (trust_key accountID asset) in
  wrap "delete trust from db failed: " (db_Delete account_bucket key).

End storage.

(** * Well-formed messages

    The fields of a message decoded from Go are in the range of their types; the liabilities that
    the manager creates and updates are in addition never negative. *)

Definition wf_liab (l : Liability) : Prop :=
  0 <= lb_Buying l <= MaxInt64 ∧ 0 <= lb_Selling l <= MaxInt64.

Definition wf_account (a : Account) : Prop :=
  int64 (acc_Balance a) ∧ uint64 (acc_SeqNum a) ∧ int32 (acc_EntryCount a) ∧
  ∃ l, acc_Liability a = Some l ∧ wf_liab l.

(** * The map of accounts a store stands for *)

Section abstraction.
Context {D : Type} {StoreD : Store D} {LawsD : StoreLaws D} {Pbc : PbCodec}.

Definition ready (d : D) : Prop := db_ok d ∧ db_bucket d account_bucket.

Definition acct_at (d : D) (id : string) : option Account := db_view d account_bucket id ≫= Decode.
Definition trust_at (d : D) (id : string) (asset : Asset) : option Trust :=
  Encode asset ≫= λ ab, db_view d account_bucket (id +:+ ab) ≫= Decode.

(** [d'] is [d] with one key of the account bucket written. *)
Definition wrote (d d' : D) (k : string) (o : option string) : Prop :=
  ready d' ∧ (∀ b, db_bucket d b → db_bucket d' b) ∧
  ∀ b k', db_bucket d b → db_view d' b k' = view_put (db_view d) account_bucket k o b k'.

(** ** Storage lemmas *)

Lemma wrote_view d d' k o k' :
  ready d → wrote d d' k o →
  db_view d' account_bucket k' = if decide (k' = k) then o else db_view d account_bucket k'.
Proof.
  intros [_ Hb] (_ & _ & Hv). rewrite (Hv _ _ Hb). unfold view_put.
  repeat case_decide; tauto.
Qed.

Lemma wrote_acct_at d d' k o id :
  ready d → wrote d d' k o →
  acct_at d' id = if decide (id = k) then o ≫= Decode else acct_at d id.
Proof. intros Hr Hw. unfold acct_at. rewrite (wrote_view _ _ _ _ _ Hr Hw). by case_decide. Qed.

Lemma db_Put_wrote d d' k x r :
  ready d → db_Put account_bucket k x d = (d', r) →
  (r = Ok tt ∧ wrote d d' k (Some x)) ∨ (∃ e, r = Err e ∧ d' = d).
Proof.
  intros [Ho Hb] H. apply Put_spec in H as [(-> & Ho' & Hb' & Hv)|]; [|by right|done..].
  left. split; [done|]. unfold wrote, ready. split_and!; eauto.
Qed.

Lemma db_Delete_wrote d d' k r :
  ready d → db_Delete account_bucket k d = (d', r) → r = Ok tt ∧ wrote d d' k None.
Proof.
  intros [Ho Hb] H. apply Delete_spec in H as (-> & Ho' & Hb' & Hv); [|done..].
  split; [done|]. unfold wrote, ready. split_and!; eauto.
Qed.

Lemma GetAccount_run d id :
  ready d →
  GetAccount id d = (d, match db_view d account_bucket id with
    | None => Ok None
    | Some b => match Decode b with
        | Some a => Ok (Some a)
        | None => Err ("account " +:+ id +:+ " decode failed: " +:+ "proto: cannot unmarshal")
        end
    end).
Proof.
  intros [Ho Hb]. unfold GetAccount. unfold_m. rewrite Get_spec by done.
  destruct (db_view d account_bucket id) as [b|]; [|done].
  unfold decode_res. destruct (Decode b); [done|]. by rewrite !str_app_assoc.
Qed.

Lemma GetAccount_Ok d d' id o :
  ready d → GetAccount id d = (d', Ok o) → d' = d ∧ acct_at d id = o.
Proof.
  intros Hr H. rewrite GetAccount_run in H by done. unfold acct_at.
  repeat case_match; simplify_eq; auto.
Qed.

Lemma GetAccount_state d id : ready d → (GetAccount id d).1 = d.
Proof. intros Hr. by rewrite GetAccount_run. Qed.

Lemma GetAccount_no_panic d id : ready d → is_Panic (GetAccount id d).2 = false.
Proof. intros Hr. rewrite GetAccount_run by done. by repeat case_match. Qed.

Lemma GetAccount_found d id a : ready d → acct_at d id = Some a → GetAccount id d = (d, Ok (Some a)).
Proof.
  intros Hr Ha. rewrite GetAccount_run by done. unfold acct_at in Ha.
  destruct (db_view d account_bucket id); simpl in *; [|done]. by rewrite Ha.
Qed.

(** Saving an account changes that account and nothing else, or nothing at all. *)
Lemma SaveAccount_cases d d' a r :
  ready d → SaveAccount (Some a) d = (d', r) →
  (∃ b, Encode a = Some b ∧ r = Ok tt ∧ wrote d d' (acc_AccountID a) (Some b)) ∨ (∃ e, r = Err e ∧ d' = d).
Proof.
  intros Hr. unfold SaveAccount, encode_ptr, encode_res. unfold_m. simpl.
  destruct (Encode a) as [b|] eqn:E; [|intros [= <- <-]; right; eauto].
  destruct (db_Put _ _ _ d) as [d1 r1] eqn:H.
  apply db_Put_wrote in H as [[-> Hw]|[e [-> ->]]]; [| |done].
  - intros [= <- <-]. left. eauto.
  - intros [= <- <-]. right. eauto.
Qed.

Lemma SaveAccount_Ok d d' a :
  ready d → SaveAccount (Some a) d = (d', Ok tt) →
  ready d' ∧ (∀ id, acct_at d' id = if decide (id = acc_AccountID a) then Some a else acct_at d id).
Proof.
  intros Hr H. apply SaveAccount_cases in H as [(b & Hb & _ & Hw)|(e & ? & _)]; [|done|done].
  split; [apply Hw|]. intros id. rewrite (wrote_acct_at _ _ _ _ _ Hr Hw).
  case_decide; [|done]. by apply Decode_Encode.
Qed.

Lemma SaveAccount_ready d d' a r : ready d → SaveAccount (Some a) d = (d', r) → ready d'.
Proof.
  intros Hr H. apply SaveAccount_cases in H as [(b & _ & _ & Hw)|(e & _ & ->)]; [apply Hw|done..].
Qed.

(** A new account is saved like any other. *)
Lemma CreateAccount_saves reserve (d d' : D) id bal signer seq :
  CreateAccount reserve id bal signer seq d = (d', Ok tt) →
  reserve <= bal ∧ SaveAccount (Some (new_account id bal signer seq)) d = (d', Ok tt).
Proof.
  unfold CreateAccount. case_decide; [done|]. intros Hc. split; [lia|]. revert Hc.
  unfold SaveAccount, encode_ptr. unfold_m. simpl. by destruct (encode_res _).
Qed.

Lemma CreateAccount_Ok reserve d d' id bal signer seq :
  ready d → CreateAccount reserve id bal signer seq d = (d', Ok tt) →
  reserve <= bal ∧ ready d' ∧
  (∀ id', acct_at d' id' = if decide (id' = id) then Some (new_account id bal signer seq) else acct_at d id').
Proof. intros Hr [Hle Hs]%CreateAccount_saves. split; [done|]. by apply SaveAccount_Ok in Hs. Qed.

(** ** Trust lines

    A trust line is stored under the account ID followed by the encoded asset, in the bucket of
    the accounts. *)

Definition tkey (id : string) (asset : Asset) (k : string) : Prop :=
  ∃ ab, Encode asset = Some ab ∧ k = id +:+ ab.

Lemma GetTrust_found d id asset t :
  ready d → id ≠ ast_Issuer asset → trust_at d id asset = Some t →
  GetTrust id (Some asset) d = (d, Ok (Some t)).
Proof.
  intros [Ho Hb] Hi Ht. unfold trust_at in Ht. unfold GetTrust, trust_key, encode_ptr, encode_res.
  destruct (Encode asset) as [ab|]; simpl in Ht; [|done]. unfold_m. simpl. rewrite decide_False by done. simpl.
  rewrite Get_spec by done. destruct (db_view _ _ _) as [b|]; simpl in *; [|done].
  unfold decode_res. by rewrite Ht.
Qed.

Lemma GetTrust_absent d id asset ab :
  ready d → id ≠ ast_Issuer asset → Encode asset = Some ab → db_view d account_bucket (id +:+ ab) = None →
  GetTrust id (Some asset) d = (d, Ok None).
Proof.
  intros [Ho Hb] Hi Ha Hn. unfold GetTrust, trust_key, encode_ptr, encode_res. rewrite Ha.
  unfold_m. simpl. rewrite decide_False by done. simpl. rewrite Get_spec by done. by rewrite Hn.
Qed.

Lemma SaveTrust_cases d d' t asset r :
  ready d → tst_Asset t = Some asset → SaveTrust (Some t) d = (d', r) →
  (∃ b k, Encode t = Some b ∧ tkey (tst_AccountID t) asset k ∧ r = Ok tt ∧ wrote d d' k (Some b)) ∨
  (∃ e, r = Err e ∧ d' = d).
Proof.
  intros Hr Ha. unfold SaveTrust, encode_ptr, encode_res, trust_key, tkey.
  unfold_m. simpl. rewrite Ha. unfold encode_ptr, encode_res. destruct (Encode t) as [b|] eqn:E; [|intros [= <- <-]; right; eauto].
  destruct (Encode asset) as [ab|] eqn:Ea; simpl; [|intros [= <- <-]; right; eauto].
  destruct (db_Put _ _ _ d) as [d1 r1] eqn:H.
  apply db_Put_wrote in H as [[-> Hw]|[e [-> ->]]]; [| |done].
  - intros [= <- <-]. left. eauto 10.
  - intros [= <- <-]. right. eauto.
Qed.

(** What a write to key [k] does to a trust line whose key is [k']. *)
Lemma wrote_trust_at d d' k o id asset k' :
  ready d → wrote d d' k o → tkey id asset k' →
  trust_at d' id asset = if decide (k' = k) then o ≫= Decode else trust_at d id asset.
Proof.
  intros Hr Hw (ab & Ha & ->). unfold trust_at. rewrite Ha. simpl.
  rewrite (wrote_view _ _ _ _ _ Hr Hw). by case_decide.
Qed.

Lemma SaveTrust_Ok d d' t asset :
  ready d → tst_Asset t = Some asset → SaveTrust (Some t) d = (d', Ok tt) →
  ready d' ∧ trust_at d' (tst_AccountID t) asset = Some t ∧
  ∃ b k, tkey (tst_AccountID t) asset k ∧ wrote d d' k (Some b).
Proof.
  intros Hr Ha H. destruct (SaveTrust_cases _ _ _ _ _ Hr Ha H) as [(b & k & Hb & Hk & _ & Hw)|(e & ? & _)]; [|done].
  split_and!; [apply Hw| |eauto]. rewrite (wrote_trust_at _ _ _ _ _ _ _ Hr Hw Hk), decide_True by done.
  by apply Decode_Encode.
Qed.

Definition new_trust (id : string) (asset : Asset) (limit : Z) : Trust :=
  mkTrust id (Some asset) 0 limit (Some (mkLiability 0 0)) 1.

Lemma CreateTrust_Ok d d' id asset ab limit :
  ready d → id ≠ ast_Issuer asset → Encode asset = Some ab → CreateTrust id (Some asset) limit d = (d', Ok tt) →
  ready d' ∧ trust_at d' id asset = Some (new_trust id asset limit) ∧ ∃ b, wrote d d' (id +:+ ab) (Some b).
Proof.
  intros Hr Hi Ha H.
  assert (SaveTrust (Some (new_trust id asset limit)) d = (d', Ok tt)) as Hs.
  { revert H. unfold CreateTrust, SaveTrust, trust_key, encode_ptr. unfold_m. simpl.
    rewrite decide_False by done. fold (new_trust id asset limit).
    destruct (encode_res (new_trust id asset limit)), (encode_res asset); simpl; try done.
    by destruct (db_Put _ _ _ d) as [? []]. }
  apply (SaveTrust_Ok _ _ _ asset) in Hs as (? & ? & b & k & (ab' & Hab & ->) & Hw); [|done..].
  simpl in *. simplify_eq. split_and!; eauto.
Qed.

End abstraction.

(** * Field-update lemmas *)

Lemma UpdateBalance_Ok_eq acc n acc' :
  UpdateBalance acc n = Ok acc' → acc' = set_acc_Balance (wrap64 (acc_Balance acc + n)) acc.
Proof. unfold UpdateBalance. by repeat case_decide; intros [=]. Qed.

Lemma UpdateBalance_ID acc n acc' : UpdateBalance acc n = Ok acc' → acc_AccountID acc' = acc_AccountID acc.
Proof. by intros ->%UpdateBalance_Ok_eq. Qed.

Lemma UpdateBalance_no_panic acc n : is_Panic (UpdateBalance acc n) = false.
Proof. unfold UpdateBalance. by repeat case_decide. Qed.

Lemma update_side_spec cur amount :
  0 <= cur <= MaxInt64 → int64 amount →
  update_side cur amount =
    if decide (0 <= cur + amount <= MaxInt64) then Ok (cur + amount) else Err ErrInvalidUpdate.
Proof.
  intros Hc Ha. unfold update_side.
  rewrite !(wrap64_id (MaxInt64 - cur)), (wrap64_id (- cur)) by (unfold_int; lia).
  repeat case_decide; try done; try (unfold_int; lia).
  rewrite wrap64_id; [done|]. unfold_int; lia.
Qed.

(** A signed update of one side of an account's or a trust line's liability. *)
Definition add_side (l : Liability) (amount : Z) (buy : bool) : Liability :=
  if buy then set_lb_Buying (lb_Buying l + amount) l else set_lb_Selling (lb_Selling l + amount) l.

Lemma update_liab_Ok l amount buy l' :
  wf_liab l → int64 amount → update_liab l amount buy = Ok l' → l' = add_side l amount buy ∧ wf_liab l'.
Proof.
  intros [Hb Hs] Ha. unfold update_liab, add_side.
  destruct buy; rewrite update_side_spec by done; case_decide; simpl; intros [= <-];
    unfold wf_liab; simpl; auto.
Qed.

Lemma add_side_0 l buy : add_side l 0 buy = l.
Proof. unfold add_side, set_lb_Buying, set_lb_Selling. destruct l, buy; simpl; by rewrite Z.add_0_r. Qed.

Lemma UpdateLiability_Ok a l amount buy oa :
  acc_Liability a = Some l → wf_liab l → int64 amount → UpdateLiability (Some a) amount buy = Ok oa →
  oa = Some (set_acc_Liability (Some (add_side l amount buy)) a) ∧ wf_liab (add_side l amount buy).
Proof.
  intros Hl Hw Ha. unfold UpdateLiability, acc_liab. case_decide as Hz.
  - subst amount. intros [= <-]. rewrite add_side_0. split; [|done]. f_equal. destruct a; simpl in *. by subst.
  - simpl. rewrite Hl. simpl. destruct (update_liab l amount buy) eqn:E; simpl; intros [= <-].
    by apply update_liab_Ok in E as [-> ?].
Qed.

Lemma UpdateTrustLiability_Ok t l amount buy ot :
  tst_Liability t = Some l → wf_liab l → int64 amount → UpdateTrustLiability (Some t) amount buy = Ok ot →
  ot = Some (set_tst_Liability (Some (add_side l amount buy)) t) ∧ wf_liab (add_side l amount buy).
Proof.
  intros Hl Hw Ha. unfold UpdateTrustLiability, tst_liab. case_decide as Hz.
  - subst amount. intros [= <-]. rewrite add_side_0. split; [|done]. f_equal. destruct t; simpl in *. by subst.
  - simpl. rewrite Hl. simpl. destruct (update_liab l amount buy) eqn:E; simpl; intros [= <-].
    by apply update_liab_Ok in E as [-> ?].
Qed.

(** * Properties *)

(** The account storage is a map from account IDs to accounts.  On any store that obeys the
    database interface, an account that was saved is read back unchanged, every other account reads
    as before, and neither step dies or reports an error other than a refused encoding or write. *)
Theorem save_then_get_account {D : Type} {StoreD : Store D} {LawsD : StoreLaws D} {Pbc : PbCodec}
    (d d' : D) (a : Account) (id : string) :
  ready d → SaveAccount (Some a) d = (d', Ok tt) →
  GetAccount (acc_AccountID a) d' = (d', Ok (Some a)) ∧
  (id ≠ acc_AccountID a → (GetAccount id d').2 = (GetAccount id d).2).
Proof.
  intros Hr H. pose proof H as Hc.
  apply SaveAccount_Ok in H as [Hr' Ha]; [|done].
  apply SaveAccount_cases in Hc as [(b & _ & _ & Hw)|(e & ? & _)]; [|done..].
  split; [apply GetAccount_found; [done|]; by rewrite Ha, decide_True|].
  intros Hne. rewrite !GetAccount_run by done. simpl.
  by rewrite (wrote_view _ _ _ _ _ Hr Hw), decide_False.
Qed.

(** Crediting an account.  A positive amount is added exactly, or refused with
    [ErrBalanceOverflow] when the sum does not fit an int64; no other field changes. *)
Theorem UpdateBalance_credit (acc : Account) (n : Z) :
  int64 (acc_Balance acc) → 0 < n <= MaxInt64 →
  UpdateBalance acc n =
    if decide (acc_Balance acc + n <= MaxInt64)
    then Ok (set_acc_Balance (acc_Balance acc + n) acc) else Err ErrBalanceOverflow.
Proof.
  intros Hb Hn. unfold UpdateBalance. rewrite (wrap64_id (MaxInt64 - n)) by (unfold_int; lia).
  repeat case_decide; try done; try (unfold_int; lia).
  rewrite wrap64_id; [done|unfold_int; lia].
Qed.

(** Debiting an account with a non-negative balance is never refused: the guard compares the
    balance with the negative amount itself, so [ErrBalanceUnderflow] cannot be returned and any
    debit that exceeds the balance leaves a negative balance. *)
Theorem UpdateBalance_debit_unguarded (acc : Account) (n : Z) :
  0 <= acc_Balance acc <= MaxInt64 → 0 < n <= MaxInt64 →
  UpdateBalance acc (- n) = Ok (set_acc_Balance (acc_Balance acc - n) acc).
Proof.
  intros Hb Hn. unfold UpdateBalance.
  repeat case_decide; try (unfold_int; lia).
  rewrite wrap64_id by (unfold_int; lia). by rewrite Z.add_opp_r.
Qed.

(** The liability invariant.  From non-negative liabilities, an update of either side adds the
    amount exactly and keeps both sides between zero and the largest int64, and it is refused with
    [ErrInvalidUpdate] exactly when the result would leave that interval. *)
Theorem UpdateLiability_invariant (acc : Account) (l : Liability) (amount : Z) (buy : bool) :
  acc_Liability acc = Some l → wf_liab l → int64 amount → amount ≠ 0 →
  let side := if buy then lb_Buying l else lb_Selling l in
  let l' := if buy then set_lb_Buying (side + amount) l else set_lb_Selling (side + amount) l in
  (0 <= side + amount <= MaxInt64 ∧
    UpdateLiability (Some acc) amount buy = Ok (Some (set_acc_Liability (Some l') acc)) ∧ wf_liab l') ∨
  (¬ (0 <= side + amount <= MaxInt64) ∧ UpdateLiability (Some acc) amount buy = Err ErrInvalidUpdate).
Proof.
  intros Hl [Hb Hs] Ha Hz. simpl. unfold UpdateLiability, acc_liab, update_liab.
  rewrite decide_False by done. simpl. rewrite Hl. simpl.
  destruct buy; rewrite update_side_spec by done; case_decide; simpl; [left|right|left|right];
    unfold wf_liab; simpl; split_and?; first [done|lia].
Qed.

(** Entry accounting.  When the count of owned entries changes, the update succeeds only if the
    balance still covers the base reserve of every entry together with the selling liability, and
    then only the entry count changes. *)
Theorem UpdateEntryCount_reserve (reserve : Z) (acc acc' : Account) (l : Liability) (n : Z) :
  acc_Liability acc = Some l → int64 (reserve * (acc_EntryCount acc + n)) →
  int32 (acc_EntryCount acc + n) → int64 (reserve * (acc_EntryCount acc + n) + lb_Selling l) → n ≠ 0 →
  UpdateEntryCount reserve acc n = Ok acc' →
  reserve * acc_EntryCount acc' + lb_Selling l <= acc_Balance acc' ∧
  acc' = set_acc_EntryCount (acc_EntryCount acc + n) acc.
Proof.
  intros Hl H1 H2 H3 Hn. unfold UpdateEntryCount, acc_liab. rewrite decide_False by done.
  rewrite Hl. simpl. rewrite (wrap32_id _ H2), (Z.mul_comm _ reserve), (wrap64_id _ H1), (wrap64_id _ H3).
  case_decide; [done|]. intros [= <-]. simpl. split; [lia|done].
Qed.

(** The trust line an issuer gets for its own asset carries no liability record, so asking for
    its available balance or its remaining limit is a nil dereference. *)
Theorem issuer_trust_has_no_liability {D : Type} {StoreD : Store D} {Pbc : PbCodec} (d : D) (a : Asset) :
  ∃ t, GetTrust (ast_Issuer a) (Some a) d = (d, Ok (Some t)) ∧
    is_Panic (GetTrustBalance t) = true ∧ is_Panic (GetTrustRestLimit t) = true.
Proof.
  eexists. unfold GetTrust. unfold_m. simpl. rewrite decide_True by done. done.
Qed.

(** * Witnesses *)

Definition alice : Account := mkAccount "alice" 1000 "alice" 1 0 [] (Some (mkLiability 10 20)).
Definition bob : Account := mkAccount "bob" 5 "alice" 1 0 [] (Some (mkLiability 0 0)).

Lemma save_then_get_account_witness :
  let db := Some ∅ : memdb in
  let run := @SaveAccount memdb (@memdb_Store ref_runtime) ref_codec (Some alice) db in
  @GetAccount memdb (@memdb_Store ref_runtime) ref_codec "alice" run.1 = (run.1, Ok (Some alice)).
Proof.
  intros db run.
  apply (@save_then_get_account memdb (@memdb_Store ref_runtime) (@memdb_StoreLaws ref_runtime) ref_codec
    db run.1 alice "bob").
  - split; [by eexists|]. by apply (bool_decide_unpack _).
  - vm_compute. reflexivity.
Defined.

Lemma UpdateBalance_credit_witness : UpdateBalance alice 500 = Ok (set_acc_Balance 1500 alice).
Proof. rewrite UpdateBalance_credit; [reflexivity|split; discriminate|split; [reflexivity|discriminate]]. Defined.

Lemma UpdateBalance_debit_unguarded_witness : UpdateBalance bob (- 100) = Ok (set_acc_Balance (-95) bob).
Proof. apply (UpdateBalance_debit_unguarded bob 100); [split; discriminate|split; [reflexivity|discriminate]]. Defined.

Lemma UpdateLiability_invariant_witness :
  wf_liab (mkLiability 10 20) ∧
  UpdateLiability (Some alice) (-20) false = Ok (Some (set_acc_Liability (Some (mkLiability 10 0)) alice)).
Proof.
  split; [repeat split; discriminate|].
  destruct (UpdateLiability_invariant alice (mkLiability 10 20) (-20) false) as [(_ & H & _)|(H & _)];
    [reflexivity|repeat split; discriminate|split; discriminate|discriminate|exact H|].
  exfalso. apply H. split; discriminate.
Defined.

Lemma UpdateEntryCount_reserve_witness :
  100 * 1 + 20 <= 1000 ∧ UpdateEntryCount 100 alice 1 = Ok (set_acc_EntryCount 1 alice).
Proof.
  assert (UpdateEntryCount 100 alice 1 = Ok (set_acc_EntryCount 1 alice)) as H by (vm_compute; reflexivity).
  split; [|exact H].
  apply (UpdateEntryCount_reserve 100 alice (set_acc_EntryCount 1 alice) (mkLiability 10 20) 1);
    [reflexivity|split; discriminate|split; discriminate|split; discriminate|discriminate|exact H].
Defined.
