(* ===== verification/Exchange.v ===== *)
(** The distributed exchange: prices and rounding ([exchange/util.go], [exchange/sorter.go]),
    orders ([exchange/order.go]) and the exchange manager ([exchange/manager.go]).

    An [Order] is a Go struct that [Exchange], [Fill] and [FillOrder] mutate through a pointer and
    whose mutations survive a returned error, so those run in the state monad over the store, the
    order and, for [Fill], the offer. *)

From S2P Require Import Prelude Pb Db Account.

(** * Rounding and prices *)

Inductive RoundType := RoundUp | RoundDown.

#[global] Instance RoundType_eq_dec : EqDecision RoundType.
Proof. solve_decision. Defined.

Definition MultiplyInt64 (lhs rhs : Z) : Z := lhs * rhs.

(** [big.Int.DivMod]: Euclidean division.  [big.Int.Int64] keeps the low 64 bits. *)
Definition DivideBigInt (val divisor : Z) (roundType : RoundType) : res Z :=
  if decide (divisor = 0) then Panic "division by zero"
  else
    let quotient := Z.sgn divisor * (val / Z.abs divisor) in
    let modulus := val mod Z.abs divisor in
    let q := wrap64 quotient in
    let remainder := wrap64 modulus in
    if decide (roundType = RoundUp ∧ 0 < remainder) then Ok (wrap64 (q + 1)) else Ok q.

(** [big.NewRat] panics on a zero denominator and makes the denominator positive. *)
Definition NewRat (p : Price) : res (Z * Z) :=
  if decide (pr_Denominator p = 0) then Panic "division by zero"
  else Ok (Z.sgn (pr_Denominator p) * pr_Numerator p, Z.abs (pr_Denominator p)).

Definition ComparePrice (lhs rhs : option Price) : res Z :=
  let? lp := deref lhs in
  let? l := NewRat lp in
  let? rp := deref rhs in
  let? r := NewRat rp in
  Ok (Z.sgn (l.1 * r.2 - r.1 * l.2)).

(** [OfferSlice.Less], on offers whose prices compare. *)
Definition offer_less (a b : Offer) : bool :=
  match ComparePrice (of_Price a) (of_Price b) with
  | Ok c => bool_decide (c <= 0)
  | _ => false
  end.

Definition price_ok (o : option Price) : bool :=
  match o with Some p => bool_decide (pr_Denominator p ≠ 0) | None => false end.

(** [sort.Sort(OfferSlice(offers))]: sorting two or more offers compares each of them. *)
Definition sort_offers `{!GoRuntime} (offers : list Offer) : res (list Offer) :=
  if decide (2 <= length offers ∧ forallb (λ o, price_ok (of_Price o)) offers = false)%nat
  then Panic "invalid offer price"
  else Ok (go_sort offer_less offers).

(** * Orders *)

Record Order := mkOrder {
  o_AccountID : string;
  o_SellAsset : option Asset;
  o_MaxSellAsset : Z;
  o_BuyAsset : option Asset;
  o_MaxBuyAsset : Z;
  o_Price : option Price;
  o_SellAssetSold : Z;
  o_BuyAssetBought : Z;
  o_FilledOffers : list Offer;
  o_Full : bool;
  o_FilterPrice : bool;
}.

(** A composite literal: the fields that are not given are zero. *)
Definition new_order (account : string) (sell : option Asset) (maxSell : Z) (buy : option Asset)
    (maxBuy : Z) (price : option Price) (filter : bool) : Order :=
  mkOrder account sell maxSell buy maxBuy price 0 0 [] false filter.

Definition add_filled (f : Offer) (o : Order) : Order :=
  mkOrder (o_AccountID o) (o_SellAsset o) (o_MaxSellAsset o) (o_BuyAsset o) (o_MaxBuyAsset o) (o_Price o)
    (o_SellAssetSold o) (o_BuyAssetBought o) (o_FilledOffers o ++ [f]) (o_Full o) (o_FilterPrice o).

(** * Crossing an order with an offer *)

(** The scaled value of an offer: the smaller of the two sides. *)
Definition getOfferValue (maxToSell maxToBuy : Z) (price : Price) : Z :=
  let sellValue := MultiplyInt64 maxToSell (pr_Numerator price) in
  let buyValue := MultiplyInt64 maxToBuy (pr_Denominator price) in
  if decide (sellValue < buyValue) then sellValue else buyValue.

(** Amounts of SellAsset sold and BuyAsset bought by the order. *)
Definition exchange_amounts (orderValue offerValue : Z) (p : Price) : res (Z * Z) :=
  let num := pr_Numerator p in
  let den := pr_Denominator p in
  if decide (orderValue < offerValue) then
    if decide (den < num) then
      let? buyAssetBought := DivideBigInt orderValue num RoundDown in
      let? sellAssetSold := DivideBigInt (MultiplyInt64 buyAssetBought num) den RoundUp in
      Ok (sellAssetSold, buyAssetBought)
    else
      let? sellAssetSold := DivideBigInt orderValue den RoundDown in
      let? buyAssetBought := DivideBigInt (MultiplyInt64 sellAssetSold den) num RoundDown in
      Ok (sellAssetSold, buyAssetBought)
  else
    if decide (den < num) then
      let? buyAssetBought := DivideBigInt offerValue num RoundDown in
      let? sellAssetSold := DivideBigInt (MultiplyInt64 buyAssetBought num) den RoundDown in
      Ok (sellAssetSold, buyAssetBought)
    else
      let? sellAssetSold := DivideBigInt offerValue den RoundDown in
      let? buyAssetBought := DivideBigInt (MultiplyInt64 sellAssetSold den) num RoundUp in
      Ok (sellAssetSold, buyAssetBought).

Definition MinInt64of (x y : Z) : Z := if decide (x <= y) then x else y.

Definition Exchange (order : Order) (maxOfferBuyAsset maxOfferSellAsset : Z) (offerPrice : option Price)
    (checkError : bool) : res Order :=
  let? orderPrice := deref (o_Price order) in
  let orderValue := getOfferValue (o_MaxSellAsset order) (o_MaxBuyAsset order) orderPrice in
  let? offerPrice := deref offerPrice in
  let offerValue := getOfferValue maxOfferSellAsset maxOfferBuyAsset offerPrice in
  let? amounts := exchange_amounts orderValue offerValue offerPrice in
  let sellAssetSold := amounts.1 in
  let buyAssetBought := amounts.2 in
  if decide (checkError = true ∧
      (buyAssetBought < 0 ∨ MinInt64of maxOfferSellAsset (o_MaxBuyAsset order) < buyAssetBought))
  then Panic "order buy asset out of bounds"
  else if decide (checkError = true ∧
      (sellAssetSold < 0 ∨ MinInt64of maxOfferBuyAsset (o_MaxSellAsset order) < sellAssetSold))
  then Panic "order sell asset out of bounds"
  else
    let maxSell := wrap64 (o_MaxSellAsset order - sellAssetSold) in
    let maxBuy := wrap64 (o_MaxBuyAsset order - buyAssetBought) in
    Ok (mkOrder (o_AccountID order) (o_SellAsset order) maxSell (o_BuyAsset order) maxBuy (o_Price order)
      (wrap64 (o_SellAssetSold order + sellAssetSold)) (wrap64 (o_BuyAssetBought order + buyAssetBought))
      (o_FilledOffers order)
      (bool_decide (orderValue < offerValue ∨ maxSell = 0 ∨ maxBuy = 0))
      (o_FilterPrice order)).

(** * The manager *)

Definition exchange_bucket : string := "EXCHANGE".
Definition offer_bucket : string := "OFFER".

Definition GetOfferKey (names : list string) : string := str_join "_" names.

Definition GetMaxToSell (baseReserve : Z) (acc : option Account) (sellTrust : option Trust) : res Z :=
  let native := let? a := deref acc in GetBalance baseReserve a in
  match sellTrust with
  | Some t => if decide (0 < tst_Authorized t) then GetTrustBalance t else native
  | None => native
  end.

Definition GetMaxToBuy (acc : option Account) (buyTrust : option Trust) : res Z :=
  match buyTrust with
  | Some t => GetTrustRestLimit t
  | None => let? a := deref acc in GetRestLimit a
  end.

(** The amounts an offer ties up: the result of exchanging it against an unlimited counterpart at
    the reciprocal price. *)
Definition GetLiability (offer : Offer) (buying : bool) : res Z :=
  let? p := deref (of_Price offer) in
  let ord := new_order "" None (of_Amount offer) None MaxInt64 (of_Price offer) false in
  let rp := mkPrice (pr_Denominator p) (pr_Numerator p) in
  let? ord' := res_wrap "exchange assets failed: " (Exchange ord MaxInt64 MaxInt64 (Some rp) false) in
  if buying then Ok (o_BuyAssetBought ord') else Ok (o_SellAssetSold ord').

Definition is_native (a : option Asset) : res bool :=
  let? a := deref a in Ok (bool_decide (ast_AssetType a = NATIVE)).

Section manager.
Context {D : Type} {StoreD : Store D} {Pbc : PbCodec} {GoRt : GoRuntime}.
Variable baseReserve : Z.

Definition decode_offers (bs : list string) : res (list Offer) :=
  foldr (λ b acc, let? o := res_wrap "decode offer failed: " (decode_res b) in
                  let? l := acc in Ok (o :: l)) (Ok []) bs.

Definition loadOffers (sellAsset buyAsset : string) : M D (list Offer) :=
  let! bs := wrap "load offer list failed: " (db_GetAll exchange_bucket (sellAsset +:+ "_" +:+ buyAsset)) in
  let! offers := lift (decode_offers bs) in
  lift (sort_offers offers).

Definition GetOffer (accountID sellAsset buyAsset offerID : string) : M D (option Offer) :=
  let! b := wrap "get offer from db failed: " (db_Get offer_bucket (GetOfferKey [accountID; offerID])) in
  match b with
  | None => ret None
  | Some b =>
      let! offer := wrap "decode offer failed: " (lift (decode_res b)) in
      if decide (of_OfferID offer ≠ offerID) then fail "offerID is incompatible"
      else
        let! s := lift (deref (of_SellAsset offer)) in
        if decide (ast_AssetName s ≠ sellAsset) then fail "sell asset incompatible"
        else
          let! by_ := lift (deref (of_BuyAsset offer)) in
          if decide (ast_AssetName by_ ≠ buyAsset) then fail "buy asset incompatible"
          else ret (Some offer)
  end.

Definition GetAccountOffers (accountID : string) : M D (list Offer) :=
  let! bs := wrap "load offer list failed: " (db_GetAll offer_bucket accountID) in
  lift (decode_offers bs).

Definition offer_pair_key (offer : Offer) : res string :=
  let? s := deref (of_SellAsset offer) in
  let? b := deref (of_BuyAsset offer) in
  Ok (GetOfferKey [ast_AssetName s; ast_AssetName b; of_OfferID offer]).

Definition SaveOffer (offer : Offer) : M D unit :=
  let! offerb := wrap "encode offer failed: " (lift (encode_res offer)) in
  let! key := lift (offer_pair_key offer) in
  do! wrap "save offer in db failed: " (db_Put exchange_bucket key offerb) in
  wrap "save offer in db failed: "
    (db_Put offer_bucket (GetOfferKey [of_AccountID offer; of_OfferID offer]) offerb).

Definition DeleteOffer (offer : option Offer) : M D unit :=
  match offer with
  | None => ret tt
  | Some offer =>
      let! key := lift (offer_pair_key offer) in
      do! wrap "deleter offer in db failed: " (db_Delete exchange_bucket key) in
      wrap "deleter offer in offer db failed: "
        (db_Delete offer_bucket (GetOfferKey [of_AccountID offer; of_OfferID offer]))
  end.

Definition em_UpdateLiability (offer : Offer) (acquire : bool) : M D unit :=
  let! bl := wrap "get buying liability failed: " (lift (GetLiability offer true)) in
  let bl := if acquire then bl else wrap64 (- bl) in
  let! bn := lift (is_native (of_BuyAsset offer)) in
  do! (if bn : bool then
      let! acc := wrap "get account failed: " (GetAccount (of_AccountID offer)) in
      let! acc := wrap "update account buying liability failed: " (lift (UpdateLiability acc bl true)) in
      wrap "save account failed: " (SaveAccount acc)
    else
      let! trust := wrap "get trust failed: " (GetTrust (of_AccountID offer) (of_BuyAsset offer)) in
      let! trust := wrap "update trust buying liability failed: " (lift (UpdateTrustLiability trust bl true)) in
      wrap "save account failed: " (SaveTrust trust)) in
  let! sl := wrap "get selling liability failed: " (lift (GetLiability offer false)) in
  let sl := if acquire then sl else wrap64 (- sl) in
  let! sn := lift (is_native (of_SellAsset offer)) in
  if sn : bool then
    let! acc := wrap "get account failed: " (GetAccount (of_AccountID offer)) in
    let! acc := wrap "update account selling liability failed: " (lift (UpdateLiability acc sl false)) in
    wrap "save account failed: " (SaveAccount acc)
  else
    let! trust := wrap "get trust failed: " (GetTrust (of_AccountID offer) (of_BuyAsset offer)) in
    let! trust := wrap "update trust buying liability failed: " (lift (UpdateTrustLiability trust sl false)) in
    wrap "save account failed: " (SaveTrust trust).

(** Fill the order with one offer.  The account and the trust lines are loaded before the liability
    of the offer is released. *)
Definition Fill : M (D * (Order * Offer)) unit :=
  let! '(_, (_, offer)) := get in
  let! acc := wrap "load seller account of offer failed: " (on_fst (GetAccount (of_AccountID offer))) in
  let! sn := lift (is_native (of_SellAsset offer)) in
  let! buyAssetTrust :=
    if sn : bool then ret None
    else wrap "load sell asset trust for reciprocal offer failed: "
           (on_fst (GetTrust (of_AccountID offer) (of_SellAsset offer))) in
  let! bn := lift (is_native (of_BuyAsset offer)) in
  let! sellAssetTrust :=
    if bn : bool then ret None
    else wrap "load buy asset trust for reciprocal offer failed: "
           (on_fst (GetTrust (of_AccountID offer) (of_BuyAsset offer))) in
  do! wrap "release liability failed: " (on_fst (em_UpdateLiability offer false)) in
  let! maxBuyAsset := lift (GetMaxToSell baseReserve acc buyAssetTrust) in
  let! maxSellAsset := lift (GetMaxToBuy acc sellAssetTrust) in
  let! '(_, (o, _)) := get in
  let! o := wrap "exchange assets failed: " (lift (Exchange o maxBuyAsset maxSellAsset (of_Price offer) false)) in
  do! on_snd (modify (λ '(_, f), (o, f))) in
  let! acc :=
    if decide (o_BuyAssetBought o ≠ 0) then
      match buyAssetTrust with
      | Some t =>
          let! t := wrap "add trust balance failed: " (lift (UpdateTrustBalance t (o_BuyAssetBought o))) in
          do! wrap "save trust failed: " (on_fst (SaveTrust (Some t))) in
          ret (acc, Some t)
      | None =>
          let! a := lift (deref acc) in
          let! a := wrap "add account balance failed: " (lift (UpdateBalance a (o_BuyAssetBought o))) in
          do! wrap "save account failed: " (on_fst (SaveAccount (Some a))) in
          ret (Some a, buyAssetTrust)
      end
    else ret (acc, buyAssetTrust) in
  let '(acc, buyAssetTrust) := acc in
  let! acc :=
    if decide (o_SellAssetSold o ≠ 0) then
      match sellAssetTrust with
      | Some t =>
          let! t := wrap "substract trust balance failed: "
                      (lift (UpdateTrustBalance t (wrap64 (- o_SellAssetSold o)))) in
          do! wrap "save trust failed: " (on_fst (SaveTrust buyAssetTrust)) in
          ret acc
      | None =>
          let! a := lift (deref acc) in
          let! a := wrap "substract account balance failed: "
                      (lift (UpdateBalance a (wrap64 (- o_SellAssetSold o)))) in
          do! wrap "save account failed: " (on_fst (SaveAccount (Some a))) in
          ret (Some a)
      end
    else ret acc in
  let amount := if o_Full o then wrap64 (of_Amount offer - o_BuyAssetBought o) else 0 in
  let offer := set_of_Amount amount offer in
  do! on_snd (modify (λ '(o, _), (o, offer))) in
  if decide (amount = 0) then
    do! wrap "delete offer failed: " (on_fst (DeleteOffer (Some offer))) in
    let! a := lift (deref acc) in
    let! a := wrap "update entry count failed: " (lift (UpdateEntryCount baseReserve a (-1))) in
    wrap "save account failed: " (on_fst (SaveAccount (Some a)))
  else
    do! wrap "save offer failed: " (on_fst (SaveOffer offer)) in
    wrap "acquire liability failed: " (on_fst (em_UpdateLiability offer true)).

(** The loop over the loaded offers.  The error of [Fill] is dropped. *)
Fixpoint fill_loop (threshold : Price) (offers : list Offer) : M (D * Order) unit :=
  match offers with
  | [] => ret tt
  | offer :: rest =>
      let! '(_, o) := get in
      let! stop :=
        if o_FilterPrice o then
          let! c := lift (ComparePrice (Some threshold) (of_Price offer)) in
          ret (bool_decide (c < 0))
        else ret false in
      if stop : bool then ret tt
      else if decide (of_AccountID offer = o_AccountID o) then ret tt
      else
        let! offer' := (λ '(d, o), let '((d', (o', f')), r) := try Fill (d, (o, offer)) in
                        ((d', o'), res_bind r (λ _, Ok f'))) in
        let! '(_, o) := get in
        if o_Full o then ret tt
        else
          do! on_snd (modify (add_filled offer')) in
          fill_loop threshold rest
  end.

Definition FillOrder : M (D * Order) unit :=
  let! '(_, o) := get in
  let! b := lift (deref (o_BuyAsset o)) in
  let! s := lift (deref (o_SellAsset o)) in
  let! offers := wrap "load offers failed: " (on_fst (loadOffers (ast_AssetName b) (ast_AssetName s))) in
  let! p := lift (deref (o_Price o)) in
  fill_loop (mkPrice (pr_Denominator p) (pr_Numerator p)) offers.

End manager.

(** * Lemmas on rounding *)

Lemma DivideBigInt_down val d : 0 < d → int64 (val / d) → DivideBigInt val d RoundDown = Ok (val / d).
Proof.
  intros Hd Hr. unfold DivideBigInt. rewrite decide_False by lia.
  cbv zeta. rewrite Z.sgn_pos, Z.abs_eq, Z.mul_1_l, (wrap64_id (val / d)) by (done || lia).
  rewrite decide_False; [done|]. by intros [? _].
Qed.

(** The ceiling of [a / b]. *)
Definition cdiv (a b : Z) : Z := (a + b - 1) / b.

Lemma cdiv_spec a b : 0 < b → a <= b * cdiv a b < a + b.
Proof.
  intros Hb. unfold cdiv. pose proof (Z.div_mod (a + b - 1) b ltac:(lia)).
  pose proof (Z.mod_pos_bound (a + b - 1) b Hb). lia.
Qed.

Lemma cdiv_div a b : 0 < b → cdiv a b = if decide (a mod b = 0) then a / b else a / b + 1.
Proof.
  intros Hb. pose proof (cdiv_spec a b Hb). pose proof (Z.div_mod a b ltac:(lia)).
  pose proof (Z.mod_pos_bound a b Hb). case_decide; nia.
Qed.

Lemma DivideBigInt_up val d : 0 < d <= MaxInt64 → int64 (cdiv val d) → int64 (val / d) →
  DivideBigInt val d RoundUp = Ok (cdiv val d).
Proof.
  intros Hd Hr Hq. unfold DivideBigInt. rewrite decide_False by lia.
  pose proof (Z.mod_pos_bound val d ltac:(lia)) as Hm.
  cbv zeta. rewrite Z.sgn_pos, Z.abs_eq, Z.mul_1_l, !(wrap64_id (val / d)), (wrap64_id (val mod d))
    by (unfold_int; lia).
  rewrite cdiv_div in * by lia. repeat case_decide; try done; try lia.
  - by rewrite wrap64_id.
  - exfalso. naive_solver lia.
Qed.

Lemma exchange_amounts_Ok orderValue offerValue num den v :
  0 < num <= MaxInt64 → 0 < den <= MaxInt64 → v = Z.min orderValue offerValue →
  0 <= v → v / num <= MaxInt64 → v / den <= MaxInt64 →
  (num <= den → cdiv (v / den * den) num <= MaxInt64) → (den < num → cdiv (v / num * num) den <= MaxInt64) →
  exchange_amounts orderValue offerValue (mkPrice num den) =
    if decide (den < num) then
      Ok (if decide (orderValue < offerValue) then cdiv (v / num * num) den else v / num * num / den, v / num)
    else
      Ok (v / den, if decide (orderValue < offerValue) then v / den * den / num else cdiv (v / den * den) num).
Proof.
  intros Hn Hd -> Hv H1 H2 H3 H4. unfold exchange_amounts, MultiplyInt64. simpl.
  assert (∀ a b, 0 < b → 0 <= a → 0 <= a / b) as Hpos by (intros; by apply Z.div_pos).
  assert (∀ a b, 0 < b → a / b <= cdiv a b) as Hcd by (intros; unfold cdiv; apply Z.div_le_mono; lia).
  assert (∀ a b, 0 < b → 0 <= a → 0 <= cdiv a b) as Hcp by (intros; unfold cdiv; apply Z.div_pos; lia).
  case_decide as Hlt; [rewrite Z.min_l in * by lia|rewrite Z.min_r in * by lia]; case_decide as Hdn.
  - specialize (H4 Hdn). pose proof (Hpos _ num ltac:(lia) Hv). pose proof (Hcd (orderValue / num * num) den ltac:(lia)).
    rewrite DivideBigInt_down by (unfold_int; lia). simpl.
    rewrite DivideBigInt_up; [done|unfold_int; lia| |].
    + pose proof (Hcp (orderValue / num * num) den ltac:(lia) ltac:(nia)). unfold_int; lia.
    + pose proof (Hpos (orderValue / num * num) den ltac:(lia) ltac:(nia)). unfold_int; lia.
  - assert (num <= den) as Hle by lia. specialize (H3 Hle). pose proof (Hpos _ den ltac:(lia) Hv).
    pose proof (Hcd (orderValue / den * den) num ltac:(lia)).
    rewrite DivideBigInt_down by (unfold_int; lia). simpl.
    rewrite DivideBigInt_down; [done|lia|].
    pose proof (Hpos (orderValue / den * den) num ltac:(lia) ltac:(nia)). unfold_int; lia.
  - specialize (H4 Hdn). pose proof (Hpos _ num ltac:(lia) Hv). pose proof (Hcd (offerValue / num * num) den ltac:(lia)).
    rewrite DivideBigInt_down by (unfold_int; lia). simpl.
    rewrite DivideBigInt_down; [done|lia|].
    pose proof (Hpos (offerValue / num * num) den ltac:(lia) ltac:(nia)). unfold_int; lia.
  - assert (num <= den) as Hle by lia. specialize (H3 Hle). pose proof (Hpos _ den ltac:(lia) Hv).
    pose proof (Hcd (offerValue / den * den) num ltac:(lia)).
    rewrite DivideBigInt_down by (unfold_int; lia). simpl.
    rewrite DivideBigInt_up; [done|unfold_int; lia| |].
    + pose proof (Hcp (offerValue / den * den) num ltac:(lia) ltac:(nia)). unfold_int; lia.
    + pose proof (Hpos (offerValue / den * den) num ltac:(lia) ltac:(nia)). unfold_int; lia.
Qed.

Lemma cdiv_le a b k : 0 < b → a <= b * k → cdiv a b <= k.
Proof. intros Hb Ha. pose proof (cdiv_spec a b Hb). nia. Qed.

Lemma cdiv_nonneg a b : 0 < b → 0 <= a → 0 <= cdiv a b.
Proof. intros Hb Ha. unfold cdiv. apply Z.div_pos; lia. Qed.

Lemma getOfferValue_min sell buy p :
  getOfferValue sell buy p = Z.min (sell * pr_Numerator p) (buy * pr_Denominator p).
Proof. unfold getOfferValue, MultiplyInt64. case_decide; lia. Qed.

(** A price whose two parts are positive int64 numbers. *)
Definition pos_price (p : Price) : Prop :=
  0 < pr_Numerator p <= MaxInt64 ∧ 0 < pr_Denominator p <= MaxInt64.

(** The amounts of an exchange: bounded by the limits that made the offer value, and off the exact
    price by less than one unit of the more valuable asset. *)
Definition fair (ov fv : Z) (p : Price) (sold bought : Z) : Prop :=
  let gap := sold * pr_Denominator p - bought * pr_Numerator p in
  let unit := Z.min (pr_Numerator p) (pr_Denominator p) in
  (ov < fv → 0 <= gap < unit) ∧ (fv <= ov → - unit < gap <= 0).

(** Rounding once down and once in either direction loses less than the divisors. *)
Lemma down_then_any v n d k :
  0 < n → 0 < d → 0 <= v <= k * n →
  0 <= v / n <= k ∧ 0 <= v / n * n <= v ∧
  (∀ m, v <= m * d → 0 <= v / n * n / d <= m ∧ 0 <= cdiv (v / n * n) d <= m) ∧
  0 <= cdiv (v / n * n) d * d - v / n * n < d ∧ - d < v / n * n / d * d - v / n * n <= 0.
Proof.
  intros Hn Hd Hv. pose proof (Z.div_mod v n ltac:(lia)) as Mn.
  pose proof (Z.mod_pos_bound v n Hn) as Bn. set (q := v / n) in *.
  assert (0 <= q <= k) as Hq by nia. assert (0 <= q * n <= v) as Hqn by nia. clear Mn Bn.
  set (w := q * n) in *. pose proof (cdiv_spec w d Hd). pose proof (Z.div_mod w d ltac:(lia)).
  pose proof (Z.mod_pos_bound w d Hd). split_and!; try lia.
  intros m Hm. pose proof (cdiv_le w d m Hd ltac:(lia)). pose proof (cdiv_nonneg w d Hd ltac:(lia)).
  assert (0 <= w / d <= cdiv w d); [|lia]. rewrite cdiv_div by done.
  pose proof (Z.div_pos w d). case_decide; lia.
Qed.

Lemma exchange_amounts_fair ov sell buy p :
  pos_price p → 0 <= ov → 0 <= sell <= MaxInt64 → 0 <= buy <= MaxInt64 →
  let fv := getOfferValue sell buy p in
  ∃ sold bought, exchange_amounts ov fv p = Ok (sold, bought) ∧
    0 <= sold <= buy ∧ 0 <= bought <= sell ∧ fair ov fv p sold bought ∧
    ∀ s b, ov <= s * pr_Denominator p → ov <= b * pr_Numerator p → sold <= s ∧ bought <= b.
Proof.
  destruct p as [n d]. intros [Hn Hd] Ho Hs Hb fv. simpl in *.
  assert (fv = Z.min (sell * n) (buy * d)) as Hf by apply getOfferValue_min.
  set (v := Z.min ov fv).
  assert (0 <= v ∧ v <= sell * n ∧ v <= buy * d ∧ v <= ov) as (Hv & Hvs & Hvb & Hvo) by nia.
  destruct (down_then_any v n d sell) as (N1 & N2 & N3 & N4 & N5); [lia..|].
  destruct (down_then_any v d n buy) as (D1 & D2 & D3 & D4 & D5); [lia..|].
  assert (∀ s b, ov <= s * d → ov <= b * n → v / n <= b ∧ v / d <= s ∧
    0 <= v / n * n / d <= s ∧ 0 <= cdiv (v / n * n) d <= s ∧ 0 <= v / d * d / n <= b ∧ 0 <= cdiv (v / d * d) n <= b) as Hlim.
  { intros s b H1 H2. destruct (N3 s ltac:(lia)), (D3 b ltac:(lia)).
    destruct (down_then_any v n d b) as ([_ ?] & _); [lia..|]. destruct (down_then_any v d n s) as ([_ ?] & _); [lia..|]. split_and!; lia. }
  specialize (N3 _ Hvb). specialize (D3 _ Hvs).
  rewrite (exchange_amounts_Ok ov fv n d v); [|lia||done..]. unfold fair; simpl. clear Hf Hv Hvs Hvb Hvo.
  repeat case_decide; eexists _, _; (split; [done|]); (split; [lia|]); (split; [lia|]); (split; [split; lia|]);
    intros s b H1 H2; destruct (Hlim s b H1 H2) as (? & ? & ? & ? & ? & ?); split; lia.
Qed.

(** The amounts of [Exchange]; they keep within the limits of the order when its terms are not larger. *)
Lemma Exchange_amounts o op p maxBuy maxSell :
  o_Price o = Some op → pos_price op → pos_price p → 0 <= o_MaxSellAsset o <= MaxInt64 → 0 <= o_MaxBuyAsset o <= MaxInt64 →
  0 <= maxBuy <= MaxInt64 → 0 <= maxSell <= MaxInt64 →
  let ov := getOfferValue (o_MaxSellAsset o) (o_MaxBuyAsset o) op in let fv := getOfferValue maxSell maxBuy p in
  ∃ sold bought, exchange_amounts ov fv p = Ok (sold, bought) ∧
    0 <= sold <= maxBuy ∧ 0 <= bought <= maxSell ∧ fair ov fv p sold bought ∧
    (pr_Numerator op <= pr_Denominator p → pr_Denominator op <= pr_Numerator p → sold <= o_MaxSellAsset o ∧ bought <= o_MaxBuyAsset o).
Proof.
  intros Hop [Hon Hod] Hp Hs Hb Hmb Hms ov fv. assert (ov = Z.min (o_MaxSellAsset o * pr_Numerator op) (o_MaxBuyAsset o * pr_Denominator op)) as Hov
    by apply getOfferValue_min.
  destruct (exchange_amounts_fair ov maxSell maxBuy p Hp ltac:(nia) Hms Hmb) as (sold & bought & Ha & Hsold & Hbought & Hf & Hl).
  exists sold, bought. split_and!; try done; try lia. intros H1 H2. apply Hl; nia.
Qed.

(** * Price order *)

(** [a] is not more expensive than [b], by cross multiplication. *)
Definition price_le (a b : Offer) : Prop :=
  match of_Price a, of_Price b with
  | Some p, Some q => pr_Numerator p * pr_Denominator q <= pr_Numerator q * pr_Denominator p
  | _, _ => False
  end.

Definition priced (o : Offer) : Prop := ∃ p, of_Price o = Some p ∧ 0 < pr_Denominator p.

Lemma offer_less_price_le a b : priced a → priced b → offer_less a b = true ↔ price_le a b.
Proof.
  intros (p & Hp & Hdp) (q & Hq & Hdq). unfold offer_less, price_le, ComparePrice, NewRat.
  rewrite Hp, Hq. simpl. rewrite !decide_False by lia. simpl. rewrite bool_decide_eq_true.
  rewrite (Z.sgn_pos (pr_Denominator p)), (Z.sgn_pos (pr_Denominator q)), !Z.abs_eq, !Z.mul_1_l by lia.
  destruct (Z.sgn_spec (pr_Numerator p * pr_Denominator q - pr_Numerator q * pr_Denominator p))
    as [[? ->]|[[? ->]|[? ->]]]; lia.
Qed.

Lemma price_le_total a b : priced a → priced b → price_le a b ∨ price_le b a.
Proof. intros (p & Hp & ?) (q & Hq & ?). unfold price_le. rewrite Hp, Hq. lia. Qed.

Lemma price_le_trans a b c : priced b → price_le a b → price_le b c → 
  priced a → priced c → price_le a c.
Proof.
  intros (q & Hq & ?) H1 H2 (p & Hp & ?) (r & Hr & ?). unfold price_le in *. rewrite Hp, Hq, Hr in *.
  nia.
Qed.

Lemma sort_le_price_le a b : priced a → priced b → sort_le offer_less a b ↔ price_le a b.
Proof.
  intros Ha Hb. unfold sort_le. rewrite offer_less_price_le by done. split; [|by left].
  intros [?|Hf]; [done|]. destruct (price_le_total a b Ha Hb) as [|H]; [done|].
  apply offer_less_price_le in H; [congruence|done..].
Qed.

(** Sorting offers whose prices are all defined. *)
Lemma sort_offers_spec {GoRt : GoRuntime} offers :
  Forall priced offers →
  ∃ l, sort_offers offers = Ok l ∧ l ≡ₚ offers ∧ StronglySorted price_le l.
Proof.
  intros Hp. unfold sort_offers. rewrite decide_False.
  2:{ intros [_ Hf]. apply Bool.not_true_iff_false in Hf. apply Hf, forallb_forall.
      intros o Ho%list_elem_of_In. rewrite Forall_forall in Hp.
      destruct (Hp o Ho) as (p & Hpr & ?). unfold price_ok. rewrite Hpr. apply bool_decide_eq_true. lia. }
  eexists; split_and!; [done|apply go_sort_perm|].
  assert (Forall priced (go_sort offer_less offers)) as Hg by by rewrite go_sort_perm.
  assert (StronglySorted (sort_le offer_less) (go_sort offer_less offers)) as Hs.
  { apply go_sort_sorted. rewrite Forall_forall in Hp. intros a b c Ha Hb Hc.
    rewrite !sort_le_price_le by auto. intros. apply (price_le_trans a b c); auto. }
  induction Hs as [|a l Hs IH Ha]; constructor; apply Forall_cons in Hg as [Hpa Hg]; [by apply IH|].
  rewrite Forall_forall in *. intros b Hb. apply sort_le_price_le; auto.
Qed.

Lemma decode_offers_encoded {Pbc : PbCodec} (os : list Offer) bs :
  Forall2 (λ o b, Encode o = Some b) os bs → decode_offers bs = Ok os.
Proof.
  unfold decode_offers. induction 1 as [|o b os bs Ho _ IH]; [done|]. simpl.
  rewrite (decode_encode_res _ _ Ho). simpl. by rewrite IH.
Qed.

(** * Liabilities of an offer *)

Section liability.
Context {D : Type} {StoreD : Store D} {LawsD : StoreLaws D} {Pbc : PbCodec}.

(** The trust-line half of [em_UpdateLiability]. *)
Lemma trust_liability_step d d' id asset ab t l amount buy (p1 p2 p3 : string) :
  ready d → id ≠ ast_Issuer asset → Encode asset = Some ab → trust_at d id asset = Some t →
  tst_AccountID t = id → tst_Asset t = Some asset → tst_Liability t = Some l → wf_liab l → int64 amount →
  (let! trust := wrap p1 (GetTrust id (Some asset)) in
   let! trust := wrap p2 (lift (UpdateTrustLiability trust amount buy)) in
   wrap p3 (SaveTrust trust)) d = (d', Ok tt) →
  ready d' ∧ trust_at d' id asset = Some (set_tst_Liability (Some (add_side l amount buy)) t) ∧
  ∃ b, wrote d d' (id +:+ ab) (Some b).
Proof.
  intros Hr Hi Ha Ht Hid Has Hl Hw Hn H.
  apply bind_Ok in H as (d1 & ot & H1%wrap_Ok & H). rewrite (GetTrust_found d id asset t) in H1 by done.
  injection H1 as <- <-. apply bind_Ok in H as (d1 & ot & H1%wrap_Ok & H%wrap_Ok).
  unfold lift in H1. injection H1 as <- H1. apply (UpdateTrustLiability_Ok _ l) in H1 as [-> _]; [|done..].
  apply (SaveTrust_Ok _ _ _ asset) in H as (Hr' & Hv & b & k & (ab' & Hab & ->) & Hwr); [|done..].
  simpl in *. simplify_eq. split_and!; eauto.
Qed.

(** The account half. *)
Lemma account_liability_step d d' id a l amount buy (p1 p2 p3 : string) :
  ready d → acct_at d id = Some a → acc_AccountID a = id → acc_Liability a = Some l → wf_liab l → int64 amount →
  (let! acc := wrap p1 (GetAccount id) in
   let! acc := wrap p2 (lift (UpdateLiability acc amount buy)) in
   wrap p3 (SaveAccount acc)) d = (d', Ok tt) →
  ready d' ∧ acct_at d' id = Some (set_acc_Liability (Some (add_side l amount buy)) a) ∧
  ∃ b, wrote d d' id (Some b).
Proof.
  intros Hr Ha Hid Hl Hw Hn H.
  apply bind_Ok in H as (d1 & ot & H1%wrap_Ok & H). rewrite (GetAccount_found d id a) in H1 by done.
  injection H1 as <- <-. apply bind_Ok in H as (d1 & ot & H1%wrap_Ok & H%wrap_Ok).
  unfold lift in H1. injection H1 as <- H1. apply (UpdateLiability_Ok _ l) in H1 as [-> _]; [|done..].
  pose proof H as Hc. apply SaveAccount_Ok in H as (Hr' & Hv); [|done].
  apply SaveAccount_cases in Hc as [(b & _ & _ & Hwr)|(e & ? & _)]; [|done..].
  simpl in *. rewrite Hid in *. split_and!; [done| |eauto]. by rewrite Hv, decide_True.
Qed.

End liability.

(** * Properties *)

(** The order book.  On any store that obeys the database interface, loading the offers of a
    pair returns, without changing the store, exactly the offers stored under the prefix of the
    pair, in ascending order of price. *)
Theorem loadOffers_order_book {D : Type} {StoreD : Store D} {LawsD : StoreLaws D} {Pbc : PbCodec}
    {GoRt : GoRuntime} (d : D) (sell buy : string) :
  db_ok d → db_bucket d exchange_bucket →
  (∀ k x, has_prefix (sell +:+ "_" +:+ buy) k = true → db_view d exchange_bucket k = Some x →
    ∃ o, Encode o = Some x ∧ priced o) →
  ∃ l, loadOffers sell buy d = (d, Ok l) ∧ StronglySorted price_le l ∧
    ∀ o, o ∈ l ↔ ∃ k x, has_prefix (sell +:+ "_" +:+ buy) k = true ∧
                        db_view d exchange_bucket k = Some x ∧ Encode o = Some x.
Proof.
  intros Hok Hb Hall. destruct (GetAll_spec d exchange_bucket (sell +:+ "_" +:+ buy) Hok Hb) as (kvs & Hg & _ & Hin).
  assert (∃ os, Forall2 (λ o b, Encode o = Some b) os kvs.*2 ∧ Forall priced os) as (os & Hos & Hp).
  { assert (∀ k x, (k, x) ∈ kvs → ∃ o, Encode o = Some x ∧ priced o) as Hq by (intros k x; rewrite Hin; naive_solver).
    clear Hin Hg. induction kvs as [|[k x] kvs IH]; [exists []; by constructor|].
    destruct IH as (os & ? & ?); [set_solver|]. destruct (Hq k x) as (o & ? & ?); [set_solver|].
    exists (o :: os). by repeat constructor. }
  destruct (sort_offers_spec os Hp) as (l & Hl & Hperm & Hs). exists l. split_and!; [|done|].
  - unfold loadOffers. unfold_m. rewrite Hg. by rewrite (decode_offers_encoded os), Hl.
  - intros o. rewrite Hperm. split.
    + intros (i & Hi)%list_elem_of_lookup. destruct (Forall2_lookup_l _ _ _ _ _ Hos Hi) as (x & Hx & He).
      apply list_elem_of_lookup_2, list_elem_of_fmap in Hx as ([k x'] & -> & Hkx).
      exists k, x'. apply Hin in Hkx. tauto.
    + intros (k & x & Hk & Hx & He).
      assert (x ∈ kvs.*2) as (i & Hi)%list_elem_of_lookup.
      { apply list_elem_of_fmap. exists (k, x). split; [done|]. by apply Hin. }
      destruct (Forall2_lookup_r _ _ _ _ _ Hos Hi) as (o' & Ho' & He').
      rewrite (Encode_inj o o' x); [by eapply list_elem_of_lookup_2|done..].
Qed.

(** Crossing an order with an offer keeps within the limits of the offer, whatever the terms of the two prices.  For positive prices and
    non-negative limits [Exchange], without its check, returns, and neither amount overflows. *)
Theorem Exchange_within_offer (o : Order) (op p : Price) (maxBuy maxSell : Z) :
  o_Price o = Some op → pos_price op → pos_price p →
  0 <= o_MaxSellAsset o <= MaxInt64 → 0 <= o_MaxBuyAsset o <= MaxInt64 →
  0 <= maxBuy <= MaxInt64 → 0 <= maxSell <= MaxInt64 →
  ∃ o' sold bought, Exchange o maxBuy maxSell (Some p) false = Ok o' ∧
    0 <= sold <= maxBuy ∧ 0 <= bought <= maxSell ∧
    o_MaxSellAsset o' = o_MaxSellAsset o - sold ∧ o_MaxBuyAsset o' = o_MaxBuyAsset o - bought ∧
    fair (getOfferValue (o_MaxSellAsset o) (o_MaxBuyAsset o) op) (getOfferValue maxSell maxBuy p) p sold bought.
Proof.
  intros Hop Hp Hq Hs Hb Hmb Hms. destruct (Exchange_amounts o op p maxBuy maxSell) as (sold & bought & Ha & ? & ? & Hf & _); [done..|].
  unfold Exchange. rewrite Hop. simpl. rewrite Ha. simpl. rewrite ?decide_False by naive_solver.
  eexists _, sold, bought. split; [done|]. simpl. rewrite !(wrap64_id (_ - _)) by (unfold_int; lia). split_and!; try done; lia.
Qed.

(** C6: crossing an order with an offer.  Let the prices be positive, the terms of the order's price not larger than the
    terms of the offer's inverted price, the limits not negative, and what the order has traded and still may trade together fit an int64.  Then
    [Exchange] returns, with its check or without; the order gives
    [sold] units and receives [bought] units, within its own limits and those passed for the offer; its limits shrink and its totals grow by exactly
    what it has traded; and the value given differs from the value
    received by less than one unit at the price of the offer, to the advantage of the offer when
    the order is the smaller side and of the order otherwise. *)
Theorem Exchange_fair (o : Order) (op p : Price) (maxBuy maxSell : Z) (checkError : bool) :
  o_Price o = Some op → pos_price op → pos_price p →
  pr_Numerator op <= pr_Denominator p → pr_Denominator op <= pr_Numerator p →
  0 <= o_MaxSellAsset o → 0 <= o_SellAssetSold o → o_SellAssetSold o + o_MaxSellAsset o <= MaxInt64 →
  0 <= o_MaxBuyAsset o → 0 <= o_BuyAssetBought o → o_BuyAssetBought o + o_MaxBuyAsset o <= MaxInt64 →
  0 <= maxBuy <= MaxInt64 → 0 <= maxSell <= MaxInt64 →
  ∃ o' sold bought, Exchange o maxBuy maxSell (Some p) checkError = Ok o' ∧
    0 <= sold <= Z.min maxBuy (o_MaxSellAsset o) ∧ 0 <= bought <= Z.min maxSell (o_MaxBuyAsset o) ∧
    o_MaxSellAsset o' = o_MaxSellAsset o - sold ∧ o_MaxBuyAsset o' = o_MaxBuyAsset o - bought ∧
    o_SellAssetSold o' = o_SellAssetSold o + sold ∧ o_BuyAssetBought o' = o_BuyAssetBought o + bought ∧
    fair (getOfferValue (o_MaxSellAsset o) (o_MaxBuyAsset o) op) (getOfferValue maxSell maxBuy p) p sold bought.
Proof.
  intros Hop Hp Hq Hnd Hdn Hs Hs0 Hst Hb Hb0 Hbt Hmb Hms.
  destruct (Exchange_amounts o op p maxBuy maxSell) as (sold & bought & Ha & Hsold & Hbought & Hf & Hlim); [done|done|done|lia..|].
  destruct Hlim as [Hl1 Hl2]; [done..|]. unfold Exchange. rewrite Hop. simpl. rewrite Ha. simpl. unfold MinInt64of.
  rewrite decide_False by (intros [_ ?]; case_decide; lia). rewrite decide_False by (intros [_ ?]; case_decide; lia).
  eexists _, sold, bought. split; [done|]. simpl. rewrite !wrap64_id by (unfold_int; lia). split_and!; try done; lia.
Qed.

(** The liability of an offer.  Selling [amount] at price n/d ties up, on the buying side, the
    floor of amount*n/d, and on the selling side the whole amount when the price is at least one,
    otherwise the least amount that buys it, which never exceeds the offered amount. *)
Theorem GetLiability_spec (offer : Offer) (p : Price) :
  of_Price offer = Some p → pos_price p → 0 <= of_Amount offer →
  of_Amount offer * pr_Numerator p < MaxInt64 * Z.min (pr_Numerator p) (pr_Denominator p) →
  let buying := of_Amount offer * pr_Numerator p / pr_Denominator p in
  let selling := if decide (pr_Numerator p < pr_Denominator p)
                 then cdiv (buying * pr_Denominator p) (pr_Numerator p) else of_Amount offer in
  GetLiability offer true = Ok buying ∧ GetLiability offer false = Ok selling ∧
  0 <= selling <= of_Amount offer.
Proof.
  destruct p as [n d]. intros Hop [Hn Hd] Ha Hlt. simpl in *. set (a := of_Amount offer) in *.
  assert (getOfferValue a MaxInt64 (mkPrice n d) = a * n) as Hov by (rewrite getOfferValue_min; simpl; nia).
  assert (getOfferValue MaxInt64 MaxInt64 (mkPrice d n) = MaxInt64 * Z.min n d) as Hfv
    by (rewrite getOfferValue_min; simpl; nia).
  assert (0 <= a * n / d ∧ a * n / d * d <= a * n) as [Hq1 Hq2]
    by (pose proof (Z.div_mod (a * n) d ltac:(lia)); pose proof (Z.mod_pos_bound (a * n) d ltac:(lia)); nia).
  assert (a <= MaxInt64) as Ham by nia. assert (a * n / d <= MaxInt64) by (unfold_int; nia).
  assert (0 <= cdiv (a * n / d * d) n <= a) as Hc by (split; [apply cdiv_nonneg; lia|apply cdiv_le; lia]).
  assert (exchange_amounts (a * n) (MaxInt64 * Z.min n d) (mkPrice d n) =
    Ok (if decide (n < d) then cdiv (a * n / d * d) n else a, a * n / d)) as He.
  { rewrite (exchange_amounts_Ok _ _ d n (a * n)); [|try done; try lia..].
    - rewrite (decide_True (P := a * n < _)) by done. rewrite Z.div_mul by lia. repeat case_decide; done || lia.
    - by rewrite Z.div_mul by lia.
    - rewrite Z.div_mul by lia. intros. apply cdiv_le; [lia|]. unfold_int; nia. }
  unfold GetLiability, Exchange. rewrite Hop. simpl. fold a. rewrite Hov, Hfv, He. simpl.
  rewrite ?decide_False by naive_solver. simpl. rewrite !wrap64_id by (unfold_int; case_decide; lia).
  split_and!; try done; case_decide; lia.
Qed.

(** Acquiring or releasing the liability of an offer that sells the native asset.  The account
    of the seller has its selling liability, and its trust line for the bought asset its buying
    liability, moved by exactly the liability of the offer, up on acquire and down on release (so
    a release undoes an acquire); no other account of the store changes. *)
Theorem em_UpdateLiability_sell_native {D : Type} {StoreD : Store D} {LawsD : StoreLaws D} {Pbc : PbCodec}
    (d d' : D) (offer : Offer) (acquire : bool) (sellA buyA : Asset) (ab : string)
    (a : Account) (t : Trust) (la lt : Liability) (bl sl : Z) :
  let id := of_AccountID offer in
  let signed n := if acquire then n else - n in
  ready d → of_SellAsset offer = Some sellA → ast_AssetType sellA = NATIVE →
  of_BuyAsset offer = Some buyA → ast_AssetType buyA ≠ NATIVE →
  id ≠ ast_Issuer buyA → Encode buyA = Some ab → ab ≠ "" →
  acct_at d id = Some a → acc_AccountID a = id → acc_Liability a = Some la → wf_liab la →
  trust_at d id buyA = Some t → tst_AccountID t = id → tst_Asset t = Some buyA →
  tst_Liability t = Some lt → wf_liab lt →
  GetLiability offer true = Ok bl → 0 <= bl <= MaxInt64 →
  GetLiability offer false = Ok sl → 0 <= sl <= MaxInt64 →
  em_UpdateLiability offer acquire d = (d', Ok tt) →
  acct_at d' id = Some (set_acc_Liability (Some (add_side la (signed sl) false)) a) ∧
  trust_at d' id buyA = Some (set_tst_Liability (Some (add_side lt (signed bl) true)) t) ∧
  ∀ id', id' ≠ id → id' ≠ id +:+ ab → acct_at d' id' = acct_at d id'.
Proof.
  intros id signed Hr Hs Hsn Hb Hbn Hi Hab Hne Ha Haid Hla Hwa Ht Htid Htas Hlt Hwt Hbl Rbl Hsl Rsl H.
  assert (id ≠ id +:+ ab) as Hkey by (intros Hk; symmetry in Hk; by apply str_app_self in Hk).
  unfold em_UpdateLiability in H. rewrite Hbl, Hsl, Hs, Hb in H. fold id in H.
  apply bind_Ok in H as (? & ? & [= <- <-] & H). apply bind_Ok in H as (? & bn & [= <- Hbn'] & H).
  rewrite bool_decide_false in Hbn' by done. subst bn.
  assert (∀ n, 0 <= n <= MaxInt64 → (if acquire then n else wrap64 (- n)) = signed n ∧ int64 (signed n)) as Hsg.
  { intros n Hn. unfold signed. destruct acquire; [split; [done|]|split; [apply wrap64_id|]]; unfold_int; lia. }
  apply bind_Ok in H as (d1 & [] & H1 & H).
  rewrite (proj1 (Hsg _ Rbl)) in H1.
  apply (trust_liability_step _ _ _ _ ab t lt) in H1 as (Hr1 & Ht1 & b1 & Hw1); [|try done; by apply Hsg..].
  apply bind_Ok in H as (? & n & [= <- <-] & H). apply bind_Ok in H as (? & sn & [= <- Hsn'] & H).
  rewrite bool_decide_true in Hsn' by done. subst sn.
  rewrite (proj1 (Hsg _ Rsl)) in H.
  assert (∀ id', id' ≠ id +:+ ab → acct_at d1 id' = acct_at d id') as Ha1.
  { intros id' Hn. by rewrite (wrote_acct_at _ _ _ _ _ Hr Hw1), decide_False. }
  apply (account_liability_step _ _ _ a la) in H as (Hr2 & Ha2 & b2 & Hw2); [|try done; by (apply Hsg || rewrite Ha1)..].
  assert (tkey id buyA (id +:+ ab)) as Hk by (eexists; eauto).
  split_and!; [done| |].
  - by rewrite (wrote_trust_at _ _ _ _ _ _ _ Hr1 Hw2 Hk), decide_False.
  - intros id' H1 H2. rewrite (wrote_acct_at _ _ _ _ _ Hr1 Hw2), decide_False by done. auto.
Qed.

(** * A concrete market

    A store with one account, its trust line and its offer, on [memdb]. *)

Module market.

#[local] Existing Instances ref_runtime ref_codec.

Definition ult : Asset := mkAsset NATIVE "ULT" "".
Definition usd : Asset := mkAsset CUSTOM "USD" "bank".
Definition sell_native : Offer := mkOffer "alice" "o1" (Some ult) (Some usd) 100 (Some (mkPrice 1 1)) 0.
Definition sell_custom : Offer := mkOffer "alice" "o2" (Some usd) (Some ult) 100 (Some (mkPrice 1 1)) 0.
Definition two_thirds : Offer := mkOffer "alice" "o3" (Some ult) (Some usd) 1000 (Some (mkPrice 2 3)) 0.
Definition alice_usd : Trust := mkTrust "alice" (Some usd) 500 1000000 (Some (mkLiability 0 0)) 1.
Definition buy_ult (price : option Price) : Order := new_order "carol" (Some usd) 50 (Some ult) 50 price true.

Definition accounts : memdb := ((do! SaveAccount (Some alice) in SaveTrust (Some alice_usd)) memdb.New).1.
Definition book : memdb := ((do! SaveOffer sell_native in em_UpdateLiability sell_native true) accounts).1.

(** Filling an offer moves the assets of its owner the wrong way.  The offer of alice sells the
    native asset for USD; an order that buys 50 units of it leaves alice with 50 units more than
    before, her trust line with no unit more, and the selling liability of the offer, released by
    the fill, restored by the stale account that is saved afterwards.  [Fill] then reports an error,
    which [FillOrder] drops. *)
Theorem Fill_credits_the_seller :
  let '((d, (o, _)), r) := Fill 10 (book, (buy_ult (Some (mkPrice 1 1)), sell_native)) in
  r = Err "save trust failed: encode account failed: proto: Marshal called with nil" ∧
  o_BuyAssetBought o = 50 ∧ o_SellAssetSold o = 50 ∧
  (GetAccount "alice" book).2 = Ok (Some (set_acc_Liability (Some (mkLiability 10 120)) alice)) ∧
  (GetAccount "alice" d).2 =
    Ok (Some (set_acc_Balance 1050 (set_acc_Liability (Some (mkLiability 10 120)) alice))) ∧
  (GetTrust "alice" (Some usd) d).2 = Ok (Some alice_usd) ∧
  (FillOrder 10 (book, buy_ult (Some (mkPrice 1 1)))).2 = Ok tt.
Proof. vm_compute. repeat split. Qed.

(** The selling liability of an offer that sells an issued asset is looked up on the trust line
    of the asset it buys.  When that asset is native there is none, and acquiring the liability is
    a nil dereference, although the seller has an account and a trust line for the asset. *)
Theorem sell_custom_liability_panics :
  (GetTrust "alice" (Some usd) accounts).2 = Ok (Some alice_usd) ∧
  is_Ok (GetAccount "alice" accounts).2 = true ∧
  is_Panic (em_UpdateLiability sell_custom true accounts).2 = true.
Proof. vm_compute. repeat split. Qed.

(** The offers of a pair are found by a prefix that does not end the name of the bought asset,
    so the order book of ULT/US contains an offer that buys USD. *)
Theorem order_book_mixes_pairs :
  (loadOffers "ULT" "US" book).2 = Ok [sell_native] ∧
  ast_AssetName <$> of_BuyAsset sell_native = Some "USD".
Proof. vm_compute. repeat split. Qed.

(** An order without a price, which is what a path payment builds, is a nil dereference in
    [FillOrder] as soon as the offers of the pair are loaded, even when there is none. *)
Theorem order_without_price_panics :
  is_Panic (FillOrder 10 (accounts, buy_ult None)).2 = true ∧
  (loadOffers "ULT" "USD" accounts).2 = Ok [].
Proof. vm_compute. repeat split. Qed.

(** ** Witnesses *)

Definition encoded : string := default "" (Encode sell_native).
Definition bolt_book : boltdb := {[ exchange_bucket := {[ "ULT_USD_o1" := encoded ]} ]}.

Lemma loadOffers_order_book_witness :
  ∃ l, loadOffers "ULT" "USD" bolt_book = (bolt_book, Ok l) ∧ sell_native ∈ l.
Proof.
  assert (∀ k, db_view bolt_book exchange_bucket k = ({[ "ULT_USD_o1" := encoded ]} : gmap string string) !! k) as Hv.
  { intros k. simpl. unfold bolt_book. by rewrite lookup_singleton_eq. }
  assert (Encode sell_native = Some encoded) as He by reflexivity.
  destruct (loadOffers_order_book bolt_book "ULT" "USD") as (l & Hl & _ & Hin).
  - exact I.
  - unfold db_bucket; simpl. unfold bolt_book. rewrite lookup_singleton_eq. eauto.
  - intros k x _ Hx. rewrite Hv in Hx. apply lookup_singleton_Some in Hx as [_ <-].
    exists sell_native. split; [exact He|]. exists (mkPrice 1 1). split; reflexivity.
  - exists l. split; [exact Hl|]. apply Hin. exists "ULT_USD_o1", encoded.
    split; [reflexivity|]. split; [|exact He]. rewrite Hv. apply lookup_singleton_eq.
Defined.

Definition small_order : Order := new_order "carol" (Some usd) 100 (Some ult) 100 (Some (mkPrice 3 2)) true.
Definition large_terms : Order := new_order "carol" (Some usd) 100 (Some ult) 100 (Some (mkPrice 100 100)) true.

(** The values of an order and of an offer are compared although they are scaled by the terms of different prices.  An order of 100 for 100 at
    the price 100/100 trades 1000 for 1000 with an offer at 1/1, ten times its limits, which become negative; with the check, the process ends. *)
Theorem Exchange_exceeds_order :
  (∃ o', Exchange large_terms 1000 1000 (Some (mkPrice 1 1)) false = Ok o' ∧ o_SellAssetSold o' = 1000 ∧ o_MaxSellAsset o' = -900) ∧
  is_Panic (Exchange large_terms 1000 1000 (Some (mkPrice 1 1)) true) = true.
Proof. split; [eexists; split; [vm_compute; reflexivity|split; reflexivity]|vm_compute; reflexivity]. Qed.

Lemma Exchange_fair_witness :
  pos_price (mkPrice 2 3) ∧
  ∃ o', Exchange small_order 1000 1000 (Some (mkPrice 2 3)) true = Ok o' ∧ o_SellAssetSold o' = 66 ∧ o_MaxSellAsset o' = 100 - 66.
Proof.
  assert (pos_price (mkPrice 2 3)) as Hp by (repeat split; discriminate).
  split; [exact Hp|].
  destruct (Exchange_fair small_order (mkPrice 3 2) (mkPrice 2 3) 1000 1000 true) as (o' & sold & bought & He & _);
    [reflexivity|repeat split; discriminate|exact Hp|repeat split; discriminate..|].
  exists o'. split; [exact He|]. vm_compute in He. injection He as <-. split; reflexivity.
Defined.

Lemma GetLiability_spec_witness : GetLiability two_thirds true = Ok 666 ∧ GetLiability two_thirds false = Ok 999.
Proof.
  destruct (GetLiability_spec two_thirds (mkPrice 2 3)) as (H1 & H2 & _);
    [reflexivity|repeat split; discriminate|discriminate|reflexivity|].
  split; [exact H1|exact H2].
Defined.

Lemma em_UpdateLiability_sell_native_witness :
  (em_UpdateLiability sell_native true accounts).2 = Ok tt ∧
  acct_at (em_UpdateLiability sell_native true accounts).1 "alice" =
    Some (set_acc_Liability (Some (mkLiability 10 120)) alice).
Proof.
  split; [vm_compute; reflexivity|].
  apply (em_UpdateLiability_sell_native accounts _ sell_native true ult usd (default "" (Encode usd))
    alice alice_usd (mkLiability 10 20) (mkLiability 0 0) 100 100); try reflexivity; try discriminate.
  - split; [by eexists|]. by apply (bool_decide_unpack _).
  - repeat split; discriminate.
  - repeat split; discriminate.
  - repeat split; discriminate.
  - repeat split; discriminate.
Defined.

End market.
