(* ===== verification/TxOps.v ===== *)
(** The transaction operations, [tx/op]: creating an account, payments, trust lines and offers.

    Each operation is a record with the fields of the Go struct (less the two managers, whose
    operations are called directly) and an [Apply] that runs on any store.  An [Apply] that fails
    leaves the writes made before the failure: it is the caller that rolls the transaction back. *)

From S2P Require Import Prelude Pb Db Account Exchange.

Definition ErrAccountNotExist : string := "account not exist".
Definition ErrInvalidPaymentAmount : string := "invalid payment amount".
Definition ErrInvalidAccountID : string := "invalid accountID".
Definition ErrPaymentNotAuthorized : string := "payment is not authorized".

Definition validateAsset (asset : option Asset) : res unit :=
  match asset with
  | None => Err "asset is nil"
  | Some a =>
      if decide (ast_AssetType a = NATIVE) then Ok tt
      else
        let n := Z.of_nat (String.length (ast_AssetName a)) in
        if decide (n <= 0 ∨ 4 < n) then Err "invalid asset name" else Ok tt
  end.

Section ops.
Context {D : Type} {StoreD : Store D} {Pbc : PbCodec} {GoRt : GoRuntime}.
(** The base reserve of the account manager. *)
Variable baseReserve : Z.

(** ** Creating an account *)

Record CreateAccountOpr := mkCreateAccountOpr {
  ca_SrcAccountID : string;
  ca_DstAccountID : string;
  ca_Balance : Z;
  ca_BaseReserve : Z;
  ca_LedgerSeqNum : Z;
}.

Definition CreateAccount_Apply (c : CreateAccountOpr) : M D unit :=
  if decide (ca_SrcAccountID c = ca_DstAccountID c) then fail "src and dst account is the same"
  else if decide (ca_Balance c = 0) then fail "init balance for dst account is zero"
  else
    let! dstAcc := wrap ("get dst account " +:+ ca_DstAccountID c +:+ " failed: ")
                     (GetAccount (ca_DstAccountID c)) in
    match dstAcc with
    | Some _ => fail "dst account already exists"
    | None =>
        let! srcAcc := wrap ("get src account " +:+ ca_SrcAccountID c +:+ " failed: ")
                         (GetAccount (ca_SrcAccountID c)) in
        match srcAcc with
        | None => fail ErrAccountNotExist
        | Some srcAcc =>
            if decide (acc_Balance srcAcc < ca_Balance c) then fail "src account is underfund"
            else if decide (ca_Balance c < ca_BaseReserve c) then fail "init balance is smaller than base reserve"
            else
              let srcAcc := set_acc_Balance (wrap64 (acc_Balance srcAcc - ca_Balance c)) srcAcc in
              do! wrap ("update account " +:+ ca_SrcAccountID c +:+ " failed: ") (SaveAccount (Some srcAcc)) in
              wrap ("create account " +:+ ca_DstAccountID c +:+ " failed: ")
                (CreateAccount baseReserve (ca_DstAccountID c) (ca_Balance c) (ca_SrcAccountID c) (ca_LedgerSeqNum c))
        end
    end.

(** ** Payments *)

Record PathPayment := mkPathPayment {
  pp_SrcAccountID : string;
  pp_SrcAsset : option Asset;
  pp_SrcAmount : Z;
  pp_DstAccountID : string;
  pp_DstAsset : option Asset;
  pp_DstAmount : Z;
  pp_Path : list Asset;
}.

Record Payment := mkPayment {
  p_SrcAccountID : string;
  p_DstAccountID : string;
  p_Asset : option Asset;
  p_Amount : Z;
}.

(** [issuer, err := AM.GetAccount(dt, a.Issuer)] with its two error returns. *)
Definition require_issuer (msg : string) (a : Asset) : M D unit :=
  let! issuer := wrap msg (GetAccount (ast_Issuer a)) in
  match issuer with
  | None => fail ErrAccountNotExist
  | Some _ => ret tt
  end.

(** Move the balance of a trust line.  The trust line may be nil: it is not tested. *)
Definition pay_trust (accountID : string) (a : Asset) (amount : Z) : M D unit :=
  let! trust := wrap "get dst trust failed: " (GetTrust accountID (Some a)) in
  let! t := lift (deref trust) in
  if decide (tst_Authorized t = 0) then fail ErrPaymentNotAuthorized
  else
    let! t := wrap "add trust balance failed: " (lift (UpdateTrustBalance t amount)) in
    wrap "save trust failed: " (SaveTrust (Some t)).

(** The loop from the last asset of the path back to the source asset; the list is the path in
    the order of the loop. *)
Fixpoint path_loop (path : list Asset) (asset : Asset) (amount : Z) : M D (Asset * Z) :=
  match path with
  | [] => ret (asset, amount)
  | a :: rest =>
      if decide (a = asset) then path_loop rest asset amount
      else
        do! (if decide (ast_AssetType a ≠ NATIVE) then require_issuer "get issuer account failed: " a
             else ret tt) in
        let order := new_order "" (Some a) MaxInt64 (Some asset) amount None false in
        let! order := wrap "exchange assets failed: "
          (λ d, let '((d', o'), r) := FillOrder baseReserve (d, order) in (d', res_bind r (λ _, Ok o'))) in
        path_loop rest a (o_SellAssetSold order)
  end.

Definition credit_dst (pp : PathPayment) (asset : Asset) : M D unit :=
  let! dstAccount := wrap "get dst account failed: " (GetAccount (pp_DstAccountID pp)) in
  match dstAccount with
  | None => fail ErrAccountNotExist
  | Some dstAccount =>
      if decide (ast_AssetType asset = NATIVE) then
        let! dstAccount := wrap "add balance failed: " (lift (UpdateBalance dstAccount (pp_DstAmount pp))) in
        wrap "save account failed: " (SaveAccount (Some dstAccount))
      else
        do! require_issuer "get asset issuer failed: " asset in
        pay_trust (pp_DstAccountID pp) asset (pp_DstAmount pp)
  end.

Definition debit_src (pp : PathPayment) (asset : Asset) (amount : Z) : M D unit :=
  if decide (pp_SrcAmount pp < amount) then fail "deduced src payment amount is over the limit"
  else if decide (ast_AssetType asset = NATIVE) then
    let! srcAccount := wrap "load source account failed: " (GetAccount (pp_SrcAccountID pp)) in
    match srcAccount with
    | None => fail ErrAccountNotExist
    | Some srcAccount =>
        let! srcAccount := lift (UpdateBalance srcAccount (wrap64 (- amount))) in
        SaveAccount (Some srcAccount)
    end
  else
    do! require_issuer "get asset issuer failed: " asset in
    pay_trust (pp_SrcAccountID pp) asset (wrap64 (- amount)).

Definition PathPayment_Apply (pp : PathPayment) : M D unit :=
  do! wrap "validate src payment asset failed: " (lift (validateAsset (pp_SrcAsset pp))) in
  do! wrap "validate dst payment asset failed: " (lift (validateAsset (pp_DstAsset pp))) in
  do! mfor (pp_Path pp) (λ a, wrap "validate path payment asset failed: " (lift (validateAsset (Some a)))) in
  if decide (pp_SrcAccountID pp = "" ∨ pp_DstAccountID pp = "") then fail ErrInvalidAccountID
  else if decide (pp_SrcAmount pp = 0 ∨ pp_DstAmount pp = 0) then fail ErrInvalidPaymentAmount
  else
    let! asset := lift (deref (pp_DstAsset pp)) in
    let! src := lift (deref (pp_SrcAsset pp)) in
    do! credit_dst pp asset in
    let! '(asset, amount) := path_loop (reverse (src :: pp_Path pp)) asset (pp_DstAmount pp) in
    debit_src pp asset amount.

Definition Payment_Apply (p : Payment) : M D unit :=
  do! wrap "validate payment asset failed: " (lift (validateAsset (p_Asset p))) in
  if decide (p_Amount p = 0) then fail ErrInvalidPaymentAmount
  else if decide (p_SrcAccountID p = "" ∨ p_DstAccountID p = "") then fail ErrInvalidAccountID
  else PathPayment_Apply (mkPathPayment (p_SrcAccountID p) (p_Asset p) (p_Amount p)
         (p_DstAccountID p) (p_Asset p) (p_Amount p) []).

(** ** Trust lines *)

Record TrustOpr := mkTrustOpr {
  t_SrcAccountID : string;
  t_Asset : option Asset;
  t_Limit : Z;
}.

Definition Trust_Apply (t : TrustOpr) : M D unit :=
  let! asset := lift (deref (t_Asset t)) in
  if decide (t_SrcAccountID t = ast_Issuer asset) then fail "cannot change trustline of self"
  else
    let! trust := wrap "get trust failed: " (GetTrust (t_SrcAccountID t) (Some asset)) in
    let! srcAcc := wrap ("get src account " +:+ t_SrcAccountID t +:+ " failed: ") (GetAccount (t_SrcAccountID t)) in
    match srcAcc with
    | None => fail ErrAccountNotExist
    | Some srcAcc =>
        match trust with
        | None =>
            if decide (t_Limit t = 0) then fail "trust limit cannot be zero"
            else
              do! require_issuer ("get issuer " +:+ ast_Issuer asset +:+ " account failed: ") asset in
              let! srcAcc := wrap ("add src account " +:+ t_SrcAccountID t +:+ " entry failed: ")
                               (lift (UpdateEntryCount baseReserve srcAcc 1)) in
              do! wrap ("save src account " +:+ t_SrcAccountID t +:+ " failed: ") (SaveAccount (Some srcAcc)) in
              wrap "create trust failed: " (CreateTrust (t_SrcAccountID t) (Some asset) (t_Limit t))
        | Some trust =>
            if decide (t_Limit t = 0) then
              do! DeleteTrust (t_SrcAccountID t) (Some asset) in
              let! srcAcc := wrap ("subtract src account " +:+ t_SrcAccountID t +:+ " entry failed: ")
                               (lift (UpdateEntryCount baseReserve srcAcc (-1))) in
              wrap ("save src account " +:+ t_SrcAccountID t +:+ " failed: ") (SaveAccount (Some srcAcc))
            else
              let! l := lift (tst_liab trust) in
              let minLimit := wrap64 (tst_Balance trust + lb_Buying l) in
              if decide (t_Limit t < minLimit) then fail "cannot lower the trust limit below minimum list."
              else wrap "save trust failed: " (SaveTrust (Some (set_tst_Limit (t_Limit t) trust)))
        end
    end.

(** ** Offers *)

Record OfferOpr := mkOfferOpr {
  oo_AccountID : string;
  oo_BuyAsset : option Asset;
  oo_SellAsset : option Asset;
  oo_Amount : Z;
  oo_Price : option Price;
  oo_OfferID : string;
  oo_Passive : Z;
}.

Definition offer_validate (o : OfferOpr) : res unit :=
  let? _ := res_wrap "asset for selling is invalid: " (validateAsset (oo_SellAsset o)) in
  let? _ := res_wrap "asset for buying is invalid: " (validateAsset (oo_BuyAsset o)) in
  if decide (oo_SellAsset o = oo_BuyAsset o) then Err "identical asset for offer"
  else
    let? p := deref (oo_Price o) in
    if decide (pr_Numerator p = 0 ∨ pr_Denominator p = 0) then Err "price is invalid"
    else if decide (oo_Amount o = 0 ∧ oo_OfferID o = "") then Err "amount of new offer is zero"
    else Ok tt.

(** The selling and the buying trust lines, [nil] for the native asset. *)
Definition loadTrust (o : OfferOpr) : M D (option Trust * option Trust) :=
  let! s := lift (deref (oo_SellAsset o)) in
  let! b := lift (deref (oo_BuyAsset o)) in
  let! sellTrust :=
    if decide (ast_AssetType s ≠ NATIVE) then
      let! sellTrust := wrap "get selling trust failed: " (GetTrust (oo_AccountID o) (Some s)) in
      do! wrap "get selling asset issuer failed: " (GetAccount (ast_Issuer s)) in
      let! t := lift (deref sellTrust) in
      if decide (tst_Balance t = 0) then fail "selling trust is underfund"
      else if decide (tst_Authorized t = 0) then fail "selling trust is not authorized"
      else ret sellTrust
    else ret None in
  let! buyTrust :=
    if decide (ast_AssetType b ≠ NATIVE) then
      let! buyTrust := wrap "get buying trust failed: " (GetTrust (oo_AccountID o) (Some b)) in
      do! wrap "get buying asset issuer failed: " (GetAccount (ast_Issuer b)) in
      let! t := lift (deref buyTrust) in
      if decide (tst_Authorized t = 0) then fail "buying trust is not authorized"
      else ret buyTrust
    else ret None in
  ret (sellTrust, buyTrust).

(** Change the entry count of the account and save it. *)
Definition bump_entry (msg : string) (acc : Account) (n : Z) : M D Account :=
  let! acc := wrap msg (lift (UpdateEntryCount baseReserve acc n)) in
  do! wrap "save account failed: " (SaveAccount (Some acc)) in
  ret acc.

(** The account as the two updates of its entry count leave it, the selling and the buying limit. *)
Definition getOfferLimits (o : OfferOpr) (acc : Account) (sellTrust buyTrust : option Trust) (offer : Offer)
    (newOffer : bool) : M D (Account * (Z * Z)) :=
  let! acc := if newOffer then bump_entry "increase account entry account failed: " acc 1 else ret acc in
  let! b := lift (deref (oo_BuyAsset o)) in
  let! buyLimit :=
    if decide (ast_AssetType b = NATIVE) then lift (GetRestLimit acc)
    else let! t := lift (deref buyTrust) in lift (GetTrustRestLimit t) in
  let! bl := wrap "get buying liability failed: " (lift (GetLiability offer true)) in
  if decide (buyLimit < bl) then fail "out of buying limit"
  else
    let! s := lift (deref (oo_SellAsset o)) in
    let! sellLimit :=
      if decide (ast_AssetType s = NATIVE) then lift (GetBalance baseReserve acc)
      else let! t := lift (deref sellTrust) in lift (GetTrustBalance t) in
    let! sl := wrap "get selling liability failed: " (lift (GetLiability offer false)) in
    if decide (sellLimit < sl) then fail "account underfund"
    else
      let! acc := if newOffer then bump_entry "increase account entry account failed: " acc (-1) else ret acc in
      ret (acc, (MinInt64of sellLimit (of_Amount offer), buyLimit)).

(** Move one balance of the account of the operation, the trust line being [t]. *)
Definition update_one (asset : option Asset) (acc : Account) (t : option Trust) (n : Z)
    : M D (Account * option Trust) :=
  let! a := lift (deref asset) in
  if decide (ast_AssetType a = NATIVE) then
    let! acc := wrap "update account balance failed: " (lift (UpdateBalance acc n)) in
    do! wrap "save account failed: " (SaveAccount (Some acc)) in
    ret (acc, t)
  else
    let! t := lift (deref t) in
    let! t := wrap "update trust balance failed: " (lift (UpdateTrustBalance t n)) in
    do! wrap "save trust failed: " (SaveTrust (Some t)) in
    ret (acc, Some t).

Definition updateBalances (o : OfferOpr) (acc : Account) (sellTrust buyTrust : option Trust)
    (sellAssetSold buyAssetBought : Z) : M D (Account * (option Trust * option Trust)) :=
  let! '(acc, buyTrust) := update_one (oo_BuyAsset o) acc buyTrust buyAssetBought in
  let! '(acc, sellTrust) := update_one (oo_SellAsset o) acc sellTrust (wrap64 (- sellAssetSold)) in
  ret (acc, (sellTrust, buyTrust)).

(** What is left of the offer once the order has been filled. *)
Definition rest_of_offer (offer : Offer) (order : Order) (sellLimit : Z) (acc : Account)
    (sellTrust buyTrust : option Trust) : res Offer :=
  if o_Full order then Ok (set_of_Amount 0 offer)
  else
    let amount := wrap64 (sellLimit - o_SellAssetSold order) in
    let? maxSell := GetMaxToSell baseReserve (Some acc) sellTrust in
    let sl := MinInt64of amount maxSell in
    let? bl := GetMaxToBuy (Some acc) buyTrust in
    let ord := new_order "" (of_SellAsset offer) sl (of_BuyAsset offer) bl (of_Price offer) false in
    let? p := deref (o_Price ord) in
    let rp := mkPrice (pr_Denominator p) (pr_Numerator p) in
    let? ord := res_wrap "exchange assets failed: " (Exchange ord MaxInt64 MaxInt64 (Some rp) false) in
    Ok (set_of_Amount (o_SellAssetSold ord) offer).

(** The part of [Apply] that follows the lookup of the existing offer.  [crypto.GetOfferID] draws
    random bytes: its result is a parameter. *)
Definition place_offer (newOfferID : res string) (o : OfferOpr) (acc : Account)
    (sellTrust buyTrust : option Trust) (newOffer : bool) : M D unit :=
  let sellOffer := mkOffer (oo_AccountID o) (oo_OfferID o) (oo_SellAsset o) (oo_BuyAsset o) (oo_Amount o)
                     (oo_Price o) (oo_Passive o) in
  let! '(acc, (sellLimit, buyLimit)) :=
    wrap "get offer limits failed: " (getOfferLimits o acc sellTrust buyTrust sellOffer newOffer) in
  if decide (buyLimit = 0) then fail "offer buying limit is zero"
  else
    let order := new_order (oo_AccountID o) (oo_SellAsset o) sellLimit (oo_BuyAsset o) buyLimit (oo_Price o) true in
    let! order := wrap "fill order failed: "
      (λ d, let '((d', o'), r) := FillOrder baseReserve (d, order) in (d', res_bind r (λ _, Ok o'))) in
    let! '(acc, (sellTrust, buyTrust)) :=
      if decide (0 < o_BuyAssetBought order) then
        wrap "update account and trust balances failed: "
          (updateBalances o acc sellTrust buyTrust (o_SellAssetSold order) (o_BuyAssetBought order))
      else ret (acc, (sellTrust, buyTrust)) in
    let! sellOffer := lift (rest_of_offer sellOffer order sellLimit acc sellTrust buyTrust) in
    if decide (0 < of_Amount sellOffer) then
      let! sellOffer :=
        if newOffer then
          let! id := wrap "create offer id failed: " (lift newOfferID) in
          ret (set_of_OfferID id sellOffer)
        else ret sellOffer in
      do! wrap "save offer failed: " (SaveOffer sellOffer) in
      wrap "acquire offer liability failed: " (em_UpdateLiability sellOffer true)
    else ret tt.

Definition Offer_Apply (newOfferID : res string) (o : OfferOpr) : M D unit :=
  do! wrap "validate offer failed: " (lift (offer_validate o)) in
  let! acc := wrap "get account failed: " (GetAccount (oo_AccountID o)) in
  match acc with
  | None => fail ErrAccountNotExist
  | Some acc =>
      let! '(sellTrust, buyTrust) := wrap "load selling and buying trust failed: " (loadTrust o) in
      if decide (oo_OfferID o ≠ "") then
        let! s := lift (deref (oo_SellAsset o)) in
        let! b := lift (deref (oo_BuyAsset o)) in
        let! offer := wrap "get offer failed: "
          (GetOffer (oo_AccountID o) (ast_AssetName s) (ast_AssetName b) (oo_OfferID o)) in
        match offer with
        | None => fail "offer not exists"
        | Some offer =>
            do! wrap "release offer liability failed: " (em_UpdateLiability offer false) in
            if decide (oo_Amount o = 0) then
              do! wrap "delete offer failed: " (DeleteOffer (Some offer)) in
              let! acc := wrap "decrease account entry account failed: "
                            (lift (UpdateEntryCount baseReserve acc (-1))) in
              wrap "save account failed: " (SaveAccount (Some acc))
            else place_offer newOfferID o acc sellTrust buyTrust false
        end
      else if decide (oo_Amount o = 0) then ret tt
      else place_offer newOfferID o acc sellTrust buyTrust true
  end.

(** ** The interface [op.Op] *)

Inductive Opr :=
| OprCreateAccount (o : CreateAccountOpr)
| OprPayment (o : Payment)
| OprTrust (o : TrustOpr).

Definition Opr_Apply (o : Opr) : M D unit :=
  match o with
  | OprCreateAccount c => CreateAccount_Apply c
  | OprPayment p => Payment_Apply p
  | OprTrust t => Trust_Apply t
  end.

End ops.

(** * Lemmas *)

Section laws.
Context {D : Type} {StoreD : Store D} {LawsD : StoreLaws D} {Pbc : PbCodec} {GoRt : GoRuntime}.
Variable baseReserve : Z.

Definition balance_at (d : D) (id : string) : Z :=
  match acct_at d id with Some a => acc_Balance a | None => 0 end.

(** The native tokens held by a list of accounts. *)
Definition total (d : D) (ids : list string) : Z := sumZ (balance_at d) ids.

(** Every stored account is stored under its own ID, with a balance that is not negative. *)
Definition solvent (d : D) : Prop :=
  ∀ id a, acct_at d id = Some a → acc_AccountID a = id ∧ 0 <= acc_Balance a <= MaxInt64.

Definition keyed (d : D) : Prop := ∀ id a, acct_at d id = Some a → acc_AccountID a = id.

(** Saving an account whose balance differs by [n] from the stored one. *)
Lemma total_save d d' ids a a' :
  ready d → NoDup ids → acc_AccountID a ∈ ids → acct_at d (acc_AccountID a) = Some a' →
  SaveAccount (Some a) d = (d', Ok tt) → total d' ids = total d ids + (acc_Balance a - acc_Balance a').
Proof.
  intros Hr Hnd Hin Ha' H. apply SaveAccount_Ok in H as [_ Hv]; [|done].
  unfold total. rewrite (sumZ_update (balance_at d) (balance_at d') ids (acc_AccountID a)); [|done..|].
  - unfold balance_at. by rewrite Hv, decide_True, Ha'.
  - intros b Hb. unfold balance_at. by rewrite Hv, decide_False.
Qed.

Lemma total_create d d' ids reserve id bal signer seq :
  ready d → NoDup ids → id ∈ ids → acct_at d id = None →
  CreateAccount reserve id bal signer seq d = (d', Ok tt) → total d' ids = total d ids + bal.
Proof.
  intros Hr Hnd Hin Hn H. apply CreateAccount_Ok in H as (_ & _ & Hv); [|done].
  unfold total. rewrite (sumZ_update (balance_at d) (balance_at d') ids id); [|done..|].
  - unfold balance_at. rewrite Hv, decide_True, Hn by done. simpl. lia.
  - intros b Hb. unfold balance_at. by rewrite Hv, decide_False.
Qed.

(** [GetAccount] inside a bind, when the whole succeeded. *)
Lemma GetAccount_bind {B} (p id : string) (k : option Account → M D B) d d' b :
  ready d → bind (wrap p (GetAccount id)) k d = (d', Ok b) → k (acct_at d id) d = (d', Ok b).
Proof.
  intros Hr H. apply bind_Ok in H as (d1 & oa & H1%wrap_Ok & H).
  by apply GetAccount_Ok in H1 as [-> <-].
Qed.

(** What a successful [CreateAccount] operation has done, step by step. *)
Lemma CreateAccount_Apply_Ok c d d' :
  ready d → CreateAccount_Apply baseReserve c d = (d', Ok tt) →
  ∃ src d1, ca_SrcAccountID c ≠ ca_DstAccountID c ∧ ca_Balance c ≠ 0 ∧ ca_BaseReserve c <= ca_Balance c ∧
    acct_at d (ca_DstAccountID c) = None ∧ acct_at d (ca_SrcAccountID c) = Some src ∧
    ca_Balance c <= acc_Balance src ∧
    SaveAccount (Some (set_acc_Balance (wrap64 (acc_Balance src - ca_Balance c)) src)) d = (d1, Ok tt) ∧
    CreateAccount baseReserve (ca_DstAccountID c) (ca_Balance c) (ca_SrcAccountID c) (ca_LedgerSeqNum c) d1
      = (d', Ok tt).
Proof.
  intros Hr H. unfold CreateAccount_Apply in H. do 2 (case_decide; [done|]).
  apply GetAccount_bind in H; [|done]. destruct (acct_at d (ca_DstAccountID c)) eqn:Ed; [done|].
  apply GetAccount_bind in H; [|done]. destruct (acct_at d (ca_SrcAccountID c)) as [src|] eqn:Es; [|done].
  do 2 (case_decide; [done|]). apply bind_Ok in H as (d1 & [] & Hsv%wrap_Ok & H%wrap_Ok).
  exists src, d1. split_and!; try done; lia.
Qed.

(** Crediting or debiting a stored account. *)
Lemma update_save d d' ids id a a' n :
  ready d → NoDup ids → id ∈ ids → acct_at d id = Some a → acc_AccountID a = id →
  UpdateBalance a n = Ok a' → SaveAccount (Some a') d = (d', Ok tt) →
  total d' ids = total d ids + (wrap64 (acc_Balance a + n) - acc_Balance a) ∧ ready d' ∧
  ∀ id', acct_at d' id' = if decide (id' = id) then Some (set_acc_Balance (wrap64 (acc_Balance a + n)) a) else acct_at d id'.
Proof.
  intros Hr Hnd Hin Ha Hid ->%UpdateBalance_Ok_eq H. split.
  - subst id. by rewrite (total_save d d' ids (set_acc_Balance (wrap64 (acc_Balance a + n)) a) a Hr Hnd Hin Ha H).
  - apply SaveAccount_Ok in H as [? Hv]; [|done]. split; [done|]. simpl in Hv. by rewrite Hid in Hv.
Qed.

(** A balance that is not negative does not wrap around. *)
Lemma UpdateBalance_exact a a' n :
  0 <= acc_Balance a <= MaxInt64 → UpdateBalance a n = Ok a' → int64 n → n ≠ MinInt64 → wrap64 (acc_Balance a + n) = acc_Balance a + n.
Proof.
  intros Hb Hu Hn Hn'. apply wrap64_id. unfold UpdateBalance in Hu. case_decide; [done|]. case_decide; [done|].
  destruct (decide (0 < n)); [rewrite wrap64_id in * by (unfold_int; lia)|]; unfold_int; lia.
Qed.

Lemma PathPayment_native_Ok asset src dst n d d' :
  ready d → ast_AssetType asset = NATIVE →
  PathPayment_Apply baseReserve (mkPathPayment src (Some asset) n dst (Some asset) n []) d = (d', Ok tt) →
  ∃ a1 a1' a2 a2' d1, acct_at d dst = Some a1 ∧ UpdateBalance a1 n = Ok a1' ∧
    SaveAccount (Some a1') d = (d1, Ok tt) ∧ ready d1 ∧ acct_at d1 src = Some a2 ∧
    UpdateBalance a2 (wrap64 (- n)) = Ok a2' ∧ SaveAccount (Some a2') d1 = (d', Ok tt).
Proof.
  intros Hr Hn H. unfold PathPayment_Apply in H. simpl in H. rewrite decide_True in H by done.
  do 3 (apply bind_Ok in H as (? & ? & [= <- <-] & H)).
  do 2 (case_decide as Hc; [done|]; clear Hc).
  do 2 (apply bind_Ok in H as (? & ? & [= <- <-] & H)).
  apply bind_Ok in H as (d1 & [] & H1 & H). unfold credit_dst in H1. simpl in H1.
  apply GetAccount_bind in H1; [|done]. destruct (acct_at d dst) as [a1|]; [|done].
  rewrite decide_True in H1 by done.
  apply bind_Ok in H1 as (? & a1' & Hu%wrap_Ok & H1%wrap_Ok). injection Hu as <- Hu.
  pose proof (SaveAccount_ready _ _ _ _ Hr H1) as Hr1.
  apply bind_Ok in H as (d2 & [asset' amount] & H2 & H). simpl in H2. rewrite decide_True in H2 by done.
  injection H2 as <- <- <-. unfold debit_src in H. simpl in H. rewrite decide_False in H by lia.
  rewrite decide_True in H by done.
  apply GetAccount_bind in H; [|done]. destruct (acct_at d1 src) as [a2|] eqn:E2; [|done].
  apply bind_Ok in H as (? & a2' & [= <- Hu2] & H).
  exists a1, a1', a2, a2', d1. split_and!; done.
Qed.

End laws.

(** * Properties *)

(** C7: creating an account moves tokens and creates none.  A successful operation debits the
    source by the initial balance, stores a fresh account with that balance (and no liability or
    entry) under the destination ID, which was free, changes no other account, and keeps the sum of
    the balances of any set of accounts that contains the two; here all stored balances are not negative, and they stay so. *)
Theorem CreateAccount_Apply_conserves {D : Type} {StoreD : Store D} {LawsD : StoreLaws D} {Pbc : PbCodec}
    (baseReserve : Z) (c : CreateAccountOpr) (d d' : D) (ids : list string) :
  ready d → solvent d → 0 <= baseReserve → NoDup ids → ca_SrcAccountID c ∈ ids → ca_DstAccountID c ∈ ids →
  CreateAccount_Apply baseReserve c d = (d', Ok tt) →
  total d' ids = total d ids ∧ solvent d' ∧ acct_at d (ca_DstAccountID c) = None ∧
  acct_at d' (ca_DstAccountID c) =
    Some (new_account (ca_DstAccountID c) (ca_Balance c) (ca_SrcAccountID c) (ca_LedgerSeqNum c)) ∧
  balance_at d' (ca_SrcAccountID c) = balance_at d (ca_SrcAccountID c) - ca_Balance c ∧
  ∀ id, id ≠ ca_SrcAccountID c → id ≠ ca_DstAccountID c → acct_at d' id = acct_at d id.
Proof.
  intros Hr Hs Hres Hnd Hin1 Hin2 H.
  apply CreateAccount_Apply_Ok in H as (src & d1 & Hne & _ & _ & Hdst & Hsrc & Hle & Hsv & Hcr); [|done].
  destruct (Hs _ _ Hsrc) as [Hid Hb]. pose proof (SaveAccount_ready _ _ _ _ Hr Hsv) as Hr1.
  destruct (CreateAccount_Ok _ _ _ _ _ _ _ Hr1 Hcr) as (Hlo & _ & Hv').
  rewrite wrap64_id in Hsv by (unfold_int; lia).
  destruct (SaveAccount_Ok _ _ _ Hr Hsv) as [_ Hv]. simpl in Hv. rewrite Hid in Hv.
  split_and!; [| |done| | |].
  - assert (acct_at d1 (ca_DstAccountID c) = None) as Hn by by rewrite Hv, decide_False.
    rewrite (total_create d1 d' ids _ _ _ _ _ Hr1 Hnd Hin2 Hn Hcr).
    rewrite <- Hid in Hin1, Hsrc. rewrite (total_save d d1 ids (set_acc_Balance _ src) src Hr Hnd Hin1 Hsrc Hsv). simpl. lia.
  - intros id a. rewrite Hv'. case_decide as Hd; [intros [= <-]; simpl; split; [congruence|lia]|].
    rewrite Hv. case_decide; [intros [= <-]; simpl; split; [congruence|lia]|apply Hs].
  - by rewrite Hv', decide_True.
  - unfold balance_at. rewrite Hv', decide_False, Hv, decide_True, Hsrc by done. done.
  - intros id H1 H2. by rewrite Hv', decide_False, Hv, decide_False.
Qed.

(** C8: a payment in the native asset.  A payment between two different accounts, each stored under its own ID, that succeeds adds the amount to the
    balance of the destination and takes it from the source, in int64; the sum of the balances of any set of accounts that contains both is
    unchanged modulo 2^64, and no other account changes.  Nothing wraps around, so that the sum is unchanged and the two balances differ by
    just the amount, when both balances were not negative and the amount is not the smallest int64. *)
Theorem native_payment_conserves {D : Type} {StoreD : Store D} {LawsD : StoreLaws D} {Pbc : PbCodec}
    {GoRt : GoRuntime} (baseReserve : Z) (src dst : string) (asset : Asset) (n : Z) (d d' : D) (ids : list string) :
  ready d → keyed d → ast_AssetType asset = NATIVE → int64 n →
  NoDup ids → src ∈ ids → dst ∈ ids → src ≠ dst →
  Payment_Apply baseReserve (mkPayment src dst (Some asset) n) d = (d', Ok tt) →
  balance_at d' dst = wrap64 (balance_at d dst + n) ∧ balance_at d' src = wrap64 (balance_at d src - n) ∧
  (total d' ids - total d ids) mod 18446744073709551616 = 0 ∧
  (0 <= balance_at d src <= MaxInt64 → 0 <= balance_at d dst <= MaxInt64 → n ≠ MinInt64 →
    total d' ids = total d ids ∧ balance_at d' dst = balance_at d dst + n ∧ balance_at d' src = balance_at d src - n) ∧
  ∀ id, id ≠ src → id ≠ dst → acct_at d' id = acct_at d id.
Proof.
  intros Hr Hs Hnat Hn Hnd Hin1 Hin2 Hne H. unfold Payment_Apply in H. simpl in H.
  apply bind_Ok in H as (? & ? & [= <- _] & H). do 2 (case_decide as Hc; [done|]; clear Hc).
  apply PathPayment_native_Ok in H as (a1 & a1' & a2 & a2' & d1 & Ha1 & Hu1 & Hs1 & Hr1 & Ha2 & Hu2 & Hs2); [|done..].
  destruct (update_save d d1 ids dst a1 a1' n) as (Ht1 & _ & Hv1); [by auto..|].
  assert (acct_at d src = Some a2) as Ha2' by (by rewrite Hv1, decide_False in Ha2).
  destruct (update_save d1 d' ids src a2 a2' (wrap64 (- n))) as (Ht2 & _ & Hv2); [by auto..|].
  assert (wrap64 (acc_Balance a2 + wrap64 (- n)) = wrap64 (acc_Balance a2 - n)) as Hneg.
  { rewrite Z.add_comm, wrap64_add_wrap_l. f_equal. lia. }
  unfold balance_at. rewrite !Hv2, !Hv1, Ha1, Ha2'. rewrite Hneg in *.
  rewrite (decide_False (P := dst = src)), !decide_True by done. simpl. split_and!; [done|done| | |].
  - destruct (wrap64_eq_mod (acc_Balance a1 + n)) as [k1 Hk1], (wrap64_eq_mod (acc_Balance a2 - n)) as [k2 Hk2].
    apply Z.mod_divide; [done|]. exists (k1 + k2). lia.
  - intros Hb2 Hb1 Hn'. assert (wrap64 (- n) = - n) as Hm by (apply wrap64_id; unfold_int; lia). rewrite Hm in *.
    pose proof (UpdateBalance_exact a1 a1' n Hb1 Hu1 Hn Hn') as E1. rewrite <-Hneg in *.
    pose proof (UpdateBalance_exact a2 a2' (- n) Hb2 Hu2 ltac:(unfold_int; lia) ltac:(unfold_int; lia)) as E2. lia.
  - intros id H1 H2. by rewrite Hv2, decide_False, Hv1, decide_False.
Qed.

(** Opening a trust line.  When the line does not exist, a successful operation stores an empty
    line with the requested limit, counts one more entry on the account, whose balance covers the
    reserve of all its entries and its selling liability, and changes nothing else of it. *)
Theorem Trust_Apply_new {D : Type} {StoreD : Store D} {LawsD : StoreLaws D} {Pbc : PbCodec}
    (reserve : Z) (t : TrustOpr) (asset : Asset) (ab : string) (a : Account) (l : Liability) (d d' : D) :
  let id := t_SrcAccountID t in
  ready d → t_Asset t = Some asset → Encode asset = Some ab → ab ≠ "" →
  db_view d account_bucket (id +:+ ab) = None →
  acct_at d id = Some a → acc_AccountID a = id → acc_Liability a = Some l →
  0 <= acc_EntryCount a < MaxInt32 → 0 <= reserve <= MaxInt32 → 0 <= lb_Selling l <= MaxInt64 - MaxInt32 * MaxInt32 →
  Trust_Apply reserve t d = (d', Ok tt) →
  trust_at d' id asset = Some (new_trust id asset (t_Limit t)) ∧ t_Limit t ≠ 0 ∧
  acct_at d' id = Some (set_acc_EntryCount (acc_EntryCount a + 1) a) ∧
  reserve * (acc_EntryCount a + 1) + lb_Selling l <= acc_Balance a.
Proof.
  intros id Hr Ht Hab Hne Hv Ha Hid Hl He Hres Hsell H. unfold Trust_Apply in H. rewrite Ht in H. fold id in H.
  apply bind_Ok in H as (? & ? & [= <- <-] & H). case_decide as Hiss; [done|].
  apply bind_Ok in H as (? & ot & H1%wrap_Ok & H). rewrite (GetTrust_absent d id asset ab) in H1 by done.
  injection H1 as <- <-. apply GetAccount_bind in H; [|done]. rewrite Ha in H.
  case_decide as Hlim; [done|].
  apply bind_Ok in H as (d1 & [] & H1 & H).
  assert (d1 = d) as ->.
  { apply GetAccount_bind in H1; [|done]. by destruct (acct_at d (ast_Issuer asset)); injection H1. }
  apply bind_Ok in H as (? & a' & Hu%wrap_Ok & H). injection Hu as <- Hu.
  assert (0 <= reserve * (acc_EntryCount a + 1) <= MaxInt32 * MaxInt32) as Hm by nia.
  unfold UpdateEntryCount, acc_liab in Hu. simpl in Hu. rewrite Hl in Hu. simpl in Hu.
  rewrite wrap32_id, (Z.mul_comm _ reserve) in Hu by (unfold_int; lia).
  rewrite (wrap64_id (reserve * _)), wrap64_id in Hu by (unfold_int; lia).
  case_decide as Hbal; [done|]. injection Hu as <-.
  apply bind_Ok in H as (d1 & [] & Hsv%wrap_Ok & H%wrap_Ok).
  destruct (SaveAccount_Ok _ _ _ Hr Hsv) as [Hr1 Hv1]. simpl in Hv1. rewrite Hid in Hv1.
  destruct (CreateTrust_Ok _ _ _ _ ab _ Hr1 Hiss Hab H) as (_ & Ht' & b & Hw).
  split_and!; [done|done| |lia].
  rewrite (wrote_acct_at _ _ _ _ _ Hr1 Hw), decide_False, Hv1, decide_True; [done|done|].
  intros Heq. symmetry in Heq. by apply str_app_self in Heq.
Qed.

(** Changing the limit of an existing trust line.  A non-zero limit is accepted exactly when it
    covers the balance and the buying liability of the line, and then the limit alone is changed;
    otherwise the operation fails and the store is as before. *)
Theorem Trust_Apply_limit {D : Type} {StoreD : Store D} {LawsD : StoreLaws D} {Pbc : PbCodec}
    (reserve : Z) (t : TrustOpr) (asset : Asset) (a : Account) (tr : Trust) (l : Liability) (d d' : D) (r : res unit) :
  let id := t_SrcAccountID t in
  ready d → t_Asset t = Some asset → id ≠ ast_Issuer asset → t_Limit t ≠ 0 →
  acct_at d id = Some a → trust_at d id asset = Some tr → tst_AccountID tr = id → tst_Asset tr = Some asset →
  tst_Liability tr = Some l → int64 (tst_Balance tr + lb_Buying l) →
  Trust_Apply reserve t d = (d', r) →
  (r = Ok tt ∧ tst_Balance tr + lb_Buying l <= t_Limit t ∧
    trust_at d' id asset = Some (set_tst_Limit (t_Limit t) tr)) ∨
  (is_Ok r = false ∧ is_Panic r = false ∧ d' = d).
Proof.
  intros id Hr Ht Hi Hlim Ha Htr Htid Htas Hl Hov. unfold Trust_Apply. rewrite Ht. fold id. simpl.
  rewrite (bind_eq_Ok _ _ _ d asset) by done. rewrite decide_False by done.
  rewrite (bind_eq_Ok _ _ _ d (Some tr)) by (apply wrap_Ok; by apply GetTrust_found).
  rewrite (bind_eq_Ok _ _ _ d (Some a)) by (apply wrap_Ok; by apply GetAccount_found).
  rewrite decide_False by done. unfold tst_liab. rewrite Hl. rewrite (bind_eq_Ok _ _ _ d l) by done.
  rewrite wrap64_id by done. case_decide; [intros [= <- <-]; by right|].
  unfold wrap. destruct (SaveTrust _ d) as [d1 r1] eqn:Hs. intros [= <- <-].
  destruct (SaveTrust_cases _ _ (set_tst_Limit _ tr) asset _ Hr Htas Hs) as [(b & k & Hb & Hk & -> & Hw)|(e & -> & ->)]; [left|by right].
  split_and!; [done|lia|]. simpl in Hk. rewrite Htid in Hk.
  rewrite (wrote_trust_at _ _ _ _ _ _ _ Hr Hw Hk), decide_True by done. by apply Decode_Encode.
Qed.

(** * Concrete runs *)

Module world.

Import market.
#[local] Existing Instances ref_runtime ref_codec.

Definition bank : Account := mkAccount "bank" 1000 "bank" 1 0 [] (Some (mkLiability 0 0)).
Definition start : memdb :=
  ((do! SaveAccount (Some alice) in do! SaveAccount (Some bob) in do! SaveAccount (Some bank) in
    SaveTrust (Some alice_usd)) memdb.New).1.

(** The result of a run with the balances of alice and bob after it. *)
Definition run (m : M memdb unit) : res unit * Z * Z :=
  let '(d, r) := m start in (r, balance_at d "alice", balance_at d "bob").

(** A payment does not check the funds of the source, nor the sign of the amount.  bob, who
    holds 5, pays 100 and ends with -95; a payment of -700 from bob takes 700 from alice. *)
Theorem payment_overdraws_and_drains :
  run (Payment_Apply 10 (mkPayment "bob" "alice" (Some ult) 100)) = (Ok tt, 1100, -95) ∧
  run (Payment_Apply 10 (mkPayment "bob" "alice" (Some ult) (-700))) = (Ok tt, 300, 705).
Proof. vm_compute. split; reflexivity. Qed.

(** The smallest int64 is its own negation: a payment of that amount takes 2^63 from both accounts. *)
Theorem smallest_amount_taken_twice :
  run (Payment_Apply 10 (mkPayment "bob" "alice" (Some ult) MinInt64)) = (Ok tt, 1000 + MinInt64, 5 + MinInt64).
Proof. vm_compute. reflexivity. Qed.

(** A payment in an issued asset to an account that has no trust line for it is a nil
    dereference: the trust line is used without a test. *)
Theorem payment_without_trust_panics :
  is_Panic (Payment_Apply 10 (mkPayment "alice" "bob" (Some usd) 10) start).2 = true ∧
  is_Ok (GetAccount "bob" start).2 = true.
Proof. vm_compute. split; reflexivity. Qed.

(** A trust line that holds a balance can be deleted, and the balance with it. *)
Theorem trust_deleted_with_balance :
  (GetTrust "alice" (Some usd) start).2 = Ok (Some alice_usd) ∧ tst_Balance alice_usd = 500 ∧
  let '(d, r) := Trust_Apply 0 (mkTrustOpr "alice" (Some usd) 0) start in
  r = Ok tt ∧ (GetTrust "alice" (Some usd) d).2 = Ok None.
Proof. vm_compute. repeat split. Qed.

Definition place : OfferOpr := mkOfferOpr "alice" (Some usd) (Some ult) 100 (Some (mkPrice 1 1)) "" 0.
Definition cancel : OfferOpr := mkOfferOpr "alice" (Some usd) (Some ult) 0 (Some (mkPrice 1 1)) "o9" 0.

(** Placing an offer and cancelling it does not give the account back.  Cancelling releases the
    liability in the store, then saves the account it had loaded before, so the selling liability
    stays; and the entry that placing never counted is uncounted, which leaves -1 entries. *)
Theorem cancelled_offer_keeps_liability :
  let '(d1, r1) := Offer_Apply 10 (Ok "o9") place start in
  let '(d2, r2) := Offer_Apply 10 (Ok "o9") cancel d1 in
  r1 = Ok tt ∧ r2 = Ok tt ∧ (GetAccountOffers "alice" d2).2 = Ok [] ∧
  (GetAccount "alice" start).2 = Ok (Some alice) ∧
  (GetAccount "alice" d2).2 =
    Ok (Some (set_acc_EntryCount (-1) (set_acc_Liability (Some (mkLiability 10 120)) alice))).
Proof. vm_compute. repeat split. Qed.

(** ** Witnesses *)

Definition pair_store : memdb := (SaveAccount (Some bob) (SaveAccount (Some alice) memdb.New).1).1.

Lemma ready_intro (d : memdb) : is_Some d → ready d.
Proof. split; [done|]. by apply (bool_decide_unpack _). Qed.

(** Saving an account with a balance that is not negative keeps a store solvent. *)
Lemma acct_at_save (d d' : memdb) a :
  is_Some d → SaveAccount (Some a) d = (d', Ok tt) → solvent d → 0 <= acc_Balance a <= MaxInt64 →
  solvent d' ∧ is_Some d'.
Proof.
  intros Hd H Hs Hb. apply SaveAccount_Ok in H as [[Ho _] Hv]; [|by apply ready_intro].
  split; [|done]. intros id b. rewrite Hv. case_decide; [intros [= <-]; by subst|apply Hs].
Qed.

Lemma solvent_pair : solvent pair_store.
Proof.
  assert (solvent memdb.New) as H0 by (intros id a; unfold acct_at; simpl; by rewrite lookup_empty).
  destruct (acct_at_save memdb.New (SaveAccount (Some alice) memdb.New).1 alice) as [H1 Hs1];
    [by eexists|reflexivity|done|by vm_compute|].
  apply (acct_at_save _ pair_store bob Hs1); [|done|by vm_compute].
  unfold pair_store. apply run_eq. vm_compute. reflexivity.
Qed.

Lemma CreateAccount_Apply_conserves_witness :
  let c := mkCreateAccountOpr "alice" "carol" 300 10 7 in
  let d' := (CreateAccount_Apply 10 c pair_store).1 in
  total d' ["alice"; "carol"] = total pair_store ["alice"; "carol"] ∧ balance_at d' "alice" = 700.
Proof.
  intros c d'.
  destruct (CreateAccount_Apply_conserves 10 c pair_store d' ["alice"; "carol"]) as (H1 & _ & _ & _ & H2 & _).
  - apply ready_intro. by eexists.
  - exact solvent_pair.
  - discriminate.
  - by apply (bool_decide_unpack _).
  - by apply (bool_decide_unpack _).
  - by apply (bool_decide_unpack _).
  - apply run_eq. vm_compute. reflexivity.
  - split; [exact H1|]. etrans; [exact H2|]. vm_compute. reflexivity.
Defined.

Lemma native_payment_conserves_witness :
  let d' := (Payment_Apply 10 (mkPayment "alice" "bob" (Some ult) 250) pair_store).1 in
  total d' ["alice"; "bob"] = 1005 ∧ balance_at d' "bob" = 255 ∧ balance_at d' "alice" = 750.
Proof.
  intros d'.
  destruct (native_payment_conserves 10 "alice" "bob" ult 250 pair_store d' ["alice"; "bob"]) as (_ & _ & _ & H & _).
  - apply ready_intro. by eexists.
  - intros id a Ha. exact (proj1 (solvent_pair id a Ha)).
  - reflexivity.
  - split; discriminate.
  - by apply (bool_decide_unpack _).
  - by apply (bool_decide_unpack _).
  - by apply (bool_decide_unpack _).
  - discriminate.
  - apply run_eq. vm_compute. reflexivity.
  - destruct H as (H1 & H2 & H3); [split; vm_compute; discriminate|split; vm_compute; discriminate|discriminate|].
    rewrite H1, H2, H3. vm_compute. repeat split.
Defined.

Lemma Trust_Apply_new_witness :
  let with_bank := (SaveAccount (Some bank) pair_store).1 in
  let d' := (Trust_Apply 10 (mkTrustOpr "alice" (Some usd) 800) with_bank).1 in
  trust_at d' "alice" usd = Some (new_trust "alice" usd 800) ∧ 10 * 1 + 20 <= 1000.
Proof.
  intros with_bank d'.
  destruct (Trust_Apply_new 10 (mkTrustOpr "alice" (Some usd) 800) usd (default "" (Encode usd)) alice
    (mkLiability 10 20) with_bank d') as (H1 & _ & _ & H2).
  - apply ready_intro. by eexists.
  - reflexivity.
  - reflexivity.
  - discriminate.
  - vm_compute. reflexivity.
  - vm_compute. reflexivity.
  - reflexivity.
  - reflexivity.
  - split; [discriminate|reflexivity].
  - split; discriminate.
  - split; discriminate.
  - apply run_eq. vm_compute. reflexivity.
  - split; [exact H1|exact H2].
Defined.

Lemma Trust_Apply_limit_witness :
  let d' := (Trust_Apply 10 (mkTrustOpr "alice" (Some usd) 500) start).1 in
  trust_at d' "alice" usd = Some (set_tst_Limit 500 alice_usd).
Proof.
  intros d'.
  destruct (Trust_Apply_limit 10 (mkTrustOpr "alice" (Some usd) 500) usd alice alice_usd (mkLiability 0 0) start d' (Ok tt))
    as [(_ & _ & H)|(H & _)].
  - apply ready_intro. by eexists.
  - reflexivity.
  - discriminate.
  - discriminate.
  - vm_compute. reflexivity.
  - vm_compute. reflexivity.
  - reflexivity.
  - reflexivity.
  - reflexivity.
  - split; discriminate.
  - apply run_eq. vm_compute. reflexivity.
  - exact H.
  - discriminate H.
Defined.

End world.
