(* ===== verification/TxManager.v ===== *)
(** The transaction manager, [tx/manager.go], [tx/txhistory.go] and [tx/sorter.go]: the pending
    transactions, their status, and the application of an agreed list of transactions.

    The state is the record [Manager]: the database, the LRU cache of the status, the set that
    filters duplicates, the histories per account with the lock that guards them, and the
    transactions handed to the broadcasting goroutine.  A [Lock] taken while the lock is held is a
    deadlock: the model stops there, as a [Panic]. *)

From S2P Require Import Prelude Lru Pb Db Crypto Account Exchange TxOps.

Definition status_bucket : string := "TXSTATUS".
Definition tx_bucket : string := "TX".
Definition ErrInsufficientForFee : string := "insufficient balance for fee".
Definition ErrInvalidSeqNum : string := "invalid sequence number".
Definition MaxTxOpList : Z := 100.
Definition MaxTxNote : Z := 128.

(** * Pending transactions of an account *)

Record TxHistory := mkTxHistory { h_MaxSeqNum : Z; h_TotalFees : Z; h_txMap : gmap string Tx }.

Definition NewTxHistory : TxHistory := mkTxHistory 0 0 ∅.

Definition TxHistory_AddTx (txKey : string) (tx : Tx) (th : TxHistory) : res TxHistory :=
  if decide (tx_SeqNum tx < h_MaxSeqNum th) then
    Err ("tx seqnum mismatch: max " +:+ pretty (h_MaxSeqNum th) +:+ ", input " +:+ pretty (tx_SeqNum tx))
  else Ok (mkTxHistory (tx_SeqNum tx) (wrap64 (h_TotalFees th + tx_Fee tx)) (<[txKey := tx]> (h_txMap th))).

Section history.
Context {GoRt : GoRuntime}.

Definition TxHistory_DeleteTxList (txKeys : list string) (th : TxHistory) : TxHistory :=
  let txMap := foldl (λ m k, delete k m) (h_txMap th) txKeys in
  let '(maxseq, totalFees) :=
    foldl (λ '(maxseq, fees) '(_, tx),
             (if decide (maxseq < tx_SeqNum tx) then tx_SeqNum tx else maxseq, wrap64 (fees + tx_Fee tx)))
      (0, 0) (go_range txMap) in
  mkTxHistory maxseq totalFees txMap.

Definition TxHistory_GetTxList (th : TxHistory) : list Tx := (go_range (h_txMap th)).*2.

Definition TxHistory_Size (th : TxHistory) : Z := Z.of_nat (size (h_txMap th)).

End history.

Definition tx_less (a b : Tx) : bool := bool_decide (tx_SeqNum a < tx_SeqNum b).

(** * The manager *)

Section manager.
Context {D T : Type} {StoreD : Store D} {StoreT : Store T} {TxDb : TxDatabase D T}.
Context {Pbc : PbCodec} {GoRt : GoRuntime} {Crypto : CryptoLib}.
Variable baseReserve : Z.

Record Manager := mkManager {
  tm_database : D;
  tm_txStatus : lru TxStatus;
  tm_txSet : gset string;
  tm_rwm : bool;
  tm_accTxMap : gmap string TxHistory;
  tm_txChan : list Tx;
}.

Definition set_database (d : D) (m : Manager) : Manager :=
  mkManager d (tm_txStatus m) (tm_txSet m) (tm_rwm m) (tm_accTxMap m) (tm_txChan m).
Definition set_txStatus (c : lru TxStatus) (m : Manager) : Manager :=
  mkManager (tm_database m) c (tm_txSet m) (tm_rwm m) (tm_accTxMap m) (tm_txChan m).
Definition set_txSet (s : gset string) (m : Manager) : Manager :=
  mkManager (tm_database m) (tm_txStatus m) s (tm_rwm m) (tm_accTxMap m) (tm_txChan m).
Definition set_rwm (b : bool) (m : Manager) : Manager :=
  mkManager (tm_database m) (tm_txStatus m) (tm_txSet m) b (tm_accTxMap m) (tm_txChan m).
Definition set_accTxMap (a : gmap string TxHistory) (m : Manager) : Manager :=
  mkManager (tm_database m) (tm_txStatus m) (tm_txSet m) (tm_rwm m) a (tm_txChan m).
Definition set_txChan (l : list Tx) (m : Manager) : Manager :=
  mkManager (tm_database m) (tm_txStatus m) (tm_txSet m) (tm_rwm m) (tm_accTxMap m) l.

(** The fields of a new manager; the buckets are made with [NewBucket] before. *)
Definition NewManager (d : D) : Manager := mkManager d [] ∅ false ∅ [].

(** Run a database operation. *)
Definition on_db {A} (m : M D A) : M Manager A := λ tm,
  let '(d, r) := m (tm_database tm) in (set_database d tm, r).

Definition Lock : M Manager unit :=
  let! tm := get in
  if tm_rwm tm then panic "deadlock" else put (set_rwm true tm).
Definition Unlock : M Manager unit := modify (set_rwm false).

Definition UpdateTxStatus (txKey : string) (status : TxStatus) : M Manager unit :=
  do! modify (λ tm, set_txStatus (lru_Add txKey status (tm_txStatus tm)) tm) in
  let! b := wrap "encode status failed: " (lift (encode_res status)) in
  do! wrap "save status in db failed: " (on_db (db_Put status_bucket txKey b)) in
  modify (λ tm, set_txStatus (lru_Add txKey status (tm_txStatus tm)) tm).

Definition set_st_Data (b : string) (s : TxStatus) : TxStatus :=
  mkTxStatus (st_StatusCode s) (st_ErrorMessage s) b.

Definition GetTxStatus (txKey : string) : M Manager TxStatus :=
  let! tm := get in
  let '(c, o) := lru_Get txKey (tm_txStatus tm) in
  do! put (set_txStatus c tm) in
  match o with
  | Some s => ret s
  | None =>
      let! b := wrap ("get tx " +:+ txKey +:+ " status failed: ") (on_db (db_Get status_bucket txKey)) in
      match b with
      | None => ret (mkTxStatus NOTEXIST "" "")
      | Some b =>
          let! status := lift (decode_res b) in
          let! b := wrap ("get tx " +:+ txKey +:+ " failed: ") (on_db (db_Get tx_bucket txKey)) in
          match b with
          | None => panic "tx is missing while tx status is present"
          | Some b => ret (set_st_Data b status)
          end
      end
  end.

Definition AddTx (txKey : string) (tx : Tx) : M Manager unit :=
  let! tm := get in
  if decide (txKey ∈ tm_txSet tm) then ret tt
  else
    let! acc := wrap "get account failed: " (on_db (GetAccount (tx_AccountID tx))) in
    match acc with
    | None => fail ErrAccountNotExist
    | Some acc =>
        let! tm := get in
        let! '(totalFees, maxSeq) :=
          match tm_accTxMap tm !! tx_AccountID tx with
          | Some h => ret (wrap64 (tx_Fee tx + h_TotalFees h), Z.max (tx_SeqNum tx) (h_MaxSeqNum h))
          | None =>
              do! put (set_accTxMap (<[tx_AccountID tx := NewTxHistory]> (tm_accTxMap tm)) tm) in
              ret (tx_Fee tx, tx_SeqNum tx)
          end in
        if decide (tx_SeqNum tx < maxSeq) then fail ErrInvalidSeqNum
        else
          let balance := wrap64 (acc_Balance acc - wrap64 (baseReserve * acc_EntryCount acc)) in
          if decide (balance < totalFees) then fail "insufficient account balance"
          else if decide (MaxTxNote < Z.of_nat (String.length (tx_Note tx))) then fail "tx note is too long"
          else if decide (MaxTxOpList < Z.of_nat (length (tx_OpList tx))) then fail "too much tx ops"
          else
            do! Lock in
            let! tm := get in
            let! h := lift (deref (tm_accTxMap tm !! tx_AccountID tx)) in
            let h := match TxHistory_AddTx txKey tx h with Ok h' => h' | _ => h end in
            do! put (set_accTxMap (<[tx_AccountID tx := h]> (tm_accTxMap tm)) tm) in
            do! Unlock in
            do! modify (λ tm, set_txSet ({[txKey]} ∪ tm_txSet tm) tm) in
            let! b := wrap "encode tx failed: " (lift (encode_res tx)) in
            do! wrap "save tx in db failed: " (on_db (db_Put tx_bucket txKey b)) in
            do! wrap "update tx status failed: " (UpdateTxStatus txKey (mkTxStatus ACCEPTED "" "")) in
            modify (λ tm, set_txChan (tm_txChan tm ++ [tx]) tm)
    end.

(** The event loop of [Start] takes a transaction that was added, to broadcast it. *)
Definition take_tx : M Manager (option Tx) :=
  let! tm := get in
  match tm_txChan tm with
  | [] => ret None
  | tx :: rest => do! put (set_txChan rest tm) in ret (Some tx)
  end.

(** [txk, _ := ultpb.GetTxKey(tx)] *)
Definition tx_key (tx : Tx) : string := match GetTxKey tx with Ok k => k | _ => "" end.

Definition fail_status (e : string) : TxStatus := mkTxStatus FAILED e "".

Definition set_failed (tx : Tx) (e : string) : M Manager unit :=
  wrap ("update tx " +:+ tx_key tx +:+ " status failed: ") (UpdateTxStatus (tx_key tx) (fail_status e)).

(** The transactions of one account: the account after the fees, and those that were charged. *)
Fixpoint charge (acc : Account) (txs : list Tx) : M Manager (Account * list Tx) :=
  match txs with
  | [] => ret (acc, [])
  | tx :: txs =>
      if decide (tx_SeqNum tx < acc_SeqNum acc) then
        do! set_failed tx ErrInvalidSeqNum in charge acc txs
      else if decide (acc_Balance acc < tx_Fee tx) then
        do! set_failed tx ErrInsufficientForFee in charge acc txs
      else
        let acc := set_acc_SeqNum (tx_SeqNum tx) (set_acc_Balance (wrap64 (acc_Balance acc - tx_Fee tx)) acc) in
        let! '(acc, rest) := charge acc txs in
        ret (acc, tx :: rest)
  end.

Fixpoint charge_all (groups : list (string * list Tx)) : M Manager (list Tx) :=
  match groups with
  | [] => ret []
  | (id, txs) :: groups =>
      let! acc := wrap ("get account " +:+ id +:+ " failed: ") (on_db (GetAccount id)) in
      match acc with
      | None => fail ErrAccountNotExist
      | Some acc =>
          let! '(acc, rest) := charge acc txs in
          do! wrap "update account failed: " (on_db (SaveAccount (Some acc))) in
          let! rests := charge_all groups in
          ret (rest ++ rests)
      end
  end.

(** The getters [o.GetCreateAccount()] and so on return nil for another operation, and the fields
    are then read from a nil pointer. *)
Definition to_op (accountID : string) (ledgerSeqNum : Z) (o : Op) : res Opr :=
  match op_OpType o with
  | OpType_CREATE_ACCOUNT =>
      match op_Op o with
      | Some (Op_CreateAccount ca) =>
          Ok (OprCreateAccount (mkCreateAccountOpr accountID (cao_AccountID ca) (cao_Balance ca) baseReserve ledgerSeqNum))
      | _ => Panic "nil pointer dereference"
      end
  | OpType_PAYMENT =>
      match op_Op o with
      | Some (Op_Payment p) => Ok (OprPayment (mkPayment accountID (po_AccountID p) (po_Asset p) (po_Amount p)))
      | _ => Panic "nil pointer dereference"
      end
  | OpType_TRUST =>
      match op_Op o with
      | Some (Op_Trust t) => Ok (OprTrust (mkTrustOpr accountID (to_Asset t) (to_Limit t)))
      | _ => Panic "nil pointer dereference"
      end
  | OpType_PATH_PAYMENT => Err "received invalid op type: PATH_PAYMENT"
  | OpType_other n => Err ("received invalid op type: " +:+ pretty n)
  end.

Definition getTxOpList (opList : list Op) (accountID : string) (ledgerSeqNum : Z) : res (list Opr) :=
  res_map (to_op accountID ledgerSeqNum) opList.

(** The operations of one transaction, in a database transaction. *)
Definition apply_ops (ops : list Opr) : M D (option string) :=
  let! dt := wrap "start db transaction failed: " db_Begin in
  match mfor ops (Opr_Apply baseReserve) dt with
  | (dt, Ok _) => do! wrap "commit changes to db failed: " (tx_Commit dt) in ret None
  | (dt, Err e) => do! try (tx_Rollback dt) in ret (Some e)
  | (_, Panic w) => panic w
  | (_, NoFuel) => lift NoFuel
  end.

(** One transaction of the second loop.  When the list of operations is refused, the status is set
    to failed and the empty list is applied. *)
Definition apply_tx (ledgerSeqNum : Z) (tx : Tx) : M Manager unit :=
  let! ops :=
    match getTxOpList (tx_OpList tx) (tx_AccountID tx) ledgerSeqNum with
    | Ok ops => ret ops
    | Err e => do! set_failed tx e in ret []
    | Panic w => panic w
    | NoFuel => lift NoFuel
    end in
  let! opErr := on_db (apply_ops ops) in
  match opErr with
  | Some e => set_failed tx e
  | None => wrap "update tx status failed: " (UpdateTxStatus (tx_key tx) (mkTxStatus CONFIRMED "" ""))
  end.

(** [accTxMap[tx.AccountID] = append(accTxMap[tx.AccountID], x)] *)
Definition group_add {A} (id : string) (x : A) (g : gmap string (list A)) : gmap string (list A) :=
  <[id := default [] (g !! id) ++ [x]]> g.

Definition group_txs (txs : list Tx) : gmap string (list Tx) :=
  foldl (λ g tx, group_add (tx_AccountID tx) tx g) ∅ txs.

(** The slice of the caller is left sorted: it is [go_sort tx_less txList] afterwards. *)
Definition ApplyTxList (txList : list Tx) (ledgerSeqNum : Z) : M Manager unit :=
  let txList := go_sort tx_less txList in
  let! restTxList := charge_all (go_range (group_txs txList)) in
  mfor (go_sort tx_less restTxList) (apply_tx ledgerSeqNum).

Definition GetTxList : M Manager (list Tx) :=
  let! tm := get in
  if tm_rwm tm then panic "deadlock"
  else ret (concat ((λ '(_, h), TxHistory_GetTxList h) <$> go_range (tm_accTxMap tm))).

Definition DeleteTxList (txList : list Tx) : M Manager unit :=
  let groups := foldl (λ g tx, group_add (tx_AccountID tx) (tx_key tx) g) ∅ txList in
  mfor (go_range groups) (λ '(acc, keys),
    do! Lock in
    let! tm := get in
    match tm_accTxMap tm !! acc with
    | None => ret tt
    | Some th =>
        let th := TxHistory_DeleteTxList keys th in
        do! put (set_accTxMap (if decide (TxHistory_Size th = 0) then delete acc (tm_accTxMap tm)
                               else <[acc := th]> (tm_accTxMap tm)) tm) in
        Unlock
    end).

End manager.

Arguments Manager D : clear implicits.

(** * Lemmas on histories *)

(** The cached fields of a history are the maximum sequence number and the sum of the fees (modulo
    the width of the counter) of its transactions. *)
Definition hist_ok (h : TxHistory) : Prop :=
  (∀ k tx, h_txMap h !! k = Some tx → 0 <= tx_SeqNum tx <= h_MaxSeqNum h) ∧
  (h_txMap h = ∅ → h_MaxSeqNum h = 0) ∧
  (h_txMap h ≠ ∅ → ∃ k tx, h_txMap h !! k = Some tx ∧ tx_SeqNum tx = h_MaxSeqNum h) ∧
  h_TotalFees h = wrap64 (sumZ tx_Fee (map_to_list (h_txMap h)).*2).

Lemma wrap64_0 : wrap64 0 = 0.
Proof. done. Qed.

Lemma hist_ok_AddTx h h' k tx :
  hist_ok h → h_txMap h !! k = None → 0 <= tx_SeqNum tx → TxHistory_AddTx k tx h = Ok h' → hist_ok h'.
Proof.
  intros (H1 & _ & _ & Hf) Hk Hs. unfold TxHistory_AddTx. case_decide; [done|]. intros [= <-].
  unfold hist_ok; simpl. split_and!.
  - intros k' tx' [[_ <-]|[_ H']]%lookup_insert_Some; [lia|]. apply H1 in H'. lia.
  - by intros ?%insert_non_empty.
  - intros _. exists k, tx. by rewrite lookup_insert_eq.
  - rewrite (sumZ_perm tx_Fee _ (tx :: (map_to_list (h_txMap h)).*2)) by by rewrite map_to_list_insert.
    rewrite Hf, wrap64_add_wrap_l. simpl. f_equal. lia.
Qed.

(** The recalculation of [DeleteTxList], in any order of the map. *)
Lemma recalc_fold (l : list (string * Tx)) :
  Forall (λ kt, 0 <= tx_SeqNum kt.2) l →
  ∃ m, foldl (λ '(maxseq, fees) '(_, tx),
             (if decide (maxseq < tx_SeqNum tx) then tx_SeqNum tx else maxseq, wrap64 (fees + tx_Fee tx)))
      (0, 0) l = (m, wrap64 (sumZ tx_Fee l.*2)) ∧
    Forall (λ kt, tx_SeqNum kt.2 <= m) l ∧ (l = [] → m = 0) ∧ (l ≠ [] → ∃ kt, kt ∈ l ∧ tx_SeqNum kt.2 = m) ∧ 0 <= m.
Proof.
  induction l as [|[k tx] l IH] using rev_ind; [exists 0; by vm_compute|].
  intros [Hl Hx]%Forall_app. destruct (IH Hl) as (m & Hf & Hm & Hn & He & H0).
  rewrite Forall_singleton in Hx. simpl in Hx.
  rewrite foldl_app, Hf. simpl. rewrite fmap_app, sumZ_app, wrap64_add_wrap_l. simpl. rewrite Z.add_0_r.
  eexists. split; [done|]. split_and!; [| |intros _|case_decide; lia].
  - apply Forall_app. split; [eapply Forall_impl; [exact Hm|]|apply Forall_singleton]; simpl; intros; case_decide; lia.
  - by intros []%app_nil.
  - case_decide; [exists (k, tx); set_solver|].
    destruct l as [|kt l]; [exists (k, tx); pose proof (Hn eq_refl); split; [set_solver|simpl; lia]|].
    destruct He as (kt' & ? & ?); [done|]. exists kt'. set_solver.
Qed.

Lemma delete_list_lookup {V} (ks : list string) (m : gmap string V) k :
  foldl (λ m k, delete k m) m ks !! k = if decide (k ∈ ks) then None else m !! k.
Proof.
  revert m. induction ks as [|k' ks IH]; intros m; simpl; [done|].
  rewrite IH. destruct (decide (k = k')) as [->|Hne].
  - rewrite lookup_delete_eq, (decide_True (P := k' ∈ k' :: ks)) by set_solver. by case_decide.
  - rewrite lookup_delete_ne by done. repeat case_decide; set_solver.
Qed.

Lemma DeleteTxList_hist {GoRt : GoRuntime} ks h :
  (∀ k tx, h_txMap h !! k = Some tx → 0 <= tx_SeqNum tx) →
  hist_ok (TxHistory_DeleteTxList ks h) ∧
  ∀ k, h_txMap (TxHistory_DeleteTxList ks h) !! k = if decide (k ∈ ks) then None else h_txMap h !! k.
Proof.
  intros Hs. unfold TxHistory_DeleteTxList. set (m := foldl _ _ ks).
  assert (∀ k, m !! k = if decide (k ∈ ks) then None else h_txMap h !! k) as Hm by (intros; apply delete_list_lookup).
  destruct (recalc_fold (go_range m)) as (mx & Hf & Hle & Hnil & Hex & _).
  { rewrite go_range_perm. apply Forall_forall. intros [k tx] Hk%elem_of_map_to_list. rewrite Hm in Hk.
    case_decide; [done|]. by apply (Hs k tx). }
  rewrite Hf. split; [|done]. unfold hist_ok; simpl.
  assert (∀ k tx, m !! k = Some tx ↔ (k, tx) ∈ go_range m) as Hin.
  { intros k tx. by rewrite go_range_perm, elem_of_map_to_list. }
  split_and!.
  - intros k tx Hk. split; [rewrite Hm in Hk; case_decide; [done|by eapply Hs]|].
    rewrite Forall_forall in Hle. apply (Hle (k, tx)), Hin, Hk.
  - intros He. apply Hnil. apply Permutation_nil_r. rewrite go_range_perm, He. by rewrite map_to_list_empty.
  - intros Hne. destruct Hex as ([k tx] & Hk & <-); [|exists k, tx; by rewrite Hin].
    intros Hg. apply Hne. apply map_to_list_empty_iff. apply Permutation_nil_r. by rewrite <- go_range_perm, Hg.
  - f_equal. apply sumZ_perm. by rewrite go_range_perm.
Qed.

(** * Lemmas on the manager *)

Section laws.
Context {D T : Type} {StoreD : Store D} {LawsD : StoreLaws D} {StoreT : Store T} {TxDb : TxDatabase D T}.
Context {Pbc : PbCodec} {GoRt : GoRuntime} {Crypto : CryptoLib}.

(** Every cached status is the one in the database. *)
Definition coherent (tm : Manager D) : Prop :=
  ∀ k s, lru_find k (tm_txStatus tm) = Some s → db_view (tm_database tm) status_bucket k ≫= Decode = Some s.

Lemma UpdateTxStatus_Ok k s (tm tm' : Manager D) :
  db_ok (tm_database tm) → db_bucket (tm_database tm) status_bucket →
  UpdateTxStatus k s tm = (tm', Ok tt) →
  ∃ b, Encode s = Some b ∧ tm_txStatus tm' = lru_Add k s (lru_Add k s (tm_txStatus tm)) ∧
    db_ok (tm_database tm') ∧
    ∀ b' k', db_bucket (tm_database tm) b' →
      db_view (tm_database tm') b' k' = view_put (db_view (tm_database tm)) status_bucket k (Some b) b' k'.
Proof.
  intros Ho Hb H. unfold UpdateTxStatus in H. apply bind_Ok in H as (? & [] & [= <-] & H).
  apply bind_Ok in H as (? & b & H1%wrap_Ok & H). injection H1 as <- Hb'.
  apply bind_Ok in H as (tm1 & [] & H1%wrap_Ok & [= <-]). unfold on_db in H1. simpl in H1.
  destruct (db_Put status_bucket k b (tm_database tm)) as [d' r] eqn:Hp. injection H1 as <- ->. simpl.
  apply encode_res_Ok in Hb'. exists b.
  apply Put_spec in Hp as [(_ & ? & _ & ?)|(e & ? & _)]; [|done..]. split_and!; done.
Qed.

(** What [charge] does to the account, whatever the status updates. *)
Lemma charge_Ok txs : ∀ (tm tm' : Manager D) acc acc' rest,
  charge acc txs tm = (tm', Ok (acc', rest)) →
  rest `sublist_of` txs ∧
  (rest ≠ [] → acc_Balance acc' = wrap64 (acc_Balance acc - sumZ tx_Fee rest)) ∧ (rest = [] → acc' = acc) ∧
  StronglySorted (λ a b, tx_SeqNum a <= tx_SeqNum b) rest ∧
  Forall (λ tx, acc_SeqNum acc <= tx_SeqNum tx <= acc_SeqNum acc') rest ∧
  acc_SeqNum acc <= acc_SeqNum acc' ∧
  acc' = set_acc_SeqNum (acc_SeqNum acc') (set_acc_Balance (acc_Balance acc') acc).
Proof.
  induction txs as [|tx txs IH]; intros tm tm' acc acc' rest H; simpl in H.
  - injection H as <- <- <-. split_and!; simpl; first [lia|constructor|by destruct acc|done].
  - case_decide as Hseq; [|case_decide as Hbal].
    1,2: apply bind_Ok in H as (tm1 & [] & _ & H); destruct (IH _ _ _ _ _ H) as (? & ? & ? & ? & ? & ? & ?);
      split_and!; try done; by apply sublist_cons.
    apply bind_Ok in H as (tm1 & [acc1 rest1] & H & [= <- <- <-]).
    apply IH in H as (Hsub & Hbal' & Hnil & Hss & Hfa & Hle & Heq). simpl in *. split_and!; try lia.
    + by apply sublist_skip.
    + intros _. destruct rest1 as [|t rest1]; [rewrite Hnil by done; simpl; f_equal; lia|].
      rewrite Hbal' by done. apply wrap64_congr. destruct (wrap64_eq_mod (acc_Balance acc - tx_Fee tx)) as [k ->].
      apply Z.mod_divide; [done|]. exists k. simpl. lia.
    + done.
    + constructor; [done|]. eapply Forall_impl; [exact Hfa|]. simpl. lia.
    + constructor; [lia|]. eapply Forall_impl; [exact Hfa|]. simpl. lia.
    + exact Heq.
Qed.

(** Fees that are not negative are never more than the balance. *)
Lemma charge_covered txs : ∀ (tm tm' : Manager D) acc acc' rest,
  Forall (λ tx, 0 <= tx_Fee tx) txs → 0 <= acc_Balance acc <= MaxInt64 → charge acc txs tm = (tm', Ok (acc', rest)) →
  0 <= acc_Balance acc' ∧ acc_Balance acc' = acc_Balance acc - sumZ tx_Fee rest.
Proof.
  induction txs as [|tx txs IH]; intros tm tm' acc acc' rest Hf Hb H; simpl in H; [injection H as <- <- <-; simpl; lia|].
  apply Forall_cons in Hf as [Hfee Hf]. case_decide; [|case_decide]; apply bind_Ok in H as (tm1 & x & Hx & Hy).
  1,2: by apply IH in Hy.
  destruct x as [acc1 rest1]. injection Hy as <- <- <-. apply IH in Hx; simpl in *; rewrite ?wrap64_id in * by (unfold_int; lia); [lia|done|lia].
Qed.

End laws.

(** * On BoltDB *)

Section bolt.
Context {Pbc : PbCodec} {GoRt : GoRuntime} {Crypto : CryptoLib}.

(** Only the status bucket may differ. *)
Definition same_but_status (tm tm' : Manager boltdb) : Prop :=
  ∀ b, b ≠ status_bucket → tm_database tm' !! b = tm_database tm !! b.

#[local] Instance same_but_status_preorder : PreOrder same_but_status.
Proof.
  split; [by intros tm b|]. intros t1 t2 t3 H1 H2 b Hb. by rewrite H2, H1.
Qed.

Lemma preserves_modify_status f : preserves same_but_status (modify (λ tm, set_txStatus (f tm) tm)).
Proof. by intros tm b. Qed.

Lemma UpdateTxStatus_same k s : preserves same_but_status (UpdateTxStatus k s).
Proof.
  unfold UpdateTxStatus. apply (preserves_bind same_but_status); [apply preserves_modify_status|intros _].
  apply (preserves_bind same_but_status); [apply preserves_wrap, (preserves_lift same_but_status)|intros b].
  apply (preserves_bind same_but_status); [|intros _; apply preserves_modify_status].
  apply preserves_wrap. intros tm b' Hb'. unfold on_db. simpl. unfold boltdb.Put.
  destruct (tm_database tm !! status_bucket); [|done]. repeat case_decide; [done..|]. simpl.
  by rewrite lookup_insert_ne.
Qed.

(** The operations of a transaction are applied as a whole or not at all. *)
Lemma apply_ops_atomic reserve ops (db db' : boltdb) o :
  apply_ops reserve ops db = (db', Ok o) →
  match o with
  | None => mfor ops (Opr_Apply reserve) db = (db', Ok tt)
  | Some e => db' = db ∧ (mfor ops (Opr_Apply reserve) db).2 = Err e
  end.
Proof.
  unfold apply_ops. unfold_m. simpl. destruct (mfor ops (Opr_Apply reserve) db) as [dt [[]|e|w|]];
    intros H; by simplify_eq.
Qed.

End bolt.

(** * Properties *)

(** C28: the history of an account.  The cached maximum sequence number and total fee always agree
    with the pending transactions: they do in the empty history, adding a transaction under a new
    key keeps it so (and is refused exactly when its number is below the maximum), and deleting any
    keys recomputes them, in whatever order the map is visited, and removes exactly those keys. *)
Theorem TxHistory_invariant {GoRt : GoRuntime} (h : TxHistory) (k : string) (tx : Tx) (ks : list string) :
  hist_ok NewTxHistory ∧
  (hist_ok h → h_txMap h !! k = None → uint64 (tx_SeqNum tx) →
    (tx_SeqNum tx < h_MaxSeqNum h ∧ is_Ok (TxHistory_AddTx k tx h) = false) ∨
    (∃ h', TxHistory_AddTx k tx h = Ok h' ∧ hist_ok h' ∧ h_txMap h' = <[k := tx]> (h_txMap h))) ∧
  (hist_ok h → hist_ok (TxHistory_DeleteTxList ks h) ∧
    ∀ k', h_txMap (TxHistory_DeleteTxList ks h) !! k' = if decide (k' ∈ ks) then None else h_txMap h !! k').
Proof.
  split_and!.
  - split_and!; [intros k' tx'; simpl; by rewrite lookup_empty|done|done|by vm_compute].
  - intros Hh Hk Hs. destruct (TxHistory_AddTx k tx h) as [h'| | |] eqn:E; unfold TxHistory_AddTx in E;
      case_decide; simplify_eq; [right|by left].
    eexists. split_and!; [done| |done]. apply (hist_ok_AddTx h _ k tx); [done..|unfold_int; lia|].
    unfold TxHistory_AddTx. by rewrite decide_False.
  - intros (H1 & _). apply DeleteTxList_hist. intros k' tx' Hk'. by apply H1 in Hk' as [? _].
Qed.

(** C9: charging fees.  When the transactions of an account have been charged, those that pass are a
    subsequence of the list, in ascending order of sequence number and none below that of the
    account; no field of the account but its balance and sequence number has changed, and neither of them if nothing passes; the sequence number has not
    gone back; and the balance has dropped by the sum of the fees of those that pass, in int64.  If the balance and the fees are not negative, which for
    the fees nothing checks, the difference is exact and the balance is still not negative. *)
Theorem charge_fees_exact {D : Type} {StoreD : Store D} {Pbc : PbCodec} {Crypto : CryptoLib}
    (txs rest : list Tx) (acc acc' : Account) (tm tm' : Manager D) :
  charge acc txs tm = (tm', Ok (acc', rest)) →
  rest `sublist_of` txs ∧
  (rest = [] → acc' = acc) ∧ (rest ≠ [] → acc_Balance acc' = wrap64 (acc_Balance acc - sumZ tx_Fee rest)) ∧
  (Forall (λ tx, 0 <= tx_Fee tx) txs → 0 <= acc_Balance acc <= MaxInt64 →
    0 <= acc_Balance acc' ∧ acc_Balance acc' = acc_Balance acc - sumZ tx_Fee rest) ∧
  StronglySorted (λ a b, tx_SeqNum a <= tx_SeqNum b) rest ∧
  Forall (λ tx, acc_SeqNum acc <= tx_SeqNum tx <= acc_SeqNum acc') rest ∧ acc_SeqNum acc <= acc_SeqNum acc' ∧
  acc' = set_acc_SeqNum (acc_SeqNum acc') (set_acc_Balance (acc_Balance acc') acc).
Proof.
  intros H. destruct (charge_Ok txs tm tm' acc acc' rest H) as (? & ? & ? & ? & ? & ? & ?).
  split_and!; try done. intros Hf Hb. by apply (charge_covered txs tm tm').
Qed.

(** The status cache is coherent with the database.  If every cached status is the stored one, it
    is so after a successful update, and reading the updated transaction returns the new status. *)
Theorem status_cache_coherent {D : Type} {StoreD : Store D} {LawsD : StoreLaws D} {Pbc : PbCodec}
    (k : string) (s : TxStatus) (tm tm' : Manager D) :
  db_ok (tm_database tm) → db_bucket (tm_database tm) status_bucket → coherent tm →
  UpdateTxStatus k s tm = (tm', Ok tt) → coherent tm' ∧ (GetTxStatus k tm').2 = Ok s.
Proof.
  intros Ho Hb Hc H. apply UpdateTxStatus_Ok in H as (b & He & Hl & Ho' & Hv); [|done..]. split.
  - intros k' s'. rewrite Hl, Hv by done. unfold view_put. destruct (decide (k' = k)) as [->|Hne].
    + rewrite (proj1 (lru_find_Add _ _ _ "")), decide_True by done. intros [= <-]. simpl. by apply Decode_Encode.
    + intros Hf. apply (lru_find_Add k s _ k') in Hf; [|done]. apply (lru_find_Add k s _ k') in Hf; [|done].
      rewrite decide_False by tauto. by apply Hc.
  - unfold GetTxStatus. unfold_m. destruct (lru_Get k (tm_txStatus tm')) as [c o] eqn:Hg.
    pose proof (proj2 (lru_find_Get k (tm_txStatus tm') k)) as Ho2. rewrite Hg, Hl in Ho2. simpl in Ho2.
    rewrite (proj1 (lru_find_Add _ _ _ "")) in Ho2. by rewrite Ho2.
Qed.

(** C10: on BoltDB a transaction is atomic.  If applying it returns, then either every operation
    succeeded and the buckets are those the operations produced, or no bucket but that of the
    status has changed. *)
Theorem apply_tx_atomic {Pbc : PbCodec} {GoRt : GoRuntime} {Crypto : CryptoLib}
    (reserve seq : Z) (tx : Tx) (tm tm' : Manager boltdb) :
  apply_tx reserve seq tx tm = (tm', Ok tt) →
  (∃ ops db, getTxOpList reserve (tx_OpList tx) (tx_AccountID tx) seq = Ok ops ∧
    mfor ops (Opr_Apply reserve) (tm_database tm) = (db, Ok tt) ∧
    ∀ b, b ≠ status_bucket → tm_database tm' !! b = db !! b) ∨
  same_but_status tm tm'.
Proof.
  intros H. unfold apply_tx in H. apply bind_Ok in H as (tm1 & ops & H1 & H).
  apply bind_Ok in H as (tm2 & o & H2 & H). unfold on_db in H2.
  destruct (apply_ops reserve ops (tm_database tm1)) as [db r] eqn:Ha. injection H2 as <- ->.
  apply apply_ops_atomic in Ha.
  assert (same_but_status (set_database db tm1) tm') as Hlast.
  { destruct o; apply (preserves_run _ _ _ _ _ H), preserves_wrap, UpdateTxStatus_same. }
  destruct (getTxOpList _ _ _ _) as [ops'|e|w|] eqn:Ho; [| |done|done].
  - injection H1 as <- <-. destruct o as [e|]; [right|left].
    + destruct Ha as [-> _]. exact Hlast.
    + exists ops', db. split_and!; [done..|exact Hlast].
  - right. apply bind_Ok in H1 as (tm0 & [] & H0 & [= <- <-]).
    assert (same_but_status tm tm0) as Hfirst.
    { apply (preserves_run _ _ _ _ _ H0), preserves_wrap, UpdateTxStatus_same. }
    destruct o as [e'|]; [by destruct Ha as [_ ?]|]. injection Ha as <-.
    intros b Hb. rewrite (Hlast b Hb). apply (Hfirst b Hb).
Qed.

(** * Concrete runs *)

Module runs.

Import market world.
#[local] Existing Instances ref_runtime ref_codec ref_crypto.

Definition bolt_start : boltdb :=
  ((do! mfor [account_bucket; exchange_bucket; offer_bucket; status_bucket; tx_bucket] boltdb.NewBucket in
    do! SaveAccount (Some alice) in SaveAccount (Some bob)) ∅).1.
Definition on_bolt : Manager boltdb := NewManager bolt_start.
Definition on_mem : Manager memdb := NewManager pair_store.

Definition payment (to : string) (n : Z) : Op :=
  mkOp OpType_PAYMENT (Some (Op_Payment (mkPaymentOp to (Some ult) n))).
(** A transaction of an unknown operation, one that pays bob, and one whose second payment fails. *)
Definition unknown : Tx := mkTx "alice" 10 "" 1 [mkOp (OpType_other 9) None].
Definition pays : Tx := mkTx "alice" 10 "" 5 [payment "bob" 100].
Definition half : Tx := mkTx "alice" 10 "" 5 [payment "bob" 100; payment "carol" 100].

Definition balances {D} `{!Store D, !StoreLaws D} (tm : Manager D) : Z * Z :=
  (balance_at (tm_database tm) "alice", balance_at (tm_database tm) "bob").

(** A transaction whose operations are refused is confirmed.  After the failed status is
    written the loop goes on with an empty list of operations, and ends by confirming. *)
Theorem refused_ops_are_confirmed :
  let '(tm, r) := ApplyTxList (T := boltdb) 10 [unknown] 7 on_bolt in
  is_Ok (getTxOpList 10 (tx_OpList unknown) "alice" 7) = false ∧ r = Ok tt ∧
  (GetTxStatus (tx_key unknown) tm).2 = Ok (mkTxStatus CONFIRMED "" "").
Proof. vm_compute. repeat split. Qed.

(** A transaction can be applied again.  Its sequence number equals that of the account after
    the first time, which the check accepts: the fee and the payment are taken twice. *)
Theorem transaction_replayed :
  let '(tm1, r1) := ApplyTxList (T := boltdb) 10 [pays] 7 on_bolt in
  let '(tm2, r2) := ApplyTxList (T := boltdb) 10 [pays] 8 tm1 in
  r1 = Ok tt ∧ balances tm1 = (890, 105) ∧ r2 = Ok tt ∧ balances tm2 = (780, 205).
Proof. vm_compute. repeat split. Qed.

(** The sign of a fee is not checked.  A transaction with a negative fee is accepted and pays its account; one whose fee is the smallest int64 is
    accepted too and leaves the account with a negative balance. *)
Definition paid_for (fee : Z) : Tx := mkTx "alice" fee "" 5 [].
Theorem negative_fee_pays :
  (AddTx 10 "k" (paid_for (-500)) on_bolt).2 = Ok tt ∧ (AddTx 10 "k" (paid_for MinInt64) on_bolt).2 = Ok tt ∧
  balances (ApplyTxList (T := boltdb) 10 [paid_for (-500)] 7 on_bolt).1 = (1500, 5) ∧
  balances (ApplyTxList (T := boltdb) 10 [paid_for MinInt64] 7 on_bolt).1 = (1000 + MinInt64, 5).
Proof. vm_compute. repeat split. Qed.

(** On [memdb] a failed transaction is not undone.  The second payment fails and the
    transaction is reported as failed, yet the first payment stays, where BoltDB keeps the fee only. *)
Theorem memdb_rollback_keeps_writes :
  let '(tm1, r1) := ApplyTxList (T := boltdb) 10 [half] 7 on_bolt in
  let '(tm2, r2) := ApplyTxList (T := memdb) 10 [half] 7 on_mem in
  r1 = Ok tt ∧ balances tm1 = (990, 5) ∧ r2 = Ok tt ∧ balances tm2 = (890, 105) ∧
  (GetTxStatus (tx_key half) tm2).2 = Ok (mkTxStatus FAILED "account not exist" "").
Proof. vm_compute. repeat split. Qed.

(** Deleting transactions of an account without pending transactions keeps the lock: the next
    operation that needs it never returns. *)
Theorem delete_keeps_the_lock :
  let '(tm, r) := DeleteTxList [pays] on_bolt in
  r = Ok tt ∧ tm_rwm tm = true ∧ (GetTxList tm).2 = Panic "deadlock" ∧
  (AddTx 10 (tx_key pays) pays tm).2 = Panic "deadlock".
Proof. vm_compute. repeat split. Qed.

(** ** Witnesses *)

Definition one_tx : TxHistory := mkTxHistory 5 10 {[ "k" := pays ]}.

Lemma one_tx_ok : hist_ok one_tx.
Proof.
  split_and!.
  - intros k tx H. apply (lookup_singleton_Some "k" k pays tx) in H as [_ <-]. by vm_compute.
  - done.
  - intros _. exists "k", pays. by vm_compute.
  - by vm_compute.
Qed.

Lemma TxHistory_invariant_witness : hist_ok (TxHistory_DeleteTxList ["k"] one_tx).
Proof.
  destruct (TxHistory_invariant one_tx "other" pays ["k"]) as (_ & _ & H). apply H. exact one_tx_ok.
Defined.

Definition charged : Account := set_acc_SeqNum 5 (set_acc_Balance 980 alice).

Lemma charge_fees_exact_witness :
  (charge alice [unknown; pays] on_bolt).2 = Ok (charged, [unknown; pays]) ∧
  acc_Balance charged = 1000 - sumZ tx_Fee [unknown; pays].
Proof.
  assert ((charge alice [unknown; pays] on_bolt).2 = Ok (charged, [unknown; pays])) as H by (vm_compute; reflexivity).
  split; [exact H|].
  destruct (charge_fees_exact [unknown; pays] [unknown; pays] alice charged on_bolt (charge alice [unknown; pays] on_bolt).1)
    as (_ & _ & _ & Hx & _).
  - apply run_eq. exact H.
  - apply Hx; [repeat constructor; discriminate|split; discriminate].
Defined.

Lemma status_cache_coherent_witness :
  let tm' := (UpdateTxStatus "k" (mkTxStatus ACCEPTED "" "") on_mem).1 in
  (GetTxStatus "k" tm').2 = Ok (mkTxStatus ACCEPTED "" "").
Proof.
  intros tm'. apply (status_cache_coherent "k" (mkTxStatus ACCEPTED "" "") on_mem tm').
  - by eexists.
  - by apply (bool_decide_unpack _).
  - intros k s H. vm_compute in H. discriminate H.
  - apply run_eq. vm_compute. reflexivity.
Defined.

Lemma apply_tx_atomic_witness :
  let tm' := (apply_tx (T := boltdb) 10 7 half on_bolt).1 in
  same_but_status on_bolt tm' ∨ ∃ ops, getTxOpList 10 (tx_OpList half) "alice" 7 = Ok ops.
Proof.
  intros tm'. destruct (apply_tx_atomic 10 7 half on_bolt tm') as [(ops & db & H & _)|H].
  - apply run_eq. vm_compute. reflexivity.
  - right. exists ops. exact H.
  - left. exact H.
Defined.

End runs.
