(* ===== verification/Ledger.v ===== *)
(** The ledger manager, [ledger/manager.go], its buffer of pending closes, [ledger/buffer.go], and the
    ordering of downloaded ledgers, [ledger/downloader.go].

    The manager shares its database with the transaction manager, so the state is the transaction
    manager's with the fields of the ledger around it.  The clock is an argument.  Downloads are
    not run: a task is what was put on the channel, an answer of a peer is an argument. *)

From S2P Require Import Prelude Lru Pb Db Crypto Account TxOps TxManager.

Inductive LedgerState := LedgerStateSynced | LedgerStateSyncing | LedgerStateNotSynced.

#[global] Instance LedgerState_eq_dec : EqDecision LedgerState.
Proof. solve_decision. Defined.

Definition GenesisVersion : Z := 1.
Definition GenesisSeqNum : Z := 1.
Definition GenesisMaxTxSetSize : Z := 100.
Definition GenesisTotalTokens : Z := 4500000000000000000.
Definition GenesisBaseFee : Z := 1000.
Definition GenesisBaseReserve : Z := 100000000.

Definition ledger_bucket : string := "LEDGER".
Definition txset_bucket : string := "TXSET".
Definition checkpoint_key : string := "CHECKPOINT".

(** * The buffer *)

Record CloseInfo := mkCloseInfo { ci_Index : Z; ci_Value : string; ci_TxSet : TxSet }.

Abbreviation CloseInfoBuffer := (list CloseInfo).

Definition Buffer_Size (b : CloseInfoBuffer) : Z := Z.of_nat (length b).
Definition Buffer_Clear (b : CloseInfoBuffer) : CloseInfoBuffer := [].
Definition Buffer_Append (info : option CloseInfo) (b : CloseInfoBuffer) : CloseInfoBuffer :=
  match info with
  | None => b
  | Some info =>
      match last b with
      | Some lastInfo => if decide (uwrap64 (ci_Index lastInfo + 1) ≠ ci_Index info) then b else b ++ [info]
      | None => b ++ [info]
      end
  end.
Definition Buffer_PeekHead (b : CloseInfoBuffer) : option CloseInfo := head b.
Definition Buffer_PopHead (b : CloseInfoBuffer) : option CloseInfo * CloseInfoBuffer := (head b, tail b).

(** * The downloader *)

Record Downloader := mkDownloader {
  dl_nextIndex : Z;
  dl_infoMap : gmap Z CloseInfo;
  dl_rangeChan : list (Z * Z);
  dl_readyChan : list CloseInfo;
}.

Definition NewDownloader : Downloader := mkDownloader 0 ∅ [] [].

Definition AddTask (start end_ : Z) (d : Downloader) : res Downloader :=
  if decide (end_ < start) then Err "invalid ledger index range"
  else Ok (mkDownloader (dl_nextIndex d) (dl_infoMap d) (dl_rangeChan d ++ [(start, end_)]) (dl_readyChan d)).

(** [run] takes a task. *)
Definition take_task (d : Downloader) : Downloader * option (Z * Z) :=
  match dl_rangeChan d with
  | [] => (d, None)
  | t :: ts => (mkDownloader t.1 (dl_infoMap d) ts (dl_readyChan d), Some t)
  end.

(** The inner loop of [reorder]: hand over what follows in order. *)
Fixpoint hand_over (fuel : nat) (d : Downloader) : res Downloader :=
  match fuel with
  | O => NoFuel
  | S fuel =>
      match dl_infoMap d !! dl_nextIndex d with
      | None => Ok d
      | Some ci =>
          hand_over fuel (mkDownloader (uwrap64 (dl_nextIndex d + 1)) (dl_infoMap d) (dl_rangeChan d) (dl_readyChan d ++ [ci]))
      end
  end.

(** One round of [reorder]; every entry is handed over at most once, so the size of the map is enough fuel. *)
Definition reorder (info : CloseInfo) (d : Downloader) : res Downloader :=
  let d := mkDownloader (dl_nextIndex d) (<[ci_Index info := info]> (dl_infoMap d)) (dl_rangeChan d) (dl_readyChan d) in
  hand_over (S (size (dl_infoMap d))) d.

(** * The manager *)

Section ledger.
Context {D T : Type} {StoreD : Store D} {StoreT : Store T} {TxDb : TxDatabase D T}.
Context {Pbc : PbCodec} {GoRt : GoRuntime} {Crypto : CryptoLib}.
Variable baseReserve : Z.

Record LedgerManager := mkLedgerManager {
  lm_tm : TxManager.Manager D;
  lm_downloader : Downloader;
  lm_headers : lru LedgerHeader;
  lm_txsetCache : lru TxSet;
  lm_buffer : CloseInfoBuffer;
  lm_ledgerState : LedgerState;
  lm_lastCloseTime : Z;
  lm_ledgerHeaderCount : Z;
  lm_largestConsensusIndex : Z;
  lm_prevLedgerHeader : option LedgerHeader;
  lm_prevLedgerHeaderHash : string;
  lm_currLedgerHeader : option LedgerHeader;
  lm_currLedgerHeaderHash : string;
}.

Implicit Types lm : LedgerManager.

Definition set_tm (x : TxManager.Manager D) lm : LedgerManager :=
  mkLedgerManager x (lm_downloader lm) (lm_headers lm) (lm_txsetCache lm) (lm_buffer lm) (lm_ledgerState lm)
    (lm_lastCloseTime lm) (lm_ledgerHeaderCount lm) (lm_largestConsensusIndex lm)
    (lm_prevLedgerHeader lm) (lm_prevLedgerHeaderHash lm) (lm_currLedgerHeader lm) (lm_currLedgerHeaderHash lm).
Definition set_sync (dl : Downloader) (b : CloseInfoBuffer) (st : LedgerState) (largest : Z) lm : LedgerManager :=
  mkLedgerManager (lm_tm lm) dl (lm_headers lm) (lm_txsetCache lm) b st
    (lm_lastCloseTime lm) (lm_ledgerHeaderCount lm) largest
    (lm_prevLedgerHeader lm) (lm_prevLedgerHeaderHash lm) (lm_currLedgerHeader lm) (lm_currLedgerHeaderHash lm).
Definition set_caches (h : lru LedgerHeader) (t : lru TxSet) lm : LedgerManager :=
  mkLedgerManager (lm_tm lm) (lm_downloader lm) h t (lm_buffer lm) (lm_ledgerState lm)
    (lm_lastCloseTime lm) (lm_ledgerHeaderCount lm) (lm_largestConsensusIndex lm)
    (lm_prevLedgerHeader lm) (lm_prevLedgerHeaderHash lm) (lm_currLedgerHeader lm) (lm_currLedgerHeaderHash lm).
Definition set_chain (time count : Z) (prev : option LedgerHeader) (prevHash : string) (curr : option LedgerHeader)
    (currHash : string) lm : LedgerManager :=
  mkLedgerManager (lm_tm lm) (lm_downloader lm) (lm_headers lm) (lm_txsetCache lm) (lm_buffer lm) (lm_ledgerState lm)
    time count (lm_largestConsensusIndex lm) prev prevHash curr currHash.

Definition set_buffer (b : CloseInfoBuffer) lm : LedgerManager :=
  set_sync (lm_downloader lm) b (lm_ledgerState lm) (lm_largestConsensusIndex lm) lm.
Definition set_ledgerState (st : LedgerState) lm : LedgerManager :=
  set_sync (lm_downloader lm) (lm_buffer lm) st (lm_largestConsensusIndex lm) lm.

(** The fields of a new manager, over the transaction manager with its database; the buckets are made
    with [NewBucket] before. *)
Definition NewLedgerManager (tm : TxManager.Manager D) : LedgerManager :=
  mkLedgerManager tm NewDownloader [] [] [] LedgerStateNotSynced 0 0 0 None "" None "".

Definition on_tm {A} (m : M (TxManager.Manager D) A) : M LedgerManager A := λ lm,
  let '(tm, r) := m (lm_tm lm) in (set_tm tm lm, r).
Definition ledger_db {A} (m : M D A) : M LedgerManager A := on_tm (on_db m).

Definition CurrLedgerHeader lm : res LedgerHeader :=
  match lm_currLedgerHeader lm with Some h => Ok h | None => Panic "current ledger header is nil" end.
Definition CurrLedgerHeaderHash lm : res string :=
  if decide (lm_currLedgerHeaderHash lm = "") then Panic "current ledger header hash is empty" else Ok (lm_currLedgerHeaderHash lm).
Definition NextLedgerHeaderSeq lm : Z :=
  match lm_currLedgerHeader lm with None => 1 | Some h => uwrap64 (lh_SeqNum h + 1) end.
Definition LedgerSynced lm : bool := bool_decide (lm_ledgerState lm = LedgerStateSynced).

(** [strconv.FormatUint(seq, 10)] *)
Definition FormatUint (seq : Z) : string := pretty (Z.to_N seq).

(** ** Headers and transaction sets *)

Definition GetLedgerHeader (seq : string) : M LedgerManager (option LedgerHeader) :=
  let! lm := get in
  let '(c, o) := lru_Get seq (lm_headers lm) in
  do! put (set_caches c (lm_txsetCache lm) lm) in
  match o with
  | Some h => ret (Some h)
  | None =>
      let! lb := wrap "query ledger from db failed: " (ledger_db (db_Get ledger_bucket seq)) in
      match lb with
      | None => ret None
      | Some lb =>
          let! header := wrap "decode ledger failed: " (lift (decode_res lb)) in
          do! modify (λ lm, set_caches (lru_Add seq header (lm_headers lm)) (lm_txsetCache lm) lm) in
          ret (Some header)
      end
  end.

Definition AddTxSet (txsetHash : string) (txset : TxSet) : M LedgerManager unit :=
  let! tb := wrap "encode txset failed: " (lift (encode_res txset)) in
  do! wrap "save tx list to db failed: " (ledger_db (db_Put txset_bucket txsetHash tb)) in
  modify (λ lm, set_caches (lm_headers lm) (lru_Add txsetHash txset (lm_txsetCache lm)) lm).

Definition GetTxSet (txsetHash : string) : M LedgerManager (option TxSet) :=
  let! lm := get in
  let '(c, o) := lru_Get txsetHash (lm_txsetCache lm) in
  do! put (set_caches (lm_headers lm) c lm) in
  match o with
  | Some t => ret (Some t)
  | None =>
      let! txb := wrap "get txset from db failed: " (ledger_db (db_Get txset_bucket txsetHash)) in
      match txb with
      | None => ret None
      | Some txb =>
          let! txset := wrap "decode txset failed: " (lift (decode_res txb)) in
          do! modify (λ lm, set_caches (lm_headers lm) (lru_Add txsetHash txset (lm_txsetCache lm)) lm) in
          ret (Some txset)
      end
  end.

Definition GetLedger (seq : string) : M LedgerManager (LedgerHeader * option TxSet) :=
  let! header := wrap "get ledger header failed: " (GetLedgerHeader seq) in
  match header with
  | None => fail "ledger header not exist"
  | Some header =>
      let! txset := wrap "get txset failed: " (GetTxSet (lh_TxSetHash header)) in
      ret (header, txset)
  end.

(** ** Closing a ledger *)

Definition checkpoint_of lm : LedgerCheckpoint :=
  mkLedgerCheckpoint (lm_lastCloseTime lm) (lm_ledgerHeaderCount lm) 0 (lm_prevLedgerHeader lm) (lm_prevLedgerHeaderHash lm)
    (lm_currLedgerHeader lm) (lm_currLedgerHeaderHash lm).

Definition saveCheckpoint : M LedgerManager unit :=
  let! lm := get in
  let! b := wrap "encode checkpoint failed: " (lift (encode_res (checkpoint_of lm))) in
  wrap "save checkpoint in db failed: " (ledger_db (db_Put ledger_bucket checkpoint_key b)).

Definition new_header (seq : Z) (prevHeaderHash txHash cv : string) : LedgerHeader :=
  mkLedgerHeader GenesisVersion prevHeaderHash txHash cv GenesisMaxTxSetSize seq GenesisTotalTokens GenesisBaseFee GenesisBaseReserve.

(** The error of saving the header is built and dropped. *)
Definition advanceLedger (now seq : Z) (prevHeaderHash txHash cv : string) : M LedgerManager unit :=
  let header := new_header seq prevHeaderHash txHash cv in
  let! b := wrap "encode ledger header failed: " (lift (encode_res header)) in
  let! h := wrap "encode ledger header to key failed: " (lift (GetLedgerHeaderKey header)) in
  let seqStr := FormatUint seq in
  do! try (ledger_db (db_Put ledger_bucket seqStr b)) in
  do! modify (λ lm, set_caches (lru_Add seqStr header (lm_headers lm)) (lm_txsetCache lm) lm) in
  do! modify (λ lm, set_chain now (wrap64 (lm_ledgerHeaderCount lm + 1)) (lm_currLedgerHeader lm) (lm_currLedgerHeaderHash lm)
                      (Some header) h lm) in
  wrap "save ledger checkpoint failed: " saveCheckpoint.

(** [if err := m; err != nil { log.Fatalf(...) }] *)
Definition or_fatal {S A} (w : string) (m : M S A) : M S A := λ s,
  match m s with
  | (s', Err e) => (s', Panic (w +:+ e))
  | r => r
  end.

Definition closeLedger (now index : Z) (value : string) (txset : TxSet) : M LedgerManager unit :=
  let! lm := get in
  let expect := match lm_currLedgerHeader lm with Some h => uwrap64 (lh_SeqNum h + 1) | None => index end in
  if decide (expect ≠ index) then
    fail ("ledger seqnum mismatch: expect " +:+ FormatUint expect +:+ ", got " +:+ FormatUint index)
  else if decide (is_Some (lm_currLedgerHeader lm) ∧ lm_currLedgerHeaderHash lm ≠ ts_PrevLedgerHash txset) then
    panic "ledger tx header hash mismatch"
  else
    let! txsetHash := wrap "get txset hash failed: " (lift (GetTxSetKey txset)) in
    match b58_Decode value with
    | None => fail "hex decode consensus value failed: "
    | Some b =>
        let! cv := wrap "decode consensus value failed: " (lift (decode_res b)) in
        if decide (cv_TxSetHash cv ≠ txsetHash) then
          fail ("txset hash mismatch: cv txset hash " +:+ cv_TxSetHash cv +:+ ", computed txset hash " +:+ txsetHash)
        else
          do! wrap "apply tx list failed: " (on_tm (ApplyTxList baseReserve (ts_TxList txset) (NextLedgerHeaderSeq lm))) in
          or_fatal "advance ledger failed: " (advanceLedger now index (ts_PrevLedgerHash txset) txsetHash value)
    end.

Definition CreateGenesisLedger (now : Z) : M LedgerManager unit :=
  do! modify (set_ledgerState LedgerStateSynced) in
  or_fatal "advance ledger failed: " (advanceLedger now GenesisSeqNum "" "" "").

(** ** Externalized values *)

Definition RecvExtVal (now index : Z) (value : string) (txset : option TxSet) : M LedgerManager unit :=
  let! txset := lift (deref txset) in
  let! lm := get in
  let info := mkCloseInfo index value txset in
  match lm_ledgerState lm with
  | LedgerStateSyncing => modify (λ lm, set_buffer (Buffer_Append (Some info) (lm_buffer lm)) lm)
  | _ =>
      if decide (NextLedgerHeaderSeq lm = index) then
        let! hash := lift (CurrLedgerHeaderHash lm) in
        if decide (hash = ts_PrevLedgerHash txset) then
          do! wrap "close ledger failed: " (closeLedger now index value txset) in
          modify (λ lm, set_sync (lm_downloader lm) (lm_buffer lm) LedgerStateSynced index lm)
        else panic "ledger hash inconsistent"
      else if decide (index < NextLedgerHeaderSeq lm) then ret tt
      else
        do! modify (λ lm, set_buffer (Buffer_Append (Some info) (lm_buffer lm)) lm) in
        if decide (index <= lm_largestConsensusIndex lm) then ret tt
        else
          let! dl := wrap "add task to downloader failed: "
                       (lift (AddTask (uwrap64 (lm_largestConsensusIndex lm + 1)) (uwrap64 (index - 1)) (lm_downloader lm))) in
          modify (λ lm, set_sync dl (lm_buffer lm) LedgerStateSyncing (uwrap64 (index - 1)) lm)
  end.

(** The loop that closes what is buffered: it stops at the first error. *)
Fixpoint drain (now : Z) (infos : list CloseInfo) : M LedgerManager unit :=
  match infos with
  | [] => ret tt
  | head :: infos =>
      do! modify (set_buffer infos) in
      let! r := try (closeLedger now (ci_Index head) (ci_Value head) (ci_TxSet head)) in
      match r with
      | inl _ => ret tt
      | inr _ => drain now infos
      end
  end.

(** One downloaded ledger in the loop of [Start].  The two checks before the close only log. *)
Definition recv_downloaded (now : Z) (info : CloseInfo) : M LedgerManager unit :=
  let! lm := get in
  let! _ := lift (CurrLedgerHeaderHash lm) in
  do! try (closeLedger now (ci_Index info) (ci_Value info) (ci_TxSet info)) in
  let! lm := get in
  match Buffer_PeekHead (lm_buffer lm) with
  | None => ret tt
  | Some head =>
      if decide (NextLedgerHeaderSeq lm ≠ ci_Index head) then ret tt
      else
        do! drain now (lm_buffer lm) in
        do! modify (λ lm, set_buffer (Buffer_Clear (lm_buffer lm)) lm) in
        modify (set_ledgerState LedgerStateSynced)
  end.

(** ** Recovery *)

Definition header_key (h : option LedgerHeader) : res string :=
  match h with Some h => GetLedgerHeaderKey h | None => Err "proto: Marshal called with nil" end.

(** The sanity checks.  The largest index is never saved, so it reads 0. *)
Definition check_checkpoint (now : Z) (ck : LedgerCheckpoint) : res unit :=
  if decide (ck_LastCloseTime ck < 0 ∨ now < ck_LastCloseTime ck) then Err "invalid LastCloseTime"
  else if decide (ck_LedgerHeaderCount ck < 0) then Err "invalid LedgerHeaderCount"
  else if decide (ck_LargestConsensusIndex ck < 0) then Err "invalid LargestConsensus"
  else if decide (ck_PrevLedgerHeader ck = None ∧ ck_LedgerHeaderCount ck ≠ 1) then Err "PrevLedgerHeader is missing"
  else
    let? _ :=
      if decide (1 < ck_LargestConsensusIndex ck) then
        let? prevHash := res_wrap "get prev ledger header key failed: " (header_key (ck_PrevLedgerHeader ck)) in
        if decide (prevHash ≠ ck_PrevLedgerHeaderHash ck) then Err "incompatible prev ledger hash" else Ok tt
      else Ok tt in
    let? currHash := res_wrap "get curr ledger header key failed: " (header_key (ck_CurrLedgerHeader ck)) in
    if decide (currHash ≠ ck_CurrLedgerHeaderHash ck) then Err "incompatible curr ledger hash"
    else
      let? curr := deref (ck_CurrLedgerHeader ck) in
      if decide (lh_PrevLedgerHash curr ≠ ck_PrevLedgerHeaderHash ck) then Err "incompatible prev hash of current ledger"
      else Ok tt.

Definition RecoverFromCheckpoint (now : Z) : M LedgerManager unit :=
  let! b := wrap "get ledger checkpoint failed: " (ledger_db (db_Get ledger_bucket checkpoint_key)) in
  match b with
  | None => fail "ledger checkpoint is nil"
  | Some b =>
      do! modify (set_ledgerState LedgerStateNotSynced) in
      let! ck := wrap "decode ledger checkpoint failed: " (lift (decode_res b)) in
      do! lift (check_checkpoint now ck) in
      let! curr := lift (deref (ck_CurrLedgerHeader ck)) in
      do! modify (set_chain (ck_LastCloseTime ck) (ck_LedgerHeaderCount ck) (ck_PrevLedgerHeader ck)
                    (ck_PrevLedgerHeaderHash ck) (ck_CurrLedgerHeader ck) (ck_CurrLedgerHeaderHash ck)) in
      modify (λ lm, set_sync (lm_downloader lm) (lm_buffer lm) (lm_ledgerState lm) (lh_SeqNum curr) lm)
  end.

(** ** What a peer answers *)

(** The checks of the answer to the query of ledger [i]. *)
Definition check_downloaded (i : Z) (header : LedgerHeader) (txset : TxSet) : option CloseInfo :=
  match GetTxSetKey txset with
  | Ok txsetHash =>
      if decide (lh_TxSetHash header ≠ txsetHash) then None
      else match b58_Decode (lh_ConsensusValue header) with
      | None => None
      | Some cvb =>
          match decode_res cvb with
          | Ok cv => if decide (cv_TxSetHash cv ≠ txsetHash) then None else Some (mkCloseInfo i (lh_ConsensusValue header) txset)
          | _ => None
          end
      end
  | _ => None
  end.

End ledger.

Arguments LedgerManager D : clear implicits.

(** * Lemmas on the buffer and the downloader *)

(** The buffered values have consecutive indexes. *)
Definition contiguous (b : CloseInfoBuffer) : Prop :=
  ∀ i x y, b !! i = Some x → b !! S i = Some y → ci_Index y = uwrap64 (ci_Index x + 1).

Lemma contiguous_nil : contiguous [].
Proof. by intros i x y. Qed.

Lemma contiguous_tail x b : contiguous (x :: b) → contiguous b.
Proof. intros H i y z Hy Hz. by apply (H (S i)). Qed.

Lemma contiguous_Append o b : contiguous b → contiguous (Buffer_Append o b).
Proof.
  intros H. unfold Buffer_Append. destruct o as [info|]; [|done].
  destruct (last b) as [z|] eqn:Hl.
  - case_decide as Hd; [done|].
    intros i x y Hx Hy. rewrite last_lookup in Hl.
    assert (S i < length (b ++ [info]))%nat as Hi by (by eapply lookup_lt_Some).
    rewrite length_app in Hi. simpl in Hi.
    rewrite lookup_app_l in Hx by lia.
    destruct (decide (S i < length b)%nat).
    + rewrite lookup_app_l in Hy by lia. by apply (H i).
    + rewrite lookup_app_r in Hy by lia. replace (S i - length b)%nat with 0%nat in Hy by lia. simpl in Hy.
      replace (pred (length b)) with i in Hl by lia. simplify_eq/=. done.
  - apply last_None in Hl as ->. by intros [|i] x y.
Qed.

(** Consecutive keys of a map are at most as many as its entries. *)
Lemma consecutive_size {A} (m : gmap Z A) s n :
  0 <= n → (∀ j, s <= j < s + n → is_Some (m !! j)) → n <= Z.of_nat (size m).
Proof.
  intros Hn H. assert (list_to_set (seqZ s n) ⊆ dom m) as Hsub.
  { intros j Hj%elem_of_list_to_set%elem_of_seqZ. by apply elem_of_dom, H. }
  apply subseteq_size in Hsub. rewrite size_dom, size_list_to_set in Hsub by apply NoDup_seqZ.
  rewrite length_seqZ in Hsub. lia.
Qed.

(** [n] entries before the next one are already handed over. *)
Lemma hand_over_run fuel d n :
  0 <= n <= dl_nextIndex d → dl_nextIndex d - n + Z.of_nat (size (dl_infoMap d)) <= MaxUint64 →
  (∀ j, dl_nextIndex d - n <= j < dl_nextIndex d → is_Some (dl_infoMap d !! j)) →
  Z.of_nat (size (dl_infoMap d)) < n + Z.of_nat fuel →
  ∃ l d', hand_over fuel d = Ok d' ∧ dl_infoMap d' = dl_infoMap d ∧ dl_rangeChan d' = dl_rangeChan d ∧
    dl_readyChan d' = dl_readyChan d ++ l ∧ dl_nextIndex d' = dl_nextIndex d + Z.of_nat (length l) ∧
    dl_infoMap d' !! dl_nextIndex d' = None ∧
    (∀ i x, l !! i = Some x → dl_infoMap d !! (dl_nextIndex d + Z.of_nat i) = Some x).
Proof.
  revert d n. induction fuel as [|fuel IH]; intros d n Hn Hmax Hpre Hf.
  - assert (n <= Z.of_nat (size (dl_infoMap d))); [|lia].
    apply (consecutive_size _ (dl_nextIndex d - n)); [lia|]. intros j Hj. apply Hpre. lia.
  - simpl. destruct (dl_infoMap d !! dl_nextIndex d) as [ci|] eqn:Hci.
    2:{ exists [], d. rewrite app_nil_r. simpl. split_and!; first [done|lia|by intros []]. }
    assert (∀ j, dl_nextIndex d - n <= j < dl_nextIndex d + 1 → is_Some (dl_infoMap d !! j)) as Hpre'.
    { intros j Hj. destruct (decide (j = dl_nextIndex d)) as [->|]; [by eexists|]. apply Hpre. lia. }
    assert (n + 1 <= Z.of_nat (size (dl_infoMap d))).
    { apply (consecutive_size _ (dl_nextIndex d - n)); [lia|]. intros j Hj. apply Hpre'. lia. }
    rewrite uwrap64_id by (unfold uint64; lia).
    destruct (IH (mkDownloader (dl_nextIndex d + 1) (dl_infoMap d) (dl_rangeChan d) (dl_readyChan d ++ [ci])) (n + 1))
      as (l & d' & Hr & Hm & Hrc & Hq & Hnx & Hno & Hl); simpl in *; [lia|lia|intros j Hj; apply Hpre'; lia|lia|].
    exists (ci :: l), d'. rewrite Hq, <- app_assoc. split_and!; try done; [simpl; lia|].
    intros [|i] x Hx; simplify_eq/=; [by rewrite Z.add_0_r|].
    replace (dl_nextIndex d + Z.of_nat (S i)) with (dl_nextIndex d + 1 + Z.of_nat i) by lia. by apply Hl.
Qed.

(** * Lemmas on the chain *)

Section chain.
Context {D T : Type} {StoreD : Store D} {StoreT : Store T} {TxDb : TxDatabase D T}.
Context {Pbc : PbCodec} {GoRt : GoRuntime} {Crypto : CryptoLib}.
Implicit Types lm : LedgerManager D.

(** The current header has the hash that is kept for it, names the hash of the previous one, follows it in
    number, and its number counts the headers, in the width of the two counters. *)
Definition chain_ok lm : Prop :=
  match lm_currLedgerHeader lm with
  | None => lm_currLedgerHeaderHash lm = "" ∧ lm_ledgerHeaderCount lm = 0
  | Some h =>
      GetLedgerHeaderKey h = Ok (lm_currLedgerHeaderHash lm) ∧
      lh_PrevLedgerHash h = lm_prevLedgerHeaderHash lm ∧
      lm_ledgerHeaderCount lm = wrap64 (lh_SeqNum h) ∧ lh_SeqNum h = uwrap64 (lm_ledgerHeaderCount lm) ∧
      match lm_prevLedgerHeader lm with
      | None => lm_prevLedgerHeaderHash lm = "" ∧ lm_ledgerHeaderCount lm = 1
      | Some p => GetLedgerHeaderKey p = Ok (lm_prevLedgerHeaderHash lm) ∧ lh_SeqNum h = uwrap64 (lh_SeqNum p + 1)
      end
  end.

Definition ledger_inv lm : Prop := chain_ok lm ∧ contiguous (lm_buffer lm).

(** What the chain and the buffer read. *)
Definition chain_part lm :=
  (lm_currLedgerHeader lm, lm_currLedgerHeaderHash lm, lm_prevLedgerHeader lm, lm_prevLedgerHeaderHash lm,
   lm_ledgerHeaderCount lm).

Lemma chain_ok_part lm lm' : chain_part lm' = chain_part lm → chain_ok lm → chain_ok lm'.
Proof. unfold chain_part, chain_ok. by intros [= -> -> -> -> ->]. Qed.

(** Nothing but the database, the caches and the clock of the chain is touched. *)
Definition same_chain lm lm' : Prop := chain_part lm' = chain_part lm ∧ lm_buffer lm' = lm_buffer lm.
#[global] Instance same_chain_preorder : PreOrder same_chain.
Proof. split; [done|]. intros a b c [] []. split; congruence. Qed.

Lemma same_chain_inv lm lm' : same_chain lm lm' → ledger_inv lm → ledger_inv lm'.
Proof. intros [Hc Hb] [H1 H2]. split; [by eapply chain_ok_part|by rewrite Hb]. Qed.

Lemma same_on_tm {A} (m : M (TxManager.Manager D) A) : preserves same_chain (on_tm m).
Proof. intros lm. unfold on_tm. by destruct (m (lm_tm lm)). Qed.
Lemma same_ledger_db {A} (m : M D A) : preserves same_chain (ledger_db m).
Proof. apply same_on_tm. Qed.
Lemma same_caches f g : preserves same_chain (modify (λ lm, set_caches (f lm) (g lm) lm)).
Proof. by intros lm. Qed.
#[local] Hint Resolve same_on_tm same_ledger_db same_caches : go_preserves.

Lemma same_saveCheckpoint : preserves same_chain saveCheckpoint.
Proof. unfold saveCheckpoint. pres same_chain. Qed.
#[local] Hint Resolve same_saveCheckpoint : go_preserves.

(** Only a run that gets to the new header changes the chain, and then as a whole. *)
Lemma advanceLedger_chain now seq prev txh cv lm :
  let lm' := (advanceLedger now seq prev txh cv lm).1 in
  same_chain lm lm' ∨
  ∃ h, GetLedgerHeaderKey (new_header seq prev txh cv) = Ok h ∧ lm_buffer lm' = lm_buffer lm ∧
    chain_part lm' = (Some (new_header seq prev txh cv), h, lm_currLedgerHeader lm, lm_currLedgerHeaderHash lm,
                      wrap64 (lm_ledgerHeaderCount lm + 1)).
Proof.
  unfold advanceLedger. cbv zeta. set (header := new_header seq prev txh cv).
  destruct (encode_res header) as [b|?|?|] eqn:He.
  2-4: by left.
  rewrite (bind_eq_Ok _ _ _ lm b) by done.
  destruct (GetLedgerHeaderKey header) as [h|?|?|] eqn:Hk.
  2-4: by left.
  rewrite (bind_eq_Ok _ _ _ lm h) by done.
  pose proof (preserves_try same_chain _ (same_ledger_db (db_Put ledger_bucket (FormatUint seq) b)) lm) as Hs.
  destruct (try (ledger_db (db_Put ledger_bucket (FormatUint seq) b)) lm) as [lm1 [u|?|?|]] eqn:Ht.
  2-4: left; unfold bind; rewrite Ht; done.
  rewrite (bind_eq_Ok _ _ _ lm1 u) by done. right. exists h. split; [done|].
  set (lm3 := set_chain now (wrap64 (lm_ledgerHeaderCount lm1 + 1)) (lm_currLedgerHeader lm1) (lm_currLedgerHeaderHash lm1)
                (Some header) h (set_caches (lru_Add (FormatUint seq) header (lm_headers lm1)) (lm_txsetCache lm1) lm1)).
  rewrite (bind_eq_Ok _ _ _ (set_caches (lru_Add (FormatUint seq) header (lm_headers lm1)) (lm_txsetCache lm1) lm1) tt) by done.
  rewrite (bind_eq_Ok _ _ _ lm3 tt) by done.
  destruct (preserves_wrap same_chain "save ledger checkpoint failed: " saveCheckpoint same_saveCheckpoint lm3) as [Hc Hb].
  destruct Hs as [Hs Hsb]. simpl in Hs, Hsb. unfold chain_part in *. split; [by rewrite Hb|].
  rewrite Hc. simpl. injection Hs as H1 H2 _ _ H5. by rewrite H1, H2, H5.
Qed.


(** A success: the new header heads the chain and the cache, and the checkpoint is the last write. *)
Lemma advanceLedger_Ok now seq prev txh cv lm lm' :
  advanceLedger now seq prev txh cv lm = (lm', Ok tt) →
  let header := new_header seq prev txh cv in
  ∃ h b ckb d0 r d1, GetLedgerHeaderKey header = Ok h ∧ Encode header = Some b ∧
    chain_part lm' = (Some header, h, lm_currLedgerHeader lm, lm_currLedgerHeaderHash lm, wrap64 (lm_ledgerHeaderCount lm + 1)) ∧
    lm_buffer lm' = lm_buffer lm ∧ lm_lastCloseTime lm' = now ∧
    lm_headers lm' = lru_Add (FormatUint seq) header (lm_headers lm) ∧
    db_Put ledger_bucket (FormatUint seq) b (tm_database (lm_tm lm)) = (d0, r) ∧ (r = Ok tt ∨ ∃ e, r = Err e) ∧
    Encode (checkpoint_of lm') = Some ckb ∧
    db_Put ledger_bucket checkpoint_key ckb d0 = (d1, Ok tt) ∧ tm_database (lm_tm lm') = d1.
Proof.
  intros H header. unfold advanceLedger in H. cbv zeta in H. fold header in H.
  apply bind_Ok in H as (s1 & b & [[= <-] Hb]%wrap_Ok%pair_equal_spec & H).
  apply bind_Ok in H as (s2 & h & [[= <-] Hh]%wrap_Ok%pair_equal_spec & H).
  apply bind_Ok in H as (s3 & u & Ht & H).
  apply bind_Ok in H as (s4 & [] & [= <-] & H). apply bind_Ok in H as (s5 & [] & [= <-] & H).
  apply wrap_Ok in H. unfold saveCheckpoint in H.
  apply bind_Ok in H as (s6 & lm6 & [= <- <-] & H).
  apply bind_Ok in H as (s7 & ckb & [[= <-] Hck]%wrap_Ok%pair_equal_spec & H).
  apply wrap_Ok in H. apply encode_res_Ok in Hb, Hck.
  unfold try, ledger_db, on_tm, on_db in Ht. destruct (db_Put ledger_bucket (FormatUint seq) b _) as [d0 r] eqn:Hp.
  unfold ledger_db, on_tm, on_db in H. simpl in H.
  destruct (db_Put ledger_bucket checkpoint_key ckb _) as [d1 r1] eqn:Hp1. simplify_eq/=.
  exists h, b, ckb, d0, r, d1.
  destruct r as [[]|?|?|]; simplify_eq/=; split_and!; eauto.
Qed.

(** A ledger that has its first header. *)
Definition live lm : Prop := ledger_inv lm ∧ is_Some (lm_currLedgerHeader lm).
Definition keeps lm lm' : Prop := live lm → live lm'.
#[global] Instance keeps_preorder : PreOrder keeps.
Proof. split; [by intros lm H|]. intros a b c H1 H2 H. by apply H2, H1. Qed.

Lemma same_chain_keeps lm lm' : same_chain lm lm' → keeps lm lm'.
Proof.
  intros Hs [Hi Hc]. split; [by eapply same_chain_inv|]. destruct Hs as [Hs _]. unfold chain_part in Hs.
  injection Hs as -> _ _ _ _. done.
Qed.
Lemma keeps_same {A} (m : M (LedgerManager D) A) : preserves same_chain m → preserves keeps m.
Proof. intros H lm. apply same_chain_keeps, H. Qed.

Lemma uwrap64_succ z : uwrap64 (uwrap64 z + 1) = uwrap64 (z + 1).
Proof. unfold uwrap64. by rewrite Z.add_mod_idemp_l. Qed.

Lemma advanceLedger_live now h txh cv lm :
  live lm → lm_currLedgerHeader lm = Some h →
  live (advanceLedger now (uwrap64 (lh_SeqNum h + 1)) (lm_currLedgerHeaderHash lm) txh cv lm).1.
Proof.
  intros [[Hch Hb] Hs] Hh. destruct (advanceLedger_chain now (uwrap64 (lh_SeqNum h + 1)) (lm_currLedgerHeaderHash lm) txh cv lm)
    as [H|(k & Hk & Hbuf & Hp)]; [by apply (same_chain_keeps _ _ H)|].
  destruct (advanceLedger _ _ _ _ _ lm) as [lm' r]. simpl in *. unfold chain_part in Hp.
  injection Hp as Hc1 Hc2 Hp1 Hp2 Hn. unfold live, ledger_inv, chain_ok in *. rewrite Hc1, Hc2, Hp1, Hp2, Hn, Hbuf, Hh in *.
  destruct Hch as (Hkey & Hprev & Hcount & Hseq & _). simpl.
  split_and!; [done|done| | |done|done|done|by eexists].
  - by rewrite wrap64_uwrap64, Hcount, wrap64_add_wrap_l.
  - by rewrite uwrap64_wrap64, Hseq, uwrap64_succ.
Qed.

Lemma or_fatal_fst {S A} w (m : M S A) s : (or_fatal w m s).1 = (m s).1.
Proof. unfold or_fatal. by destruct (m s) as [? []]. Qed.

Variable baseReserve : Z.

Lemma closeLedger_keeps now index value txset : preserves keeps (closeLedger baseReserve now index value txset).
Proof.
  intros lm. unfold closeLedger. rewrite (bind_eq_Ok _ _ _ lm lm) by done.
  intros Hl. destruct (lm_currLedgerHeader lm) as [h|] eqn:Hh; [|by destruct Hl as [_ [? ?]]; congruence].
  case_decide as Hseq; [done|].
  case_decide as Hhash; [done|].
  assert (ts_PrevLedgerHash txset = lm_currLedgerHeaderHash lm) as ->.
  { destruct (decide (lm_currLedgerHeaderHash lm = ts_PrevLedgerHash txset)); [done|]. exfalso. apply Hhash. by split; [eexists|]. }
  assert (index = uwrap64 (lh_SeqNum h + 1)) as -> by (by destruct (decide (uwrap64 (lh_SeqNum h + 1) = index))).
  unfold bind at 1, wrap at 1, lift at 1. simpl. destruct (GetTxSetKey txset) as [txh|?|?|]; simpl; try done.
  destruct (b58_Decode value) as [vb|]; [|done].
  destruct (decode_res vb) as [cv|?|?|] eqn:Hcv; try done.
  rewrite (bind_eq_Ok _ _ _ lm cv) by done.
  case_decide; [done|].
  set (m := wrap "apply tx list failed: " _).
  assert (preserves same_chain m) as Hm by (apply preserves_wrap, same_on_tm).
  pose proof (Hm lm) as Hs. unfold bind. destruct (m lm) as [lm1 [u|?|?|]]; simpl in *;
    try (by apply (same_chain_keeps _ _ Hs)).
  rewrite or_fatal_fst. pose proof (same_chain_keeps _ _ Hs Hl) as Hl1.
  destruct Hs as [Hs _]. unfold chain_part in Hs. injection Hs as H1 H2 _ _ _. rewrite <- H2.
  apply advanceLedger_live; [done|congruence].
Qed.
#[local] Hint Resolve closeLedger_keeps : go_preserves.

Lemma keeps_buffer b : contiguous b → preserves keeps (modify (set_buffer (D:=D) b)).
Proof. intros Hb lm [[Hc _] Hs]. done. Qed.

Lemma drain_keeps now infos : contiguous infos → preserves keeps (drain baseReserve now infos).
Proof.
  induction infos as [|x infos IH]; intros Hc; simpl; [apply (preserves_ret keeps)|].
  apply contiguous_tail in Hc as Hc'.
  apply (preserves_bind keeps); [by apply keeps_buffer|intros _]. pres keeps.
Qed.

Lemma keeps_modify (f : LedgerManager D → LedgerManager D) :
  (∀ lm, chain_part (f lm) = chain_part lm ∧ (contiguous (lm_buffer lm) → contiguous (lm_buffer (f lm)))) →
  preserves keeps (modify f).
Proof.
  intros Hf lm [[Hc Hb] Hs]. destruct (Hf lm) as [Hp Hb']. simpl. split; [split|].
  - by eapply chain_ok_part.
  - auto.
  - unfold chain_part in Hp. injection Hp as -> _ _ _ _. done.
Qed.

Lemma recv_downloaded_keeps now info : preserves keeps (recv_downloaded baseReserve now info).
Proof.
  unfold recv_downloaded.
  apply (preserves_bind keeps); [apply (preserves_get keeps)|intros lm0].
  apply (preserves_bind keeps); [apply (preserves_lift keeps)|intros _].
  apply (preserves_bind keeps); [apply (preserves_try keeps), closeLedger_keeps|intros _].
  apply preserves_bind_get. intros lm. destruct (Buffer_PeekHead (lm_buffer lm)); [|by intros ?].
  case_decide; [by intros ?|]. intros Hl.
  refine (preserves_bind keeps _ _ (drain_keeps now (lm_buffer lm) _) _ lm Hl); [by destruct Hl as [[_ ?] _]|intros _].
  apply (preserves_bind keeps); [|intros _]; apply keeps_modify; intros lm1; split; done.
Qed.

Lemma RecvExtVal_keeps now index value txset : preserves keeps (RecvExtVal baseReserve now index value txset).
Proof.
  assert (∀ o, preserves keeps (modify (λ lm, set_buffer (Buffer_Append o (lm_buffer lm)) lm))) as Happ.
  { intros o. apply keeps_modify. intros lm. split; [done|]. apply contiguous_Append. }
  assert (∀ f g h, preserves keeps (modify (λ lm, set_sync (f lm) (lm_buffer lm) (g lm) (h lm) lm))) as Hsync.
  { intros f g h. by apply keeps_modify. }
  unfold RecvExtVal. pres keeps; first [apply Happ|apply (Hsync lm_downloader (λ _, _) (λ _, _))|apply (Hsync (λ _, _) (λ _, _) (λ _, _))].
Qed.


(** The calls on a ledger manager with its first header, and the queries that use its caches. *)
Inductive ledger_step : LedgerManager D → LedgerManager D → Prop :=
| step_RecvExtVal now i v t lm : ledger_step lm (RecvExtVal baseReserve now i v t lm).1
| step_downloaded now info lm : ledger_step lm (recv_downloaded baseReserve now info lm).1
| step_AddTxSet k t lm : ledger_step lm (AddTxSet k t lm).1
| step_GetTxSet k lm : ledger_step lm (GetTxSet k lm).1
| step_GetLedger k lm : ledger_step lm (GetLedger k lm).1
| step_downloader f lm : ledger_step lm (set_sync (f (lm_downloader lm)) (lm_buffer lm) (lm_ledgerState lm) (lm_largestConsensusIndex lm) lm)
| step_tm f lm : ledger_step lm (set_tm (f (lm_tm lm)) lm).

Lemma same_put_caches f g (lm : LedgerManager D) : same_chain lm (set_caches (f lm) (g lm) lm).
Proof. done. Qed.

Lemma same_GetLedgerHeader k : preserves same_chain (GetLedgerHeader k).
Proof.
  unfold GetLedgerHeader. apply preserves_bind_get. intros lm.
  destruct (lru_Get k (lm_headers lm)) as [c o].
  etrans; [apply (same_put_caches (λ _, c) lm_txsetCache)|].
  refine ((_ : preserves same_chain (match o with Some h => ret (Some h) | None => _ end)) _). pres same_chain.
Qed.
Lemma same_GetTxSet k : preserves same_chain (GetTxSet k).
Proof.
  unfold GetTxSet. apply preserves_bind_get. intros lm.
  destruct (lru_Get k (lm_txsetCache lm)) as [c o].
  etrans; [apply (same_put_caches lm_headers (λ _, c))|].
  refine ((_ : preserves same_chain (match o with Some h => ret (Some h) | None => _ end)) _). pres same_chain.
Qed.
#[local] Hint Resolve same_GetLedgerHeader same_GetTxSet : go_preserves.

Lemma ledger_step_keeps lm lm' : ledger_step lm lm' → keeps lm lm'.
Proof.
  destruct 1.
  - apply RecvExtVal_keeps.
  - apply recv_downloaded_keeps.
  - apply (keeps_same (AddTxSet k t)). unfold AddTxSet. pres same_chain.
  - apply (keeps_same (GetTxSet k)). pres same_chain.
  - apply (keeps_same (GetLedger k)). unfold GetLedger. pres same_chain.
  - by intros ?.
  - by intros ?.
Qed.

(** The genesis ledger. *)
Lemma genesis_live now tm lm0 : CreateGenesisLedger now (NewLedgerManager tm) = (lm0, Ok tt) → live lm0.
Proof.
  intros H0. unfold CreateGenesisLedger in H0. apply bind_Ok in H0 as (s & [] & [= <-] & H0).
  unfold or_fatal in H0. destruct (advanceLedger _ _ _ _ _ _) as [s1 [[]|?|?|]] eqn:Ha; simplify_eq.
  apply advanceLedger_Ok in Ha as (h & b & ckb & d0 & r & d1 & Hk & _ & Hc & Hb & _).
  unfold chain_part in Hc. injection Hc as H1 H2 H3 H4 H5.
  unfold live, ledger_inv, chain_ok. rewrite H1, H2, H3, H4, H5, Hb. simpl.
  split_and!; first [done|lia|apply contiguous_nil|by eexists].
Qed.

End chain.

(** C14: the ledger is a chain.  From the genesis ledger on, whatever values are externalized or downloaded,
    the current header has the hash that the manager keeps for it, names the hash of the header
    before it, has the next number, and its number is the number of headers closed; the
    buffered values have consecutive indexes. *)
Theorem ledger_is_a_chain {D T : Type} {StoreD : Store D} {StoreT : Store T} {TxDb : TxDatabase D T}
    {Pbc : PbCodec} {GoRt : GoRuntime} {Crypto : CryptoLib}
    (baseReserve now : Z) (tm : TxManager.Manager D) (lm0 lm : LedgerManager D) :
  CreateGenesisLedger now (NewLedgerManager tm) = (lm0, Ok tt) → rtc (ledger_step baseReserve) lm0 lm →
  chain_ok lm ∧ is_Some (lm_currLedgerHeader lm) ∧ contiguous (lm_buffer lm).
Proof.
  intros H0 Hs. pose proof (genesis_live _ _ _ H0) as Hl.
  clear H0.
  assert (live lm) as [[? ?] ?]; [|done].
  induction Hs as [|a b c Hab _ IH]; [done|]. by apply IH, (ledger_step_keeps _ _ _ Hab).
Qed.

(** Every run of [closeLedger] on a ledger with a header. *)
Lemma closeLedger_run {D T : Type} {StoreD : Store D} {StoreT : Store T} {TxDb : TxDatabase D T}
    {Pbc : PbCodec} {GoRt : GoRuntime} {Crypto : CryptoLib}
    (baseReserve now index : Z) (value : string) (txset : TxSet) (lm lm' : LedgerManager D) (h : LedgerHeader) (r : res unit) :
  lm_currLedgerHeader lm = Some h → closeLedger baseReserve now index value txset lm = (lm', r) →
  (r = Ok tt ∧ index = uwrap64 (lh_SeqNum h + 1) ∧ ts_PrevLedgerHash txset = lm_currLedgerHeaderHash lm ∧
   ∃ k vb cv, GetTxSetKey txset = Ok k ∧ b58_Decode value = Some vb ∧ Decode vb = Some cv ∧ cv_TxSetHash cv = k ∧
     let header := new_header index (ts_PrevLedgerHash txset) k value in
     lm_currLedgerHeader lm' = Some header ∧ GetLedgerHeaderKey header = Ok (lm_currLedgerHeaderHash lm') ∧
     lm_prevLedgerHeader lm' = Some h ∧ lm_prevLedgerHeaderHash lm' = lm_currLedgerHeaderHash lm ∧
     (GetLedgerHeader (FormatUint index) lm').2 = Ok (Some header)) ∨
  (∃ e, r = Err e ∧ chain_part lm' = chain_part lm) ∨ r = NoFuel ∨ is_Panic r = true.
Proof.
  intros Hh H. unfold closeLedger in H. rewrite (bind_eq_Ok _ _ _ lm lm) in H by done. rewrite Hh in H.
  case_decide as Hseq; [right; left; injection H as <- <-; eexists; done|].
  case_decide as Hhash; [right; right; right; by injection H as <- <-|].
  assert (ts_PrevLedgerHash txset = lm_currLedgerHeaderHash lm) as Hprev.
  { destruct (decide (lm_currLedgerHeaderHash lm = ts_PrevLedgerHash txset)); [done|]. exfalso. apply Hhash. by split; [eexists|]. }
  assert (index = uwrap64 (lh_SeqNum h + 1)) as Hidx by (by destruct (decide (uwrap64 (lh_SeqNum h + 1) = index))).
  destruct (GetTxSetKey txset) as [k|e|w|] eqn:Hk; [|unfold bind, wrap, lift in H; simplify_eq/=; eauto 6..].
  rewrite (bind_eq_Ok _ _ _ lm k) in H by done.
  destruct (b58_Decode value) as [vb|] eqn:Hv; [|right; left; injection H as <- <-; eexists; done].
  destruct (decode_res vb) as [cv|e|w|] eqn:Hcv; [|unfold bind, wrap, lift in H; simplify_eq/=; eauto 6..].
  rewrite (bind_eq_Ok _ _ _ lm cv) in H by done.
  case_decide as Hcvk; [right; left; injection H as <- <-; eexists; done|].
  assert (cv_TxSetHash cv = k) as Hck by (by destruct (decide (cv_TxSetHash cv = k))).
  set (m := wrap "apply tx list failed: " _) in H.
  assert (preserves same_chain m) as Hm by (apply preserves_wrap, same_on_tm).
  pose proof (Hm lm) as [Hs _]. unfold bind in H.
  destruct (m lm) as [lm1 [u|e|w|]]; simpl in *; [|injection H as <- <-; eauto 6..].
  unfold or_fatal in H. destruct (advanceLedger _ _ _ _ _ lm1) as [lm2 [[]|e|w|]] eqn:Ha;
    [injection H as <- <-|injection H as <- <-; eauto 6..].
  apply advanceLedger_Ok in Ha as (hk & b & ckb & d0 & r' & d1 & Hhk & _ & Hc & _ & _ & Hcache & _).
  left. split_and!; [done..|]. subst k. exists (cv_TxSetHash cv), vb, cv.
  assert (Decode vb = Some cv) by (unfold decode_res in Hcv; by case_match; simplify_eq).
  unfold chain_part in Hc, Hs. injection Hc as H1 H2 H3 H4 _. injection Hs as S1 S2 _ _ _.
  split_and!; first [done|congruence|idtac].
  unfold GetLedgerHeader, bind, get. rewrite Hcache. unfold lru_Get. 
  by rewrite (proj1 (lru_find_Add _ _ _ "")).
Qed.

(** C32: a close is complete or leaves the chain alone.  When [closeLedger] succeeds on a ledger with a
    header, the value decodes to the key of the transaction set, the number is the next one, the
    set follows the current header, and the new header is the current one and is what
    [GetLedgerHeader] answers for its number; when it returns an error, headers, hashes and count
    are as before. *)
Theorem closeLedger_all_or_nothing {D T : Type} {StoreD : Store D} {StoreT : Store T} {TxDb : TxDatabase D T}
    {Pbc : PbCodec} {GoRt : GoRuntime} {Crypto : CryptoLib}
    (baseReserve now index : Z) (value : string) (txset : TxSet) (lm lm' : LedgerManager D) (h : LedgerHeader) (r : res unit) :
  lm_currLedgerHeader lm = Some h → closeLedger baseReserve now index value txset lm = (lm', r) →
  (r = Ok tt ∧ index = uwrap64 (lh_SeqNum h + 1) ∧ ts_PrevLedgerHash txset = lm_currLedgerHeaderHash lm ∧
   ∃ k vb cv, GetTxSetKey txset = Ok k ∧ b58_Decode value = Some vb ∧ Decode vb = Some cv ∧ cv_TxSetHash cv = k ∧
     let header := new_header index (ts_PrevLedgerHash txset) k value in
     lm_currLedgerHeader lm' = Some header ∧ GetLedgerHeaderKey header = Ok (lm_currLedgerHeaderHash lm') ∧
     lm_prevLedgerHeader lm' = Some h ∧ lm_prevLedgerHeaderHash lm' = lm_currLedgerHeaderHash lm ∧
     (GetLedgerHeader (FormatUint index) lm').2 = Ok (Some header)) ∨
  (∃ e, r = Err e ∧ chain_part lm' = chain_part lm) ∨ r = NoFuel ∨ is_Panic r = true.
Proof. apply closeLedger_run. Qed.

(** C33: the checkpoint brings the ledger back.  After a successful advance of a good chain, a new manager
    over the same database recovers, at any later time and as long as the ledger number fits an int64, the two headers with their
    hashes, the count and the time, waits for consensus, and goes on with the next number. *)
Theorem checkpoint_roundtrip {D T : Type} {StoreD : Store D} {LawsD : StoreLaws D} {StoreT : Store T} {TxDb : TxDatabase D T}
    {Pbc : PbCodec} {GoRt : GoRuntime} {Crypto : CryptoLib}
    (now now' seq : Z) (prev txh cv : string) (lm lm' : LedgerManager D) :
  advanceLedger now seq prev txh cv lm = (lm', Ok tt) → chain_ok lm' → seq <= MaxInt64 → 0 <= now <= now' →
  db_ok (tm_database (lm_tm lm)) → db_bucket (tm_database (lm_tm lm)) ledger_bucket →
  let '(lm2, r) := RecoverFromCheckpoint now' (NewLedgerManager (lm_tm lm')) in
  r = Ok tt ∧ chain_part lm2 = chain_part lm' ∧ lm_lastCloseTime lm2 = now ∧
  lm_ledgerState lm2 = LedgerStateNotSynced ∧ lm_largestConsensusIndex lm2 = seq ∧
  NextLedgerHeaderSeq lm2 = NextLedgerHeaderSeq lm'.
Proof.
  intros Ha Hok Hmax Hnow Hdb Hbk.
  apply advanceLedger_Ok in Ha as (h & b & ckb & d0 & r & d1 & Hk & _ & Hc & _ & Ht & _ & Hp0 & Hr & Hck & Hp1 & Hd1).
  assert (db_ok d0 ∧ db_bucket d0 ledger_bucket) as [Hdb0 Hbk0].
  { destruct (Put_spec _ _ _ _ _ _ Hdb Hbk Hp0) as [(_&?&Hb'&_)|(e&_&->)]; [|done]. split; [done|by apply Hb']. }
  destruct (Put_spec _ _ _ _ _ _ Hdb0 Hbk0 Hp1) as [(_&Hdb1&Hb1&Hv1)|(e&?&_)]; [|done].
  specialize (Hv1 ledger_bucket checkpoint_key Hbk0). unfold view_put in Hv1. rewrite decide_True in Hv1 by done.
  unfold chain_part in Hc. injection Hc as H1 H2 H3 H4 H5.
  assert (check_checkpoint now' (checkpoint_of lm') = Ok tt) as Hcheck.
  { unfold chain_ok in Hok. rewrite H1 in Hok. destruct Hok as (Hkey & Hprev & Hcount & Hseq & Hlast). simpl in Hcount, Hseq.
    assert (0 <= lm_ledgerHeaderCount lm') by (rewrite Hcount, wrap64_id; rewrite Hseq in *; mlia).
    unfold check_checkpoint, checkpoint_of. simpl. rewrite H1, Ht. simpl.
    rewrite !decide_False by lia. rewrite decide_False, decide_False by (destruct (lm_prevLedgerHeader lm'); naive_solver lia).
    simpl. rewrite Hkey. simpl. rewrite decide_False by tauto. done. }
  unfold RecoverFromCheckpoint, bind, wrap, lift, ledger_db, on_tm, on_db. simpl. rewrite Hd1.
  rewrite (Get_spec d1 ledger_bucket checkpoint_key) by (by try apply Hb1). rewrite Hv1. simpl.
  unfold decode_res. rewrite (Decode_Encode _ _ Hck). simpl. rewrite Hcheck. simpl. rewrite H1. simpl.
  split_and!; try done.
  - unfold chain_part. simpl. congruence.
  - unfold NextLedgerHeaderSeq. simpl. by rewrite H1.
Qed.

(** Downloaded ledgers are handed over in order.  Whatever arrives, one round of [reorder] ends, hands
    over exactly the consecutive entries from the next index on, each once and in order, and stops at
    the first index that is still missing. *)
Theorem reorder_in_order (info : CloseInfo) (d : Downloader) :
  let m := <[ci_Index info := info]> (dl_infoMap d) in
  0 <= dl_nextIndex d → dl_nextIndex d + Z.of_nat (size m) <= MaxUint64 →
  ∃ l d', reorder info d = Ok d' ∧ dl_readyChan d' = dl_readyChan d ++ l ∧ dl_infoMap d' = m ∧
    dl_nextIndex d' = dl_nextIndex d + Z.of_nat (length l) ∧ m !! dl_nextIndex d' = None ∧
    ∀ i x, l !! i = Some x → m !! (dl_nextIndex d + Z.of_nat i) = Some x.
Proof.
  intros m H0 Hmax. unfold reorder. fold m.
  destruct (hand_over_run (S (size m)) (mkDownloader (dl_nextIndex d) m (dl_rangeChan d) (dl_readyChan d)) 0)
    as (l & d' & Hr & Hm & _ & Hq & Hn & Hnone & Hl); simpl in *; [lia|lia|intros j Hj; lia|lia|].
  exists l, d'. rewrite Hm in Hnone. split_and!; done.
Qed.

(** * Concrete runs *)

Module closes.

#[local] Existing Instance ref_runtime.
#[local] Existing Instance ref_crypto.
#[local] Existing Instance ref_codec.

(** A database with the buckets of the ledger, and the genesis ledger in it. *)
Definition empty_db : boltdb := {[ ledger_bucket := ∅; txset_bucket := ∅ ]}.
Definition before : LedgerManager boltdb := NewLedgerManager (NewManager empty_db).
Definition genesis : LedgerManager boltdb := (CreateGenesisLedger 10 before).1.

(** The next ledger, without transactions. *)
Definition next_set : TxSet := mkTxSet (lm_currLedgerHeaderHash genesis) [].
Definition next_value : string :=
  match GetTxSetKey next_set with
  | Ok k => match encode_res (mkConsensusValue k 7) with Ok b => b | _ => "" end
  | _ => ""
  end.
Definition second : LedgerManager boltdb := (RecvExtVal 100 20 2 next_value (Some next_set) genesis).1.

Lemma genesis_run : CreateGenesisLedger 10 before = (genesis, Ok tt).
Proof. apply run_eq. vm_compute. reflexivity. Qed.

Lemma ledger_is_a_chain_witness : chain_ok second ∧ lm_ledgerHeaderCount second = 2.
Proof.
  split; [|vm_compute; reflexivity].
  destruct (ledger_is_a_chain 100 10 (NewManager empty_db) genesis second genesis_run) as [H _]; [|exact H].
  apply rtc_once, step_RecvExtVal.
Defined.

Definition closed : LedgerManager boltdb * res unit := closeLedger 100 20 2 next_value next_set genesis.

Lemma closeLedger_all_or_nothing_witness :
  closed.2 = Ok tt ∧ lm_prevLedgerHeader closed.1 = lm_currLedgerHeader genesis.
Proof.
  assert (closed.2 = Ok tt) as Hr by (vm_compute; reflexivity). split; [exact Hr|].
  destruct (lm_currLedgerHeader genesis) as [h|] eqn:Hh; [|vm_compute in Hh; discriminate Hh].
  destruct (closeLedger_all_or_nothing 100 20 2 next_value next_set genesis closed.1 h closed.2 Hh (surjective_pairing _))
    as [(_ & _ & _ & k & vb & cv & _ & _ & _ & _ & _ & _ & Hp & _)|[(e & He & _)|[He|He]]].
  - exact Hp.
  - rewrite Hr in He. discriminate He.
  - rewrite Hr in He. discriminate He.
  - rewrite Hr in He. discriminate He.
Defined.

(** Recovering from the checkpoint of the genesis ledger. *)
Definition genesis_run_ := advanceLedger 10 1 "" "" "" (set_ledgerState LedgerStateSynced before).
Lemma checkpoint_roundtrip_witness :
  (RecoverFromCheckpoint 30 (NewLedgerManager (lm_tm genesis_run_.1))).2 = Ok tt.
Proof.
  assert (genesis_run_ = (genesis_run_.1, Ok tt)) as Hr by (apply run_eq; vm_compute; reflexivity).
  assert (chain_ok genesis_run_.1) as Hc by (vm_compute; repeat split; reflexivity).
  pose proof (checkpoint_roundtrip 10 30 1 "" "" "" _ genesis_run_.1 Hr Hc ltac:(unfold_int; lia) ltac:(lia) I ltac:(eexists; vm_compute; reflexivity)) as H.
  destruct (RecoverFromCheckpoint 30 (NewLedgerManager (lm_tm genesis_run_.1))) as [lm2 r]. exact (proj1 H).
Defined.

(** Ledger 5 arrives when 6 is already there: both are handed over. *)
Definition info (i : Z) : CloseInfo := mkCloseInfo i "" (mkTxSet "" []).
Lemma reorder_in_order_witness :
  ∃ l d', reorder (info 5) (mkDownloader 5 {[ 6 := info 6; 8 := info 8 ]} [] []) = Ok d' ∧ dl_readyChan d' = l ∧
          dl_nextIndex d' = 5 + Z.of_nat (length l).
Proof.
  destruct (reorder_in_order (info 5) (mkDownloader 5 {[ 6 := info 6; 8 := info 8 ]} [] []))
    as (l & d' & H1 & H2 & _ & H3 & _); [vm_compute; discriminate|vm_compute; discriminate|].
  exists l, d'. split; [exact H1|]. split; [exact H2|exact H3].
Defined.

Example reordered :
  (λ d, (ci_Index <$> dl_readyChan d, dl_nextIndex d)) <$>
    match reorder (info 5) (mkDownloader 5 {[ 6 := info 6; 8 := info 8 ]} [] []) with Ok d => Some d | _ => None end = Some ([5; 6], 7).
Proof. vm_compute. reflexivity. Qed.

End closes.
