(* ===== verification/Frame.v ===== *)
(** What the execution of transactions leaves alone.

    The operations of the account manager, the exchange, the transaction operations and the transaction
    manager write to the buckets of accounts, offers and transactions only: whatever else is in the database,
    the ledgers, the transaction sets and the quorums of the consensus among them, is as before.  This is what
    the consensus relies on when it lets the ledger manager apply a transaction set to the database that it
    shares. *)

From S2P Require Import Prelude Lru Pb Db Crypto Account Exchange TxOps TxManager Ledger.

(** What the transactions of a database promise: a new one sees the database, a commit installs what it
    holds, a rollback leaves the database or, without isolation, what the transaction holds. *)
Definition contents {D T : Type} `{!Store D, !StoreLaws D, !Store T, !StoreLaws T} (d : D) (t : T) : Prop :=
  db_ok t ∧ (∀ b, db_bucket d b → db_bucket t b) ∧ ∀ b k, db_bucket d b → db_view t b k = db_view d b k.

Class TxDatabaseLaws (D T : Type) `{!Store D, !StoreLaws D, !Store T, !StoreLaws T, !TxDatabase D T} := {
  Begin_spec : ∀ d : D, db_ok d → ∃ t : T, db_Begin d = (d, Ok t) ∧ contents d t;
  Commit_spec : ∀ (t : T) (d : D), db_ok t → contents t (tx_Commit t d).1;
  Rollback_spec : ∀ (t : T) (d : D), db_ok t → (tx_Rollback t d).1 = d ∨ contents t (tx_Rollback t d).1;
}.

#[global] Instance boltdb_TxDatabaseLaws : TxDatabaseLaws boltdb boltdb.
Proof. split; [intros d _; by exists d|done|by left]. Qed.

#[global] Instance memdb_TxDatabaseLaws `{!GoRuntime} : TxDatabaseLaws memdb memdb.
Proof. split; [intros d Hd; by exists d|done|by right]. Qed.

(** The buckets that transactions write. *)
Definition tx_buckets : list string := [account_bucket; exchange_bucket; offer_bucket; status_bucket; tx_bucket].

(** The buckets stay, and only those of [W] change. *)
Definition frame {D} `{!Store D, !StoreLaws D} (W : list string) (d d' : D) : Prop :=
  db_ok d → (∀ b, b ∈ W → db_bucket d b) →
  db_ok d' ∧ (∀ b, db_bucket d b → db_bucket d' b) ∧
  ∀ b k, db_bucket d b → b ∉ W → db_view d' b k = db_view d b k.

Lemma frame_weaken {D} `{!Store D, !StoreLaws D} (W W' : list string) (d d' : D) :
  (∀ b, b ∈ W → b ∈ W') → frame W d d' → frame W' d d'.
Proof. intros HW Hf Hd Hb. destruct (Hf Hd) as (? & ? & Hv); [by auto|]. split_and!; [done..|]. intros b k Hk Hn. apply Hv; auto. Qed.

Section frame.
Context {D : Type} {StoreD : Store D} {LawsD : StoreLaws D} {Pbc : PbCodec} {GoRt : GoRuntime}.
Context (W : list string) (HW : ∀ b, b ∈ tx_buckets → b ∈ W).

#[global] Instance frame_preorder : PreOrder (frame (D:=D) W).
Proof.
  split; [by intros d Hd Hb|]. intros d1 d2 d3 H12 H23 Hd Hb.
  destruct (H12 Hd Hb) as (H2 & Hb2 & Hv2). destruct (H23 H2 ltac:(auto)) as (H3 & Hb3 & Hv3).
  split_and!; [done|auto|]. intros b k Hk Hn. rewrite Hv3 by auto. auto.
Qed.

Lemma frame_Get b k : b ∈ W → preserves (frame W) (db_Get b k).
Proof. intros Hb d Hd Hbs. by rewrite Get_spec by auto. Qed.
Lemma frame_GetAll b p : b ∈ W → preserves (frame W) (db_GetAll b p).
Proof. intros Hb d Hd Hbs. by destruct (GetAll_spec d b p) as (l & -> & _); [auto..|]. Qed.
Lemma frame_Put b k x : b ∈ W → preserves (frame W) (db_Put b k x).
Proof.
  intros Hb d Hd Hbs. destruct (db_Put b k x d) as [d' r] eqn:H.
  apply Put_spec in H as [(_ & H1 & H2 & H3)|(? & _ & ->)]; [|done|auto..].
  split_and!; [done..|]. intros b' k' Hb' Hn. rewrite H3 by done. unfold view_put. by rewrite decide_False by naive_solver.
Qed.
Lemma frame_Delete b k : b ∈ W → preserves (frame W) (db_Delete b k).
Proof.
  intros Hb d Hd Hbs. destruct (db_Delete b k d) as [d' r] eqn:H.
  apply Delete_spec in H as (_ & H1 & H2 & H3); [|auto..].
  split_and!; [done..|]. intros b' k' Hb' Hn. rewrite H3 by done. unfold view_put. by rewrite decide_False by naive_solver.
Qed.

Lemma account_in : account_bucket ∈ W.
Proof. apply HW. by left. Qed.
Lemma exchange_in : exchange_bucket ∈ W.
Proof. apply HW. by right; left. Qed.
Lemma offer_in : offer_bucket ∈ W.
Proof. apply HW. by do 2 right; left. Qed.
#[local] Hint Resolve account_in exchange_in offer_in frame_Get frame_GetAll frame_Put frame_Delete : go_preserves.

(** ** The account manager *)

Lemma frame_CreateAccount r id bal s n : preserves (frame W) (CreateAccount r id bal s n).
Proof. unfold CreateAccount. pres (frame (D:=D) W). Qed.
Lemma frame_GetAccount id : preserves (frame W) (GetAccount id).
Proof. unfold GetAccount. pres (frame (D:=D) W). Qed.
Lemma frame_SaveAccount a : preserves (frame W) (SaveAccount a).
Proof. unfold SaveAccount. pres (frame (D:=D) W). Qed.
Lemma frame_CreateTrust id a l : preserves (frame W) (CreateTrust id a l).
Proof. unfold CreateTrust. pres (frame (D:=D) W). Qed.
Lemma frame_GetTrust id a : preserves (frame W) (GetTrust id a).
Proof. unfold GetTrust. pres (frame (D:=D) W). Qed.
Lemma frame_SaveTrust t : preserves (frame W) (SaveTrust t).
Proof. unfold SaveTrust. pres (frame (D:=D) W). Qed.
Lemma frame_DeleteTrust id a : preserves (frame W) (DeleteTrust id a).
Proof. unfold DeleteTrust. pres (frame (D:=D) W). Qed.
#[local] Hint Resolve frame_CreateAccount frame_GetAccount frame_SaveAccount frame_CreateTrust frame_GetTrust
  frame_SaveTrust frame_DeleteTrust : go_preserves.

(** ** The exchange *)

Lemma frame_loadOffers s b : preserves (frame W) (loadOffers s b).
Proof. unfold loadOffers. pres (frame (D:=D) W). Qed.
Lemma frame_SaveOffer o : preserves (frame W) (SaveOffer o).
Proof. unfold SaveOffer. pres (frame (D:=D) W). Qed.
Lemma frame_DeleteOffer o : preserves (frame W) (DeleteOffer o).
Proof. unfold DeleteOffer. pres (frame (D:=D) W). Qed.
Lemma frame_UpdateLiability o b : preserves (frame W) (em_UpdateLiability o b).
Proof. unfold em_UpdateLiability. pres (frame (D:=D) W). Qed.
#[local] Hint Resolve frame_loadOffers frame_SaveOffer frame_DeleteOffer frame_UpdateLiability : go_preserves.

(** An order in progress next to the database. *)
Definition frame1 {B} (s s' : D * B)   : Prop := frame W s.1 s'.1.
#[global] Instance frame1_preorder {B} : PreOrder (@frame1 B).
Proof. split; [by intros s|]. intros s1 s2 s3. unfold frame1. apply frame_preorder. Qed.
Lemma frame1_fst {B A} (m : M D A) : preserves (frame W) m → preserves (@frame1 B) (on_fst m).
Proof. intros Hm [d b]. unfold on_fst, frame1. specialize (Hm d). by destruct (m d). Qed.
Lemma frame1_snd {B A} (m : M B A) : preserves (@frame1 B) (on_snd m).
Proof. intros [d b]. unfold on_snd, frame1. by destruct (m b). Qed.
#[local] Hint Resolve frame1_fst frame1_snd : go_preserves.

Lemma frame1_Fill r : preserves frame1 (Fill (D:=D) r).
Proof. unfold Fill. pres (@frame1 (Order * Offer)). Qed.

Lemma frame1_fill_loop r p offers : preserves frame1 (fill_loop (D:=D) r p offers).
Proof.
  induction offers as [|offer offers IH]; simpl; pres (@frame1 Order).
  intros [d1 o1]. pose proof (frame1_Fill r (d1, (o1, offer))) as H. unfold try.
  destruct (Fill r (d1, (o1, offer))) as [[d' [o' f']] [u|e|w|]]; apply H.
Qed.
#[local] Hint Resolve frame1_fill_loop : go_preserves.
Lemma frame1_FillOrder r : preserves frame1 (FillOrder (D:=D) r).
Proof. unfold FillOrder. pres (@frame1 Order). Qed.

(** The order that a call of [FillOrder] returns. *)
Lemma frame_filled r order :
  preserves (frame W) (λ d : D, let '((d', o'), r) := FillOrder r (d, order) in (d', res_bind r (λ _, Ok o'))).
Proof. intros d. pose proof (frame1_FillOrder r (d, order)) as H. by destruct (FillOrder r (d, order)) as [[d' o'] x]. Qed.
#[local] Hint Resolve frame_filled : go_preserves.

(** ** The operations *)

Variable baseReserve : Z.

Lemma frame_CreateAccount_Apply c : preserves (frame W) (CreateAccount_Apply baseReserve c).
Proof. unfold CreateAccount_Apply. pres (frame (D:=D) W). Qed.
Lemma frame_require_issuer msg a : preserves (frame W) (require_issuer msg a).
Proof. unfold require_issuer. pres (frame (D:=D) W). Qed.
Lemma frame_pay_trust id a n : preserves (frame W) (pay_trust id a n).
Proof. unfold pay_trust. pres (frame (D:=D) W). Qed.
#[local] Hint Resolve frame_CreateAccount_Apply frame_require_issuer frame_pay_trust : go_preserves.
Lemma frame_path_loop path : ∀ asset n, preserves (frame W) (path_loop baseReserve path asset n).
Proof. induction path; intros asset n; simpl; pres (frame (D:=D) W). Qed.
Lemma frame_credit_dst pp a : preserves (frame W) (credit_dst pp a).
Proof. unfold credit_dst. pres (frame (D:=D) W). Qed.
Lemma frame_debit_src pp a n : preserves (frame W) (debit_src pp a n).
Proof. unfold debit_src. pres (frame (D:=D) W). Qed.
#[local] Hint Resolve frame_path_loop frame_credit_dst frame_debit_src : go_preserves.
Lemma frame_PathPayment_Apply pp : preserves (frame W) (PathPayment_Apply baseReserve pp).
Proof. unfold PathPayment_Apply. pres (frame (D:=D) W). apply (preserves_mfor (frame W)). pres (frame (D:=D) W). Qed.
#[local] Hint Resolve frame_PathPayment_Apply : go_preserves.
Lemma frame_Trust_Apply t : preserves (frame W) (Trust_Apply baseReserve t).
Proof. unfold Trust_Apply. pres (frame (D:=D) W). Qed.
#[local] Hint Resolve frame_Trust_Apply : go_preserves.
Lemma frame_Opr_Apply o : preserves (frame W) (Opr_Apply baseReserve o).
Proof. unfold Opr_Apply, Payment_Apply. pres (frame (D:=D) W). Qed.

End frame.

(** * The transaction manager *)

Section manager.
Context {D T : Type} {StoreD : Store D} {LawsD : StoreLaws D} {StoreT : Store T} {LawsT : StoreLaws T}.
Context {TxDb : TxDatabase D T} {TxLaws : TxDatabaseLaws D T}.
Context {Pbc : PbCodec} {GoRt : GoRuntime} {Crypto : CryptoLib}.
Context (W : list string) (HW : ∀ b, b ∈ tx_buckets → b ∈ W) (baseReserve : Z).

Lemma frame_apply_ops ops : preserves (frame W) (apply_ops (D:=D) (T:=T) baseReserve ops).
Proof.
  intros d Hd Hbs. destruct (Begin_spec d Hd) as (t & Ht & Hc & Hcb & Hcv).
  unfold apply_ops, wrap, bind. rewrite Ht. simpl.
  pose proof (preserves_mfor (frame W) ops (Opr_Apply baseReserve) (frame_Opr_Apply W HW baseReserve) t Hc) as Hrun.
  destruct Hrun as (H1 & H2 & H3); [by intros b Hb; apply Hcb, Hbs|].
  assert (∀ d' : D, contents (mfor ops (Opr_Apply baseReserve) t).1 d' →
    db_ok d' ∧ (∀ b, db_bucket d b → db_bucket d' b) ∧
    ∀ b k, db_bucket d b → b ∉ W → db_view d' b k = db_view d b k) as Hfin.
  { intros d' (Ho & Hb & Hv). split_and!; [done|auto|]. intros b k Hk Hn. rewrite Hv, H3, Hcv by auto. done. }
  destruct (mfor ops (Opr_Apply baseReserve) t) as [t' [u|e|w|]]; simpl in *; [| |done..].
  - pose proof (Commit_spec t' d H1) as HC. destruct (tx_Commit t' d) as [d' [[]|?|?|]]; simpl in *; by apply Hfin.
  - unfold try. pose proof (Rollback_spec t' d H1) as HR.
    destruct (tx_Rollback t' d) as [d' [[]|?|?|]]; simpl in *; destruct HR as [->|HR]; first [done|by apply Hfin].
Qed.

(** The database of the manager. *)
Definition tm_frame (tm tm' : Manager D)   : Prop := frame W (tm_database tm) (tm_database tm').
#[global] Instance tm_frame_preorder : PreOrder tm_frame.
Proof. split; [by intros tm|]. intros a b c. unfold tm_frame. apply frame_preorder. Qed.

Lemma frame_on_db {A} (m : M D A) : preserves (frame W) m → preserves tm_frame (on_db m).
Proof. intros Hm tm. specialize (Hm (tm_database tm)). unfold on_db, tm_frame. by destruct (m (tm_database tm)). Qed.
Lemma frame_write b k x : b ∈ W → preserves tm_frame (on_db (db_Put b k x)).
Proof. intros Hb. by apply frame_on_db, frame_Put. Qed.
Lemma frame_read b k : b ∈ W → preserves tm_frame (on_db (db_Get b k)).
Proof. intros Hb. by apply frame_on_db, frame_Get. Qed.
Lemma frame_modify (f : Manager D → Manager D) : (∀ tm, tm_database (f tm) = tm_database tm) → preserves tm_frame (modify f).
Proof. intros Hf tm. unfold tm_frame, modify. simpl. by rewrite Hf. Qed.
Lemma status_in : status_bucket ∈ W.
Proof. apply HW. by do 3 right; left. Qed.
Lemma tx_in : tx_bucket ∈ W.
Proof. apply HW. by do 4 right; left. Qed.
Lemma frame_Lock : preserves tm_frame (Lock (D:=D)).
Proof. intros tm. unfold Lock, bind, get. simpl. by destruct (tm_rwm tm). Qed.
Lemma frame_Unlock : preserves tm_frame (Unlock (D:=D)).
Proof. by apply frame_modify. Qed.
Lemma frame_set_txStatus f : preserves tm_frame (modify (λ tm, set_txStatus (D:=D) (f tm) tm)).
Proof. by apply frame_modify. Qed.
Lemma frame_set_txSet f : preserves tm_frame (modify (λ tm, set_txSet (D:=D) (f tm) tm)).
Proof. by apply frame_modify. Qed.
Lemma frame_set_txChan f : preserves tm_frame (modify (λ tm, set_txChan (D:=D) (f tm) tm)).
Proof. by apply frame_modify. Qed.
Lemma frame_read_account id : preserves tm_frame (on_db (GetAccount id)).
Proof. by apply frame_on_db, frame_GetAccount. Qed.
Lemma frame_write_account a : preserves tm_frame (on_db (SaveAccount a)).
Proof. by apply frame_on_db, frame_SaveAccount. Qed.
#[local] Hint Resolve status_in tx_in frame_Lock frame_Unlock frame_set_txStatus frame_set_txSet frame_set_txChan
  frame_write frame_read frame_on_db frame_read_account frame_write_account frame_apply_ops : go_preserves.

Lemma frame_UpdateTxStatus k s : preserves tm_frame (UpdateTxStatus (D:=D) k s).
Proof. unfold UpdateTxStatus. pres tm_frame. Qed.
#[local] Hint Resolve frame_UpdateTxStatus : go_preserves.
Lemma frame_set_failed tx e : preserves tm_frame (set_failed (D:=D) tx e).
Proof. unfold set_failed. pres tm_frame. Qed.
#[local] Hint Resolve frame_set_failed : go_preserves.
Lemma frame_charge txs : ∀ acc, preserves tm_frame (charge (D:=D) acc txs).
Proof. induction txs; intros acc; simpl; pres tm_frame. Qed.
#[local] Hint Resolve frame_charge : go_preserves.
Lemma frame_charge_all groups : preserves tm_frame (charge_all (D:=D) groups).
Proof. induction groups as [|[id txs] groups IH]; simpl; pres tm_frame. Qed.
Lemma frame_apply_tx n tx : preserves tm_frame (apply_tx (D:=D) (T:=T) baseReserve n tx).
Proof. unfold apply_tx. pres tm_frame. Qed.
#[local] Hint Resolve frame_charge_all frame_apply_tx : go_preserves.

Lemma frame_ApplyTxList txs n : preserves tm_frame (ApplyTxList (D:=D) (T:=T) baseReserve txs n).
Proof. unfold ApplyTxList. pres tm_frame. apply (preserves_mfor tm_frame). pres tm_frame. Qed.

Lemma frame_GetTxStatus k : preserves tm_frame (GetTxStatus (D:=D) k).
Proof.
  unfold GetTxStatus. apply preserves_bind_get. intros tm. destruct (lru_Get k (tm_txStatus tm)) as [c o].
  apply (bind_at tm_frame); [by intros ?|]. intros _ tm1 _. at_all tm_frame. pres tm_frame.
Qed.

Lemma frame_take_tx : preserves tm_frame (take_tx (D:=D)).
Proof. unfold take_tx. apply preserves_bind_get. intros tm. destruct (tm_txChan tm); [reflexivity|]. by intros ?. Qed.

Lemma frame_GetTxList : preserves tm_frame (GetTxList (D:=D)).
Proof. unfold GetTxList. pres tm_frame. Qed.

Lemma frame_AddTx k tx : preserves tm_frame (AddTx (D:=D) baseReserve k tx).
Proof.
  unfold AddTx. apply (preserves_bind tm_frame); [pres tm_frame|intros tm0]. case_decide; [pres tm_frame|].
  apply (preserves_bind tm_frame); [pres tm_frame|intros [acc|]]; [|pres tm_frame].
  apply preserves_bind_get; intros tm.
  apply (bind_at tm_frame); [by destruct (tm_accTxMap tm !! _)|]. intros [fees seq] tm1 _. at_all tm_frame.
  repeat (case_decide; [pres tm_frame|]). apply (preserves_bind tm_frame); [pres tm_frame|intros _].
  apply preserves_bind_get; intros tm2. apply (bind_at tm_frame); [done|]. intros h tm3 [= <- _].
  apply (bind_at tm_frame); [by intros ?|]. intros _ tm4 _. at_all tm_frame. pres tm_frame.
Qed.

Lemma frame_DeleteTxList txs : preserves tm_frame (DeleteTxList (D:=D) txs).
Proof.
  unfold DeleteTxList. apply (preserves_mfor tm_frame). intros [acc keys].
  apply (preserves_bind tm_frame); [pres tm_frame|intros _]. apply preserves_bind_get; intros tm. destruct (tm_accTxMap tm !! acc); [|done].
  apply (bind_at tm_frame); [by case_decide|]. intros _ tm1 _. apply frame_Unlock.
Qed.

End manager.

(** * The ledger manager *)

(** Closing ledgers writes the ledgers as well. *)
Definition ledger_buckets : list string := ledger_bucket :: tx_buckets.

Lemma tx_in_ledger b : b ∈ tx_buckets → b ∈ ledger_buckets.
Proof. by right. Qed.

Section ledger.
Context {D T : Type} {StoreD : Store D} {LawsD : StoreLaws D} {StoreT : Store T} {LawsT : StoreLaws T}.
Context {TxDb : TxDatabase D T} {TxLaws : TxDatabaseLaws D T}.
Context {Pbc : PbCodec} {GoRt : GoRuntime} {Crypto : CryptoLib}.
Variable baseReserve : Z.

Definition lm_frame (lm lm' : LedgerManager D) : Prop :=
  tm_frame ledger_buckets (lm_tm lm) (lm_tm lm') ∧ lm_txsetCache lm' = lm_txsetCache lm.
#[global] Instance lm_frame_preorder : PreOrder lm_frame.
Proof. split; [by intros lm|]. intros a b c [? H1] [? H2]. split; [by etrans|congruence]. Qed.

Lemma frame_on_tm {A} (m : M (TxManager.Manager D) A) : preserves (tm_frame ledger_buckets) m → preserves lm_frame (on_tm m).
Proof. intros Hm lm. specialize (Hm (lm_tm lm)). unfold on_tm, lm_frame. by destruct (m (lm_tm lm)). Qed.
Lemma frame_same (f : LedgerManager D → LedgerManager D) :
  (∀ lm, lm_tm (f lm) = lm_tm lm ∧ lm_txsetCache (f lm) = lm_txsetCache lm) → preserves lm_frame (modify f).
Proof. intros Hf lm. destruct (Hf lm) as [H1 H2]. unfold lm_frame, modify. simpl. by rewrite H1, H2. Qed.
Lemma frame_or_fatal {A} w (m : M (LedgerManager D) A) : preserves lm_frame m → preserves lm_frame (or_fatal w m).
Proof. intros Hm lm. rewrite or_fatal_fst. apply Hm. Qed.
Lemma frame_apply_txs txs n : preserves lm_frame (on_tm (ApplyTxList (D:=D) (T:=T) baseReserve txs n)).
Proof. apply frame_on_tm, frame_ApplyTxList, tx_in_ledger. Qed.
Lemma frame_ledger_put k x : preserves lm_frame (ledger_db (db_Put ledger_bucket k x)).
Proof. apply frame_on_tm, frame_on_db, frame_Put. by left. Qed.
Lemma frame_headers f : preserves lm_frame (modify (λ lm, set_caches (D:=D) (f lm) (lm_txsetCache lm) lm)).
Proof. by apply frame_same. Qed.
Lemma frame_set_chain f1 f2 f3 f4 f5 f6 :
  preserves lm_frame (modify (λ lm, set_chain (D:=D) (f1 lm) (f2 lm) (f3 lm) (f4 lm) (f5 lm) (f6 lm) lm)).
Proof. by apply frame_same. Qed.
Lemma frame_set_sync f1 f2 f3 f4 : preserves lm_frame (modify (λ lm, set_sync (D:=D) (f1 lm) (f2 lm) (f3 lm) (f4 lm) lm)).
Proof. by apply frame_same. Qed.
Lemma frame_set_buffer f : preserves lm_frame (modify (λ lm, set_buffer (D:=D) (f lm) lm)).
Proof. by apply frame_same. Qed.
#[local] Hint Resolve frame_or_fatal frame_apply_txs frame_ledger_put frame_headers frame_set_chain frame_set_sync
  frame_set_buffer : go_preserves.

Lemma frame_saveCheckpoint : preserves lm_frame (saveCheckpoint (D:=D)).
Proof. unfold saveCheckpoint. pres lm_frame. Qed.
#[local] Hint Resolve frame_saveCheckpoint : go_preserves.
Lemma frame_advanceLedger now seq prev txh cv : preserves lm_frame (advanceLedger (D:=D) now seq prev txh cv).
Proof. unfold advanceLedger. pres lm_frame. Qed.
#[local] Hint Resolve frame_advanceLedger : go_preserves.
Lemma frame_closeLedger now i v txset : preserves lm_frame (closeLedger (D:=D) (T:=T) baseReserve now i v txset).
Proof. unfold closeLedger. pres lm_frame. Qed.
#[local] Hint Resolve frame_closeLedger : go_preserves.
Lemma frame_drain now infos : preserves lm_frame (drain (D:=D) (T:=T) baseReserve now infos).
Proof. induction infos as [|i infos IH]; simpl; pres lm_frame. Qed.
#[local] Hint Resolve frame_drain : go_preserves.
Lemma frame_recv_downloaded now info : preserves lm_frame (recv_downloaded (D:=D) (T:=T) baseReserve now info).
Proof. unfold recv_downloaded. pres lm_frame. Qed.
Lemma frame_RecvExtVal now i v txset : preserves lm_frame (RecvExtVal (D:=D) (T:=T) baseReserve now i v txset).
Proof. unfold RecvExtVal. pres lm_frame. Qed.

End ledger.
