(* ===== verification/Checkpoint.v ===== *)
(** The checkpoint on the way: at every moment of its life the ledger manager could be restarted.

    [advanceLedger] saves the two headers at the head of the chain under one key of the ledger bucket; no other operation writes
    that key, so the checkpoint in the database is always that of a chain, if perhaps not of the latest one: the error of
    saving it ends the process.  [books] is the invariant, [recover_run] what a restart makes of it. *)

From S2P Require Import Prelude Lru Pb Db Crypto Account TxManager Ledger Frame.

(** * Keys of the ledger bucket *)

Lemma pretty_digit x s : (0 < x)%N → ∃ i s', pretty_N_go x s = String (pretty_N_char i) s'.
Proof.
  revert s. induction (N.lt_wf_0 x) as [x _ IH]. intros s Hx. rewrite pretty_N_go_step by done.
  destruct (decide (x < 10)%N) as [Hs|Hs].
  - rewrite N.div_small, pretty_N_go_0 by done. by eexists _, s.
  - apply IH; [apply N.div_lt; lia|apply N.div_str_pos; lia].
Qed.
Lemma digit_no_C i : pretty_N_char i ≠ "C"%char.
Proof. unfold pretty_N_char. by repeat case_match. Qed.

(** The number of a ledger is never the key of the checkpoint. *)
Lemma seq_not_checkpoint seq : FormatUint seq ≠ checkpoint_key.
Proof.
  unfold FormatUint, pretty, pretty_N. case_decide; [done|].
  destruct (pretty_digit (Z.to_N seq) "") as (i & s & ->); [lia|]. unfold checkpoint_key. intros [= Hc _]. by apply (digit_no_C i).
Qed.

Lemma ledger_not_tx : ledger_bucket ∉ tx_buckets.
Proof. by apply (bool_decide_unpack _). Qed.

Section checkpoint.
Context {D T : Type} {StoreD : Store D} {LawsD : StoreLaws D} {StoreT : Store T} {LawsT : StoreLaws T}.
Context {TxDb : TxDatabase D T} {TxLaws : TxDatabaseLaws D T}.
Context {Pbc : PbCodec} {GoRt : GoRuntime} {Crypto : CryptoLib}.
Variable baseReserve : Z.
Implicit Types (lm : LedgerManager D) (d : D) (ck : LedgerCheckpoint).

(** * The invariant *)

Definition ledger_data lm : D := tm_database (lm_tm lm).

(** The checkpoint of a chain. *)
Definition sound ck : Prop := ∃ lm, ck = checkpoint_of lm ∧ chain_ok lm ∧ is_Some (lm_currLedgerHeader lm).
Definition checkpoint_at d : option LedgerCheckpoint := db_view d ledger_bucket checkpoint_key ≫= Decode.
Definition kept d : Prop :=
  db_ok d ∧ (∀ b, b ∈ ledger_buckets → db_bucket d b) ∧ ∃ ck, checkpoint_at d = Some ck ∧ sound ck.

Definition books lm : Prop := live lm ∧ kept (ledger_data lm).
Definition keepsb lm lm' : Prop := books lm → books lm'.
#[global] Instance keepsb_preorder : PreOrder keepsb.
Proof. split; [by intros lm H|]. intros a b c H1 H2 H. by apply H2, H1. Qed.

(** Writing elsewhere keeps the checkpoint. *)
Lemma kept_view d d' :
  kept d → db_ok d' → (∀ b, db_bucket d b → db_bucket d' b) →
  db_view d' ledger_bucket checkpoint_key = db_view d ledger_bucket checkpoint_key → kept d'.
Proof. intros (Ho & Hb & H) Ho' Hb' Hv. split_and!; [done|by auto|]. unfold checkpoint_at. by rewrite Hv. Qed.
Lemma kept_frame W d d' : frame W d d' → ledger_bucket ∉ W → (∀ b, b ∈ W → db_bucket d b) → kept d → kept d'.
Proof.
  intros Hf Hn HW Hk. pose proof Hk as (Ho & Hb & _). destruct (Hf Ho HW) as (Ho' & Hb' & Hv).
  apply (kept_view d); [done..|]. apply Hv; [|done]. apply Hb. by left.
Qed.
Lemma kept_put d d' b k x r :
  kept d → db_bucket d b → (b, k) ≠ (ledger_bucket, checkpoint_key) → db_Put b k x d = (d', r) → kept d'.
Proof.
  intros Hk Hb Hne Hp. pose proof Hk as (Ho & Hbs & _).
  destruct (Put_spec _ _ _ _ _ _ Ho Hb Hp) as [(_ & Ho' & Hb' & Hv)|(e & _ & ->)]; [|done].
  apply (kept_view d); [done..|]. rewrite Hv by (apply Hbs; by left). unfold view_put. rewrite decide_False; [done|]. intros [<- <-]. done.
Qed.

Lemma keepsb_same {A} (m : M (LedgerManager D) A) :
  preserves keeps m → (∀ lm, ledger_data (m lm).1 = ledger_data lm) → preserves keepsb m.
Proof. intros Hk Hd lm [Hl Hb]. split; [by apply Hk|by rewrite Hd]. Qed.
Lemma keepsb_modify (f : LedgerManager D → LedgerManager D) :
  (∀ lm, chain_part (f lm) = chain_part lm ∧ (contiguous (lm_buffer lm) → contiguous (lm_buffer (f lm))) ∧ lm_tm (f lm) = lm_tm lm) →
  preserves keepsb (modify f).
Proof.
  intros Hf. apply keepsb_same; [apply keeps_modify; intros lm; destruct (Hf lm) as (? & ? & _); done|].
  intros lm. unfold ledger_data. simpl. by rewrite (proj2 (proj2 (Hf lm))).
Qed.
Lemma keepsb_tm {A} (m : M (TxManager.Manager D) A) : preserves (tm_frame tx_buckets) m → preserves keepsb (on_tm m).
Proof.
  intros Hm lm [Hl Hk]. split; [by apply (same_chain_keeps _ _ (same_on_tm m lm))|].
  specialize (Hm (lm_tm lm)). unfold on_tm, ledger_data in *. destruct (m (lm_tm lm)) as [tm r]. simpl in *.
  apply (kept_frame tx_buckets (tm_database (lm_tm lm))); [done|apply ledger_not_tx| |done].
  intros b Hb. apply Hk. by apply tx_in_ledger.
Qed.

(** Reading does not change the database. *)
Lemma keepsb_GetLedgerHeader k : preserves keepsb (GetLedgerHeader (D:=D) k).
Proof.
  intros lm Hbk. split; [by apply (same_chain_keeps _ _ (same_GetLedgerHeader k lm)), Hbk|].
  destruct Hbk as [_ Hk]. pose proof Hk as (Ho & Hb & _). unfold GetLedgerHeader, bind, get. simpl.
  destruct (lru_Get k (lm_headers lm)) as [c [h|]]; [done|]. simpl. unfold wrap, ledger_db, on_tm, on_db. simpl.
  change (tm_database (lm_tm lm)) with (ledger_data lm). rewrite Get_spec by (try apply Hb; first [done|by left]).
  destruct (db_view _ _ _) as [b|]; [|done]. simpl. unfold lift. by destruct (decode_res b).
Qed.

(** * Closing *)

(** Once the new chain is in place, the checkpoint that replaces the old one is that of the new chain. *)
Lemma saveCheckpoint_books lm : books lm → books (saveCheckpoint lm).1.
Proof.
  intros Hbk. pose proof Hbk as [Hl Hk]. split; [by apply (same_chain_keeps _ _ (same_saveCheckpoint lm))|].
  unfold saveCheckpoint, bind, get, wrap, lift, encode_res. simpl.
  destruct (Encode (checkpoint_of lm)) as [ckb|] eqn:He; [|done]. simpl. unfold ledger_db, on_tm, on_db.
  change (tm_database (lm_tm lm)) with (ledger_data lm).
  destruct (db_Put ledger_bucket checkpoint_key ckb (ledger_data lm)) as [d' r] eqn:Hp.
  assert (kept d') as Hk'; [|by destruct r].
  destruct Hk as (Ho & Hb & ck & Hck). assert (db_bucket (ledger_data lm) ledger_bucket) as Hbl by (apply Hb; by left).
  destruct (Put_spec _ _ _ _ _ _ Ho Hbl Hp) as [(_ & Ho' & Hb' & Hv)|(e & _ & ->)]; [|by split_and!; eauto].
  split_and!; [done|by auto|]. exists (checkpoint_of lm). split.
  - unfold checkpoint_at. rewrite Hv by done. unfold view_put. rewrite decide_True by done. simpl. by apply Decode_Encode.
  - exists lm. split; [done|]. destruct Hl as [[Hc _] Hs]. done.
Qed.

Lemma advanceLedger_books now h txh cv lm :
  books lm → lm_currLedgerHeader lm = Some h →
  books (advanceLedger now (uwrap64 (lh_SeqNum h + 1)) (lm_currLedgerHeaderHash lm) txh cv lm).1.
Proof.
  intros Hbk Hh. pose proof (advanceLedger_live now h txh cv lm (proj1 Hbk) Hh) as Hlive. revert Hlive.
  unfold advanceLedger. cbv zeta. set (header := new_header _ _ _ _). set (seqStr := FormatUint _).
  destruct (encode_res header) as [b|?|?|] eqn:He; [|by intros; apply Hbk..]. rewrite (bind_eq_Ok _ _ _ lm b) by done.
  destruct (GetLedgerHeaderKey header) as [k|?|?|] eqn:Hkey; [|by intros; apply Hbk..]. rewrite (bind_eq_Ok _ _ _ lm k) by done.
  destruct (db_Put ledger_bucket seqStr b (ledger_data lm)) as [d' r] eqn:Hp.
  assert (kept d') as Hk'.
  { destruct Hbk as [_ Hk]. apply (kept_put _ _ _ _ _ _ Hk) in Hp; [done|apply Hk; by left|]. intros [= H]. by apply seq_not_checkpoint in H. }
  assert (∃ u, try (ledger_db (db_Put ledger_bucket seqStr b)) lm = (set_tm (set_database d' (lm_tm lm)) lm, Ok u)) as [u Ht].
  { destruct Hbk as [_ (Ho & Hb & _)]. unfold try, ledger_db, on_tm, on_db. change (tm_database (lm_tm lm)) with (ledger_data lm).
    destruct (Put_spec _ _ _ _ _ _ Ho (Hb _ ltac:(by left)) Hp) as [(-> & _)|(e & -> & _)]; rewrite Hp; eauto. }
  rewrite (bind_eq_Ok _ _ _ _ _ Ht). set (lm1 := set_tm _ lm). rewrite (bind_eq_Ok _ _ _ (set_caches _ _ lm1) tt) by done.
  set (lm3 := set_chain now (wrap64 (lm_ledgerHeaderCount lm1 + 1)) (lm_currLedgerHeader lm1) (lm_currLedgerHeaderHash lm1) (Some header) k
                (set_caches (lru_Add seqStr header (lm_headers lm1)) (lm_txsetCache lm1) lm1)).
  rewrite (bind_eq_Ok _ _ _ lm3 tt) by done. intros Hlive.
  assert (∀ w, (wrap w saveCheckpoint lm3).1 = (saveCheckpoint lm3).1) as Hw by (intros w; unfold wrap; by destruct (saveCheckpoint lm3)).
  rewrite Hw in *. apply saveCheckpoint_books. split; [|exact Hk'].
  destruct (same_saveCheckpoint lm3) as [Hc Hb]. by apply (same_chain_keeps (saveCheckpoint lm3).1 lm3).
Qed.

Lemma closeLedger_books now index value txset : preserves keepsb (closeLedger (D:=D) (T:=T) baseReserve now index value txset).
Proof.
  intros lm. unfold closeLedger. rewrite (bind_eq_Ok _ _ _ lm lm) by done.
  intros Hl. destruct (lm_currLedgerHeader lm) as [h|] eqn:Hh; [|by destruct Hl as [[_ [? ?]] _]; congruence].
  case_decide as Hseq; [done|]. case_decide as Hhash; [done|].
  unfold bind at 1, wrap at 1, lift at 1. simpl. destruct (GetTxSetKey txset) as [txh|?|?|]; simpl; [|exact Hl..].
  destruct (b58_Decode value) as [vb|]; [|exact Hl].
  destruct (decode_res vb) as [cv|?|?|] eqn:Hcv; [|exact Hl..]. rewrite (bind_eq_Ok _ _ _ lm cv) by done.
  case_decide; [exact Hl|].
  set (m := wrap "apply tx list failed: " _).
  assert (preserves keepsb m) as Hm by (apply preserves_wrap, keepsb_tm, frame_ApplyTxList; done).
  assert (preserves same_chain m) as Hs by (apply preserves_wrap, same_on_tm).
  specialize (Hm lm Hl). specialize (Hs lm). unfold bind. destruct (m lm) as [lm1 [u|?|?|]]; simpl in *; [|exact Hm..].
  rewrite or_fatal_fst. destruct Hs as [[= H1 H2 _ _ _] _].
  assert (ts_PrevLedgerHash txset = lm_currLedgerHeaderHash lm1) as ->
    by (destruct (decide (lm_currLedgerHeaderHash lm = ts_PrevLedgerHash txset)); [congruence|]; exfalso; apply Hhash; by split; [eexists|]).
  assert (index = uwrap64 (lh_SeqNum h + 1)) as -> by (by destruct (decide (uwrap64 (lh_SeqNum h + 1) = index))).
  apply advanceLedger_books; [done|congruence].
Qed.
#[local] Hint Resolve closeLedger_books : go_preserves.

Lemma drain_books now infos : contiguous infos → preserves keepsb (drain (D:=D) (T:=T) baseReserve now infos).
Proof.
  induction infos as [|x infos IH]; intros Hc; simpl; [apply (preserves_ret keepsb)|].
  apply contiguous_tail in Hc as Hc'.
  apply (preserves_bind keepsb); [by apply keepsb_modify|intros _]. pres (keepsb).
Qed.

Lemma recv_downloaded_books now info : preserves keepsb (recv_downloaded (D:=D) (T:=T) baseReserve now info).
Proof.
  unfold recv_downloaded.
  apply (preserves_bind keepsb); [apply (preserves_get keepsb)|intros lm0].
  apply (preserves_bind keepsb); [apply (preserves_lift keepsb)|intros _].
  apply (preserves_bind keepsb); [apply (preserves_try keepsb), closeLedger_books|intros _].
  apply preserves_bind_get. intros lm. destruct (Buffer_PeekHead (lm_buffer lm)); [|by intros ?].
  case_decide; [by intros ?|]. intros Hl.
  refine (preserves_bind keepsb _ _ (drain_books now (lm_buffer lm) _) _ lm Hl); [by destruct Hl as [[[_ ?] _] _]|intros _].
  apply (preserves_bind keepsb); [|intros _]; apply keepsb_modify; intros lm1; split_and!; done.
Qed.

Lemma RecvExtVal_books now index value txset : preserves keepsb (RecvExtVal (D:=D) (T:=T) baseReserve now index value txset).
Proof.
  assert (∀ o, preserves keepsb (modify (λ lm, set_buffer (Buffer_Append o (lm_buffer lm)) lm))) as Happ.
  { intros o. apply keepsb_modify. intros lm. split_and!; [done|apply contiguous_Append|done]. }
  assert (∀ f g h, preserves keepsb (modify (λ lm, set_sync (f lm) (lm_buffer lm) (g lm) (h lm) lm))) as Hsync.
  { intros f g h. by apply keepsb_modify. }
  unfold RecvExtVal. pres (keepsb); first [apply Happ|apply (Hsync lm_downloader (λ _, _) (λ _, _))|apply (Hsync (λ _, _) (λ _, _) (λ _, _))].
Qed.

(** * The first ledger *)

Lemma genesis_books now d lm :
  db_ok d → (∀ b, b ∈ ledger_buckets → db_bucket d b) →
  CreateGenesisLedger now (NewLedgerManager (TxManager.NewManager d)) = (lm, Ok tt) → books lm.
Proof.
  intros Ho Hb H. pose proof (genesis_live now _ lm H) as Hl. split; [done|].
  unfold CreateGenesisLedger in H. apply bind_Ok in H as (s & [] & [= <-] & H). unfold or_fatal in H.
  destruct (advanceLedger _ _ _ _ _ _) as [s1 [[]|?|?|]] eqn:Ha; simplify_eq.
  apply advanceLedger_Ok in Ha as (h & b & ckb & d0 & r & d1 & _ & _ & _ & _ & _ & _ & Hp0 & _ & Hck & Hp1 & Hd1). simpl in Hp0.
  assert (db_bucket d ledger_bucket) as Hbl by (apply Hb; by left).
  assert (db_ok d0 ∧ ∀ b, db_bucket d b → db_bucket d0 b) as [Ho0 Hb0].
  { destruct (Put_spec _ _ _ _ _ _ Ho Hbl Hp0) as [(_ & ? & ? & _)|(e & _ & ->)]; done. }
  destruct (Put_spec _ _ _ _ _ _ Ho0 (Hb0 _ Hbl) Hp1) as [(_ & Ho1 & Hb1 & Hv)|(e & ? & _)]; [|done].
  unfold ledger_data. rewrite Hd1. split_and!; [done|by auto|]. exists (checkpoint_of lm). split.
  - unfold checkpoint_at. rewrite Hv by auto. unfold view_put. rewrite decide_True by done. simpl. by apply Decode_Encode.
  - exists lm. split; [done|]. destruct Hl as [[Hc _] Hs]. done.
Qed.

(** * A restart *)

(** The clock has not gone back before the checkpoint, and the count of ledgers has not wrapped around. *)
Definition current (now : Z) ck : Prop := 0 <= ck_LastCloseTime ck <= now ∧ 0 <= ck_LedgerHeaderCount ck.
#[global] Instance current_dec now ck : Decision (current now ck).
Proof. unfold current. apply _. Defined.

(** A sound checkpoint passes the checks, but for these two. *)
Lemma sound_check now ck : sound ck → current now ck → check_checkpoint now ck = Ok tt.
Proof.
  intros (lm & -> & Hok & h & Hh) [Ht Hn]. unfold chain_ok in Hok. rewrite Hh in Hok. destruct Hok as (Hkey & Hprev & _ & _ & Hlast).
  unfold check_checkpoint, checkpoint_of in *. simpl in *. rewrite Hh.
  repeat (rewrite decide_False by first [lia|destruct (lm_prevLedgerHeader lm); naive_solver lia]).
  simpl. rewrite Hkey. simpl. repeat rewrite decide_False by tauto. done.
Qed.
Lemma check_current now ck : check_checkpoint now ck = Ok tt → current now ck.
Proof. unfold check_checkpoint. do 2 (case_decide; [done|]). intros _. split; lia. Qed.

(** What a new manager has after recovering. *)
Definition recovered ck lm : Prop :=
  chain_part lm = (ck_CurrLedgerHeader ck, ck_CurrLedgerHeaderHash ck, ck_PrevLedgerHeader ck, ck_PrevLedgerHeaderHash ck,
    ck_LedgerHeaderCount ck) ∧ lm_lastCloseTime lm = ck_LastCloseTime ck ∧ lm_ledgerState lm = LedgerStateNotSynced ∧ lm_buffer lm = [].

Lemma recover_run now d ck :
  db_ok d → db_bucket d ledger_bucket → checkpoint_at d = Some ck → sound ck → current now ck →
  ∃ lm, RecoverFromCheckpoint now (NewLedgerManager (TxManager.NewManager d)) = (lm, Ok tt) ∧ recovered ck lm ∧
    lm_tm lm = TxManager.NewManager d ∧ lm_txsetCache lm = [].
Proof.
  intros Ho Hb Hck Hs Ht. pose proof (sound_check now ck Hs Ht) as Hcheck. destruct Hs as (lm0 & -> & _ & h & Hh).
  unfold checkpoint_at in Hck. destruct (db_view d ledger_bucket checkpoint_key) as [b|] eqn:Hv; [|done]. simpl in Hck.
  unfold RecoverFromCheckpoint, bind, wrap, lift, ledger_db, on_tm, on_db. simpl.
  rewrite (Get_spec d ledger_bucket checkpoint_key), Hv by done. simpl. unfold decode_res. rewrite Hck. simpl. rewrite Hcheck. simpl. rewrite Hh. simpl.
  eexists. split; [done|]. unfold recovered, chain_part. simpl. rewrite Hh. done.
Qed.

Lemma recovered_live ck lm : sound ck → recovered ck lm → live lm.
Proof.
  intros (lm0 & -> & Hc & Hs) (Hp & _ & _ & Hb). split; [split|].
  - by apply (chain_ok_part lm0).
  - rewrite Hb. apply contiguous_nil.
  - by injection Hp as -> _ _ _ _.
Qed.

End checkpoint.
