(* ===== verification/Supply.v ===== *)
(** The supply of native tokens, across the account manager, the transaction operations, the transaction manager and the
    ledger manager.

    Closing a ledger takes the fees of the charged transactions out of circulation and moves the rest: creating accounts,
    payments and trust lines, in any number and order, neither make nor destroy tokens.  Balances are [int64] and nothing
    stops a payment from overdrawing an account, so the sums are compared as the code computes them, modulo 2^64.  Trust
    lines are filed in the bucket of the accounts, under the account ID followed by the encoded asset: the accounts that
    are summed up must not be named like the trust lines that are used. *)

From S2P Require Import Prelude Lru Pb Db Crypto Account Exchange TxOps TxManager Ledger.

(** Equality of [int64] sums: a difference of some multiples of 2^64. *)
Definition eq64 (a b : Z) : Prop := ∃ k, a = b + 18446744073709551616 * k.
Infix "≡₆₄" := eq64 (at level 70) : go_scope.

#[global] Instance eq64_equiv : Equivalence eq64.
Proof.
  split.
  - intros a. exists 0. lia.
  - intros a b [k ->]. exists (- k). lia.
  - intros a b c [k ->] [l ->]. exists (k + l). lia.
Qed.
#[global] Instance add_eq64 : Proper (eq64 ==> eq64 ==> eq64) Z.add.
Proof. intros a a' [k ->] b b' [l ->]. exists (k + l). lia. Qed.
#[global] Instance sub_eq64 : Proper (eq64 ==> eq64 ==> eq64) Z.sub.
Proof. intros a a' [k ->] b b' [l ->]. exists (k - l). lia. Qed.

Lemma wrap64_eq64 z : wrap64 z ≡₆₄ z.
Proof. apply wrap64_eq_mod. Qed.
Lemma eq64_lia a b : a = b → a ≡₆₄ b.
Proof. by intros ->. Qed.

Section supply.
Context {D : Type} {StoreD : Store D} {LawsD : StoreLaws D} {Pbc : PbCodec} {GoRt : GoRuntime}.
(** The accounts that are summed up. *)
Context (ids : list string) (ids_nodup : NoDup ids).
Implicit Types d : D.

(** The trust line of an account for an asset is not filed under the name of an account. *)
Definition apart (id : string) (asset : option Asset) : Prop :=
  ∀ a ab, asset = Some a → Encode a = Some ab → id +:+ ab ∉ ids.

(** Accounts are filed under their IDs, trust lines apart from them. *)
Record orderly d : Prop := {
  ord_ready : ready d;
  ord_named : ∀ id a, id ∈ ids → acct_at d id = Some a → acc_AccountID a = id;
  ord_apart : ∀ k (t : Trust), k ∉ ids → db_view d account_bucket k ≫= Decode = Some t → apart (tst_AccountID t) (tst_Asset t);
}.

(** Nothing gained, nothing lost. *)
Definition balanced d d' : Prop := orderly d' ∧ total d' ids ≡₆₄ total d ids.

Lemma balanced_refl d : orderly d → balanced d d.
Proof. intros Ho. split; [done|reflexivity]. Qed.
Lemma balanced_trans d1 d2 d3 : balanced d1 d2 → balanced d2 d3 → balanced d1 d3.
Proof. intros [_ H1] [Ho H2]. split; [done|]. by etrans. Qed.

(** ** Writes *)

Lemma save_account d d' a :
  orderly d → acc_AccountID a ∈ ids → SaveAccount (Some a) d = (d', Ok tt) →
  orderly d' ∧ total d' ids = total d ids + (acc_Balance a - balance_at d (acc_AccountID a)).
Proof.
  intros [Hr Hn Ht] Hin H. pose proof H as Hc. apply SaveAccount_Ok in H as [Hr' Hv]; [|done]. split.
  - split; [done| |].
    + intros id a' Hid. rewrite Hv. case_decide as He; [by intros [= <-]|by apply Hn].
    + intros k t Hk. apply SaveAccount_cases in Hc as [(b & _ & _ & Hw)|(e & ? & _)]; [|done..].
      rewrite (wrote_view _ _ _ _ _ Hr Hw), decide_False by (intros ->; done). by apply Ht.
  - unfold total. rewrite (sumZ_update (balance_at d) (balance_at d') ids (acc_AccountID a)); [|done..|].
    + unfold balance_at. by rewrite Hv, decide_True.
    + intros b Hb. unfold balance_at. by rewrite Hv, decide_False.
Qed.

Lemma wrote_apart d d' k o :
  orderly d → k ∉ ids → (∀ t : Trust, o ≫= Decode = Some t → apart (tst_AccountID t) (tst_Asset t)) →
  wrote d d' k o → balanced d d'.
Proof.
  intros [Hr Hn Ht] Hk Ho Hw.
  assert (∀ id, id ∈ ids → acct_at d' id = acct_at d id) as Hv.
  { intros id Hid. rewrite (wrote_acct_at _ _ _ _ _ Hr Hw). by rewrite decide_False by (intros ->; done). }
  split; [split; [apply Hw| |]|].
  - intros id a Hid. rewrite Hv by done. by apply Hn.
  - intros k' t Hk'. rewrite (wrote_view _ _ _ _ _ Hr Hw). case_decide; [by apply Ho|by apply Ht].
  - unfold total. rewrite (sumZ_ext (balance_at d') (balance_at d)); [reflexivity|].
    intros id Hid. unfold balance_at. by rewrite Hv.
Qed.

Lemma save_trust d d' t :
  orderly d → apart (tst_AccountID t) (tst_Asset t) → SaveTrust (Some t) d = (d', Ok tt) → balanced d d'.
Proof.
  intros Ho Ha H. destruct (tst_Asset t) as [asset|] eqn:Hasset.
  - apply (SaveTrust_cases _ _ _ asset) in H as [(b & k & Hb & (ab & Hab & ->) & _ & Hw)|(e & ? & _)]; [|done|apply Ho|done].
    apply (wrote_apart _ _ _ _ Ho) in Hw; [done|by eapply Ha|]. simpl. rewrite (Decode_Encode t b Hb).
    intros t' [= <-]. by rewrite Hasset.
  - unfold SaveTrust, trust_key in H. unfold_m. simpl in H. rewrite Hasset in H. simpl in H. repeat case_match; simplify_eq/=.
Qed.

Lemma delete_trust d d' id asset : orderly d → apart id (Some asset) → DeleteTrust id (Some asset) d = (d', Ok tt) → balanced d d'.
Proof.
  intros Ho Ha H. unfold DeleteTrust, trust_key, encode_ptr, encode_res in H.
  destruct (Encode asset) as [ab|] eqn:He; [|unfold_m; done]. apply bind_Ok in H as (d1 & k & [= <- <-] & H%wrap_Ok).
  apply db_Delete_wrote in H as [_ Hw]; [|apply Ho]. apply (wrote_apart _ _ _ _ Ho) in Hw; [done|by eapply Ha|done].
Qed.

(** A new line of an account that has none. *)
Lemma create_trust d d' id asset limit :
  orderly d → apart id (Some asset) → id ≠ ast_Issuer asset → CreateTrust id (Some asset) limit d = (d', Ok tt) → balanced d d'.
Proof.
  intros Ho Ha Hne H. destruct (Encode asset) as [ab|] eqn:Hab.
  - destruct (CreateTrust_Ok _ _ _ _ _ _ (ord_ready _ Ho) Hne Hab H) as (_ & Htat & b & Hw).
    eapply wrote_apart; [done|by eapply Ha| |exact Hw]. intros t' Ht'. unfold trust_at in Htat. rewrite Hab in Htat. simpl in Htat.
    rewrite (wrote_view _ _ _ _ _ (ord_ready _ Ho) Hw), decide_True in Htat by done. simpl in Htat, Ht'. rewrite Htat in Ht'.
    by injection Ht' as <-.
  - unfold CreateTrust, trust_key, encode_ptr, encode_res in H. rewrite Hab in H. unfold_m. simpl in H. repeat case_match; simplify_eq/=.
Qed.

(** A trust line that was read is filed apart. *)
Lemma get_trust d d' id asset o :
  orderly d → apart id asset → GetTrust id asset d = (d', Ok o) →
  d' = d ∧ ∀ t, o = Some t → apart (tst_AccountID t) (tst_Asset t).
Proof.
  intros Ho Ha H. destruct asset as [asset|]; [|done]. unfold GetTrust in H. apply bind_Ok in H as (d1 & a & [= <- <-] & H).
  case_decide; [injection H as <- <-; split; [done|]; by intros t [= <-]|]. unfold trust_key, encode_ptr, encode_res in H.
  destruct (Encode asset) as [ab|] eqn:He; [|unfold_m; done]. apply bind_Ok in H as (d1 & k & [= <- <-] & H).
  apply bind_Ok in H as (d1 & b & Hg%wrap_Ok & H). pose proof (ord_ready _ Ho) as [Hok Hb]. rewrite Get_spec in Hg by done.
  injection Hg as <- Hg. destruct b as [b|]; [|by injection H as <- <-]. apply bind_Ok in H as (d1 & t' & Ht%wrap_Ok & [= <- <-]).
  injection Ht as <- Ht. split; [done|]. intros t [= <-]. apply (ord_apart _ Ho (id +:+ ab)); [by eapply Ha|]. rewrite Hg. simpl.
  unfold decode_res in Ht. by destruct (Decode b); simplify_eq.
Qed.

(** ** Operations *)

Lemma create_account_balanced reserve c d d' :
  orderly d → ca_SrcAccountID c ∈ ids → ca_DstAccountID c ∈ ids → CreateAccount_Apply reserve c d = (d', Ok tt) → balanced d d'.
Proof.
  intros Ho Hs Hd H. apply CreateAccount_Apply_Ok in H as (src & d1 & Hne & _ & _ & Hdst & Hsrc & _ & Hsv & Hcr); [|apply Ho].
  pose proof (ord_named _ Ho _ _ Hs Hsrc) as Hid. pose proof Hsv as Hv%SaveAccount_Ok; [|apply Ho].
  apply save_account in Hsv as [Ho1 Ht1]; [|done|by simpl; rewrite Hid]. apply CreateAccount_saves in Hcr as [_ Hcr].
  apply save_account in Hcr as [Ho2 Ht2]; [|done..]. split; [done|]. rewrite Ht2, Ht1. simpl.
  unfold balance_at. destruct Hv as [_ Hv]. rewrite Hv. simpl. rewrite Hid, decide_False, Hdst, Hsrc by congruence.
  rewrite !wrap64_eq64. apply eq64_lia. lia.
Qed.

Lemma native_payment_balanced reserve src dst asset n d d' :
  orderly d → src ∈ ids → dst ∈ ids → ast_AssetType asset = NATIVE →
  PathPayment_Apply reserve (mkPathPayment src (Some asset) n dst (Some asset) n []) d = (d', Ok tt) → balanced d d'.
Proof.
  intros Ho Hs Hd Hn H. apply PathPayment_native_Ok in H as (a1 & a1' & a2 & a2' & d1 & H1 & Hu1 & Hs1 & _ & H2 & Hu2 & Hs2); [|apply Ho|done].
  pose proof (ord_named _ Ho _ _ Hd H1) as Hid1. apply UpdateBalance_Ok_eq in Hu1 as ->, Hu2 as ->.
  apply save_account in Hs1 as [Ho1 Ht1]; [|done|by simpl; rewrite Hid1]. pose proof (ord_named _ Ho1 _ _ Hs H2) as Hid2.
  apply save_account in Hs2 as [Ho2 Ht2]; [|done|by simpl; rewrite Hid2]. split; [done|]. rewrite Ht2, Ht1. simpl.
  unfold balance_at. rewrite Hid1, Hid2, H1, H2. rewrite !wrap64_eq64. apply eq64_lia. lia.
Qed.

Lemma pay_trust_balanced id a n d d' : orderly d → apart id (Some a) → pay_trust id a n d = (d', Ok tt) → balanced d d'.
Proof.
  intros Ho Ha H. unfold pay_trust in H. apply bind_Ok in H as (d1 & o & Hg%wrap_Ok & H).
  apply bind_Ok in H as (d2 & t & Ht & H). destruct o as [t'|]; [|done]. injection Ht as <- <-.
  apply get_trust in Hg as [-> Hap]; [|done..]. specialize (Hap t' eq_refl). case_decide; [done|].
  apply bind_Ok in H as (d2 & t & Hu%wrap_Ok & H%wrap_Ok). injection Hu as <- Hu.
  apply save_trust in H; [done..|]. unfold UpdateTrustBalance in Hu. repeat case_decide; simplify_eq/=. done.
Qed.

Lemma require_issuer_state m a d d' : orderly d → require_issuer m a d = (d', Ok tt) → d' = d.
Proof. intros Ho H. unfold require_issuer in H. apply GetAccount_bind in H; [|apply Ho]. destruct (acct_at d (ast_Issuer a)); [by injection H|done]. Qed.

Lemma custom_payment_balanced reserve src dst asset n d d' :
  orderly d → apart src (Some asset) → apart dst (Some asset) → ast_AssetType asset ≠ NATIVE →
  PathPayment_Apply reserve (mkPathPayment src (Some asset) n dst (Some asset) n []) d = (d', Ok tt) → balanced d d'.
Proof.
  intros Ho Hs Hd Hn H. unfold PathPayment_Apply in H. simpl in H. apply bind_Ok in H as (? & ? & H1 & H).
  apply wrap_Ok in H1. injection H1 as <- _. apply bind_Ok in H as (? & ? & H1 & H). apply wrap_Ok in H1. injection H1 as <- _.
  apply bind_Ok in H as (? & ? & [= <- _] & H). do 2 (case_decide; [done|]).
  do 2 (apply bind_Ok in H as (? & ? & [= <- <-] & H)). apply bind_Ok in H as (d1 & [] & Hc & H).
  unfold credit_dst in Hc. simpl in Hc. apply GetAccount_bind in Hc; [|apply Ho]. destruct (acct_at d dst); [|done].
  rewrite decide_False in Hc by done. apply bind_Ok in Hc as (d2 & [] & Hi & Hc). apply require_issuer_state in Hi as ->; [|done].
  apply pay_trust_balanced in Hc as Hb; [|done..]. apply bind_Ok in H as (d3 & [asset' n'] & Hp & H).
  simpl in Hp. rewrite decide_True in Hp by done. injection Hp as <- <- <-. unfold debit_src in H. simpl in H.
  case_decide; [done|]. rewrite decide_False in H by done. apply bind_Ok in H as (d4 & [] & Hi & H).
  apply require_issuer_state in Hi as ->; [|apply Hb]. eapply balanced_trans; [exact Hb|].
  eapply pay_trust_balanced; [apply Hb|exact Hs|exact H].
Qed.

(** The account whose balance is as it was read. *)
Lemma save_same_balance d d0 d' id a a' :
  orderly d → id ∈ ids → acct_at d id = Some a → balance_at d0 id = balance_at d id → orderly d0 →
  acc_AccountID a' = acc_AccountID a → acc_Balance a' = acc_Balance a → SaveAccount (Some a') d0 = (d', Ok tt) → balanced d0 d'.
Proof.
  intros Ho Hin Ha Hb Ho0 Hid Hbal H. pose proof (ord_named _ Ho _ _ Hin Ha) as Hn.
  apply save_account in H as [Ho' Ht]; [|done|by rewrite Hid, Hn]. split; [done|]. rewrite Ht, Hid, Hn, Hb, Hbal.
  unfold balance_at. rewrite Ha. apply eq64_lia. lia.
Qed.

Lemma UpdateEntryCount_kept reserve a n a' :
  UpdateEntryCount reserve a n = Ok a' → acc_AccountID a' = acc_AccountID a ∧ acc_Balance a' = acc_Balance a.
Proof.
  unfold UpdateEntryCount. case_decide; [by intros [= <-]|]. destruct (acc_liab a) as [l| | |]; try done. simpl.
  case_decide; [done|]. by intros [= <-].
Qed.

(** Trust lines are written apart: the accounts read as before. *)
Lemma balance_apart d d' k o id : orderly d → k ∉ ids → id ∈ ids → wrote d d' k o → balance_at d' id = balance_at d id.
Proof.
  intros Ho Hk Hid Hw. unfold balance_at. rewrite (wrote_acct_at _ _ _ _ _ (ord_ready _ Ho) Hw).
  by rewrite decide_False by (intros ->; done).
Qed.

Lemma delete_trust_balance d d' id asset id' :
  orderly d → apart id (Some asset) → id' ∈ ids → DeleteTrust id (Some asset) d = (d', Ok tt) → balance_at d' id' = balance_at d id'.
Proof.
  intros Ho Ha Hin H. unfold DeleteTrust, trust_key, encode_ptr, encode_res in H. destruct (Encode asset) as [ab|] eqn:Hab; [|unfold_m; done].
  apply bind_Ok in H as (? & k & [= <- <-] & H%wrap_Ok). apply db_Delete_wrote in H as [_ Hw]; [|apply Ho].
  eapply balance_apart; [done| |done|done]. by eapply Ha.
Qed.

Lemma trust_balanced reserve t d d' :
  orderly d → t_SrcAccountID t ∈ ids → apart (t_SrcAccountID t) (t_Asset t) → Trust_Apply reserve t d = (d', Ok tt) → balanced d d'.
Proof.
  intros Ho Hs Ha H. unfold Trust_Apply in H. apply bind_Ok in H as (d1 & asset & Hd & H).
  destruct (t_Asset t) as [a|]; [|done]. injection Hd as <- <-. case_decide as Hne; [done|].
  apply bind_Ok in H as (d1 & o & Hg%wrap_Ok & H). apply get_trust in Hg as [-> Htr]; [|done..].
  apply GetAccount_bind in H; [|apply Ho]. destruct (acct_at d (t_SrcAccountID t)) as [acc|] eqn:Hacc; [|done].
  destruct o as [tr|]; case_decide as Hl; try done.
  - apply bind_Ok in H as (d2 & [] & Hdel & H). apply bind_Ok in H as (d3 & acc' & Hu%wrap_Ok & H%wrap_Ok). injection Hu as <- Hu.
    apply UpdateEntryCount_kept in Hu as [? ?]. pose proof Hdel as Hbal%delete_trust; [|done..].
    eapply balanced_trans; [exact Hbal|]. eapply (save_same_balance d); try done; [|apply Hbal]. exact (delete_trust_balance _ _ _ _ _ Ho Ha Hs Hdel).
  - apply bind_Ok in H as (d2 & l & Hl' & H). injection Hl' as <- _. case_decide; [done|]. apply wrap_Ok in H.
    apply save_trust in H; [done..|]. simpl. by apply Htr.
  - apply bind_Ok in H as (d2 & [] & Hi & H). apply require_issuer_state in Hi as ->; [|done].
    apply bind_Ok in H as (d2 & acc' & Hu%wrap_Ok & H). injection Hu as <- Hu. apply UpdateEntryCount_kept in Hu as [? ?].
    apply bind_Ok in H as (d2 & [] & Hsv%wrap_Ok & H%wrap_Ok).
    apply (save_same_balance d d d2 (t_SrcAccountID t) acc) in Hsv; try done. eapply balanced_trans; [exact Hsv|].
    eapply create_trust; [apply Hsv|done..].
Qed.

(** An operation whose accounts are among those summed up. *)
Definition op_within (o : Opr) : Prop :=
  match o with
  | OprCreateAccount c => ca_SrcAccountID c ∈ ids ∧ ca_DstAccountID c ∈ ids
  | OprPayment p => p_SrcAccountID p ∈ ids ∧ p_DstAccountID p ∈ ids ∧
      ∀ a, p_Asset p = Some a → ast_AssetType a ≠ NATIVE → apart (p_SrcAccountID p) (Some a) ∧ apart (p_DstAccountID p) (Some a)
  | OprTrust t => t_SrcAccountID t ∈ ids ∧ apart (t_SrcAccountID t) (t_Asset t)
  end.

Lemma op_balanced reserve o d d' : orderly d → op_within o → Opr_Apply reserve o d = (d', Ok tt) → balanced d d'.
Proof.
  intros Ho Hw H. destruct o as [c|p|t]; simpl in H, Hw.
  - destruct Hw. by eapply create_account_balanced.
  - destruct Hw as (Hs & Hd & Hap), p as [src dst [asset|] n]; simpl in *; [|done]. unfold Payment_Apply in H. simpl in H.
    apply bind_Ok in H as (d1 & [] & Hv%wrap_Ok & H). injection Hv as <- _. do 2 (case_decide; [done|]).
    destruct (decide (ast_AssetType asset = NATIVE)) as [Hn|Hn]; [exact (native_payment_balanced _ _ _ _ _ _ _ Ho Hs Hd Hn H)|].
    destruct (Hap asset eq_refl Hn). eapply custom_payment_balanced; [exact Ho|..|exact H]; done.
  - destruct Hw. by eapply trust_balanced.
Qed.

Lemma ops_balanced reserve ops d d' :
  orderly d → Forall op_within ops → mfor ops (Opr_Apply reserve) d = (d', Ok tt) → balanced d d'.
Proof.
  revert d. induction ops as [|o ops IH]; intros d Ho Hw H; simpl in H; [injection H as <-; by apply balanced_refl|].
  apply Forall_cons in Hw as [Hw1 Hw2]. apply bind_Ok in H as (d1 & [] & H1 & H2).
  apply op_balanced in H1; [|done..]. eapply balanced_trans; [done|]. eapply IH; [apply H1|done..].
Qed.
End supply.

(** * Transactions *)

Section transactions.
Context {Pbc : PbCodec} {GoRt : GoRuntime} {Crypto : CryptoLib}.
Context (ids : list string) (ids_nodup : NoDup ids).
Implicit Types tm : Manager boltdb.

Definition entry_within (src : string) (o : Op) : Prop :=
  match op_Op o with
  | Some (Op_CreateAccount ca) => cao_AccountID ca ∈ ids
  | Some (Op_Payment p) => po_AccountID p ∈ ids ∧
      ∀ a, po_Asset p = Some a → ast_AssetType a ≠ NATIVE → apart ids src (Some a) ∧ apart ids (po_AccountID p) (Some a)
  | Some (Op_Trust t) => apart ids src (to_Asset t)
  | _ => True
  end.
(** A transaction that concerns accounts among those summed up. *)
Definition tx_within (tx : Tx) : Prop := tx_AccountID tx ∈ ids ∧ Forall (entry_within (tx_AccountID tx)) (tx_OpList tx).

Lemma to_op_within reserve src seq o op :
  src ∈ ids → entry_within src o → to_op reserve src seq o = Ok op → op_within ids op.
Proof.
  intros Hs Hw H. unfold to_op, entry_within in *. destruct (op_OpType o), (op_Op o) as [[ca|p|pp|t]|]; simplify_eq/=; split; tauto.
Qed.
Lemma ops_within reserve src seq ops l :
  src ∈ ids → Forall (entry_within src) ops → getTxOpList reserve ops src seq = Ok l → Forall (op_within ids) l.
Proof.
  intros Hs Hw H%res_map_inv. induction H as [|o op ops l Ho _ IH]; [constructor|]. apply Forall_cons in Hw as [Hw1 Hw2].
  constructor; [by eapply to_op_within|auto].
Qed.

(** Only the bucket of the accounts counts. *)
Lemma same_accts (d d' : boltdb) id : d' !! account_bucket = d !! account_bucket → acct_at d' id = acct_at d id.
Proof. intros Hd. unfold acct_at. simpl. by rewrite Hd. Qed.
Lemma same_accounts (d d' : boltdb) : d' !! account_bucket = d !! account_bucket → orderly ids d → balanced ids d d'.
Proof.
  intros Hd [[_ Hr] Hn Ha]. split.
  - split; [split; [done|]; simpl; by rewrite Hd|intros id a; rewrite (same_accts d) by done; apply Hn|].
    intros k t. simpl. rewrite Hd. apply Ha.
  - unfold total. rewrite (sumZ_ext (balance_at d') (balance_at d)); [reflexivity|]. intros id _. unfold balance_at.
    by rewrite (same_accts d).
Qed.
Lemma status_balanced tm tm' : same_but_status tm tm' → orderly ids (tm_database tm) → balanced ids (tm_database tm) (tm_database tm').
Proof. intros H. apply same_accounts. by apply H. Qed.

(** ** Fees *)

Lemma charge_fees acc txs tm tm' acc' rest :
  charge acc txs tm = (tm', Ok (acc', rest)) →
  rest `sublist_of` txs ∧ acc_AccountID acc' = acc_AccountID acc ∧
  acc_Balance acc' ≡₆₄ acc_Balance acc - sumZ tx_Fee rest ∧ same_but_status tm tm'.
Proof.
  revert acc tm tm' acc' rest. induction txs as [|tx txs IH]; intros acc tm tm' acc' rest H; simpl in H.
  - injection H as <- <- <-. split_and!; [done|done|simpl; apply eq64_lia; lia|done].
  - assert (∀ e tm1, set_failed tx e tm = (tm1, Ok tt) → same_but_status tm tm1) as Hfail.
    { intros e tm1 H1. apply (preserves_run _ _ _ _ _ H1), preserves_wrap, UpdateTxStatus_same. }
    do 2 (case_decide as Hc; [clear Hc; apply bind_Ok in H as (tm1 & [] & H1 & H2); apply IH in H2 as (Hsub & Hid & Hb & Hs);
      split_and!; [by apply sublist_cons|done|done|]; apply Hfail in H1; intros b Hne; rewrite Hs, H1; done|clear Hc]).
    apply bind_Ok in H as (tm1 & [acc1 rest1] & H1 & [= <- <- <-]). apply IH in H1 as (Hsub & Hid & Hb & Hs). simpl in *.
    split_and!; [by apply sublist_skip|done| |done]. rewrite Hb, wrap64_eq64. apply eq64_lia. lia.
Qed.

(** The groups of an agreed list. *)
Lemma group_add_perm {A} id (x : A) g :
  concat (map_to_list (group_add id x g)).*2 ≡ₚ x :: concat (map_to_list g).*2.
Proof.
  unfold group_add. destruct (g !! id) as [l|] eqn:Hl; simpl.
  - rewrite <-(insert_delete_eq g), map_to_list_insert, <-(map_to_list_delete g id l Hl) by apply lookup_delete_eq. simpl.
    rewrite <-app_assoc. simpl. by rewrite <-Permutation_middle.
  - rewrite map_to_list_insert by done. done.
Qed.
Lemma group_txs_perm txs : concat (map_to_list (group_txs txs)).*2 ≡ₚ txs.
Proof.
  unfold group_txs. induction txs as [|tx txs IH] using rev_ind; [simpl; by rewrite map_to_list_empty|].
  rewrite foldl_app. simpl. rewrite group_add_perm, IH. apply Permutation_cons_append.
Qed.
Lemma group_txs_key txs id l : group_txs txs !! id = Some l → ∃ tx, tx ∈ txs ∧ tx_AccountID tx = id.
Proof.
  unfold group_txs. revert l. induction txs as [|tx txs IH] using rev_ind; intros l H; [simpl in H; by rewrite lookup_empty in H|].
  rewrite foldl_app in H. simpl in H. unfold group_add in H. apply lookup_insert_Some in H as [[<- _]|[_ H]].
  - exists tx. set_solver.
  - destruct (IH _ H) as (tx' & ? & ?). exists tx'. set_solver.
Qed.

Lemma charge_all_fees groups tm tm' rest :
  orderly ids (tm_database tm) → Forall (λ p, p.1 ∈ ids) groups → charge_all groups tm = (tm', Ok rest) →
  rest ⊆+ concat groups.*2 ∧ orderly ids (tm_database tm') ∧
  total (tm_database tm') ids ≡₆₄ total (tm_database tm) ids - sumZ tx_Fee rest.
Proof.
  revert tm rest. induction groups as [|[id txs] groups IH]; intros tm rest Ho Hin H; simpl in H.
  - injection H as <- <-. split_and!; [done..|simpl; apply eq64_lia; lia].
  - apply Forall_cons in Hin as [Hid Hin]. simpl in Hid. apply bind_Ok in H as (tm1 & acc & Hg%wrap_Ok & H).
    unfold on_db in Hg. destruct (GetAccount id (tm_database tm)) as [d1 r] eqn:Hget. injection Hg as <- ->.
    apply GetAccount_Ok in Hget as [-> Hacc]; [|apply Ho]. destruct acc as [acc|]; [|done].
    pose proof (ord_named _ _ Ho _ _ Hid Hacc) as Hname.
    apply bind_Ok in H as (tm2 & [acc' paid] & Hc & H). apply charge_fees in Hc as (Hsub & Hid' & Hbal & Hs).
    assert (balance_at (tm_database tm2) id = acc_Balance acc) as Hb2.
    { unfold balance_at. by rewrite (same_accts (tm_database tm)), Hacc by (by apply (Hs account_bucket)). }
    apply (status_balanced (set_database (tm_database tm) tm)) in Hs as [Ho2 Ht2]; [|done]. simpl in Ht2.
    apply bind_Ok in H as (tm3 & [] & Hsv%wrap_Ok & H). unfold on_db in Hsv.
    destruct (SaveAccount (Some acc') (tm_database tm2)) as [d3 r] eqn:Hsave. injection Hsv as <- ->.
    apply (save_account ids ids_nodup) in Hsave as [Ho3 Ht3]; [|done|by rewrite Hid', Hname].
    apply bind_Ok in H as (tm4 & rests & H & [= <- <-]). apply IH in H as (Hrest & Ho4 & Ht4); [|done..]. simpl in Ht4.
    split_and!; [simpl; apply submseteq_app; [by apply sublist_submseteq|done]|done|].
    rewrite Ht4, Ht3, Hid', Hname, Hb2, Ht2, Hbal, sumZ_app. apply eq64_lia. lia.
Qed.

(** ** One transaction, and the list *)

Lemma apply_tx_balanced reserve seq tx tm tm' :
  orderly ids (tm_database tm) → tx_within tx → apply_tx reserve seq tx tm = (tm', Ok tt) →
  balanced ids (tm_database tm) (tm_database tm').
Proof.
  intros Ho [Hs Hw] H. unfold apply_tx in H. apply bind_Ok in H as (tm1 & ops & H1 & H).
  apply bind_Ok in H as (tm2 & o & H2 & H). unfold on_db in H2.
  destruct (apply_ops reserve ops (tm_database tm1)) as [db r] eqn:Ha. injection H2 as <- ->. apply apply_ops_atomic in Ha.
  assert (balanced ids (tm_database tm) (tm_database tm1) ∧ Forall (op_within ids) ops) as [Hb1 Hops].
  { destruct (getTxOpList _ _ _ _) as [ops'|e|w|] eqn:Hl; try done.
    - injection H1 as <- <-. split; [by apply balanced_refl|by eapply ops_within].
    - apply bind_Ok in H1 as (tm0 & [] & H0 & [= <- <-]). split; [|constructor]. apply status_balanced; [|done].
      apply (preserves_run _ _ _ _ _ H0), preserves_wrap, UpdateTxStatus_same. }
  assert (balanced ids (tm_database tm1) db) as Hb2.
  { destruct o as [e|]; [destruct Ha as [-> _]; apply balanced_refl, Hb1|]. eapply ops_balanced; [done|apply Hb1|done..]. }
  eapply balanced_trans; [exact Hb1|]. eapply balanced_trans; [exact Hb2|].
  apply (status_balanced (set_database db tm1)); [|apply Hb2].
  destruct o; apply (preserves_run _ _ _ _ _ H), preserves_wrap, UpdateTxStatus_same.
Qed.

Lemma apply_list_balanced reserve seq txs tm tm' :
  orderly ids (tm_database tm) → Forall tx_within txs → mfor txs (apply_tx reserve seq) tm = (tm', Ok tt) →
  balanced ids (tm_database tm) (tm_database tm').
Proof.
  revert tm. induction txs as [|tx txs IH]; intros tm Ho Hw H; simpl in H; [injection H as <-; by apply balanced_refl|].
  apply Forall_cons in Hw as [Hw1 Hw2]. apply bind_Ok in H as (tm1 & [] & H1 & H2).
  apply apply_tx_balanced in H1; [|done..]. eapply balanced_trans; [exact H1|]. eapply IH; [apply H1|done..].
Qed.

Lemma ApplyTxList_supply reserve seq txs tm tm' :
  orderly ids (tm_database tm) → Forall tx_within txs → ApplyTxList reserve txs seq tm = (tm', Ok tt) →
  ∃ charged, charged ⊆+ txs ∧ orderly ids (tm_database tm') ∧
    total (tm_database tm') ids ≡₆₄ total (tm_database tm) ids - sumZ tx_Fee charged.
Proof.
  intros Ho Hw H. unfold ApplyTxList in H. apply bind_Ok in H as (tm1 & charged & Hc & H).
  assert (concat (go_range (group_txs (go_sort tx_less txs))).*2 ≡ₚ txs) as Hperm.
  { by rewrite go_range_perm, group_txs_perm, go_sort_perm. }
  apply charge_all_fees in Hc as (Hsub & Ho1 & Ht1); [|done|].
  - rewrite Hperm in Hsub. apply apply_list_balanced in H as [Ho2 Ht2]; [|done|].
    + exists charged. split_and!; [done..|]. by rewrite Ht2.
    + rewrite go_sort_perm. rewrite Forall_forall in *. intros tx Hin. by eapply Hw, elem_of_submseteq.
  - rewrite go_range_perm. apply Forall_forall. intros [id l] Hin%elem_of_map_to_list.
    apply group_txs_key in Hin as (tx & Hin & <-). rewrite go_sort_perm in Hin. rewrite Forall_forall in Hw. by destruct (Hw tx Hin).
Qed.

(** ** Ledgers *)

Definition lm_db (lm : LedgerManager boltdb) : boltdb := tm_database (lm_tm lm).
Definition keeps_accounts (lm lm' : LedgerManager boltdb) : Prop := lm_db lm' !! account_bucket = lm_db lm !! account_bucket.
#[local] Instance keeps_accounts_preorder : PreOrder keeps_accounts.
Proof. split; [done|]. intros a b c H1 H2. unfold keeps_accounts in *. by rewrite H2. Qed.

Lemma accounts_ledger_put k x : preserves keeps_accounts (ledger_db (db_Put ledger_bucket k x)).
Proof.
  intros lm. unfold keeps_accounts, lm_db, ledger_db, on_tm, on_db. simpl. unfold boltdb.Put.
  destruct (tm_database (lm_tm lm) !! ledger_bucket); [|done]. repeat case_decide; [done..|].
  simpl. by rewrite lookup_insert_ne.
Qed.
#[local] Hint Resolve accounts_ledger_put : go_preserves.
#[local] Hint Extern 1 (preserves _ (modify _)) => intros ?; reflexivity : go_preserves.
Lemma accounts_advanceLedger now seq prev txh cv : preserves keeps_accounts (advanceLedger now seq prev txh cv).
Proof. unfold advanceLedger, saveCheckpoint. pres keeps_accounts. Qed.

Lemma closeLedger_supply reserve now index value txset (lm lm' : LedgerManager boltdb) :
  orderly ids (lm_db lm) → Forall tx_within (ts_TxList txset) → closeLedger reserve now index value txset lm = (lm', Ok tt) →
  ∃ charged, charged ⊆+ ts_TxList txset ∧ orderly ids (lm_db lm') ∧
    total (lm_db lm') ids ≡₆₄ total (lm_db lm) ids - sumZ tx_Fee charged.
Proof.
  intros Ho Hw H. unfold closeLedger in H. apply bind_Ok in H as (? & ? & [= <- <-] & H).
  do 2 (case_decide; [done|]). apply bind_Ok in H as (? & h & Hk%wrap_Ok & H). injection Hk as <- _.
  destruct (b58_Decode value) as [b|]; [|done]. apply bind_Ok in H as (? & cv & Hv%wrap_Ok & H). injection Hv as <- _.
  case_decide; [done|]. apply bind_Ok in H as (lm1 & [] & Ha%wrap_Ok & H). unfold on_tm in Ha.
  destruct (ApplyTxList _ _ _ (lm_tm lm)) as [tm r] eqn:Hap. injection Ha as <- ->.
  apply ApplyTxList_supply in Hap as (charged & Hsub & Ho1 & Ht1); [|done..].
  assert (keeps_accounts (set_tm tm lm) lm') as Hk.
  { unfold or_fatal in H. destruct (advanceLedger _ _ _ _ _ _) as [lm2 [[]|?|?|]] eqn:Had; simplify_eq/=.
    by apply (preserves_run _ _ _ _ _ Had), accounts_advanceLedger. }
  destruct (same_accounts (tm_database tm) (lm_db lm') Hk Ho1) as [Ho2 Ht2].
  exists charged. split_and!; [done..|]. by rewrite Ht2.
Qed.

End transactions.

(** C3: closing ledgers neither makes nor destroys tokens but the fees.  Let any number of ledgers be closed one after the
    other, with transactions of any kind between accounts among those summed up: created accounts, payments in the native
    and in issued assets, trust lines opened, changed and closed, transactions that fail.  Then the balances add up to what
    they were less the fees of the transactions that were charged, each at most once, modulo 2^64. *)
Theorem ledgers_conserve_tokens {Pbc : PbCodec} {GoRt : GoRuntime} {Crypto : CryptoLib} (ids : list string) (reserve : Z)
    (closes : list (Z * Z * string * TxSet)) (lm lm' : LedgerManager boltdb) :
  NoDup ids → orderly ids (lm_db lm) → Forall (λ '(_, _, _, txset), Forall (tx_within ids) (ts_TxList txset)) closes →
  mfor closes (λ '(now, index, value, txset), closeLedger reserve now index value txset) lm = (lm', Ok tt) →
  ∃ charged, charged ⊆+ concat ((λ '(_, _, _, txset), ts_TxList txset) <$> closes) ∧ orderly ids (lm_db lm') ∧
    total (lm_db lm') ids ≡₆₄ total (lm_db lm) ids - sumZ tx_Fee charged.
Proof.
  intros Hnd. revert lm. induction closes as [|[[[now index] value] txset] closes IH]; intros lm Ho Hw H; simpl in H.
  - injection H as <-. exists []. split_and!; [done..|]. simpl. apply eq64_lia. lia.
  - apply Forall_cons in Hw as [Hw1 Hw2]. apply bind_Ok in H as (lm1 & [] & H1 & H2).
    apply (closeLedger_supply ids Hnd) in H1 as (c1 & Hs1 & Ho1 & Ht1); [|done..].
    apply IH in H2 as (c2 & Hs2 & Ho2 & Ht2); [|done..]. exists (c1 ++ c2).
    split_and!; [simpl; by apply submseteq_app|done|]. rewrite Ht2, Ht1, sumZ_app. apply eq64_lia. lia.
Qed.

(** * A concrete history *)

Module tokens.
Import Exchange.market TxOps.world TxManager.runs.
#[local] Existing Instances ref_runtime ref_codec ref_crypto.

(** alice and bob, and the genesis ledger. *)
Definition buckets : list string :=
  [account_bucket; exchange_bucket; offer_bucket; status_bucket; tx_bucket; ledger_bucket; txset_bucket].
Definition db : boltdb :=
  ((do! mfor buckets boltdb.NewBucket in do! SaveAccount (Some alice) in SaveAccount (Some bob)) ∅).1.
Definition genesis : LedgerManager boltdb := (CreateGenesisLedger 10 (NewLedgerManager (NewManager db))).1.
Definition names : list string := ["alice"; "bob"; "carol"; "dave"].

(** alice pays bob and creates carol; then the first payment comes again and is too late, and her payment to dave, who has no
    account, fails with the payment to bob before it. *)
Definition creates : Tx := mkTx "alice" 10 "" 6 [mkOp OpType_CREATE_ACCOUNT (Some (Op_CreateAccount (mkCreateAccountOp "carol" 200)))].
Definition fails : Tx := mkTx "alice" 10 "" 7 [payment "bob" 100; payment "dave" 100].
Definition value_of (ts : TxSet) : string :=
  match GetTxSetKey ts with Ok k => match encode_res (mkConsensusValue k 7) with Ok b => b | _ => "" end | _ => "" end.
Definition close (i : Z) (txs : list Tx) (lm : LedgerManager boltdb) : Z * Z * string * TxSet :=
  let ts := mkTxSet (lm_currLedgerHeaderHash lm) txs in (20, i, value_of ts, ts).
Definition first : Z * Z * string * TxSet := close 2 [pays; creates] genesis.
Definition after_first : LedgerManager boltdb := let '(now, i, v, ts) := first in (closeLedger (T := boltdb) 100 now i v ts genesis).1.
Definition second : Z * Z * string * TxSet := close 3 [pays; fails] after_first.
Definition closed : LedgerManager boltdb * res unit :=
  mfor [first; second] (λ '(now, i, v, ts), closeLedger (T := boltdb) 100 now i v ts) genesis.

Example closed_balances : (balance_at (lm_db closed.1) <$> names) = [670; 105; 200; 0].
Proof. vm_compute. reflexivity. Qed.

Lemma closed_ok : closed.2 = Ok tt.
Proof. vm_compute. reflexivity. Qed.

(** The process ends after the fees of the first ledger; the node recovers and closes that ledger again. *)
Definition half_done : LedgerManager boltdb := (on_tm (charge_all (go_range (group_txs [pays; creates]))) genesis).1.
Definition repeated : LedgerManager boltdb * res unit :=
  let '(now, i, v, ts) := first in
  closeLedger (T := boltdb) 100 now i v ts (RecoverFromCheckpoint 30 (NewLedgerManager (NewManager (lm_db half_done)))).1.
(** A crash in the middle of a ledger is never repaired.  The fees and the sequence numbers are saved before the operations are
    run, and the checkpoint after both.  When the process ends in between, the node recovers, closes the same ledger again with the same header, but
    refuses the first payment, whose sequence number is used, and charges the second fee twice: it agrees with the other nodes on the
    chain and not on the balances. *)
Theorem crash_loses_operations :
  repeated.2 = Ok tt ∧ lm_currLedgerHeaderHash repeated.1 = lm_currLedgerHeaderHash after_first ∧
  (balance_at (lm_db after_first) <$> names) = [680; 105; 200; 0] ∧ (balance_at (lm_db repeated.1) <$> names) = [770; 5; 200; 0].
Proof. vm_compute. repeat split; reflexivity. Qed.

Lemma payment_within src to n : to ∈ names → entry_within names src (payment to n).
Proof. intros Hto. split; [done|]. by intros a [= <-]. Qed.
Lemma all_within : Forall (λ '(_, _, _, txset), Forall (tx_within names) (ts_TxList txset)) [first; second].
Proof.
  repeat constructor; simpl; try (apply payment_within); unfold names, entry_within; simpl; set_solver.
Qed.

(** The accounts of the genesis ledger are alice and bob. *)
Lemma genesis_orderly : orderly names (lm_db genesis).
Proof.
  assert (map_Forall (λ k b, (acc_AccountID <$> (Decode b : option Account) = None ∨ acc_AccountID <$> (Decode b : option Account) = Some k) ∧ k ∈ names)
            (default ∅ (lm_db genesis !! account_bucket))) as Hall.
  { apply (bool_decide_unpack _). vm_compute. exact I. }
  assert (is_Some (lm_db genesis !! account_bucket)) as [m Hm] by (apply (bool_decide_unpack _); vm_compute; exact I).
  rewrite Hm in Hall. simpl in Hall. revert Hm. generalize (lm_db genesis). intros d Hm. split.
  - split; [done|]. by exists m.
  - intros id a _. unfold acct_at. simpl. rewrite Hm. simpl. destruct (m !! id) as [b|] eqn:Hb; [|done]. simpl. intros Hd.
    destruct (map_Forall_lookup_1 _ _ _ _ Hall Hb) as [[Ha|Ha] _]; rewrite Hd in Ha; by simplify_eq/=.
  - intros k t Hk. simpl. rewrite Hm. simpl. destruct (m !! k) as [b|] eqn:Hb; [|done].
    by destruct (map_Forall_lookup_1 _ _ _ _ Hall Hb) as [_ ?].
Qed.

Lemma ledgers_conserve_tokens_witness :
  ∃ charged, charged ⊆+ [pays; creates; pays; fails] ∧
    total (lm_db closed.1) names ≡₆₄ total (lm_db genesis) names - sumZ tx_Fee charged.
Proof.
  destruct (ledgers_conserve_tokens names 100 [first; second] genesis closed.1) as (charged & Hsub & _ & Ht).
  - apply (bool_decide_unpack _). vm_compute. exact I.
  - exact genesis_orderly.
  - exact all_within.
  - exact (run_eq _ _ _ closed_ok).
  - exists charged. split; [exact Hsub|exact Ht].
Defined.

End tokens.
