(* ===== verification/Build.v ===== *)
(** The transaction builder of the client, [client/build/tx.go] and [client/build/txmutator.go].

    A mutator is a constructor of [TxMutator] with the fields of its struct; [Mutate] is a function on the
    transaction under construction, which keeps the changes of the mutators before a failing one. *)

From S2P Require Import Prelude Pb Crypto Keypair Account Exchange TxOps TxManager Ledger.

Module build.

Definition BaseFee : Z := GenesisBaseFee.
Definition ErrNilTx : string := "tx is nil".

(** An [uint8] with two named values. *)
Inductive AssetType := NATIVE | CUSTOM | AssetType_other (n : Z).

Record Asset := mkAsset { AssetType_ : AssetType; AssetName : string; Issuer : string }.

Record CreateAccount := mkCreateAccount { ca_AccountID : string; ca_Balance : Z }.
Record Payment := mkPayment { p_AccountID : string; p_Asset : option Asset; p_Amount : Z }.
Record Trust := mkTrust { t_Asset : option Asset; t_Limit : Z }.

Inductive TxMutator :=
| MAccountID (accountID : string)
| MNote (note : string)
| MSeqNum (seqNum : Z)
| MFee (baseFee : Z)
| MCreateAccount (ca : CreateAccount)
| MPayment (p : Payment)
| MTrust (t : Trust).

(** The builder: [None] is the nil transaction. *)
Definition Tx : Type := option Pb.Tx.
Definition NewTx : Tx := Some (Pb.mkTx "" 0 "" 0 []).

Definition set_AccountID (x : string) (tx : Pb.Tx) : Pb.Tx := Pb.mkTx x (tx_Fee tx) (tx_Note tx) (tx_SeqNum tx) (tx_OpList tx).
Definition set_Fee (x : Z) (tx : Pb.Tx) : Pb.Tx := Pb.mkTx (tx_AccountID tx) x (tx_Note tx) (tx_SeqNum tx) (tx_OpList tx).
Definition set_Note (x : string) (tx : Pb.Tx) : Pb.Tx := Pb.mkTx (tx_AccountID tx) (tx_Fee tx) x (tx_SeqNum tx) (tx_OpList tx).
Definition set_SeqNum (x : Z) (tx : Pb.Tx) : Pb.Tx := Pb.mkTx (tx_AccountID tx) (tx_Fee tx) (tx_Note tx) x (tx_OpList tx).
Definition add_Op (o : Op) (tx : Pb.Tx) : Pb.Tx :=
  Pb.mkTx (tx_AccountID tx) (tx_Fee tx) (tx_Note tx) (tx_SeqNum tx) (tx_OpList tx ++ [o]).

Section build.
Context {Crypto : CryptoLib} {Ed : Ed25519} {Pbc : PbCodec}.

(** * Validation *)

Definition AccountID_validate (accountID : string) : res unit :=
  if decide (accountID = "") then Err "empty account id"
  else if negb (IsValidAccountKey accountID) then Err "invalid account key"
  else Ok tt.

Definition Note_validate (note : string) : res unit :=
  if decide (128 < String.length note)%nat then Err "note is too long" else Ok tt.

Definition SeqNum_validate (seqNum : Z) : res unit :=
  if decide (seqNum = 0) then Err "seqnum is zero" else Ok tt.

Definition Fee_validate (baseFee : Z) : res unit :=
  if decide (baseFee < 0) then Err "base fee is negative" else Ok tt.

Definition CreateAccount_validate (ca : CreateAccount) : res unit :=
  if decide (String.length (ca_AccountID ca) = 0%nat) then Err "empty account id"
  else if decide (ca_Balance ca < BaseFee) then Err "init balance less than base fee"
  else if negb (IsValidAccountKey (ca_AccountID ca)) then Err "invalid account key"
  else Ok tt.

(** The final [switch] on the type of an asset. *)
Definition known_type (a : Asset) : res unit :=
  match AssetType_ a with NATIVE | CUSTOM => Ok tt | AssetType_other _ => Err "invalid asset type" end.

(** The name and the issuer of an asset. *)
Definition named (a : Asset) : res unit :=
  if decide (4 < String.length (AssetName a))%nat then Err "asset name is too long"
  else if negb (IsValidAccountKey (Issuer a)) then Err "invalid asset issuer account key"
  else Ok tt.

Definition Payment_validate (p : Payment) : res unit :=
  if decide (p_Amount p < 0) then Err "negative payment amount"
  else if negb (IsValidAccountKey (p_AccountID p)) then Err "invalid account key"
  else match p_Asset p with
  | None => Err "asset is nil"
  | Some a =>
      let? _ := match AssetType_ a with CUSTOM => named a | _ => Ok tt end in
      known_type a
  end.

Definition Trust_validate (t : Trust) : res unit :=
  if decide (t_Limit t < 0) then Err "negative trust limit"
  else match t_Asset t with
  | None => Err "asset is nil"
  | Some a => let? _ := named a in known_type a
  end.

(** * Mutation *)

(** The asset of the message. *)
Definition to_asset (a : Asset) : res Pb.Asset :=
  match AssetType_ a with
  | NATIVE => Ok (Pb.mkAsset Pb.NATIVE (AssetName a) (Issuer a))
  | CUSTOM => Ok (Pb.mkAsset Pb.CUSTOM (AssetName a) (Issuer a))
  | AssetType_other _ => Panic "unsupported asset type"
  end.

(** [if tx == nil { return ErrNilTx }; if err := x.validate(); err != nil { return err }], then the change. *)
Definition mutate (valid : res unit) (change : Pb.Tx → res Pb.Tx) : M Tx unit :=
  let! tx := get in
  match tx with
  | None => fail ErrNilTx
  | Some tx => do! lift valid in let! tx := lift (change tx) in put (Some tx)
  end.

Definition AccountID_Mutate (accountID : string) : M Tx unit :=
  mutate (AccountID_validate accountID) (λ tx, Ok (set_AccountID accountID tx)).
Definition Note_Mutate (note : string) : M Tx unit := mutate (Note_validate note) (λ tx, Ok (set_Note note tx)).
Definition SeqNum_Mutate (seqNum : Z) : M Tx unit := mutate (SeqNum_validate seqNum) (λ tx, Ok (set_SeqNum seqNum tx)).
Definition Fee_Mutate (baseFee : Z) : M Tx unit :=
  mutate (Fee_validate baseFee) (λ tx, Ok (set_Fee (wrap64 (baseFee * Z.of_nat (length (tx_OpList tx)))) tx)).

Definition CreateAccount_Mutate (ca : CreateAccount) : M Tx unit :=
  mutate (CreateAccount_validate ca) (λ tx,
    Ok (add_Op (mkOp OpType_CREATE_ACCOUNT (Some (Op_CreateAccount (mkCreateAccountOp (ca_AccountID ca) (ca_Balance ca))))) tx)).

Definition Payment_Mutate (p : Payment) : M Tx unit :=
  mutate (Payment_validate p) (λ tx,
    let? a := deref (p_Asset p) in
    let? asset := to_asset a in
    Ok (add_Op (mkOp OpType_PAYMENT (Some (Op_Payment (mkPaymentOp (p_AccountID p) (Some asset) (p_Amount p))))) tx)).

Definition Trust_Mutate (t : Trust) : M Tx unit :=
  mutate (Trust_validate t) (λ tx,
    let? a := deref (t_Asset t) in
    let? asset := to_asset a in
    Ok (add_Op (mkOp OpType_TRUST (Some (Op_Trust (mkTrustOp (Some asset) (t_Limit t))))) tx)).

Definition Mutate (m : TxMutator) : M Tx unit :=
  match m with
  | MAccountID x => AccountID_Mutate x
  | MNote x => Note_Mutate x
  | MSeqNum x => SeqNum_Mutate x
  | MFee x => Fee_Mutate x
  | MCreateAccount x => CreateAccount_Mutate x
  | MPayment x => Payment_Mutate x
  | MTrust x => Trust_Mutate x
  end.

(** * The builder *)

Definition Tx_validate : M Tx unit :=
  let! t := get in
  let! tx := lift (deref t) in
  if decide (tx_AccountID tx = "") then fail "empty account id"
  else if decide (length (tx_OpList tx) = 0%nat) then fail "empty op list"
  else ret tt.

Definition Add (ms : list TxMutator) : M Tx unit :=
  do! mfor ms Mutate in
  do! Fee_Mutate BaseFee in
  wrap "tx is invaiid: " Tx_validate.

Definition Tx_Sign (seed : string) (t : Tx) : res (string * string) :=
  match t with
  | None => Err ErrNilTx
  | Some tx =>
      let? seedKey := res_wrap "decode seed key failed: " (DecodeKey seed) in
      if decide (key_Code seedKey ≠ KeyTypeSeed) then Err "incorrect seed key type"
      else
        let? payload := res_wrap "encode tx failed: " (encode_res tx) in
        let? signature := res_wrap "sign the tx failed: " (Sign seed payload) in
        Ok (payload, signature)
  end.

Definition Tx_GetTxKey (t : Tx) : res string :=
  match t with
  | None => Err ErrNilTx
  | Some tx =>
      let? b := res_wrap "encode tx failed: " (encode_res tx) in
      Ok (EncodeKey (mkULTKey KeyTypeTx (SHA256HashBytes b)))
  end.

End build.
End build.

(** * What a mutator adds *)

Section laws.
Context {Crypto : CryptoLib} {Ed : Ed25519} {Pbc : PbCodec}.
Import build.

Definition pb_asset (a : Asset) : Pb.Asset :=
  Pb.mkAsset (match AssetType_ a with NATIVE => Pb.NATIVE | _ => Pb.CUSTOM end) (AssetName a) (Issuer a).

(** The operation a mutator stands for. *)
Definition op_of (m : TxMutator) : list Op :=
  match m with
  | MCreateAccount ca => [mkOp OpType_CREATE_ACCOUNT (Some (Op_CreateAccount (mkCreateAccountOp (ca_AccountID ca) (ca_Balance ca))))]
  | MPayment p => [mkOp OpType_PAYMENT (Some (Op_Payment (mkPaymentOp (p_AccountID p) (pb_asset <$> p_Asset p) (p_Amount p))))]
  | MTrust t => [mkOp OpType_TRUST (Some (Op_Trust (mkTrustOp (pb_asset <$> t_Asset t) (t_Limit t))))]
  | _ => []
  end.

(** The amounts an operation carries are not negative and its accounts are account keys. *)
Definition op_wf (o : Op) : Prop :=
  match op_Op o with
  | Some (Op_CreateAccount ca) => op_OpType o = OpType_CREATE_ACCOUNT ∧ IsValidAccountKey (cao_AccountID ca) = true ∧ BaseFee <= cao_Balance ca
  | Some (Op_Payment p) => op_OpType o = OpType_PAYMENT ∧ IsValidAccountKey (po_AccountID p) = true ∧ 0 <= po_Amount p ∧ is_Some (po_Asset p)
  | Some (Op_Trust t) => op_OpType o = OpType_TRUST ∧ 0 <= to_Limit t ∧ is_Some (to_Asset t)
  | _ => False
  end.

(** The transaction under construction: what is set is valid, and the account is a key or not set yet. *)
Definition tx_wf (tx : Pb.Tx) : Prop :=
  (tx_AccountID tx = "" ∨ IsValidAccountKey (tx_AccountID tx) = true) ∧
  (String.length (tx_Note tx) <= 128)%nat ∧ Forall op_wf (tx_OpList tx).

Lemma known_type_Ok a : known_type a = Ok tt → to_asset a = Ok (pb_asset a).
Proof. unfold known_type, to_asset, pb_asset. by destruct (AssetType_ a). Qed.

(** A valid payment or trust has an asset of a known type. *)
Lemma Payment_validate_Ok p :
  Payment_validate p = Ok tt → 0 <= p_Amount p ∧ IsValidAccountKey (p_AccountID p) = true ∧
    ∃ a, p_Asset p = Some a ∧ to_asset a = Ok (pb_asset a).
Proof.
  unfold Payment_validate. case_decide; [done|]. destruct (IsValidAccountKey (p_AccountID p)); [|done]. simpl.
  destruct (p_Asset p) as [a|]; [|done]. intros Hv. split_and!; [lia|done|]. exists a. split; [done|].
  apply known_type_Ok. unfold res_bind in Hv. by repeat case_match.
Qed.

Lemma Trust_validate_Ok t :
  Trust_validate t = Ok tt → 0 <= t_Limit t ∧ ∃ a, t_Asset t = Some a ∧ to_asset a = Ok (pb_asset a).
Proof.
  unfold Trust_validate. case_decide; [done|]. destruct (t_Asset t) as [a|]; [|done].
  intros Hv. split; [lia|]. exists a. split; [done|]. apply known_type_Ok. unfold res_bind in Hv. by repeat case_match.
Qed.

Lemma mutate_Ok valid change t t' :
  mutate valid change t = (t', Ok tt) → ∃ tx tx', t = Some tx ∧ valid = Ok tt ∧ change tx = Ok tx' ∧ t' = Some tx'.
Proof.
  unfold mutate. rewrite (bind_eq_Ok _ _ _ t t) by done. destruct t as [tx|]; [|done].
  intros (s1 & [] & [= <- Hv] & H)%bind_Ok. apply bind_Ok in H as (s2 & tx' & [= <- Hc] & [= <-]). naive_solver.
Qed.

(** A mutator that succeeds adds its operation and keeps the transaction well formed. *)
Lemma Mutate_Ok m t t' :
  Mutate m t = (t', Ok tt) → ∃ tx tx', t = Some tx ∧ t' = Some tx' ∧ tx_OpList tx' = tx_OpList tx ++ op_of m ∧
    (tx_wf tx → tx_wf tx') ∧ (tx_AccountID tx' = tx_AccountID tx ∨ m = MAccountID (tx_AccountID tx')).
Proof.
  destruct m as [x|x|x|x|ca|p|tr]; intros (tx & tx' & -> & Hv & Hc & ->)%mutate_Ok; exists tx, tx'; (split; [done|split; [done|]]).
  - injection Hc as <-. rewrite app_nil_r. split_and!; [done| |by right]. intros (_ & ? & ?). split_and!; try done.
    unfold AccountID_validate in Hv. case_decide; [done|]. simpl. by destruct (IsValidAccountKey x); [right|].
  - injection Hc as <-. rewrite app_nil_r. split_and!; [done| |by left]. intros (? & _ & ?). split_and!; try done.
    unfold Note_validate in Hv. case_decide; [done|]. simpl. lia.
  - injection Hc as <-. rewrite app_nil_r. split_and!; [done..|by left].
  - injection Hc as <-. rewrite app_nil_r. split_and!; [done..|by left].
  - injection Hc as <-. split_and!; [done| |by left]. intros (? & ? & ?). split_and!; [done..|].
    apply Forall_app. split; [done|]. apply Forall_singleton. unfold CreateAccount_validate in Hv.
    repeat case_decide; [done..|]. destruct (IsValidAccountKey (ca_AccountID ca)) eqn:Hk; [|done].
    unfold op_wf; simpl. split_and!; [done..|lia].
  - apply Payment_validate_Ok in Hv as (? & ? & a & Ha & Hta). rewrite Ha in Hc. simpl in Hc. rewrite Hta in Hc.
    injection Hc as <-. simpl. rewrite Ha. split_and!; [done| |by left]. intros (? & ? & ?). split_and!; [done..|].
    apply Forall_app. split; [done|]. apply Forall_singleton. unfold op_wf; simpl. split_and!; [done..|by eexists].
  - apply Trust_validate_Ok in Hv as (? & a & Ha & Hta). rewrite Ha in Hc. simpl in Hc. rewrite Hta in Hc.
    injection Hc as <-. simpl. rewrite Ha. split_and!; [done| |by left]. intros (? & ? & ?). split_and!; [done..|].
    apply Forall_app. split; [done|]. apply Forall_singleton. unfold op_wf; simpl. split_and!; [done..|by eexists].
Qed.

Lemma mutate_all_Ok ms t t' :
  mfor ms Mutate t = (t', Ok tt) → is_Some t → ∃ tx tx', t = Some tx ∧ t' = Some tx' ∧
    tx_OpList tx' = tx_OpList tx ++ concat (op_of <$> ms) ∧ (tx_wf tx → tx_wf tx').
Proof.
  revert t. induction ms as [|m ms IH]; intros t.
  - intros [= <-] [tx ->]. exists tx, tx. by rewrite app_nil_r.
  - cbn [mfor]. intros (t1 & [] & H1 & H2)%bind_Ok _.
    apply Mutate_Ok in H1 as (tx & tx1 & -> & -> & Hl & Hw & _).
    destruct (IH _ H2) as (? & tx' & [= <-] & -> & Hl' & Hw'); [by eexists|].
    exists tx, tx'. split_and!; [done..| |auto]. rewrite Hl', Hl, fmap_cons. cbn [concat]. by rewrite app_assoc.
Qed.

(** The result of [Add] on a new transaction. *)
Lemma Add_built ms t :
  Add ms NewTx = (t, Ok tt) → ∃ tx, t = Some tx ∧ IsValidAccountKey (tx_AccountID tx) = true ∧
    tx_OpList tx = concat (op_of <$> ms) ∧ tx_OpList tx ≠ [] ∧
    tx_Fee tx = wrap64 (BaseFee * Z.of_nat (length (tx_OpList tx))) ∧ tx_wf tx.
Proof.
  unfold Add. intros (t1 & [] & H1 & H)%bind_Ok. apply bind_Ok in H as (t2 & [] & H2 & H3).
  apply mutate_all_Ok in H1 as (tx0 & tx1 & [= <-] & -> & Hl & Hw); [|by eexists].
  apply mutate_Ok in H2 as (? & tx2 & [= <-] & _ & [= <-] & ->).
  apply wrap_Ok in H3. unfold Tx_validate in H3. apply bind_Ok in H3 as (? & ? & [= <- <-] & H3).
  unfold bind, lift, fail, ret in H3. simpl in H3.
  case_decide as Hid; [done|]. case_decide as Hops; [done|]. injection H3 as <-.
  assert (tx_wf tx1) as Hwf. { apply Hw. split_and!; [by left|simpl; lia|constructor]. }
  eexists. split; [done|]. split_and!; simpl in *; try done.
  - destruct Hwf as ([?|?] & _); [done|]. done.
  - by destruct (tx_OpList tx1).
Qed.

(** Every operation the builder makes is one the transaction manager can run. *)
Lemma op_wf_to_op reserve id seq o : op_wf o → is_Ok (to_op reserve id seq o) = true.
Proof. unfold op_wf, to_op. destruct o as [ty [[]|]]; simpl; intros H; try done; destruct H as [-> _]; done. Qed.

Lemma res_map_is_Ok {A B} (f : A → res B) l : Forall (λ a, is_Ok (f a) = true) l → is_Ok (res_map f l) = true.
Proof.
  induction 1 as [|a l Ha _ IH]; [done|]. unfold res_map in *. simpl. destruct (f a); try done. simpl.
  by destruct (foldr _ _ _).
Qed.

End laws.

(** * Properties *)

(** What the builder accepts, the transaction manager can run.  A transaction built by [Add] carries exactly
    the operations of its mutators, in order, the fee of one base fee for each, a valid account key and a note of
    legal length, and the manager turns all its operations into runnable ones. *)
Theorem built_tx_runs {Crypto : CryptoLib} (ms : list build.TxMutator) (t : build.Tx) (reserve seq : Z) :
  build.Add ms build.NewTx = (t, Ok tt) →
  ∃ tx, t = Some tx ∧ tx_OpList tx = concat (op_of <$> ms) ∧
    tx_Fee tx = wrap64 (GenesisBaseFee * Z.of_nat (length (tx_OpList tx))) ∧
    IsValidAccountKey (tx_AccountID tx) = true ∧ Z.of_nat (String.length (tx_Note tx)) <= MaxTxNote ∧
    is_Ok (getTxOpList reserve (tx_OpList tx) (tx_AccountID tx) seq) = true.
Proof.
  intros (tx & -> & Hid & Hl & _ & Hf & (_ & Hn & Ho))%Add_built. exists tx. unfold MaxTxNote. split_and!; [done..|lia|].
  apply res_map_is_Ok. eapply Forall_impl; [exact Ho|]. intros o. apply op_wf_to_op.
Qed.

Module clients.

Definition key (name : string) : string := @EncodeKey ref_crypto (mkULTKey KeyTypeAccountID (pad32 name)).
Definition seed (name : string) : string := @EncodeKey ref_crypto (mkULTKey KeyTypeSeed (pad32 name)).

Definition mutators : list build.TxMutator :=
  [build.MAccountID (key "alice"); build.MNote "rent"; build.MSeqNum 1;
   build.MCreateAccount (build.mkCreateAccount (key "bob") 1000);
   build.MPayment (build.mkPayment (key "bob") (Some (build.mkAsset build.NATIVE "ULT" "")) 7)].

Definition built : build.Tx :=
  Some (mkTx (key "alice") 2000 "rent" 1
    [mkOp OpType_CREATE_ACCOUNT (Some (Op_CreateAccount (mkCreateAccountOp (key "bob") 1000)));
     mkOp OpType_PAYMENT (Some (Op_Payment (mkPaymentOp (key "bob") (Some (mkAsset NATIVE "ULT" "")) 7)))]).

Lemma built_run : @build.Add ref_crypto mutators build.NewTx = (built, Ok tt).
Proof. by vm_compute. Qed.

Lemma built_tx_runs_witness :
  ∃ tx, built = Some tx ∧ tx_OpList tx = concat (op_of <$> mutators) ∧
    tx_Fee tx = wrap64 (GenesisBaseFee * Z.of_nat (length (tx_OpList tx))) ∧
    @IsValidAccountKey ref_crypto (tx_AccountID tx) = true ∧ Z.of_nat (String.length (tx_Note tx)) <= MaxTxNote ∧
    is_Ok (getTxOpList 100 (tx_OpList tx) (tx_AccountID tx) 2) = true.
Proof. exact (@built_tx_runs ref_crypto mutators built 100 2 built_run). Defined.

End clients.
