(* ===== verification/Quorum.v ===== *)
(** Quorums: the quorum functions of [consensus/util.go] and the quorum order of
    [consensus/sorter.go].

    The threshold of a quorum is a float64.  It is kept as one: the standard library's model of
    IEEE 754 binary64 ([SpecFloat], precision 53, maximal exponent 1024) gives the products and
    differences the code computes, with their rounding.  A conversion [int(math.Ceil(x))] of a
    value outside int64 (infinities and NaN included) is implementation specific in Go; the model
    takes the result of the amd64 conversion instruction, the smallest int64. *)

From Stdlib Require Import SpecFloat.
From S2P Require Import Prelude.

(** * float64 *)

Definition f64 : Type := spec_float.
Definition f64_of_Z (n : Z) : f64 := binary_normalize 53 1024 n 0 false.
Definition f64_mul : f64 → f64 → f64 := SFmul 53 1024.
Definition f64_sub : f64 → f64 → f64 := SFsub 53 1024.
Definition f64_lt (a b : f64) : bool := SFltb a b.
Definition f64_le (a b : f64) : bool := SFleb a b.
Definition f64_eq (a b : f64) : bool := SFeqb a b.
Definition f64_one : f64 := f64_of_Z 1.
Definition f64_zero : f64 := f64_of_Z 0.
(** The fraction [m / 2^k]. *)
Definition f64_frac (m k : Z) : f64 := binary_normalize 53 1024 m (- k) false.

(** The ceiling of [m * 2^e]. *)
Definition ceil_scale (m e : Z) : Z :=
  if decide (0 <= e) then m * 2 ^ e else - ((- m) / 2 ^ (- e)).

(** [int(math.Ceil(x))] *)
Definition ceil_int (x : f64) : Z :=
  match x with
  | S754_zero _ => 0
  | S754_infinity _ | S754_nan => MinInt64
  | S754_finite s m e =>
      let z := ceil_scale (if s then Zneg m else Zpos m) e in
      if decide (int64 z) then z else MinInt64
  end.

#[global] Instance int64_dec z : Decision (int64 z).
Proof. unfold int64. apply _. Defined.

#[global] Instance f64_eq_dec : EqDecision f64.
Proof. unfold f64. solve_decision. Defined.

(** * Quorums *)

Inductive Quorum := mkQuorum {
  q_Threshold : f64;
  q_Validators : list string;
  q_NestQuorums : list Quorum;
}.

(** Induction with a hypothesis for every nested quorum. *)
Fixpoint Quorum_nest_ind (P : Quorum → Prop)
    (H : ∀ t vs nqs, Forall P nqs → P (mkQuorum t vs nqs)) (q : Quorum) : P q :=
  match q with
  | mkQuorum t vs nqs =>
      H t vs nqs ((fix go (l : list Quorum) : Forall P l :=
        match l with
        | [] => Forall_nil_2 P
        | q :: l => Forall_cons_2 P q l (Quorum_nest_ind P H q) (go l)
        end) nqs)
  end.

Definition NestQuorum_size (q : Quorum) : Z :=
  Z.of_nat (length (q_Validators q)) + Z.of_nat (length (q_NestQuorums q)).

(** The duplicate test of the loop over the validators. *)
Fixpoint has_dup (seen : gset string) (vs : list string) : bool :=
  match vs with
  | [] => false
  | v :: vs => if decide (v ∈ seen) then true else has_dup ({[v]} ∪ seen) vs
  end.

(** The threshold in the error message is printed with %v, which is not modelled. *)
Fixpoint ValidateQuorum (extraChecks : bool) (depth : Z) (q : Quorum) : res unit :=
  let 'mkQuorum t vs nqs := q in
  if decide (2 < depth) then Err "invalid quorum depth"
  else if f64_le t f64_zero || f64_lt f64_one t then Err "invalid quorum threshold"
  else if extraChecks && f64_lt t (f64_sub f64_one t) then Err "bad quorum threshold range"
  else if has_dup ∅ vs then Err "duplicated quorum nodes"
  else
    (fix go (l : list Quorum) : res unit :=
      match l with
      | [] => Ok tt
      | nq :: l => let? _ := ValidateQuorum extraChecks (depth + 1) nq in go l
      end) nqs.

(** ** V-blocking sets and slices *)

(** The two loops of [isVblocking] and of [isQuorumSlice]: count down once per member found, in an int, and
    leave as soon as the count satisfies [stop]. *)
Fixpoint countdown (stop : Z → bool) (threshold : Z) (hits : list bool) : bool :=
  match hits with
  | [] => false
  | h :: hits =>
      let threshold := if h then wrap64 (threshold - 1) else threshold in
      if stop threshold then true else countdown stop threshold hits
  end.

Definition qsize (q : Quorum) : f64 := f64_of_Z (NestQuorum_size q).

(** How many members a v-blocking set needs, and how many a slice needs. *)
Definition vblocking_need (q : Quorum) : Z := ceil_int (f64_mul (qsize q) (f64_sub f64_one (q_Threshold q))).
Definition slice_need (q : Quorum) : Z := ceil_int (f64_mul (qsize q) (q_Threshold q)).

Fixpoint isVblocking (q : Quorum) (nodeSet : gset string) : bool :=
  let 'mkQuorum t vs nqs := q in
  countdown (λ n, bool_decide (n = 0)) (vblocking_need q)
    (((λ v, bool_decide (v ∈ nodeSet)) <$> vs) ++ ((λ nq, isVblocking nq nodeSet) <$> nqs)).

(** The nested quorums are tested with [isVblocking], as in the source. *)
Definition isQuorumSlice (q : Quorum) (nodeSet : gset string) : bool :=
  countdown (λ n, bool_decide (n <= 0)) (slice_need q)
    (((λ v, bool_decide (v ∈ nodeSet)) <$> q_Validators q) ++
     ((λ nq, isVblocking nq nodeSet) <$> q_NestQuorums q)).

Definition getSingletonQuorum (nodeID : string) : Quorum := mkQuorum f64_one [nodeID] [].

(** ** Order and normal form *)

Fixpoint compareStrings (a b : list string) : Z :=
  match a, b with
  | [], [] => 0
  | [], _ => -1
  | _, [] => 1
  | x :: a, y :: b => let cmp := strcmp x y in if decide (cmp ≠ 0) then cmp else compareStrings a b
  end.

(** [compareStrings(q1.Validators, q1.Validators)]: the validators of the first quorum, twice. *)
Fixpoint compareQuorum (q1 q2 : Quorum) {struct q1} : Z :=
  let 'mkQuorum t1 vs1 nqs1 := q1 in
  let 'mkQuorum t2 vs2 nqs2 := q2 in
  let cmp := compareStrings vs1 vs1 in
  if decide (cmp ≠ 0) then cmp
  else
    let cmp :=
      (fix compareQuorums (qa qb : list Quorum) : Z :=
        match qa, qb with
        | [], [] => 0
        | [], _ => -1
        | _, [] => 1
        | a :: qa, b :: qb => let cmp := compareQuorum a b in if decide (cmp ≠ 0) then cmp else compareQuorums qa qb
        end) nqs1 nqs2 in
    if decide (cmp ≠ 0) then cmp
    else if f64_lt t1 t2 then -1 else if f64_lt t2 t1 then 1 else 0.

(** The flattened quorum is the nested quorum as it was given, the node itself included. *)
Fixpoint simplifyQuorum (q : Quorum) (nodeID : string) : Quorum :=
  let 'mkQuorum t vs nqs := q in
  let s := mkQuorum t (filter (λ v, v ≠ nodeID) vs) ((λ nq, simplifyQuorum nq nodeID) <$> nqs) in
  if f64_eq t f64_one then
    match vs, nqs with
    | [], [nq] => nq
    | _, _ => s
    end
  else s.

Section sorting.
Context {GoRt : GoRuntime}.

(** [sort.Strings] *)
Definition sort_strings : list string → list string := go_sort (λ a b, bool_decide (strcmp a b < 0)).

(** [QuorumSlice.Less] *)
Definition quorum_less (a b : Quorum) : bool := bool_decide (compareQuorum a b <= 0).

(** The quorum after the sort, which is in place. *)
Fixpoint sortQuorum (q : Quorum) : Quorum :=
  let 'mkQuorum t vs nqs := q in
  mkQuorum t (sort_strings vs) (go_sort quorum_less (sortQuorum <$> nqs)).

Definition normalizeQuorum (q : Quorum) (nodeID : string) : Quorum := sortQuorum (simplifyQuorum q nodeID).

End sorting.

Fixpoint getQuorumNodes (q : Quorum) : list string :=
  let 'mkQuorum _ vs nqs := q in
  vs ++ (fix go (l : list Quorum) : list string :=
    match l with
    | [] => []
    | nq :: l => getQuorumNodes nq ++ go l
    end) nqs.

(** * Lemmas *)

Definition count (hits : list bool) : Z := sumZ (λ b : bool, if b then 1 else 0) hits.

Lemma count_nonneg hits : 0 <= count hits.
Proof. unfold count. induction hits as [|[] hits IH]; simpl; lia. Qed.

(** A countdown to exactly zero, from a positive number. *)
Lemma countdown_zero t hits :
  1 <= t <= MaxInt64 → countdown (λ n, bool_decide (n = 0)) t hits = true ↔ t <= count hits.
Proof.
  unfold count. revert t. induction hits as [|h hits IH]; intros t Ht; simpl; [split; [done|intros; exfalso; lia]|].
  pose proof (count_nonneg hits) as Hc. unfold count in Hc. rewrite wrap64_id by (unfold_int; lia).
  destruct h; case_bool_decide as Hz; [split; [lia|done]|rewrite IH by lia; lia|exfalso; lia|rewrite IH by lia; lia].
Qed.

(** A countdown to zero or below, over at least one candidate, from any number but the smallest. *)
Lemma countdown_down t hits :
  hits ≠ [] → MinInt64 < t <= MaxInt64 → countdown (λ n, bool_decide (n <= 0)) t hits = true ↔ t <= count hits.
Proof.
  unfold count. revert t. induction hits as [|h hits IH]; intros t Hne Ht; [done|]. simpl.
  pose proof (count_nonneg hits) as Hc. unfold count in Hc. rewrite wrap64_id by (unfold_int; lia).
  destruct (decide (hits = [])) as [->|Hne'].
  - simpl. destruct h; case_bool_decide; split; done || lia.
  - destruct h; case_bool_decide; rewrite ?IH by (done || unfold_int; lia); split; done || lia.
Qed.

(** Every level of the quorum needs at least one member to be blocked. *)
Fixpoint vb_ok (q : Quorum) : Prop :=
  let 'mkQuorum t vs nqs := q in
  1 <= vblocking_need q ∧
  (fix go (l : list Quorum) : Prop := match l with [] => True | nq :: l => vb_ok nq ∧ go l end) nqs.

Lemma vb_ok_nest t vs nqs : vb_ok (mkQuorum t vs nqs) → 1 <= vblocking_need (mkQuorum t vs nqs) ∧ Forall vb_ok nqs.
Proof.
  intros [H1 H2]. split; [done|]. clear H1. induction nqs as [|nq nqs IH]; [constructor|].
  destruct H2 as [Hn Hr]. constructor; auto.
Qed.

Definition hits (q : Quorum) (s : gset string) : list bool :=
  ((λ v, bool_decide (v ∈ s)) <$> q_Validators q) ++ ((λ nq, isVblocking nq s) <$> q_NestQuorums q).

Lemma ceil_int_range x : int64 (ceil_int x).
Proof. destruct x; simpl; try case_decide; unfold_int; lia || done. Qed.
Lemma vblocking_need_max q : vblocking_need q <= MaxInt64.
Proof. apply ceil_int_range. Qed.
Lemma slice_need_max q : slice_need q <= MaxInt64.
Proof. apply ceil_int_range. Qed.
#[local] Hint Resolve vblocking_need_max slice_need_max : core.

Lemma isVblocking_hits q s : 1 <= vblocking_need q → isVblocking q s = true ↔ vblocking_need q <= count (hits q s).
Proof. destruct q as [t vs nqs]. intros Hn. cbn [isVblocking]. by rewrite countdown_zero. Qed.

(** The number of members that a slice needs is a number: the threshold is not NaN. *)
Definition need_ok (q : Quorum) : Prop := MinInt64 < slice_need q.

Lemma isQuorumSlice_hits q s :
  0 < NestQuorum_size q → need_ok q → isQuorumSlice q s = true ↔ slice_need q <= count (hits q s).
Proof.
  intros Hn Hk. unfold isQuorumSlice. rewrite countdown_down; [done| |by split].
  destruct q as [t [|v vs] [|nq nqs]]; done.
Qed.

Lemma count_app l1 l2 : count (l1 ++ l2) = count l1 + count l2.
Proof. apply sumZ_app. Qed.

Lemma count_cons b l : count (b :: l) = (if b then 1 else 0) + count l.
Proof. done. Qed.

Lemma count_le {A} (f g : A → bool) l : (∀ a, a ∈ l → f a = true → g a = true) → count (f <$> l) <= count (g <$> l).
Proof.
  induction l as [|a l IH]; intros H; [done|]. rewrite !fmap_cons, !count_cons.
  specialize (IH ltac:(intros; apply H; [set_solver|done])).
  specialize (H a ltac:(set_solver)). destruct (f a); [rewrite H by done|destruct (g a)]; lia.
Qed.

Lemma isVblocking_mono q s s' : vb_ok q → s ⊆ s' → isVblocking q s = true → isVblocking q s' = true.
Proof.
  revert q. apply (Quorum_nest_ind (λ q, vb_ok q → s ⊆ s' → isVblocking q s = true → isVblocking q s' = true)).
  intros t vs nqs IH [Hn Hok]%vb_ok_nest Hs. rewrite !isVblocking_hits by done. intros H.
  etrans; [exact H|]. unfold hits. rewrite !count_app. simpl. apply Z.add_le_mono.
  - apply count_le. intros v _. rewrite !bool_decide_eq_true. set_solver.
  - apply count_le. intros nq Hin. rewrite Forall_forall in IH, Hok. auto.
Qed.

(** Slices survive in larger sets when the threshold is a number and every nested level needs at least one member. *)
Lemma isQuorumSlice_mono q s s' :
  need_ok q → Forall vb_ok (q_NestQuorums q) → s ⊆ s' → isQuorumSlice q s = true → isQuorumSlice q s' = true.
Proof.
  destruct q as [t vs nqs]. simpl. intros Hk Hnq Hs.
  destruct (decide (0 < NestQuorum_size (mkQuorum t vs nqs))) as [Hp|Hp].
  2:{ intros H. destruct vs, nqs; try done; exfalso; apply Hp; unfold NestQuorum_size; simpl; lia. }
  rewrite !isQuorumSlice_hits by done. intros H. etrans; [exact H|].
  unfold hits. rewrite !count_app. simpl. apply Z.add_le_mono; apply count_le.
  - intros v _. rewrite !bool_decide_eq_true. set_solver.
  - intros nq Hin. rewrite Forall_forall in Hnq. apply isVblocking_mono; auto.
Qed.

(** Members of a list in a set and in its complement. *)
Lemma count_or {A} (f g : A → bool) l : count ((λ a, f a || g a) <$> l) <= count (f <$> l) + count (g <$> l).
Proof. induction l as [|a l IH]; [done|]. rewrite !fmap_cons, !count_cons. destruct (f a), (g a); simpl; lia. Qed.

Lemma count_split (vs : list string) (s : gset string) :
  count ((λ v, bool_decide (v ∈ s)) <$> vs) + count ((λ v, bool_decide (v ∉ s)) <$> vs) = Z.of_nat (length vs).
Proof.
  induction vs as [|v vs IH]; [done|]. rewrite !fmap_cons, !count_cons. cbn [length].
  destruct (decide (v ∈ s)); [rewrite bool_decide_true, bool_decide_false by naive_solver
                            |rewrite bool_decide_false, bool_decide_true by naive_solver]; lia.
Qed.

Lemma has_dup_false seen vs : has_dup seen vs = false ↔ NoDup vs ∧ ∀ v, v ∈ vs → v ∉ seen.
Proof.
  revert seen. induction vs as [|v vs IH]; intros seen; simpl; [split; [split; [constructor|set_solver]|done]|].
  case_decide as Hv.
  - split; [done|]. intros [_ Hn]. destruct (Hn v); [by left|done].
  - rewrite IH, NoDup_cons. set_solver.
Qed.

(** * Properties *)

(** What the two threshold tests compute.  A set is a quorum slice exactly when it holds the
    needed number (the ceiling of size times threshold, in float64, which must be a number) of validators and blocked
    nested quorums; it is v-blocking exactly when it holds the ceiling of size times one minus the
    threshold, as long as that number is positive. *)
Theorem threshold_tests_count (q : Quorum) (s : gset string) :
  0 < NestQuorum_size q → need_ok q → 1 <= vblocking_need q →
  (isQuorumSlice q s = true ↔ slice_need q <= count (hits q s)) ∧
  (isVblocking q s = true ↔ vblocking_need q <= count (hits q s)).
Proof. intros H1 Hk H2. split; [by apply isQuorumSlice_hits|by apply isVblocking_hits]. Qed.

(** More nodes never hurt.  If the threshold is a number and every nested level needs at least one member to be blocked, a
    superset of a v-blocking set is v-blocking and a superset of a slice is a slice. *)
Theorem threshold_tests_monotone (q : Quorum) (s s' : gset string) :
  need_ok q → vb_ok q → s ⊆ s' →
  (isVblocking q s = true → isVblocking q s' = true) ∧
  (isQuorumSlice q s = true → isQuorumSlice q s' = true).
Proof.
  intros Hk Hok Hs. split; [by apply isVblocking_mono|].
  destruct q as [t vs nqs]. destruct (vb_ok_nest _ _ _ Hok) as [_ Hnq]. by apply isQuorumSlice_mono.
Qed.

(** Blocking is the dual of having a slice.  For a quorum without nested quorums whose two needs
    add up to its size plus one, a set is v-blocking exactly when the validators outside it do not
    contain a slice. *)
Theorem vblocking_dual (t : f64) (vs : list string) (s : gset string) :
  let q := mkQuorum t vs [] in
  vs ≠ [] → need_ok q → 1 <= vblocking_need q → vblocking_need q + slice_need q = Z.of_nat (length vs) + 1 →
  isVblocking q s = true ↔ isQuorumSlice q (list_to_set vs ∖ s) = false.
Proof.
  intros q Hne Hk Hv Hsum. rewrite isVblocking_hits by done. rewrite <- Bool.not_true_iff_false.
  rewrite isQuorumSlice_hits by (unfold NestQuorum_size; simpl; destruct vs; done || lia).
  unfold hits. simpl. rewrite !app_nil_r. pose proof (count_split vs s) as Hc.
  assert (count ((λ v, bool_decide (v ∈ (list_to_set vs ∖ s : gset string))) <$> vs) =
          count ((λ v, bool_decide (v ∉ s)) <$> vs)) as ->.
  { apply Z.le_antisymm; apply count_le; intros v Hin; rewrite !bool_decide_eq_true; set_solver. }
  lia.
Qed.

(** Slices intersect.  Let a quorum without nested quorums have faulty validators among its validators.  When a slice
    needs more than half of all validators and the faulty ones together, any two slices have a validator in common that
    is not faulty. *)
Theorem slices_intersect (t : f64) (vs : list string) (good s1 s2 : gset string) :
  let q := mkQuorum t vs [] in
  Z.of_nat (length vs) + count ((λ v, bool_decide (v ∉ good)) <$> vs) < 2 * slice_need q →
  isQuorumSlice q s1 = true → isQuorumSlice q s2 = true →
  ∃ v, v ∈ vs ∧ v ∈ good ∧ v ∈ s1 ∧ v ∈ s2.
Proof.
  intros q Hneed H1 H2. destruct (decide (vs = [])) as [->|Hne]; [done|].
  assert (0 < NestQuorum_size q) as Hp by (unfold NestQuorum_size; simpl; destruct vs; simpl; done || lia).
  assert (need_ok q) as Hk.
  { unfold need_ok. pose proof (count_nonneg ((λ v, bool_decide (v ∉ good)) <$> vs)). unfold_int; unfold MinInt64; lia. }
  rewrite isQuorumSlice_hits in H1, H2 by done. unfold hits in *. simpl in *. rewrite app_nil_r in *.
  destruct (decide (Exists (λ v, v ∈ good ∧ v ∈ s1 ∧ v ∈ s2) vs)) as [(v & ? & ? & ? & ?)%Exists_exists|Hno]; [eauto|].
  exfalso. rewrite <- Forall_Exists_neg, Forall_forall in Hno.
  assert (count ((λ v, bool_decide (v ∈ s2)) <$> vs) <=
          count ((λ v, bool_decide (v ∉ s1) || bool_decide (v ∉ good)) <$> vs)) as Hle.
  { apply count_le. intros v Hin. rewrite orb_true_iff, !bool_decide_eq_true. specialize (Hno v Hin).
    destruct (decide (v ∈ s1)), (decide (v ∈ good)); tauto. }
  pose proof (count_split vs s1). pose proof (count_or (λ v, bool_decide (v ∉ s1)) (λ v, bool_decide (v ∉ good)) vs) as Ho.
  cbv beta in Ho. lia.
Qed.

(** A threshold the validator lets through: in (0, 1], or not a number. *)
Definition threshold_ok (t : f64) : Prop :=
  t = S754_nan ∨ (f64_lt f64_zero t = true ∧ f64_le t f64_one = true).

Lemma SFcompare_opp (x y : spec_float) : SFcompare y x = (λ c, CompOpp c) <$> SFcompare x y.
Proof.
  destruct x as [[]|[]| |[] m1 e1], y as [[]|[]| |[] m2 e2]; try done; unfold SFcompare; change (Pos.compare_cont Eq) with Pos.compare;
    rewrite (Z.compare_antisym e1 e2), (Pos.compare_antisym m1 m2); by destruct (e1 ?= e2), (Pos.compare m1 m2).
Qed.

Lemma threshold_checked t : f64_le t f64_zero || f64_lt f64_one t = false → threshold_ok t.
Proof.
  intros [H1 H2]%orb_false_iff. destruct (decide (t = S754_nan)) as [|Hn]; [by left|right].
  unfold f64_le, f64_lt, SFleb, SFltb in *. rewrite (SFcompare_opp t f64_zero), (SFcompare_opp f64_one t).
  destruct (SFcompare t f64_zero) as [[]|] eqn:E1, (SFcompare f64_one t) as [[]|] eqn:E2; simpl in *; try done;
    exfalso; destruct t as [[]|[]| |[] m e]; done.
Qed.

(** Every level of a quorum: acceptable threshold, no validator twice, at most [n] levels below. *)
Fixpoint valid_levels (n : nat) (q : Quorum) : Prop :=
  let 'mkQuorum t vs nqs := q in
  threshold_ok t ∧ NoDup vs ∧
  match n with
  | O => nqs = []
  | S n => (fix go (l : list Quorum) : Prop := match l with [] => True | nq :: l => valid_levels n nq ∧ go l end) nqs
  end.

Lemma ValidateQuorum_levels n : ∀ extra q,
  ValidateQuorum extra (2 - Z.of_nat n) q = Ok tt → valid_levels n q.
Proof.
  induction n as [|n IH]; intros extra [t vs nqs]; cbn [ValidateQuorum valid_levels]; (case_decide; [lia|]);
    (destruct (f64_le t f64_zero || f64_lt f64_one t) eqn:Et; [done|]); apply threshold_checked in Et;
    (destruct (extra && _); [done|]); (destruct (has_dup ∅ vs) eqn:Ed; [done|]);
    apply has_dup_false in Ed as [Hnd _]; intros Hgo; (split_and!; [done..|]).
  - destruct nqs as [|[t' vs' nqs'] nqs]; [done|]. exfalso. simpl in Hgo. done.
  - induction nqs as [|nq nqs IHn]; [done|].
    destruct (ValidateQuorum extra (2 - Z.of_nat (S n) + 1) nq) as [[]| | |] eqn:E; simpl in Hgo; try done.
    split; [|by apply IHn]. apply (IH extra). replace (2 - Z.of_nat n) with (2 - Z.of_nat (S n) + 1) by lia. done.
Qed.

(** What a validated quorum looks like.  At every level no validator occurs twice, the
    threshold is in (0, 1] or NaN, and quorums are nested at most two levels deep. *)
Theorem ValidateQuorum_sound (extra : bool) (q : Quorum) :
  ValidateQuorum extra 0 q = Ok tt → valid_levels 2 q.
Proof. apply (ValidateQuorum_levels 2). Qed.

(** * Concrete quorums *)

Definition three_quarters : f64 := f64_frac 3 2.
Definition four : Quorum := mkQuorum three_quarters ["a"; "b"; "c"; "d"] [].
Definition unanimous : Quorum := mkQuorum f64_one ["a"; "b"; "c"] [].

(** A v-blocking set is one member too small when the size times the threshold is a whole
    number.  With three quarters of four validators, one validator is v-blocking although the
    other three are a slice; and with the threshold one, the empty set is v-blocking while the set
    of the first validator, or of all of them, is not. *)
Theorem vblocking_off_by_one :
  isVblocking four {["a"]} = true ∧ isQuorumSlice four {["b"; "c"; "d"]} = true ∧
  isVblocking unanimous ∅ = true ∧ isVblocking unanimous {["a"]} = false ∧
  isVblocking unanimous {["a"; "b"; "c"]} = false.
Proof. vm_compute. repeat split. Qed.

(** Nested quorums are counted as soon as they are blocked.  A quorum whose only member is the
    nested quorum of three out of four has a slice as soon as one of the four is present, which is
    not a slice of the nested quorum. *)
Theorem nested_slice_too_weak :
  isQuorumSlice (mkQuorum f64_one [] [four]) {["a"]} = true ∧ isQuorumSlice four {["a"]} = false.
Proof. vm_compute. split; reflexivity. Qed.

(** A threshold that is not a number passes validation, with the extra checks too.  The empty set is then a slice of the quorum; the
    set of its first validator is none, because the count wraps around, and neither are all of them. *)
Theorem nan_threshold_accepted :
  let q := mkQuorum S754_nan ["a"; "b"; "c"] [] in
  ValidateQuorum true 0 q = Ok tt ∧ isQuorumSlice q ∅ = true ∧ isQuorumSlice q {["a"]} = false ∧
  isQuorumSlice q {["a"; "b"; "c"]} = false.
Proof. vm_compute. repeat split. Qed.

(** The example of the documentation: six tenths of seven validators are five. *)
Example documented_need : slice_need (mkQuorum (S754_finite false 5404319552844595 (-53)) ["1"; "2"; "3"; "4"; "5"; "6"; "7"] []) = 5.
Proof. vm_compute. reflexivity. Qed.

(** Quorums that differ only in their validators compare as equal. *)
Example compare_ignores_validators : compareQuorum (mkQuorum f64_one ["a"] []) (mkQuorum f64_one ["b"] []) = 0.
Proof. reflexivity. Qed.

(** ** Witnesses *)

Lemma threshold_tests_count_witness :
  slice_need four = 3 ∧ isQuorumSlice four {["a"; "b"; "c"]} = true.
Proof.
  split; [vm_compute; reflexivity|].
  destruct (threshold_tests_count four {["a"; "b"; "c"]}) as [[_ H] _]; [vm_compute; reflexivity|vm_compute; reflexivity|vm_compute; discriminate|].
  apply H. vm_compute. discriminate.
Defined.

Lemma threshold_tests_monotone_witness : isQuorumSlice four {["a"; "b"; "c"; "z"]} = true.
Proof.
  apply (threshold_tests_monotone four {["a"; "b"; "c"]} {["a"; "b"; "c"; "z"]}).
  - vm_compute. reflexivity.
  - split; [vm_compute; discriminate|exact I].
  - set_solver.
  - vm_compute. reflexivity.
Defined.

Definition two_thirds_of_four : Quorum := mkQuorum (f64_frac 21 5) ["a"; "b"; "c"; "d"] [].

Lemma vblocking_dual_witness :
  isVblocking two_thirds_of_four {["a"; "b"]} = true ↔
  isQuorumSlice two_thirds_of_four (list_to_set ["a"; "b"; "c"; "d"] ∖ {["a"; "b"]}) = false.
Proof.
  apply (vblocking_dual (f64_frac 21 5) ["a"; "b"; "c"; "d"] {["a"; "b"]});
    [discriminate|vm_compute; reflexivity|vm_compute; discriminate|vm_compute; reflexivity].
Defined.

(** Four validators, one of them faulty. *)
Lemma slices_intersect_witness :
  ∃ v, v ∈ ["a"; "b"; "c"; "d"] ∧ v ∈ ({["a"; "b"; "c"]} : gset string) ∧
       v ∈ ({["a"; "b"; "d"]} : gset string) ∧ v ∈ ({["b"; "c"; "d"]} : gset string).
Proof.
  apply (slices_intersect three_quarters ["a"; "b"; "c"; "d"] {["a"; "b"; "c"]} {["a"; "b"; "d"]} {["b"; "c"; "d"]});
    vm_compute; reflexivity.
Defined.

Lemma ValidateQuorum_sound_witness : valid_levels 2 (mkQuorum f64_one ["x"] [four]).
Proof. apply (ValidateQuorum_sound false). vm_compute. reflexivity. Defined.
