(* ===== verification/Ballot.v ===== *)
(** Ballots and statements of the consensus protocol: the messages of [ultpb/consensus.proto], the
    comparisons of [consensus/util.go], the order of [consensus/sorter.go] and the filters of
    [consensus/filter.go].

    A getter of a [oneof] field returns nil when the statement holds another message, and reading
    a field of nil is a panic: the functions that do so are in [res]. *)

From S2P Require Import Prelude Pb Crypto.

Record Ballot := mkBallot { b_Counter : Z; b_Value : string }.

Record Nominate := mkNominate {
  nom_VoteList : list string;
  nom_AcceptList : list string;
  nom_QuorumHash : string;
}.

Record Prepare := mkPrepare {
  prep_B : option Ballot;
  prep_Q : option Ballot;
  prep_P : option Ballot;
  prep_HC : Z;
  prep_LC : Z;
  prep_QuorumHash : string;
}.

Record Confirm := mkConfirm {
  conf_B : option Ballot;
  conf_PC : Z;
  conf_LC : Z;
  conf_HC : Z;
  conf_QuorumHash : string;
}.

Record Externalize := mkExternalize {
  ext_B : option Ballot;
  ext_HC : Z;
  ext_QuorumHash : string;
}.

Inductive StmtBody :=
| Stmt_Nominate (n : Nominate)
| Stmt_Prepare (p : Prepare)
| Stmt_Confirm (c : Confirm)
| Stmt_Externalize (e : Externalize).

Inductive StatementType :=
| StatementType_NOMINATE
| StatementType_PREPARE
| StatementType_CONFIRM
| StatementType_EXTERNALIZE
| StatementType_other (n : Z).

(** The number of an enumerator, for [<]. *)
Definition stmt_type_num (t : StatementType) : Z :=
  match t with
  | StatementType_NOMINATE => 0
  | StatementType_PREPARE => 1
  | StatementType_CONFIRM => 2
  | StatementType_EXTERNALIZE => 3
  | StatementType_other n => n
  end.

Record Statement := mkStatement {
  s_Type : StatementType;
  s_NodeID : string;
  s_Index : Z;
  s_Stmt : option StmtBody;
}.

#[global] Instance Ballot_eq_dec : EqDecision Ballot.
Proof. solve_decision. Defined.
#[global] Instance Nominate_eq_dec : EqDecision Nominate.
Proof. solve_decision. Defined.
#[global] Instance Prepare_eq_dec : EqDecision Prepare.
Proof. solve_decision. Defined.
#[global] Instance Confirm_eq_dec : EqDecision Confirm.
Proof. solve_decision. Defined.
#[global] Instance Externalize_eq_dec : EqDecision Externalize.
Proof. solve_decision. Defined.
#[global] Instance StmtBody_eq_dec : EqDecision StmtBody.
Proof. solve_decision. Defined.
#[global] Instance StatementType_eq_dec : EqDecision StatementType.
Proof. solve_decision. Defined.
#[global] Instance Statement_eq_dec : EqDecision Statement.
Proof. solve_decision. Defined.
#[global] Program Instance Ballot_countable : Countable Ballot :=
  inj_countable' (λ b, (b_Counter b, b_Value b)) (λ '(c, v), mkBallot c v) _.
Next Obligation. by intros []. Qed.

(** The getters, and the field access on their result. *)
Definition GetNominate (s : Statement) : res Nominate :=
  match s_Stmt s with Some (Stmt_Nominate n) => Ok n | _ => Panic "nil pointer dereference" end.
Definition GetPrepare (s : Statement) : res Prepare :=
  match s_Stmt s with Some (Stmt_Prepare p) => Ok p | _ => Panic "nil pointer dereference" end.
Definition GetConfirm (s : Statement) : res Confirm :=
  match s_Stmt s with Some (Stmt_Confirm c) => Ok c | _ => Panic "nil pointer dereference" end.
Definition GetExternalize (s : Statement) : res Externalize :=
  match s_Stmt s with Some (Stmt_Externalize e) => Ok e | _ => Panic "nil pointer dereference" end.

Definition unknown_type {A} : res A := Panic "unknown statement type".

(** * Comparing ballots *)

Definition compareBallots (lb rb : option Ballot) : Z :=
  match lb, rb with
  | None, None => 0
  | None, Some _ => -1
  | Some _, None => 1
  | Some l, Some r =>
      if decide (b_Counter l < b_Counter r) then -1
      else if decide (b_Counter r < b_Counter l) then 1
      else strcmp (b_Value l) (b_Value r)
  end.

Definition compatibleBallots (lb rb : option Ballot) : bool :=
  match lb, rb with
  | Some l, Some r => bool_decide (strcmp (b_Value l) (b_Value r) = 0)
  | _, _ => false
  end.

Definition lessAndCompatibleBallots (lb rb : option Ballot) : bool :=
  bool_decide (compareBallots lb rb <= 0) && compatibleBallots lb rb.

Definition lessAndIncompatibleBallots (lb rb : option Ballot) : bool :=
  bool_decide (compareBallots lb rb <= 0) && negb (compatibleBallots lb rb).

(** [BallotSlice.Less]: descending. *)
Definition ballot_less (a b : Ballot) : bool :=
  if decide (b_Counter b < b_Counter a) then true
  else if decide (b_Counter a = b_Counter b) then bool_decide (0 <= strcmp (b_Value a) (b_Value b))
  else false.

Definition isNewerBallot (lb rb : Statement) : res bool :=
  if decide (s_Type lb ≠ s_Type rb) then Ok (bool_decide (stmt_type_num (s_Type lb) < stmt_type_num (s_Type rb)))
  else match s_Type rb with
  | StatementType_PREPARE =>
      let? lp := GetPrepare lb in
      let? rp := GetPrepare rb in
      let cmp := compareBallots (prep_B lp) (prep_B rp) in
      if decide (cmp < 0) then Ok true
      else if decide (cmp = 0) then
        let cmpp := compareBallots (prep_P lp) (prep_P rp) in
        if decide (cmpp < 0) then Ok true
        else if decide (cmpp = 0) then
          let cmpq := compareBallots (prep_Q lp) (prep_Q rp) in
          if decide (cmpq < 0) then Ok true
          else if decide (cmpq = 0) then Ok (bool_decide (prep_HC lp < prep_HC rp))
          else Ok false
        else Ok false
      else Ok false
  | StatementType_CONFIRM =>
      let? lc := GetConfirm lb in
      let? rc := GetConfirm rb in
      let cmp := compareBallots (conf_B lc) (conf_B rc) in
      if decide (cmp < 0) then Ok true
      else if decide (cmp = 0) then
        if decide (conf_PC lc = conf_PC rc) then Ok (bool_decide (conf_HC lc < conf_HC rc))
        else Ok (bool_decide (conf_PC lc < conf_PC rc))
      else Ok false
  | StatementType_EXTERNALIZE => Ok false
  | _ => unknown_type
  end.

Definition isProperSubset (a b : list string) : bool :=
  if decide (length b < length a)%nat then false
  else bool_decide ((list_to_set a : gset string) ⊂ list_to_set b).

(** A nil first nomination is older than any other; [bnom] is dereferenced otherwise. *)
Definition isNewerNomination (anom bnom : option Nominate) : res bool :=
  match anom, bnom with
  | None, Some _ => Ok true
  | None, None => Panic "nil pointer dereference"
  | Some a, None => Panic "nil pointer dereference"
  | Some a, Some b =>
      Ok (isProperSubset (nom_VoteList a) (nom_VoteList b) || isProperSubset (nom_AcceptList a) (nom_AcceptList b))
  end.

Definition getWorkingBallot (s : Statement) : res (option Ballot) :=
  match s_Type s with
  | StatementType_PREPARE => let? p := GetPrepare s in Ok (prep_B p)
  | StatementType_CONFIRM =>
      let? c := GetConfirm s in
      let? b := deref (conf_B c) in
      Ok (Some (mkBallot (conf_LC c) (b_Value b)))
  | StatementType_EXTERNALIZE => let? e := GetExternalize s in Ok (ext_B e)
  | _ => unknown_type
  end.

(** * Filters *)

Definition voteFilter (vote : string) (s : Statement) : res bool :=
  let? nom := GetNominate s in Ok (bool_decide (vote ∈ nom_VoteList nom)).

Definition acceptFilter (vote : string) (s : Statement) : res bool :=
  let? nom := GetNominate s in Ok (bool_decide (vote ∈ nom_AcceptList nom)).

Definition prepareVoteFilter (b : option Ballot) (s : Statement) : res bool :=
  match s_Type s with
  | StatementType_PREPARE => let? p := GetPrepare s in Ok (lessAndCompatibleBallots b (prep_B p))
  | StatementType_CONFIRM => let? c := GetConfirm s in Ok (compatibleBallots b (conf_B c))
  | StatementType_EXTERNALIZE => let? e := GetExternalize s in Ok (compatibleBallots b (ext_B e))
  | _ => Panic "invalid ballot statement type"
  end.

Definition prepareAcceptFilter (b : option Ballot) (s : Statement) : res bool :=
  match s_Type s with
  | StatementType_PREPARE =>
      let? p := GetPrepare s in
      Ok (lessAndCompatibleBallots b (prep_P p) || lessAndCompatibleBallots b (prep_Q p))
  | StatementType_CONFIRM =>
      let? c := GetConfirm s in
      let? cb := deref (conf_B c) in
      Ok (lessAndCompatibleBallots b (Some (mkBallot (conf_PC c) (b_Value cb))))
  | StatementType_EXTERNALIZE => let? e := GetExternalize s in Ok (compatibleBallots b (ext_B e))
  | _ => unknown_type
  end.

Definition commitVoteFilter (b : option Ballot) (l r : Z) (s : Statement) : res bool :=
  match s_Type s with
  | StatementType_PREPARE =>
      let? p := GetPrepare s in
      Ok (compatibleBallots b (prep_B p) && bool_decide (prep_LC p ≠ 0 ∧ prep_LC p <= l ∧ r <= prep_HC p))
  | StatementType_CONFIRM =>
      let? c := GetConfirm s in Ok (compatibleBallots b (conf_B c) && bool_decide (conf_LC c <= l))
  | StatementType_EXTERNALIZE =>
      let? e := GetExternalize s in
      match ext_B e with
      | Some eb => Ok (compatibleBallots b (Some eb) && bool_decide (b_Counter eb <= l))
      | None => Ok false
      end
  | _ => unknown_type
  end.

Definition commitAcceptFilter (b : option Ballot) (l r : Z) (s : Statement) : res bool :=
  match s_Type s with
  | StatementType_PREPARE => Ok false
  | StatementType_CONFIRM =>
      let? c := GetConfirm s in
      Ok (compatibleBallots b (conf_B c) && bool_decide (conf_LC c <= l ∧ r <= conf_HC c))
  | StatementType_EXTERNALIZE =>
      let? e := GetExternalize s in
      match ext_B e with
      | Some eb => Ok (compatibleBallots b (Some eb) && bool_decide (b_Counter eb <= l))
      | None => Ok false
      end
  | _ => unknown_type
  end.

(** * Comparing transaction sets *)

(** The xor of the bytes of two strings, over the length of the first; a shorter second string is
    an index out of range. *)
Fixpoint xor_bytes (a b : string) : res string :=
  match a, b with
  | EmptyString, _ => Ok ""
  | String x a, String y b => let? r := xor_bytes a b in Ok (String (byte_of (Z.lxor (of_byte x) (of_byte y))) r)
  | String _ _, EmptyString => Panic "index out of range"
  end.

(** The fees of a set, each capped by the base fee of its operations. *)
Definition capped_fees (baseFee : Z) (txs : list Tx) : Z :=
  foldl (λ acc tx,
    let cap := wrap64 (baseFee * Z.max 1 (Z.of_nat (length (tx_OpList tx)))) in
    wrap64 (acc + (if decide (tx_Fee tx <= cap) then tx_Fee tx else cap))) 0 txs.

Section txset.
Context {Crypto : CryptoLib}.

(** [b, _ := b58.Decode(s)]: nil on an error. *)
Definition b58_bytes (s : string) : string := default "" (b58_Decode s).

(** The code xors where its comment says OR. *)
Definition lessBytesOr (l r h : string) : res bool :=
  let hb := b58_bytes h in
  let? lx := xor_bytes hb (b58_bytes l) in
  let? rx := xor_bytes hb (b58_bytes r) in
  Ok (bool_decide (strcmp lx rx < 0)).

Definition bytesOr (l r : string) : res string := xor_bytes (b58_bytes l) (b58_bytes r).

Definition compareTxSet (ltsHash : string) (lts : option TxSet) (rtsHash : string) (rts : option TxSet)
    (baseFee : Z) (hash : string) : res bool :=
  match lts, rts with
  | None, _ => Ok true
  | _, None => Ok false
  | Some l, Some r =>
      let nl := Z.of_nat (length (ts_TxList l)) in
      let nr := Z.of_nat (length (ts_TxList r)) in
      if decide (nl < nr) then Ok true
      else if decide (nr < nl) then Ok false
      else
        let fl := capped_fees baseFee (ts_TxList l) in
        let fr := capped_fees baseFee (ts_TxList r) in
        if decide (fl < fr) then Ok true
        else if decide (fr < fl) then Ok false
        else lessBytesOr ltsHash rtsHash hash
  end.

End txset.

(** * Lemmas *)

Lemma compareBallots_refl a : compareBallots a a = 0.
Proof. destruct a as [[c v]|]; simpl; [|done]. rewrite !decide_False by lia. apply strcmp_refl. Qed.

Lemma compareBallots_eq a b : compareBallots a b = 0 ↔ a = b.
Proof.
  split; [|intros ->; apply compareBallots_refl].
  destruct a as [[c1 v1]|], b as [[c2 v2]|]; simpl; try done.
  repeat case_decide; try done. intros ->%strcmp_eq. do 2 f_equal. lia.
Qed.

Lemma compareBallots_opp a b : compareBallots a b = - compareBallots b a.
Proof.
  destruct a as [[c1 v1]|], b as [[c2 v2]|]; simpl; try done.
  repeat case_decide; try done; try lia. apply strcmp_opp.
Qed.

Lemma compareBallots_lt_trans a b c : compareBallots a b < 0 → compareBallots b c < 0 → compareBallots a c < 0.
Proof.
  destruct a as [[c1 v1]|], b as [[c2 v2]|], c as [[c3 v3]|]; simpl; try done.
  repeat case_decide; try done; try lia. apply strcmp_lt_trans.
Qed.

Lemma compareBallots_le_trans a b c : compareBallots a b <= 0 → compareBallots b c <= 0 → compareBallots a c <= 0.
Proof.
  intros H1 H2.
  destruct (decide (compareBallots a b = 0)) as [->%compareBallots_eq|]; [done|].
  destruct (decide (compareBallots b c = 0)) as [<-%compareBallots_eq|]; [done|].
  apply Z.lt_le_incl, (compareBallots_lt_trans a b c); lia.
Qed.

Lemma compareBallots_cases a b : compareBallots a b = -1 ∨ compareBallots a b = 0 ∨ compareBallots a b = 1.
Proof.
  destruct a as [[c1 v1]|], b as [[c2 v2]|]; simpl; auto. repeat case_decide; auto. apply strcmp_cases.
Qed.

Lemma compatible_spec a b :
  compatibleBallots a b = true ↔ ∃ x y, a = Some x ∧ b = Some y ∧ b_Value x = b_Value y.
Proof.
  destruct a as [x|], b as [y|]; simpl; try (split; [done|naive_solver]).
  rewrite bool_decide_eq_true, strcmp_eq. naive_solver.
Qed.

Lemma compatible_sym a b : compatibleBallots a b = compatibleBallots b a.
Proof. apply Bool.eq_iff_eq_true. rewrite !compatible_spec. naive_solver. Qed.

Lemma compatible_trans a b c :
  compatibleBallots a b = true → compatibleBallots b c = true → compatibleBallots a c = true.
Proof. rewrite !compatible_spec. intros (x & y & -> & -> & H1) (y' & z & [= <-] & -> & H2). exists x, z. by rewrite H1. Qed.

(** The key of a ballot statement and the order of keys. *)
Definition newer_key (s : Statement) : option (list (option Ballot) * (Z * Z)) :=
  match s_Type s, s_Stmt s with
  | StatementType_PREPARE, Some (Stmt_Prepare p) => Some ([prep_B p; prep_P p; prep_Q p], (0, prep_HC p))
  | StatementType_CONFIRM, Some (Stmt_Confirm c) => Some ([conf_B c], (conf_PC c, conf_HC c))
  | _, _ => None
  end.

(** The lexicographic order: the ballots in turn, then the two counters. *)
Fixpoint key_lt (bs1 : list (option Ballot)) (n1 : Z * Z) (bs2 : list (option Ballot)) (n2 : Z * Z) : Prop :=
  match bs1, bs2 with
  | b1 :: bs1, b2 :: bs2 => compareBallots b1 b2 < 0 ∨ b1 = b2 ∧ key_lt bs1 n1 bs2 n2
  | [], [] => n1.1 < n2.1 ∨ n1.1 = n2.1 ∧ n1.2 < n2.2
  | _, _ => False
  end.

Lemma key_lt_irrefl bs n : ¬ key_lt bs n bs n.
Proof. induction bs as [|b bs IH]; simpl; [lia|]. rewrite compareBallots_refl. naive_solver lia. Qed.

Lemma key_lt_trans bs1 n1 bs2 n2 bs3 n3 : key_lt bs1 n1 bs2 n2 → key_lt bs2 n2 bs3 n3 → key_lt bs1 n1 bs3 n3.
Proof.
  revert bs2 bs3. induction bs1 as [|b1 bs1 IH]; intros [|b2 bs2] [|b3 bs3]; simpl; try done; [lia|].
  intros [H1|[-> H1]] [H2|[-> H2]]; eauto using compareBallots_lt_trans.
Qed.

(** [isNewerBallot] is the order of the types, then the order of the keys. *)
Lemma isNewerBallot_spec a b :
  isNewerBallot a b = Ok true ↔
  stmt_type_num (s_Type a) < stmt_type_num (s_Type b) ∨
  (s_Type a = s_Type b ∧ ∃ k1 k2, newer_key a = Some k1 ∧ newer_key b = Some k2 ∧ key_lt k1.1 k1.2 k2.1 k2.2).
Proof.
  unfold isNewerBallot, newer_key, GetPrepare, GetConfirm. case_decide as Ht.
  - split; [intros [= H%bool_decide_eq_true]; by left|]. intros [H|[? _]]; [|done]. by rewrite bool_decide_true.
  - rewrite Ht. split.
    + intros H. right. split; [done|]. destruct (s_Type b); try done.
      * destruct (s_Stmt a) as [[|pa| |]|], (s_Stmt b) as [[|pb| |]|]; try done. simpl in H.
        eexists _, _. split_and!; [done..|]. simpl.
        do 3 (match type of H with context [decide (compareBallots ?x ?y < 0)] =>
          destruct (compareBallots_cases x y) as [E|[E|E]]; rewrite E in H; simpl in H;
          [left; lia|apply compareBallots_eq in E; right; split; [exact E|clear E]|done] end).
        injection H as H%bool_decide_eq_true. by right.
      * destruct (s_Stmt a) as [[| |ca|]|], (s_Stmt b) as [[| |cb|]|]; try done. simpl in H.
        eexists _, _. split_and!; [done..|]. simpl.
        case_decide as Hc; [by left|]. case_decide as Hc2; [|done]. apply compareBallots_eq in Hc2. right.
        split; [done|]. case_decide; injection H as H%bool_decide_eq_true; [by right|by left].
    + intros [H|(_ & k1 & k2 & H1 & H2 & Hk)]; [lia|]. destruct (s_Type b); try done.
      * destruct (s_Stmt a) as [[|pa| |]|], (s_Stmt b) as [[|pb| |]|]; try done. simplify_eq. simpl in *.
        destruct Hk as [Hk|[-> Hk]]; [by rewrite decide_True|]. rewrite compareBallots_refl. simpl.
        destruct Hk as [Hk|[-> Hk]]; [by rewrite decide_True|]. rewrite compareBallots_refl. simpl.
        destruct Hk as [Hk|[-> Hk]]; [by rewrite decide_True|]. rewrite compareBallots_refl. simpl.
        rewrite bool_decide_true; [done|lia].
      * destruct (s_Stmt a) as [[| |ca|]|], (s_Stmt b) as [[| |cb|]|]; try done. simplify_eq. simpl in *.
        destruct Hk as [Hk|[-> Hk]]; [by rewrite decide_True|]. rewrite compareBallots_refl. simpl.
        case_decide; rewrite bool_decide_true; done || lia.
Qed.

(** * Properties *)

(** C31: [compareBallots] is a total order on ballots with nil below all of them: it is zero exactly
    on equal ballots, changes sign when its arguments are swapped and is transitive. *)
Theorem compareBallots_total_order (a b c : option Ballot) :
  (compareBallots a b = 0 ↔ a = b) ∧ compareBallots a b = - compareBallots b a ∧
  (compareBallots a b <= 0 → compareBallots b c <= 0 → compareBallots a c <= 0) ∧
  (compareBallots a b <= 0 ∨ compareBallots b a <= 0) ∧ compareBallots None a <= 0.
Proof.
  split_and!; [apply compareBallots_eq|apply compareBallots_opp|apply compareBallots_le_trans| |].
  - rewrite (compareBallots_opp b a). lia.
  - by destruct a.
Qed.

(** Being newer is a strict order on ballot statements.  No statement is newer than itself, two
    statements are not newer than each other, and newer than newer is newer, across the three
    phases; so a node that only replaces a statement by a newer one never goes round in a circle. *)
Theorem isNewerBallot_strict_order (a b c : Statement) :
  isNewerBallot a a ≠ Ok true ∧
  (isNewerBallot a b = Ok true → isNewerBallot b a ≠ Ok true) ∧
  (isNewerBallot a b = Ok true → isNewerBallot b c = Ok true → isNewerBallot a c = Ok true).
Proof.
  split_and!.
  - rewrite isNewerBallot_spec. intros [H|(_ & k1 & k2 & H1 & H2 & H)]; [lia|]. simplify_eq. by apply key_lt_irrefl in H.
  - rewrite !isNewerBallot_spec. intros [H|(Ht & k1 & k2 & H1 & H2 & H)] [H'|(Ht' & k1' & k2' & H1' & H2' & H')];
      try (rewrite ?Ht, ?Ht' in *; lia). simplify_eq. by apply (key_lt_irrefl k1.1 k1.2), (key_lt_trans _ _ _ _ _ _ H).
  - rewrite !isNewerBallot_spec. intros [H|(Ht & k1 & k2 & H1 & H2 & H)] [H'|(Ht' & k1' & k2' & H1' & H2' & H')];
      [left; lia|left; by rewrite <- Ht'|left; by rewrite Ht|right].
    simplify_eq. split; [congruence|]. exists k1, k2'. split_and!; [done..|]. by eapply key_lt_trans.
Qed.

(** The commit filters respect intervals.  A statement that accepts committing an interval of
    counters also votes for it, and one that votes for (or accepts) an interval does so for every
    interval inside it. *)
Theorem commit_filters_intervals (b : option Ballot) (l r l' r' : Z) (s : Statement) :
  l <= l' → r' <= r →
  (commitAcceptFilter b l r s = Ok true → commitVoteFilter b l r s = Ok true) ∧
  (commitVoteFilter b l r s = Ok true → commitVoteFilter b l' r' s = Ok true) ∧
  (commitAcceptFilter b l r s = Ok true → commitAcceptFilter b l' r' s = Ok true).
Proof.
  intros Hl Hr. unfold commitAcceptFilter, commitVoteFilter, GetPrepare, GetConfirm, GetExternalize, unknown_type.
  destruct (s_Type s); try done;
    destruct (s_Stmt s) as [[|p|c|e]|]; simpl; try done; try destruct (ext_B e); try done;
    split_and!; intros [= [H1 H2%bool_decide_eq_true]%andb_true_iff]; rewrite H1; simpl;
    rewrite bool_decide_true; done || lia.
Qed.

(** The combination of candidate hashes starts from the empty string and stays there. *)
Example bytesOr_empty `{CryptoLib} (h : string) : b58_Decode "" = Some "" → bytesOr "" h = Ok "".
Proof. intros Hd. unfold bytesOr, b58_bytes. by rewrite Hd. Qed.

(** ** Witnesses *)

Definition confirm_stmt : Statement :=
  mkStatement StatementType_CONFIRM "n1" 1 (Some (Stmt_Confirm (mkConfirm (Some (mkBallot 5 "x")) 4 2 4 "q"))).

Lemma commit_filters_intervals_witness : commitAcceptFilter (Some (mkBallot 4 "x")) 3 3 confirm_stmt = Ok true.
Proof.
  apply (commit_filters_intervals (Some (mkBallot 4 "x")) 2 4 3 3 confirm_stmt); [lia|lia|reflexivity].
Defined.

Definition prepare_stmt (n : Z) : Statement :=
  mkStatement StatementType_PREPARE "n1" 1 (Some (Stmt_Prepare (mkPrepare (Some (mkBallot n "x")) None None 0 0 "q"))).

Lemma isNewerBallot_strict_order_witness : isNewerBallot (prepare_stmt 1) confirm_stmt = Ok true.
Proof. apply (isNewerBallot_strict_order (prepare_stmt 1) (prepare_stmt 2) confirm_stmt); reflexivity. Defined.

Lemma compareBallots_total_order_witness : compareBallots None (Some (mkBallot 2 "y")) <= 0.
Proof.
  apply (compareBallots_total_order None (Some (mkBallot 1 "x")) (Some (mkBallot 2 "y"))); vm_compute; discriminate.
Defined.
