(* ===== verification/Rpc.v ===== *)
(** The calling side of the RPC layer: [rpc/hello.go], [rpc/query.go] and [rpc/broadcast.go], with the messages of
    [rpcpb] and the metadata and status codes of gRPC that they use.

    A call of a peer is a parameter: its answer may be anything, an error status included.  The random order in
    which peers are asked is an argument.  A broadcast is the pipeline of [Pipeline], with one worker for each client. *)

From S2P Require Import Prelude Pipeline Pb Crypto Quorum Ballot.
From stdpp Require Import relations.

(** * gRPC *)

Inductive Code := InvalidArgument | NotFound | Internal | Code_other (n : Z).
Record Status := mkStatus { status_Code : Code; status_Message : string }.

(** [metadata.MD]: the keys are in lower case, and so is the key that [Get] looks up. *)
Abbreviation MD := (gmap string (list string)).
Definition md_Get (key : string) (md : MD) : list string := default [] (md !! key).
(** [metadata.Pairs("addr", addr, "nodeid", nodeID)] *)
Definition node_metadata (addr nodeID : string) : MD := {[ "addr" := [addr]; "nodeid" := [nodeID] ]}.

(** * Messages *)

Inductive NotifyMsgType := TX | STATEMENT | NotifyMsgType_other (n : Z).
Record NotifyRequest := mkNotifyRequest {
  nr_NetworkID : string; nr_MsgType : NotifyMsgType; nr_Data : string; nr_Signature : string;
}.

Inductive QueryMsgType := QUORUM | TXSET | LEDGER | QueryMsgType_other (n : Z).
Record QueryRequest := mkQueryRequest {
  qr_NetworkID : string; qr_MsgType : QueryMsgType; qr_Data : string; qr_Signature : string;
}.

Definition ErrEmptyNetworkID : string := "empty network id".
Definition ErrEmptyPayload : string := "empty payload".
Definition ErrEmptySignature : string := "empty digital signature".

(** The three checks at the start of every request. *)
Definition check_request (payload signature networkID : string) : res unit :=
  if decide (networkID = "") then Err ErrEmptyNetworkID
  else if decide (payload = "") then Err ErrEmptyPayload
  else if decide (signature = "") then Err ErrEmptySignature
  else Ok tt.

(** * Hello

    The answer is the header the peer sends, or an error. *)
Definition Hello (networkID : string) (answer : Status + MD) : res (string * string) :=
  if decide (networkID = "") then Err ErrEmptyNetworkID
  else match answer with
  | inl st => Err (status_Message st)
  | inr header =>
      match md_Get "addr" header, md_Get "nodeid" header with
      | addr :: _, nodeid :: _ => Ok (addr, nodeid)
      | _, _ => Err "empty peerip or nodeid"
      end
  end.

(** * Queries *)

Inductive message := MsgQuorum (q : Quorum) | MsgTxSet (t : TxSet) | MsgLedger (l : Ledger).

Section query.
Context {C : Type} {Pbc : PbCodec} {QuorumCodec : Codec Quorum}.
(** [queryPeer]: the data of the answer, or the status. *)
Variable call : C → QueryRequest → Status + string.

(** The [switch] on the type of the request; [None] for an unknown type. *)
Definition decode_answer (ty : QueryMsgType) (b : string) : option (res message) :=
  match ty with
  | QUORUM => Some (let? q := decode_res b in Ok (MsgQuorum q))
  | TXSET => Some (let? t := decode_res b in Ok (MsgTxSet t))
  | LEDGER => Some (let? l := decode_res b in Ok (MsgLedger l))
  | QueryMsgType_other _ => None
  end.

Fixpoint query_loop (req : QueryRequest) (clients : list C) : res message :=
  match clients with
  | [] => Err "resource not found"
  | c :: clients =>
      match call c req with
      | inl _ => query_loop req clients
      | inr b =>
          if decide (b = "") then query_loop req clients
          else match decode_answer (qr_MsgType req) b with
          | None => Err "unknown query msg type"
          | Some (Ok m) => Ok m
          | Some _ => query_loop req clients
          end
      end
  end.

(** [indices] is [rand.Perm(len(clients))]. *)
Definition query (indices : list nat) (clients : list C) (req : QueryRequest) : res message :=
  if decide (length clients = 0%nat) then Err "no live clients"
  else query_loop req (omap (λ i, clients !! i) indices).

Definition QueryQuorum indices clients (payload signature networkID : string) : res Quorum :=
  let? _ := check_request payload signature networkID in
  let? msg := res_wrap "query info failed: " (query indices clients (mkQueryRequest networkID QUORUM payload signature)) in
  match msg with MsgQuorum q => Ok q | _ => Panic "interface conversion" end.

Definition QueryTxSet indices clients (payload signature networkID : string) : res TxSet :=
  let? _ := check_request payload signature networkID in
  let? msg := res_wrap "query txset failed: " (query indices clients (mkQueryRequest networkID TXSET payload signature)) in
  match msg with MsgTxSet t => Ok t | _ => Panic "interface conversion" end.

Definition QueryLedger indices clients (payload signature networkID : string) : res Ledger :=
  let? _ := check_request payload signature networkID in
  let? msg := res_wrap "query txset failed: " (query indices clients (mkQueryRequest networkID LEDGER payload signature)) in
  match msg with MsgLedger l => Ok l | _ => Panic "interface conversion" end.

(** ** Lemmas *)

(** What a client has to offer for a request. *)
Definition usable (req : QueryRequest) (c : C) : option message :=
  match call c req with
  | inl _ => None
  | inr b =>
      if decide (b = "") then None
      else match decode_answer (qr_MsgType req) b with Some (Ok m) => Some m | _ => None end
  end.

Definition known_query (ty : QueryMsgType) : Prop := match ty with QueryMsgType_other _ => False | _ => True end.

(** The loop returns the first usable answer. *)
Lemma query_loop_first req clients :
  known_query (qr_MsgType req) →
  query_loop req clients = match head (omap (usable req) clients) with Some m => Ok m | None => Err "resource not found" end.
Proof.
  intros Hk. induction clients as [|c clients IH]; [done|]. cbn. unfold usable at 1.
  destruct (call c req) as [st|b]; [done|]. case_decide; [done|].
  destruct (decode_answer (qr_MsgType req) b) as [[m|e|w|]|] eqn:Hd; try done.
  by destruct (qr_MsgType req).
Qed.

(** A message of the wrong type is never returned. *)
Lemma usable_type req c m : usable req c = Some m →
  match qr_MsgType req, m with QUORUM, MsgQuorum _ | TXSET, MsgTxSet _ | LEDGER, MsgLedger _ => True | _, _ => False end.
Proof.
  unfold usable, decode_answer. destruct (call c req) as [|b]; [done|]. case_decide; [done|].
  destruct (qr_MsgType req); simpl; try done; destruct (decode_res b); simpl; by intros [= <-].
Qed.

Lemma query_spec indices clients req :
  known_query (qr_MsgType req) → clients ≠ [] →
  query indices clients req =
    match head (omap (usable req) (omap (λ i, clients !! i) indices)) with Some m => Ok m | None => Err "resource not found" end.
Proof.
  intros Hk Hc. unfold query. rewrite decide_False by by destruct clients. by apply query_loop_first.
Qed.

(** The clients in the order of a permutation of their indices. *)
Lemma permuted_clients (indices : list nat) (clients : list C) :
  indices ≡ₚ seq 0 (length clients) → omap (λ i, clients !! i) indices ≡ₚ clients.
Proof.
  intros Hp. rewrite Hp. clear Hp. induction clients as [|c clients IH]; [done|]. cbn.
  constructor. rewrite <-fmap_S_seq. etrans; [|exact IH].
  generalize (seq 0 (length clients)) as l. induction l as [|i l IHl]; [done|]. cbn. by destruct (clients !! i); [constructor|].
Qed.

End query.

(** * Broadcast *)

Section broadcast.
Context {C : Type}.

(** [BroadcastStatement] and [BroadcastTx] differ in the type of the message. *)
Definition notify_request (ty : NotifyMsgType) (payload signature networkID : string) : res NotifyRequest :=
  let? _ := check_request payload signature networkID in
  Ok (mkNotifyRequest networkID ty payload signature).
Definition BroadcastStatement : string → string → string → res NotifyRequest := notify_request STATEMENT.
Definition BroadcastTx : string → string → string → res NotifyRequest := notify_request TX.

(** The start of [broadcast]: one worker for each client.  The answer of a notification is the response, nil on an
    error; the multiplexers forward all of them. *)
Definition broadcast (clients : list C) : pipe C (option unit) := pipe_init (length clients) clients.

(** [notify c r]: the client may answer the request with [r]. *)
Definition broadcast_step (notify : C → option unit → Prop) : relation (pipe C (option unit)) :=
  pipe_step notify (λ _, true) true.

End broadcast.

(** * Properties *)

(** C22: a broadcast reaches everybody.  Whatever the peers answer and however the goroutines interleave, a broadcast
    ends after a bounded number of steps, nothing blocks, and when it has ended every client has been notified
    exactly once, every response has been received, and all goroutines have returned. *)
Theorem broadcast_notifies_all {C} (notify : C → option unit → Prop) (clients : list C) k s :
  (∀ c, ∃ r, notify c r) →
  nsteps (broadcast_step notify) k (broadcast clients) s →
  (k <= 7 * length clients + 3)%nat ∧
  (nf (broadcast_step notify) s →
    p_done s = true ∧ (p_calls s).*1 ≡ₚ clients ∧ p_received s ≡ₚ (p_calls s).*2 ∧
    p_prod s = ProdClosed ∧ Forall (λ w, w = WClosed) (p_workers s)).
Proof.
  intros Hto Hk. split.
  - apply pipe_run_bounded in Hk. unfold broadcast in Hk. rewrite pipe_init_weight in Hk. lia.
  - intros Hnf. assert (pipe_inv notify (λ _, true) (length clients) clients s) as Hs.
    { eapply (pipe_inv_reachable _ _ true); [by destruct clients|]. eapply rtc_nsteps_2, Hk. }
    apply (pipe_stuck_final notify (λ _, true) true (length clients) clients) in Hs as (? & ? & ? & ? & Hr & _);
      [|by destruct clients|done..].
    split_and!; try done. rewrite Hr. clear.
    induction ((p_calls s).*2) as [|r l IH]; [done|]. rewrite filter_cons. simpl. by constructor.
Qed.

(** A query finds what a peer has.  With any random order of the peers, a query succeeds exactly when some peer
    has a usable answer, and what it returns is the answer of a peer. *)
Theorem query_finds {C} {Pbc : PbCodec} {QuorumCodec : Codec Quorum} (call : C → QueryRequest → Status + string)
    (indices : list nat) (clients : list C) (req : QueryRequest) :
  known_query (qr_MsgType req) → indices ≡ₚ seq 0 (length clients) →
  ((∃ c m, c ∈ clients ∧ usable call req c = Some m) ↔ ∃ m, query call indices clients req = Ok m) ∧
  (∀ m, query call indices clients req = Ok m → ∃ c, c ∈ clients ∧ usable call req c = Some m).
Proof.
  intros Hk Hp. pose proof (permuted_clients indices clients Hp) as Hpc.
  destruct (decide (clients = [])) as [->|Hne].
  { unfold query. simpl. split; [split; [set_solver|by intros (? & ?)]|done]. }
  rewrite (query_spec call indices clients req Hk Hne).
  set (l := omap (usable call req) (omap (λ i, clients !! i) indices)).
  assert (∀ m, m ∈ l ↔ ∃ c, c ∈ clients ∧ usable call req c = Some m) as Hl.
  { intros m. unfold l. rewrite list_elem_of_omap. by setoid_rewrite Hpc. }
  destruct l as [|m0 l'] eqn:El; simpl.
  - split; [|done]. split; [|by intros (? & ?)]. intros (c & m & Hc & Hm). exfalso.
    apply (not_elem_of_nil m), Hl. eauto.
  - split; [split; [eauto|]|].
    + intros _. destruct (proj1 (Hl m0)) as (c & ? & ?); [by left|]. eauto.
    + intros m [= <-]. apply Hl. by left.
Qed.

(** * Concrete runs *)

Module calls.

#[local] Existing Instance ref_codec.

Definition any (c : string) (r : option unit) : Prop := True.
Definition finished : pipe string (option unit) := mkPipe ProdClosed [WClosed] [MDone] true true [("peer", Some tt)] [Some tt].

(** One client: its notification, then the closing of the channels. *)
Lemma one_client_run : nsteps (broadcast_step any) 9 (broadcast ["peer"]) finished.
Proof.
  unfold broadcast_step. econstructor; [by apply (step_take _ _ _ 0)|]. econstructor; [apply step_close_tasks|].
  econstructor; [by apply (step_call _ _ _ 0 "peer" (Some tt))|].
  econstructor; [by apply (step_pass _ _ _ 0 (Some tt))|]. econstructor; [by apply (step_deliver _ _ _ 0 (Some tt))|].
  econstructor; [by apply (step_worker_exit _ _ _ 0)|]. econstructor; [by apply (step_mux_exit _ _ _ 0)|].
  econstructor; [apply step_close_result; by repeat constructor|]. econstructor; [apply step_finish|]. constructor.
Qed.

Lemma finished_nf : nf (broadcast_step any) finished.
Proof.
  intros [s Hs]. unfold broadcast_step, finished in Hs. inversion Hs; subst;
    repeat match goal with H : [_] !! ?i = Some _ |- _ => destruct i; simplify_eq/= end.
Qed.

Lemma broadcast_notifies_all_witness :
  (9 <= 7 * length ["peer"] + 3)%nat ∧ p_done finished = true ∧ (p_calls finished).*1 ≡ₚ ["peer"].
Proof.
  destruct (broadcast_notifies_all any ["peer"] 9 finished ltac:(intros c; by exists None) one_client_run) as [H1 H2].
  destruct (H2 finished_nf) as (H3 & H4 & _). split; [exact H1|]. split; [exact H3|exact H4].
Defined.

#[local] Instance quorum_text : Codec Quorum := codec_none.

(** The second peer has the transaction set. *)
Definition txs : TxSet := mkTxSet "prev" [].
Definition peers (c : string) (r : QueryRequest) : Status + string :=
  if decide (c = "b") then inr (default "" (Encode txs)) else inl (mkStatus NotFound "txset not found").
Definition request : QueryRequest := mkQueryRequest "net" TXSET "hash" "sig".

Lemma query_finds_witness : ∃ m, query peers [1; 0]%nat ["a"; "b"] request = Ok m.
Proof.
  apply (proj1 (query_finds peers [1; 0]%nat ["a"; "b"] request I ltac:(constructor))).
  exists "b", (MsgTxSet txs). split; [by right; left|]. by vm_compute.
Defined.

End calls.
