(* ===== verification/Peer.v ===== *)
(** The peer manager, [peer/manager.go] and [peer/peer.go]: the addresses to connect to and the live connections.

    [C] is the type of a connection with its client.  What the network answers ([grpc.Dial], a peer's [Hello]) is
    an argument, and so is the clock.  The goroutine [connect] is one definition for each case of its select; the
    goroutine of [Start] that dials the initial peers takes one of them in each step; the connections that were closed are recorded. *)

From stdpp Require Import relations.
From S2P Require Import Prelude Pipeline Pb Crypto Quorum Ballot Rpc.

Record Peer {C : Type} := mkPeer {
  peer_Addr : string;
  peer_NodeID : string;
  peer_ConnTime : Z;
  peer_metadata : MD;
  peer_client : C;
}.
Arguments Peer C : clear implicits.

Record PeerManager {C : Type} := mkPeerManager {
  pm_networkID : string;
  pm_metadata : MD;
  pm_maxPeers : Z;
  pm_initPeers : list string;
  pm_livePeers : gmap string (Peer C);
  pm_nodeIDs : gset string;
  pm_pendingPeers : gset string;
  pm_stopped : bool;
  pm_closed : list C;
}.
Arguments PeerManager C : clear implicits.

Section peers.
Context {C : Type} {GoRt : GoRuntime}.
Implicit Types pm : PeerManager C.

Definition NewManager (ps : list string) (networkID addr nodeID : string) (maxPeers : Z) : PeerManager C :=
  mkPeerManager C networkID (node_metadata addr nodeID) maxPeers ps ∅ ∅ ∅ false [].

Definition set_peers (live : gmap string (Peer C)) (ids pending : gset string) pm : PeerManager C :=
  mkPeerManager C (pm_networkID pm) (pm_metadata pm) (pm_maxPeers pm) (pm_initPeers pm) live ids pending
    (pm_stopped pm) (pm_closed pm).
Definition set_closed (b : bool) (l : list C) pm : PeerManager C :=
  mkPeerManager C (pm_networkID pm) (pm_metadata pm) (pm_maxPeers pm) (pm_initPeers pm) (pm_livePeers pm) (pm_nodeIDs pm)
    (pm_pendingPeers pm) b l.

(** [p.Close()] *)
Definition Peer_Close (p : Peer C) : M (PeerManager C) unit :=
  modify (λ pm, set_closed (pm_stopped pm) (pm_closed pm ++ [peer_client p]) pm).

Definition GetLiveClients pm : list C := peer_client <$> (go_range (pm_livePeers pm)).*2.
Definition GetMetadata pm : MD := pm_metadata pm.

(** A write to a map that [Stop] has set to nil panics. *)
Definition AddPeerAddr (addr : string) : M (PeerManager C) unit :=
  let! pm := get in
  if decide (addr ∈ pm_pendingPeers pm) then ret tt
  else if decide (is_Some (pm_livePeers pm !! addr)) then ret tt
  else if pm_stopped pm then panic "assignment to entry in nil map"
  else put (set_peers (pm_livePeers pm) (pm_nodeIDs pm) ({[addr]} ∪ pm_pendingPeers pm) pm).

Definition Stop : M (PeerManager C) unit :=
  let! pm := get in
  if pm_stopped pm then panic "close of closed channel"
  else
    do! mfor (go_range (pm_livePeers pm)).*2 Peer_Close in
    modify (λ pm, set_closed true (pm_closed pm) (set_peers ∅ (pm_nodeIDs pm) ∅ pm)).

Section network.
Variables (now : Z) (dial : string → res C) (hello : C → Status + MD).

Definition connectPeer (addr : string) : M (PeerManager C) (Peer C) :=
  let! pm := get in
  let! client := lift (dial addr) in
  let p := mkPeer C addr "" now (pm_metadata pm) client in
  match Hello (pm_networkID pm) (hello client) with
  | Ok (remoteAddr, nodeID) => ret (mkPeer C remoteAddr nodeID now (pm_metadata pm) client)
  | Err e => do! Peer_Close p in fail e
  | Panic w => panic w
  | NoFuel => lift NoFuel
  end.

(** One round of the goroutine of [Start]: an initial peer is kept under the address that was dialled; the limit is not tested.  After [Stop] the
    maps are nil. *)
Definition connect_one (addr : string) : M (PeerManager C) unit :=
  let! p := try (connectPeer addr) in
  let! pm := get in
  if pm_stopped pm then panic "assignment to entry in nil map"
  else match p with
  | inl _ => put (set_peers (pm_livePeers pm) (pm_nodeIDs pm) ({[addr]} ∪ pm_pendingPeers pm) pm)
  | inr p => put (set_peers (<[addr := p]> (pm_livePeers pm)) (pm_nodeIDs pm) (pm_pendingPeers pm) pm)
  end.
(** The goroutine on its own. *)
Definition connect_initial : M (PeerManager C) unit :=
  let! pm := get in mfor (pm_initPeers pm) connect_one.

(** The heartbeat of [connect]: the peer object is updated, its key in the map is not. *)
Definition heartbeat : M (PeerManager C) unit :=
  modify (λ pm, set_peers
    ((λ p, match Hello (pm_networkID pm) (hello (peer_client p)) with
           | Ok (remoteAddr, nodeID) => mkPeer C remoteAddr nodeID (peer_ConnTime p) (peer_metadata p) (peer_client p)
           | _ => p
           end) <$> pm_livePeers pm)
    (pm_nodeIDs pm) (pm_pendingPeers pm) pm).

(** The loop over the pending addresses, left when there are enough peers; the addresses that were connected. *)
Fixpoint reconnect_loop (addrs : list string) : M (PeerManager C) (list string) :=
  match addrs with
  | [] => ret []
  | addr :: addrs =>
      let! p := try (connectPeer addr) in
      match p with
      | inl _ => reconnect_loop addrs
      | inr p =>
          do! modify (λ pm, set_peers (<[peer_Addr p := p]> (pm_livePeers pm)) ({[peer_NodeID p]} ∪ pm_nodeIDs pm)
                              (pm_pendingPeers pm) pm) in
          let! pm := get in
          if decide (pm_maxPeers pm < Z.of_nat (size (pm_livePeers pm))) then ret [addr]
          else let! connected := reconnect_loop addrs in ret (addr :: connected)
      end
  end.

Definition reconnect : M (PeerManager C) unit :=
  let! pm := get in
  if decide (pm_pendingPeers pm = ∅) then ret tt
  else if decide (pm_maxPeers pm < Z.of_nat (size (pm_livePeers pm))) then ret tt
  else
    let! connected := reconnect_loop (go_iter (pm_pendingPeers pm)) in
    modify (λ pm, set_peers (pm_livePeers pm) (pm_nodeIDs pm) (pm_pendingPeers pm ∖ list_to_set connected) pm).

End network.

Definition delete_peer (p : Peer C) : M (PeerManager C) unit :=
  let! pm := get in
  match pm_livePeers pm !! peer_Addr p with
  | None => ret tt
  | Some _ => put (set_peers (delete (peer_Addr p) (pm_livePeers pm)) (pm_nodeIDs pm ∖ {[peer_NodeID p]}) (pm_pendingPeers pm) pm)
  end.

(** * The life of the manager

    After [Start] two goroutines run: [connect], and the one that dials the initial peers, which still has the listed ones to do; the node adds
    addresses and stops the manager. *)

Inductive peer_step : PeerManager C * list string → PeerManager C * list string → Prop :=
| peer_initial now dial hello addr rest pm : peer_step (pm, addr :: rest) ((connect_one now dial hello addr pm).1, rest)
| peer_add addr pm rest : peer_step (pm, rest) ((AddPeerAddr addr pm).1, rest)
| peer_heartbeat hello pm rest : peer_step (pm, rest) ((heartbeat hello pm).1, rest)
| peer_reconnect now dial hello pm rest : peer_step (pm, rest) ((reconnect now dial hello pm).1, rest)
| peer_delete p pm rest : peer_step (pm, rest) ((delete_peer p pm).1, rest)
| peer_stop pm rest : peer_step (pm, rest) ((Stop pm).1, rest).

(** [Start] of a manager: both goroutines run. *)
Definition peer_started pm : PeerManager C * list string := (pm, pm_initPeers pm).

(** Everything but the connections that were closed. *)
Definition pm_state pm :=
  (pm_networkID pm, pm_metadata pm, pm_maxPeers pm, pm_initPeers pm, pm_livePeers pm, pm_nodeIDs pm, pm_pendingPeers pm, pm_stopped pm).

Lemma connectPeer_state now dial hello addr pm : pm_state (connectPeer now dial hello addr pm).1 = pm_state pm.
Proof.
  unfold connectPeer. rewrite (bind_eq_Ok _ _ _ pm pm) by done. unfold bind, lift.
  destruct (dial addr) as [client| | |]; simpl; try done.
  by destruct (Hello (pm_networkID pm) (hello client)) as [[]| | |].
Qed.

(** Stopping closes the connection of every peer, once; a second time, the channel is closed already. *)
Lemma Stop_again pm : pm_stopped pm = true → Stop pm = (pm, Panic "close of closed channel").
Proof. intros E. unfold Stop. rewrite (bind_eq_Ok _ _ _ pm pm) by done. by rewrite E. Qed.
Lemma close_all l : ∀ pm, mfor l Peer_Close pm = (set_closed (pm_stopped pm) (pm_closed pm ++ (peer_client <$> l)) pm, Ok tt).
Proof.
  induction l as [|p l IH]; intros pm; cbn [mfor fmap list_fmap].
  - rewrite app_nil_r. by destruct pm.
  - unfold bind, Peer_Close at 1, modify. rewrite IH. simpl. by rewrite <- (assoc (++)).
Qed.
Lemma Stop_run pm : pm_stopped pm = false → ∃ pm', Stop pm = (pm', Ok tt) ∧
  (pm_stopped pm' = true ∧ pm_closed pm' = pm_closed pm ++ GetLiveClients pm) ∧ pm_livePeers pm' = ∅ ∧ pm_maxPeers pm' = pm_maxPeers pm.
Proof.
  intros E. unfold Stop. rewrite (bind_eq_Ok _ _ _ pm pm) by done. rewrite E. unfold bind. rewrite close_all. by eexists.
Qed.

(** Adding one peer to a table that is not above the limit leaves it at most one above. *)
Lemma size_insert_le {K V} `{Countable K} (k : K) (v : V) (m : gmap K V) : (size (<[k := v]> m) <= S (size m))%nat.
Proof.
  destruct (m !! k) eqn:E; [rewrite map_size_insert_Some by eauto; lia|]. by rewrite map_size_insert_None.
Qed.

(** The peer at the address was dialled and has answered the greeting. *)
Definition greeted (networkID : string) (dial : string → res C) (hello : C → Status + MD) (a : string) : Prop :=
  ∃ c r, dial a = Ok c ∧ Hello networkID (hello c) = Ok r.
Lemma connectPeer_greeted now dial hello a pm pm' p :
  connectPeer now dial hello a pm = (pm', Ok p) → greeted (pm_networkID pm) dial hello a.
Proof.
  unfold connectPeer. rewrite (bind_eq_Ok _ _ _ pm pm) by done. unfold bind, lift. destruct (dial a) as [c| | |] eqn:Hd; try done.
  destruct (Hello (pm_networkID pm) (hello c)) as [r| | |] eqn:Hh; try done. intros _. by exists c, r.
Qed.

Lemma reconnect_loop_run now dial hello addrs pm :
  Z.of_nat (size (pm_livePeers pm)) <= pm_maxPeers pm →
  let '(pm', r) := reconnect_loop now dial hello addrs pm in
  pm_maxPeers pm' = pm_maxPeers pm ∧ pm_pendingPeers pm' = pm_pendingPeers pm ∧
  Z.of_nat (size (pm_livePeers pm')) <= pm_maxPeers pm + 1 ∧
  (∀ l, r = Ok l → ∀ a, a ∈ l → a ∈ addrs ∧ greeted (pm_networkID pm) dial hello a).
Proof.
  revert pm. induction addrs as [|a addrs IH]; intros pm Hs.
  { simpl. split_and!; try done; [lia|]. intros l [= <-] x ?%not_elem_of_nil. done. }
  cbn [reconnect_loop]. unfold bind at 1, try. pose proof (connectPeer_state now dial hello a pm) as Hst.
  destruct (connectPeer now dial hello a pm) as [pm1 [p|e|w|]] eqn:Hc; simpl in Hst;
    injection Hst as H1 H2 H3 H4 H5 H6 H7 H8.
  - unfold bind, modify, get, ret. simpl. pose proof (size_insert_le (peer_Addr p) p (pm_livePeers pm1)) as Hsz.
    pose proof (connectPeer_greeted _ _ _ _ _ _ _ Hc) as Hd. rewrite <-H1 in Hd.
    case_decide as Hm.
    { simpl. rewrite <-H1. split_and!; [done..|rewrite H5 in Hsz; simpl in *; rewrite H5; lia|].
      intros l [= <-] x ->%list_elem_of_singleton. split; [by left|done]. }
    rewrite <-H1. match goal with |- context [reconnect_loop _ _ _ addrs ?q] => specialize (IH q) end. simpl in *.
    destruct (reconnect_loop now dial hello addrs _) as [pm2 [l|e|w|]]; destruct IH as (Hx & Hy & Hz & Hl); try lia;
      split_and!; try done; try congruence; try lia.
    intros l' [= <-] x [->|Hx']%elem_of_cons; [split; [by left|done]|]. destruct (Hl l eq_refl x Hx'). split; [by right|done].
  - specialize (IH pm1). rewrite <-H1. destruct (reconnect_loop now dial hello addrs pm1) as [pm2 r].
    destruct IH as (Hx & Hy & Hz & Hl); [rewrite H5; lia|]. split_and!; [congruence|congruence|lia|].
    intros l Hr x Hx'. destruct (Hl l Hr x Hx'). split; [by right|done].
  - split_and!; [done|done|rewrite H5; lia|done].
  - split_and!; [done|done|rewrite H5; lia|done].
Qed.

(** A pending address is dropped only after its peer was greeted. *)
Lemma reconnect_pending now dial hello pm a :
  a ∈ pm_pendingPeers pm → a ∉ pm_pendingPeers (reconnect now dial hello pm).1 → greeted (pm_networkID pm) dial hello a.
Proof.
  intros Ha. unfold reconnect. rewrite (bind_eq_Ok _ _ _ pm pm) by done. repeat case_decide; try done.
  pose proof (reconnect_loop_run now dial hello (go_iter (pm_pendingPeers pm)) pm ltac:(lia)) as Hr.
  unfold bind. destruct (reconnect_loop _ _ _ _ pm) as [pm1 [l|e|w|]]; destruct Hr as (_ & Hp & _ & Hl); simpl; rewrite Hp; [|done..].
  intros Hn. apply (Hl l eq_refl). rewrite elem_of_difference, elem_of_list_to_set in Hn. by destruct (decide (a ∈ l)); [|naive_solver].
Qed.

(** The room that is left: one above the limit, and one for each initial peer that was not dialled yet. *)
Definition roomy (n : Z) (w : PeerManager C * list string) : Prop :=
  Z.of_nat (size (pm_livePeers w.1)) + Z.of_nat (length w.2) <= Z.max 0 (pm_maxPeers w.1 + 1) + n ∧ Z.of_nat (length w.2) <= n.

Lemma connect_one_run now dial hello addr pm :
  let pm' := (connect_one now dial hello addr pm).1 in
  pm_maxPeers pm' = pm_maxPeers pm ∧ (size (pm_livePeers pm') <= S (size (pm_livePeers pm)))%nat.
Proof.
  unfold connect_one, bind, try. pose proof (connectPeer_state now dial hello addr pm) as Hst.
  destruct (connectPeer now dial hello addr pm) as [pm1 [p|e|w|]]; injection Hst as H1 H2 H3 H4 H5 H6 H7 H8; simpl; rewrite ?H8;
    try (destruct (pm_stopped pm); simpl); rewrite ?H3, ?H5; split; try done; try lia.
  apply size_insert_le.
Qed.

(** One step keeps the room. *)
Lemma peer_step_bounded n w w' : peer_step w w' → roomy n w → pm_maxPeers w'.1 = pm_maxPeers w.1 ∧ roomy n w'.
Proof.
  intros Hst. unfold roomy. destruct Hst as [now dial hello addr rest pm|addr pm rest|hello pm rest|now dial hello pm rest|p pm rest|pm rest]; simpl; intros [Hs Hn].
  - destruct (connect_one_run now dial hello addr pm) as [-> ?]. split; [done|]. lia.
  - unfold AddPeerAddr. rewrite (bind_eq_Ok _ _ _ pm pm) by done. repeat case_decide; try done. by destruct (pm_stopped pm).
  - by rewrite map_size_fmap.
  - unfold reconnect. rewrite (bind_eq_Ok _ _ _ pm pm) by done. repeat case_decide; try done.
    pose proof (reconnect_loop_run now dial hello (go_iter (pm_pendingPeers pm)) pm ltac:(lia)) as Hr.
    unfold bind. destruct (reconnect_loop _ _ _ _ pm) as [pm1 [l|e|w|]]; destruct Hr as (Hm & _ & ? & _); simpl; rewrite Hm; split; try done; lia.
  - unfold delete_peer. rewrite (bind_eq_Ok _ _ _ pm pm) by done. destruct (pm_livePeers pm !! peer_Addr p) eqn:E; [|done].
    simpl. rewrite map_size_delete, E. split; [done|]. lia.
  - destruct (pm_stopped pm) eqn:E; [by rewrite Stop_again|]. destruct (Stop_run pm E) as (pm' & -> & _ & Hl & Hm). simpl.
    rewrite Hm, Hl, map_size_empty. split; [done|]. lia.
Qed.

End peers.

(** * Properties *)

(** C39: the table of peers is bounded.  From the start of a manager with an empty table on, whatever the network answers and however the goroutine that dials the initial peers,
    the one that reconnects and the node interleave, the table never has more than the configured maximum, plus one (the limit is tested with [>]
    and after the insertion), plus the number of initial peers, which are not limited; and a reconnection drops a pending address only when
    the peer there was dialled and has answered the greeting. *)
Theorem peers_bounded {C} {GoRt : GoRuntime} (pm pm' : PeerManager C) (rest : list string) :
  pm_livePeers pm = ∅ → rtc peer_step (peer_started pm) (pm', rest) →
  Z.of_nat (size (pm_livePeers pm')) <= Z.max 0 (pm_maxPeers pm + 1) + Z.of_nat (length (pm_initPeers pm)) ∧
  ∀ now dial hello a, a ∈ pm_pendingPeers pm' → a ∉ pm_pendingPeers (reconnect now dial hello pm').1 →
    greeted (pm_networkID pm') dial hello a.
Proof.
  intros He Hst. split; [|intros now dial hello a; apply reconnect_pending].
  assert (pm_maxPeers (pm', rest).1 = pm_maxPeers pm ∧ roomy (Z.of_nat (length (pm_initPeers pm))) (pm', rest)) as [Hm [Hs Hn]].
  { revert Hst. generalize (pm', rest). apply (rtc_ind_r (λ w, pm_maxPeers w.1 = pm_maxPeers pm ∧ roomy (Z.of_nat (length (pm_initPeers pm))) w)).
    - split; [done|]. unfold roomy. simpl. rewrite He, map_size_empty. lia.
    - intros w w' _ Hw [IH1 IH2]. destruct (peer_step_bounded _ _ _ Hw IH2). split; [congruence|done]. }
  simpl in *. lia.
Qed.

Module network.

#[local] Existing Instance ref_runtime.

(** Room for one; the node adds the addresses of two peers, which are both connected before the two initial peers are dialled. *)
Definition start : PeerManager string := NewManager ["c"; "d"] "net" "here" "me" 1.
Definition dial (addr : string) : res string := Ok addr.
Definition answer (c : string) : Status + MD := inr (node_metadata c ("id" +:+ c)).
Definition told : PeerManager string := (AddPeerAddr "b" (AddPeerAddr "a" start).1).1.
Definition connected : PeerManager string := (reconnect 0 dial answer told).1.
Definition all : PeerManager string := (connect_one 0 dial answer "d" (connect_one 0 dial answer "c" connected).1).1.

Lemma all_reached : rtc peer_step (peer_started start) (all, []).
Proof.
  apply (rtc_l _ _ ((AddPeerAddr "a" start).1, ["c"; "d"])); [exact (peer_add "a" start ["c"; "d"])|].
  apply (rtc_l _ _ (told, ["c"; "d"])); [exact (peer_add "b" _ ["c"; "d"])|].
  apply (rtc_l _ _ (connected, ["c"; "d"])); [exact (peer_reconnect 0 dial answer told ["c"; "d"])|].
  apply (rtc_l _ _ ((connect_one 0 dial answer "c" connected).1, ["d"])); [exact (peer_initial 0 dial answer "c" ["d"] connected)|].
  apply rtc_once. exact (peer_initial 0 dial answer "d" [] _).
Qed.

(** The bound is reached: four peers with room for one. *)
Lemma peers_bounded_witness : size (pm_livePeers all) = 4%nat ∧ Z.of_nat (size (pm_livePeers all)) <= Z.max 0 (1 + 1) + 2.
Proof.
  split; [vm_compute; reflexivity|]. exact (proj1 (peers_bounded start all [] eq_refl all_reached)).
Defined.

End network.
