(* ===== verification/Download.v ===== *)
(** The workers of the downloader, [ledger/downloader.go]: [download] asks the peers for the ledgers of a range with
    eight workers (the pipeline of [Pipeline]) and sends what they found to [reorder], which is in [Ledger].
    An answer without header or transaction set is a nil dereference in a worker, and the end of the process. *)

From stdpp Require Import relations.
From S2P Require Import Prelude Pipeline Pb Db Crypto Keypair Ledger Quorum Ballot Rpc.

Definition download_workers : nat := 8.

(** The tasks of a range: [for i := tr.StartIndex; i <= tr.EndIndex; i++]; for the largest integer of the type the
    loop of the code has no end. *)
Definition download_tasks (tr : Z * Z) : list Z := seqZ tr.1 (tr.2 - tr.1 + 1).

Section worker.
Context {C : Type} {Pbc : PbCodec} {QuorumCodec : Codec Quorum} {GoRt : GoRuntime} {Crypto : CryptoLib} {Ed : Ed25519}.
Variables (seed networkID : string).

(** The checks of an answer.  A ledger without transaction set or header is a nil dereference. *)
Definition check_ledger (i : Z) (l : Ledger) : res (option CloseInfo) :=
  let? txset := deref (l_TxSet l) in
  match GetTxSetKey txset with
  | Ok _ => let? header := deref (l_LedgerHeader l) in Ok (check_downloaded i header txset)
  | Panic w => Panic w
  | _ => Ok None
  end.

(** The function [query] of [runTask]. *)
Definition query_ledger (call : C → QueryRequest → Status + string) (indices : list nat) (clients : list C) (i : Z)
    : res (option CloseInfo) :=
  let payload := FormatUint i in
  match Sign seed payload with
  | Ok sign =>
      match QueryLedger call indices clients payload sign networkID with
      | Ok ledger => check_ledger i ledger
      | Panic w => Panic w
      | _ => Ok None
      end
  | Panic w => Panic w
  | _ => Ok None
  end.

(** What a worker may find for an index, with any peers, and whether their answers may end the process. *)
Definition may_find (i : Z) (r : option CloseInfo) : Prop :=
  ∃ call indices clients, query_ledger call indices clients i = Ok r.
Definition may_crash (i : Z) : Prop :=
  ∃ call indices clients, is_Panic (query_ledger call indices clients i) = true.

Definition keep_found (r : option CloseInfo) : bool := match r with Some _ => true | None => false end.

Definition download (tr : Z * Z) : pipe Z (option CloseInfo) := pipe_init download_workers (download_tasks tr).
(** The goroutines go on, or a worker dereferences nil and the process ends ([None]). *)
Inductive download_step : relation (option (pipe Z (option CloseInfo))) :=
| download_goes_on p p' : pipe_step may_find keep_found false p p' → download_step (Some p) (Some p')
| download_crashes j i p : p_workers p !! j = Some (WTask i) → may_crash i → download_step (Some p) None.

Lemma goes_on_steps k p p' : nsteps (pipe_step may_find keep_found false) k p p' → nsteps download_step k (Some p) (Some p').
Proof. induction 1; [constructor|]. econstructor; [by constructor|done]. Qed.
Lemma download_steps k p o : nsteps download_step k (Some p) o →
  match o with
  | Some p' => nsteps (pipe_step may_find keep_found false) k p p'
  | None => ∃ k' p1 j i, k = S k' ∧ nsteps (pipe_step may_find keep_found false) k' p p1 ∧ p_workers p1 !! j = Some (WTask i) ∧ may_crash i
  end.
Proof.
  revert p. induction k as [|k IH]; intros p H; inversion H as [|? ? y ? H1 H2]; subst; [constructor|].
  inversion H1 as [? p' Hp|j i ? Hj Hi]; subst.
  - apply IH in H2. destruct o as [p2|]; [by econstructor|]. destruct H2 as (k' & p1 & j & i & -> & Hr & Hj & Hi).
    exists (S k'), p1, j, i. split_and!; [done|by econstructor|done..].
  - inversion H2 as [|? ? ? ? H3]; subst; [|inversion H3]. exists 0%nat, p, j, i. split_and!; [done|constructor|done..].
Qed.

Lemma check_downloaded_index i header txset info : check_downloaded i header txset = Some info → ci_Index info = i.
Proof. unfold check_downloaded. intros H. repeat case_match; by simplify_eq/=. Qed.

Lemma may_find_index i info : may_find i (Some info) → ci_Index info = i.
Proof.
  intros (call & indices & clients & H). unfold query_ledger, check_ledger, res_bind in H.
  repeat case_match; try done. injection H as H. by apply check_downloaded_index in H.
Qed.

(** Without peers a worker finds nothing. *)
Lemma may_find_total i : ∃ r, may_find i r.
Proof.
  exists None, (λ _ _, inl (mkStatus NotFound "")), [], []. unfold query_ledger.
  assert (match Sign seed (FormatUint i) with Ok _ | Err _ => True | _ => False end) as Hs.
  { unfold Sign, getPrivateKey. case_decide; [done|]. pose proof (DecodeKey_no_panic seed). by destruct (DecodeKey seed). }
  destruct (Sign seed (FormatUint i)); try done. unfold QueryLedger, check_request. by repeat case_decide.
Qed.

End worker.

(** * The order of what is handed over *)

(** [download] sends what the workers found to [reorder], one after the other. *)
Definition reorder_all (infos : list CloseInfo) (d : Downloader) : res Downloader :=
  foldl (λ acc info, let? d := acc in reorder info d) (Ok d) infos.

(** From [s] on, the entries before the next index, in order, have been handed over. *)
Definition handed (s : Z) (ready : list CloseInfo) (d : Downloader) : Prop :=
  ∃ l, dl_readyChan d = ready ++ l ∧ dl_nextIndex d = s + Z.of_nat (length l) ∧ dl_infoMap d !! dl_nextIndex d = None ∧
    ∀ i x, l !! i = Some x → dl_infoMap d !! (s + Z.of_nat i) = Some x.

Lemma reorder_handed s ready info d :
  0 <= s → s + Z.of_nat (size (dl_infoMap d)) < MaxUint64 → handed s ready d → dl_infoMap d !! ci_Index info = None →
  ∃ d', reorder info d = Ok d' ∧ handed s ready d' ∧ dl_infoMap d' = <[ci_Index info := info]> (dl_infoMap d).
Proof.
  intros H0 Hmax (l & Hq & Hnx & Hno & Hl) Hi. unfold reorder. set (m := <[ci_Index info := info]> (dl_infoMap d)).
  assert (size m = S (size (dl_infoMap d))) as Hsz by by apply map_size_insert_None.
  assert (∀ j x, dl_infoMap d !! j = Some x → m !! j = Some x) as Hmono.
  { intros j x Hj. unfold m. rewrite lookup_insert_ne; [done|congruence]. }
  destruct (hand_over_run (S (size m)) (mkDownloader (dl_nextIndex d) m (dl_rangeChan d) (dl_readyChan d)) (Z.of_nat (length l)))
    as (l' & d' & Hr & Hm & _ & Hq' & Hn' & Hno' & Hl'); simpl in *; [lia|lia| |lia|].
  { intros j Hj. destruct (lookup_lt_is_Some_2 l (Z.to_nat (j - s))) as [x Hx]; [lia|]. exists x. apply Hmono.
    replace j with (s + Z.of_nat (Z.to_nat (j - s))) by lia. by apply Hl. }
  exists d'. split_and!; [done| |done]. exists (l ++ l'). rewrite Hq', Hq, app_assoc, Hm, length_app. split_and!; [done|lia|by rewrite <-Hm|].
  intros i x [Hx|[Hge Hx]]%lookup_app_Some; [by apply Hmono, Hl|]. apply Hl' in Hx.
  by replace (s + Z.of_nat i) with (dl_nextIndex d + Z.of_nat (i - length l)) by lia.
Qed.

(** The entries of a list of infos with distinct indexes. *)
Definition infos_map (infos : list CloseInfo) (m : gmap Z CloseInfo) : gmap Z CloseInfo :=
  foldl (λ m info, <[ci_Index info := info]> m) m infos.

Lemma infos_map_lookup infos m i :
  NoDup (ci_Index <$> infos) →
  infos_map infos m !! i = match List.find (λ x, bool_decide (ci_Index x = i)) infos with Some x => Some x | None => m !! i end.
Proof.
  unfold infos_map. revert m. induction infos as [|x infos IH]; intros m; [done|]. simpl. rewrite NoDup_cons. intros [Hx Hnd].
  rewrite IH by done. case_bool_decide as Hi; [|by rewrite lookup_insert_ne].
  subst. rewrite lookup_insert_eq. destruct (List.find _ infos) as [y|] eqn:Hf; [|done]. exfalso.
  apply List.find_some in Hf as [Hin Hy%bool_decide_eq_true]. apply Hx. rewrite <-Hy. apply list_elem_of_fmap_2.
  by apply list_elem_of_In.
Qed.

Lemma reorder_all_handed s ready infos d :
  0 <= s → s + Z.of_nat (size (dl_infoMap d)) + Z.of_nat (length infos) < MaxUint64 → handed s ready d →
  NoDup (ci_Index <$> infos) → (∀ x, x ∈ infos → dl_infoMap d !! ci_Index x = None) →
  ∃ d', reorder_all infos d = Ok d' ∧ handed s ready d' ∧ dl_infoMap d' = infos_map infos (dl_infoMap d).
Proof.
  intros H0. revert d. induction infos as [|x infos IH]; intros d Hmax Hh; [by exists d|].
  rewrite fmap_cons, NoDup_cons. intros [Hx Hnd] Hnew. cbn [length] in Hmax.
  destruct (reorder_handed s ready x d) as (d1 & Hr & Hh1 & Hm1); [done|lia|done|apply Hnew; by left|].
  destruct (IH d1) as (d' & Hr' & Hh' & Hm'); [rewrite Hm1, map_size_insert_None by (apply Hnew; by left); lia|done|done| |].
  { intros y Hy. rewrite Hm1, lookup_insert_ne; [apply Hnew; by right|]. intros He. apply Hx. rewrite He.
    by apply list_elem_of_fmap_2. }
  exists d'. split_and!; [|done|by rewrite Hm', Hm1]. unfold reorder_all in *. simpl. rewrite Hr. exact Hr'.
Qed.

(** ** The answers of a run *)

(** What the caller has received, the nil answers left out. *)
Definition found (p : pipe Z (option CloseInfo)) : list CloseInfo := omap id (p_received p).

Section answers.
Context (answers : Z → option CloseInfo → Prop) (Hindex : ∀ i info, answers i (Some info) → ci_Index info = i).

Lemma found_indexes (calls : list (Z * option CloseInfo)) :
  Forall (λ c, answers c.1 c.2) calls →
  ci_Index <$> omap snd calls = (filter (λ c, keep_found c.2 = true) calls).*1.
Proof.
  induction 1 as [|[i [info|]] calls Hc _ IH]; [done| |].
  - rewrite filter_cons_True by done. rewrite fmap_cons, <-IH. cbn. by rewrite (Hindex i info Hc).
  - rewrite filter_cons_False by done. exact IH.
Qed.

Lemma found_calls p :
  p_received p ≡ₚ filter (λ r, keep_found r = true) (p_calls p).*2 → found p ≡ₚ omap snd (p_calls p).
Proof.
  intros Hr. unfold found. rewrite Hr. clear Hr. induction (p_calls p) as [|[i [info|]] calls IH]; [done| |]; rewrite fmap_cons.
  - rewrite filter_cons_True by done. cbn. by constructor.
  - rewrite filter_cons_False by done. exact IH.
Qed.

Lemma found_NoDup p tasks :
  Forall (λ c, answers c.1 c.2) (p_calls p) → p_received p ≡ₚ filter (λ r, keep_found r = true) (p_calls p).*2 →
  (p_calls p).*1 ≡ₚ tasks → NoDup tasks → NoDup (ci_Index <$> found p).
Proof.
  intros Ha Hr Ht Hnd. rewrite (found_calls p Hr), (found_indexes _ Ha). apply NoDup_fst_filter. by rewrite Ht.
Qed.

(** An index that was asked for is among the infos found, or the answer was nil. *)
Lemma found_or_nil p i tasks :
  Forall (λ c, answers c.1 c.2) (p_calls p) → p_received p ≡ₚ filter (λ r, keep_found r = true) (p_calls p).*2 →
  (p_calls p).*1 ≡ₚ tasks → i ∈ tasks → (i, None) ∈ p_calls p ∨ ∃ x, x ∈ found p ∧ ci_Index x = i.
Proof.
  intros Ha Hr Ht Hi. rewrite <-Ht in Hi. apply list_elem_of_fmap in Hi as ([j [x|]] & -> & Hin); [right|by left].
  exists x. rewrite (found_calls p Hr), list_elem_of_omap. split; [by exists (j, Some x)|].
  rewrite Forall_forall in Ha. by apply Hindex, (Ha (j, Some x)).
Qed.

(** What was found for a range: distinct indexes of the range. *)
Lemma found_range p s n :
  Forall (λ c, answers c.1 c.2) (p_calls p) → p_received p ≡ₚ filter (λ r, keep_found r = true) (p_calls p).*2 →
  (p_calls p).*1 ≡ₚ seqZ s n →
  (∀ x, x ∈ found p → s <= ci_Index x < s + n) ∧ NoDup (ci_Index <$> found p) ∧ (length (found p) <= Z.to_nat n)%nat.
Proof.
  intros Ha Hr Ht. assert (∀ x, x ∈ found p → s <= ci_Index x < s + n) as Hrange.
  { intros x Hx. apply elem_of_seqZ. rewrite <-Ht. apply (list_elem_of_fmap_2 ci_Index) in Hx.
    rewrite (found_calls p Hr), (found_indexes _ Ha) in Hx.
    apply list_elem_of_fmap in Hx as (c & -> & [_ Hc]%list_elem_of_filter). by apply list_elem_of_fmap_2. }
  assert (NoDup (ci_Index <$> found p)) as Hnd by (eapply found_NoDup; eauto; apply NoDup_seqZ).
  split_and!; [done..|]. rewrite <-(length_fmap ci_Index), <-(length_seqZ s n).
  apply NoDup_incl_length; [by apply NoDup_ListNoDup|]. intros i Hi%list_elem_of_In. apply list_elem_of_In.
  apply list_elem_of_fmap in Hi as (x & -> & Hx). apply elem_of_seqZ. by apply Hrange.
Qed.

End answers.

(** The list handed over: consecutive indexes, taken from the infos. *)
Lemma handed_list infos m s (l : list CloseInfo) :
  NoDup (ci_Index <$> infos) → (∀ i, s <= i → m !! i = None) →
  (∀ i x, l !! i = Some x → infos_map infos m !! (s + Z.of_nat i) = Some x) →
  ci_Index <$> l = seqZ s (Z.of_nat (length l)) ∧ ∀ x, x ∈ l → x ∈ infos.
Proof.
  intros Hnd Hnew Hl. assert (∀ i x, l !! i = Some x → x ∈ infos ∧ ci_Index x = s + Z.of_nat i) as Hlx.
  { intros i x Hx%Hl. rewrite infos_map_lookup in Hx by done. destruct (List.find _ infos) as [y|] eqn:Hf.
    - apply List.find_some in Hf as [Hin%list_elem_of_In Hy%bool_decide_eq_true]. by simplify_eq.
    - rewrite Hnew in Hx by lia. done. }
  split; [|intros x (i & Hx)%list_elem_of_lookup; by apply (Hlx i)].
  apply list_eq. intros i. rewrite list_lookup_fmap. destruct (l !! i) as [x|] eqn:Hx; simpl; symmetry.
  - destruct (Hlx i x Hx) as [_ ->]. apply lookup_seqZ. apply lookup_lt_Some in Hx. lia.
  - apply lookup_ge_None in Hx. apply lookup_seqZ_ge. lia.
Qed.

(** ** A whole download *)

Section download_runs.
Context {C : Type} {Pbc : PbCodec} {QuorumCodec : Codec Quorum} {GoRt : GoRuntime} {Crypto : CryptoLib} {Ed : Ed25519}.
Variables (seed networkID : string) (s e : Z).
Abbreviation steps := (pipe_step (may_find (C:=C) seed networkID) keep_found false).

Lemma download_reached k p : nsteps steps k (download (s, e)) p →
  pipe_inv (may_find (C:=C) seed networkID) keep_found download_workers (seqZ s (e - s + 1)) p.
Proof. intros Hk. eapply (pipe_inv_reachable _ _ false); [done|]. eapply rtc_nsteps_2, Hk. Qed.

Lemma download_weight k p : 0 <= s <= e → nsteps steps k (download (s, e)) p → Z.of_nat k + Z.of_nat (pipe_weight p) <= 5 * (e - s + 1) + 19.
Proof.
  intros Hse Hk. apply pipe_run_bounded in Hk. unfold download, download_tasks in Hk. rewrite pipe_init_weight, length_seqZ in Hk.
  unfold download_workers in Hk. simpl in Hk. lia.
Qed.

Lemma download_bounded k o : 0 <= s <= e →
  match o with
  | Some p' => nsteps steps k (download (s, e)) p'
  | None => ∃ k' p1 j i, k = S k' ∧ nsteps steps k' (download (s, e)) p1 ∧ p_workers p1 !! j = Some (WTask i) ∧ may_crash (C:=C) seed networkID i
  end → Z.of_nat k <= 5 * (e - s + 1) + 19.
Proof.
  intros Hse Hk. destruct o as [p|]; [apply download_weight in Hk; [lia|done]|].
  destruct Hk as (k' & p1 & j & i & -> & Hk & Hj & _). apply download_weight in Hk; [|done].
  pose proof (sum_list_with_insert worker_weight (p_workers p1) j (WTask i) WIdle Hj) as Hw. unfold pipe_weight in Hk. simpl in Hw. lia.
Qed.

Lemma asked_in_range k p j i : nsteps steps k (download (s, e)) p → p_workers p !! j = Some (WTask i) → s <= i <= e.
Proof.
  intros Hk Hj. pose proof (pi_tasks _ _ _ _ _ (download_reached k p Hk)) as Ht.
  assert (i ∈ seqZ s (e - s + 1)) as Hi%elem_of_seqZ; [|lia]. rewrite Ht, !elem_of_app, list_elem_of_bind. right. left.
  exists (WTask i). split; [by left|]. by eapply list_elem_of_lookup_2.
Qed.

Lemma download_found (d : Downloader) k p :
  0 <= s <= e → e + Z.of_nat (size (dl_infoMap d)) + 1 < MaxUint64 →
  dl_nextIndex d = s → (∀ i, s <= i → dl_infoMap d !! i = None) → nsteps steps k (download (s, e)) p → nf steps p →
  p_done p = true ∧ (p_calls p).*1 ≡ₚ seqZ s (e - s + 1) ∧
  ∃ d' l, reorder_all (found p) d = Ok d' ∧ dl_readyChan d' = dl_readyChan d ++ l ∧
    ci_Index <$> l = seqZ s (Z.of_nat (length l)) ∧ (∀ x, x ∈ l → x ∈ found p) ∧
    (s + Z.of_nat (length l) <= e → (s + Z.of_nat (length l), None) ∈ p_calls p).
Proof.
  intros Hse Hmax Hnx Hnew Hk Hnf. pose proof (download_reached k p Hk) as Hp.
  apply (pipe_stuck_final _ _ false) in Hp as (Hd & _ & _ & Ht & Hr & Ha); [|done|apply may_find_total|done].
  pose proof (may_find_index (C:=C) seed networkID) as Hix.
  destruct (found_range _ Hix p s (e - s + 1) Ha Hr Ht) as (Hrange & Hnd & Hlen).
  destruct (reorder_all_handed s (dl_readyChan d) (found p) d) as (d' & Hre & (l & Hq & Hn' & Hno & Hl) & Hm); [lia|lia| |done| |].
  { exists []. rewrite app_nil_r. split_and!; [done|simpl; lia|apply Hnew; lia|by intros i x]. }
  { intros x Hx%Hrange. apply Hnew. lia. }
  rewrite Hm in Hl. destruct (handed_list (found p) (dl_infoMap d) s l Hnd Hnew Hl) as [Hli Hlx].
  split_and!; [done|done|]. exists d', l. split_and!; [done..|].
  intros Hle. destruct (found_or_nil _ Hix p (s + Z.of_nat (length l)) (seqZ s (e - s + 1))) as [|(x & Hx & Hxi)]; [done..| |done|].
  { apply elem_of_seqZ. lia. }
  exfalso. rewrite Hm, Hn', infos_map_lookup in Hno by done.
  destruct (List.find _ (found p)) eqn:Hf; [done|]. eapply List.find_none in Hf; [|by apply list_elem_of_In].
  by apply bool_decide_eq_false in Hf.
Qed.

End download_runs.

(** * Properties *)

(** C36: missing ledgers arrive in order.  However the workers interleave and whatever the peers answer, a download
    ends after a bounded number of steps; unless a worker has died of an answer for a ledger of the range that lacks its header or its transaction set, it asks for
    every ledger of the range exactly once, and the ledger manager is
    handed, in order and without gaps from the start of the range, the ledgers that were found, up to the first one
    that no peer answered properly for.  At the start no ledger of the range or above is waiting from an earlier download. *)
Theorem download_in_order {C} {Pbc : PbCodec} {QuorumCodec : Codec Quorum} {GoRt : GoRuntime} {Crypto : CryptoLib} {Ed : Ed25519}
    (seed networkID : string) (s e : Z) (d : Downloader) k o :
  0 <= s <= e → e + Z.of_nat (size (dl_infoMap d)) + 1 < MaxUint64 →
  dl_nextIndex d = s → (∀ i, s <= i → dl_infoMap d !! i = None) →
  nsteps (download_step (C:=C) seed networkID) k (Some (download (s, e))) o →
  Z.of_nat k <= 5 * (e - s + 1) + 19 ∧
  (o = None → ∃ i, s <= i <= e ∧ may_crash (C:=C) seed networkID i) ∧
  (∀ p, o = Some p → nf (download_step (C:=C) seed networkID) o →
    p_done p = true ∧ (p_calls p).*1 ≡ₚ seqZ s (e - s + 1) ∧
    ∃ d' l, reorder_all (found p) d = Ok d' ∧ dl_readyChan d' = dl_readyChan d ++ l ∧
      ci_Index <$> l = seqZ s (Z.of_nat (length l)) ∧ (∀ x, x ∈ l → x ∈ found p) ∧
      (s + Z.of_nat (length l) <= e → (s + Z.of_nat (length l), None) ∈ p_calls p)).
Proof.
  intros Hse Hmax Hnx Hnew Hk%download_steps. split; [|split].
  - by apply (download_bounded (C:=C) seed networkID s e k o).
  - intros ->. destruct Hk as (k' & p1 & j & i & -> & Hr & Hj & Hi). exists i. split; [|done].
    by apply (asked_in_range (C:=C) seed networkID s e k' p1 j).
  - intros p -> Hnf. apply (download_found (C:=C) seed networkID s e d k p); try done.
    intros [p' Hp]. apply Hnf. exists (Some p'). by constructor.
Qed.

(** * A run *)

Module one_ledger.

#[local] Existing Instance ref_runtime.
#[local] Existing Instance ref_crypto.
#[local] Existing Instance ref_codec.
#[local] Existing Instance ref_ed25519.
#[local] Instance no_quorums : Codec Quorum := codec_none.

Definition node_seed : string := EncodeKey (mkULTKey KeyTypeSeed (pad32 "node")).
Definition txs : TxSet := mkTxSet "prev" [].
Definition txs_hash : string := match GetTxSetKey txs with Ok h => h | _ => "" end.
Definition value : string := default "" (Encode (mkConsensusValue txs_hash 1)).
Definition header : LedgerHeader := new_header 5 "prev" txs_hash value.
(** A peer with ledger 5. *)
Definition answer (c : string) (r : QueryRequest) : Status + string := inr (default "" (Encode (mkLedger (Some header) (Some txs)))).
Definition info : CloseInfo := mkCloseInfo 5 value txs.

(** One answer without a header, or without a transaction set, ends the process. *)
Definition hollow (h : option LedgerHeader) (t : option TxSet) (c : string) (r : QueryRequest) : Status + string :=
  inr (default "" (Encode (mkLedger h t))).
Theorem hollow_ledger_crashes :
  is_Panic (query_ledger node_seed "net" (hollow None (Some txs)) [0%nat] ["peer"] 5) = true ∧
  is_Panic (query_ledger node_seed "net" (hollow (Some header) None) [0%nat] ["peer"] 5) = true.
Proof. vm_compute. split; reflexivity. Qed.

Abbreviation dstep := (download_step (C:=string) node_seed "net").
Definition finished : pipe Z (option CloseInfo) :=
  mkPipe ProdClosed (replicate 8 WClosed) (replicate 8 MDone) true true [(5, Some info)] [Some info].

Lemma found_5 : may_find (C:=string) node_seed "net" 5 (Some info).
Proof. exists answer, [0%nat], ["peer"]. vm_compute. reflexivity. Qed.

Ltac exits step := econstructor; [by apply (step 0%nat)|]; econstructor; [by apply (step 1%nat)|]; econstructor; [by apply (step 2%nat)|];
  econstructor; [by apply (step 3%nat)|]; econstructor; [by apply (step 4%nat)|]; econstructor; [by apply (step 5%nat)|];
  econstructor; [by apply (step 6%nat)|]; econstructor; [by apply (step 7%nat)|].

Lemma one_ledger_pipe : nsteps (pipe_step (may_find (C:=string) node_seed "net") keep_found false) 23 (download (5, 5)) finished.
Proof.
  econstructor; [by apply (step_take _ _ _ 0)|]. econstructor; [apply step_close_tasks|].
  econstructor; [by apply (step_call _ _ _ 0 5 (Some info)), found_5|].
  econstructor; [by apply (step_pass _ _ _ 0 (Some info))|]. econstructor; [by apply (step_deliver _ _ _ 0 (Some info))|].
  exits (step_worker_exit (may_find (C:=string) node_seed "net") keep_found false).
  exits (step_mux_exit (may_find (C:=string) node_seed "net") keep_found false).
  econstructor; [apply step_close_result; by repeat constructor|]. econstructor; [apply step_finish|]. constructor.
Qed.

Lemma one_ledger_run : nsteps dstep 23 (Some (download (5, 5))) (Some finished).
Proof. exact (goes_on_steps node_seed "net" 23 _ _ one_ledger_pipe). Qed.

Lemma download_finished_nf : nf dstep (Some finished).
Proof.
  intros [s Hs]. inversion Hs as [? ? Hp|j i ? Hj]; subst; [|destruct j as [|[|[|[|[|[|[|[|j]]]]]]]]; done].
  unfold finished in Hp. inversion Hp; subst;
    repeat match goal with H : (_ :: _) !! ?i = Some _ |- _ => destruct i; simplify_eq/= end.
Qed.

Lemma download_in_order_witness :
  ∃ d' l, reorder_all (found finished) (mkDownloader 5 ∅ [] []) = Ok d' ∧ dl_readyChan d' = [] ++ l ∧
    ci_Index <$> l = seqZ 5 (Z.of_nat (length l)).
Proof.
  destruct (download_in_order (C:=string) node_seed "net" 5 5 (mkDownloader 5 ∅ [] []) 23 (Some finished)) as (_ & _ & H);
    [lia|by vm_compute|reflexivity|intros i _; by vm_compute|exact one_ledger_run|].
  destruct (H finished eq_refl download_finished_nf) as (_ & _ & d' & l & H1 & H2 & H3 & _). exists d', l. split; [exact H1|]. split; [exact H2|exact H3].
Defined.

End one_ledger.
