(* ===== verification/Federated.v ===== *)
(** Federated voting and the parts of the ballot protocol that only read the state of a decree:
    [federatedAccept], [federatedRatify], [getStatementQuorum], [getPreparedCandidates],
    [getCommitCounters], [findCommitInterval] and the node weights of [consensus/decree.go].

    They see the statements of the nodes as a map from node ID to statement.  Visiting the map
    only builds sets, so the order of the visit does not matter; a [log.Fatal] met on the way is a
    [Panic] whatever the order. *)

From Stdlib Require Import SpecFloat.
From S2P Require Import Prelude Pb Crypto Quorum Ballot.

Abbreviation Stmts := (gmap string Statement).

(** The keys whose statement passes the filter. *)
Definition filter_nodes (f : Statement → res bool) (stmts : Stmts) : res (gset string) :=
  map_fold (λ k s acc, let? nodes := acc in
                       let? b := f s in
                       Ok (if b : bool then {[k]} ∪ nodes else nodes)) (Ok ∅) stmts.

(** A set built by a visit, each statement adding a list of elements. *)
Definition collect {A} `{Countable A} (f : Statement → res (list A)) (stmts : Stmts) : res (gset A) :=
  map_fold (λ _ s acc, let? xs := acc in
                       let? l := f s in
                       Ok (list_to_set l ∪ xs)) (Ok ∅) stmts.

Section voting.
(** The local node, its quorum and the quorums known to the validator. *)
Variables (nodeID : string) (quorum : Quorum) (GetQuorum : string → res (option Quorum)).

Definition getStatementQuorum (s : Statement) : res (option Quorum) :=
  let lookup hash :=
    if decide (hash ≠ "") then
      match GetQuorum hash with
      | Ok (Some q) => Ok (Some q)
      | Panic w => Panic w
      | _ => Panic "failed to get quorum of hash"
      end
    else Ok None in
  match s_Type s with
  | StatementType_NOMINATE => let? n := GetNominate s in lookup (nom_QuorumHash n)
  | StatementType_PREPARE => let? p := GetPrepare s in lookup (prep_QuorumHash p)
  | StatementType_CONFIRM => let? c := GetConfirm s in lookup (conf_QuorumHash c)
  | StatementType_EXTERNALIZE => Ok (Some (getSingletonQuorum nodeID))
  | StatementType_other _ => unknown_type
  end.

(** The nodes of [nodes] one of whose slices is within [nodes]. *)
Definition satisfied (stmts : Stmts) (nodes : gset string) : res (gset string) :=
  foldr (λ n acc,
    let? subnodes := acc in
    let? s := deref (stmts !! n) in
    let? q := getStatementQuorum s in
    match q with
    | Some q => Ok (if isQuorumSlice q nodes then {[n]} ∪ subnodes else subnodes)
    | None => Ok subnodes
    end) (Ok ∅) (elements nodes).

(** [for { if nodes.Equal(subnodes) { break } ... }] *)
Fixpoint quorum_loop (fuel : nat) (stmts : Stmts) (nodes subnodes : gset string) : res (gset string) :=
  match fuel with
  | O => NoFuel
  | S fuel =>
      if decide (nodes = subnodes) then Ok nodes
      else
        let? subnodes := satisfied stmts nodes in
        quorum_loop fuel stmts (nodes ∩ subnodes) subnodes
  end.

(** Two rounds are enough: see [quorum_loop_run]. *)
Definition quorum_rounds : nat := 2.

Definition has_quorum (stmts : Stmts) (nodes : gset string) : res bool :=
  let? nodes := quorum_loop quorum_rounds stmts nodes ∅ in
  Ok (isQuorumSlice quorum nodes).

Definition federatedAccept (voteF acceptF : Statement → res bool) (stmts : Stmts) : res bool :=
  let? voted := filter_nodes voteF stmts in
  if isVblocking quorum voted then Ok true
  else
    let? accepted := filter_nodes acceptF stmts in
    has_quorum stmts (voted ∪ accepted).

Definition federatedRatify (filterF : Statement → res bool) (stmts : Stmts) : res bool :=
  let? nodes := filter_nodes filterF stmts in
  has_quorum stmts nodes.

End voting.

(** * Candidates *)

Definition opt_list {A} (o : option A) : list A := match o with Some a => [a] | None => [] end.

(** The ballots named by the incoming statement. *)
Definition stmt_ballots (s : Statement) : res (list Ballot) :=
  match s_Type s with
  | StatementType_PREPARE => let? p := GetPrepare s in Ok (opt_list (prep_B p) ++ opt_list (prep_P p) ++ opt_list (prep_Q p))
  | StatementType_CONFIRM =>
      let? c := GetConfirm s in
      let? b := deref (conf_B c) in
      Ok [mkBallot (conf_PC c) (b_Value b); mkBallot MaxUint32 (b_Value b)]
  | StatementType_EXTERNALIZE =>
      let? e := GetExternalize s in
      let? b := deref (ext_B e) in
      Ok [mkBallot MaxUint32 (b_Value b)]
  | _ => unknown_type
  end.

(** The candidates that a stored statement contributes for one of them.  The working ballot of a
    prepare statement is read without a test. *)
Definition keep_below (b : Ballot) (o : option Ballot) : list Ballot :=
  match o with Some x => if lessAndCompatibleBallots (Some x) (Some b) then [x] else [] | None => [] end.

Definition candidate_of (b : Ballot) (s : Statement) : res (list Ballot) :=
  match s_Type s with
  | StatementType_PREPARE =>
      let? p := GetPrepare s in
      Ok (keep_below b (prep_B p) ++ keep_below b (prep_P p) ++ keep_below b (prep_Q p))
  | StatementType_CONFIRM =>
      let? c := GetConfirm s in
      Ok (if compatibleBallots (conf_B c) (Some b)
          then b :: (if decide (conf_PC c < b_Counter b) then [mkBallot (conf_PC c) (b_Value b)] else [])
          else [])
  | StatementType_EXTERNALIZE =>
      let? e := GetExternalize s in
      Ok (if compatibleBallots (ext_B e) (Some b) then [b] else [])
  | _ => unknown_type
  end.

Section candidates.
Context {GoRt : GoRuntime}.

Definition getPreparedCandidates (stmt : Statement) (stmts : Stmts) : res (list Ballot) :=
  let? bs := stmt_ballots stmt in
  let? cands := foldr (λ b acc, let? xs := acc in let? l := collect (candidate_of b) stmts in Ok (l ∪ xs))
                  (Ok ∅) (elements (list_to_set bs : gset Ballot)) in
  Ok (go_sort ballot_less (elements (cands : gset Ballot))).

(** The counters of the stored statements compatible with [b], in descending order. *)
Definition commit_counters_of (b : Ballot) (s : Statement) : res (list Z) :=
  match s_Type s with
  | StatementType_PREPARE =>
      let? p := GetPrepare s in
      Ok (if compatibleBallots (Some b) (prep_B p) && bool_decide (0 < prep_LC p) then [prep_LC p; prep_HC p] else [])
  | StatementType_CONFIRM =>
      let? c := GetConfirm s in
      Ok (if compatibleBallots (Some b) (conf_B c) then [conf_LC c; conf_HC c] else [])
  | StatementType_EXTERNALIZE =>
      let? e := GetExternalize s in
      match ext_B e with
      | Some eb => Ok (if compatibleBallots (Some b) (Some eb) then [b_Counter eb; ext_HC e; MaxUint32] else [])
      | None => Ok []
      end
  | _ => unknown_type
  end.

Definition getCommitCounters (b : Ballot) (stmts : Stmts) : res (list Z) :=
  let? cs := collect (commit_counters_of b) stmts in
  Ok (go_sort (λ x y, bool_decide (y < x)) (elements cs)).

End candidates.

(** The loop of [findCommitInterval]: [lb] and [rb] are the interval found so far. *)
Fixpoint find_interval (counters : list Z) (filterF : Z → Z → res bool) (lb rb : Z) : res (Z * Z) :=
  match counters with
  | [] => Ok (lb, rb)
  | c :: cs =>
      if decide (lb ≠ 0 ∧ rb < c) then find_interval cs filterF lb rb
      else
        let r := if decide (lb = 0) then c else rb in
        let? ok := filterF c r in
        if ok : bool then find_interval cs filterF c r
        else if decide (lb ≠ 0) then Ok (lb, rb)
        else find_interval cs filterF lb rb
  end.

Definition findCommitInterval (counters : list Z) (filterF : Z → Z → res bool) : res (Z * Z) :=
  find_interval counters filterF 0 0.

(** * Lemmas *)

Lemma filter_nodes_spec f stmts nodes :
  filter_nodes f stmts = Ok nodes →
  ∀ n, n ∈ nodes ↔ ∃ s, stmts !! n = Some s ∧ f s = Ok true.
Proof.
  unfold filter_nodes. revert nodes.
  apply (map_fold_weak_ind (λ r m, ∀ nodes, r = Ok nodes → ∀ n, n ∈ nodes ↔ ∃ s, m !! n = Some s ∧ f s = Ok true)).
  - intros nodes [= <-] n. split; [set_solver|]. intros (s & Hs & _). by rewrite lookup_empty in Hs.
  - intros k s m r Hk IH nodes H n. destruct r as [nodes'| | |]; simpl in H; try done.
    destruct (f s) as [b| | |] eqn:Hf; simpl in H; try done. injection H as <-.
    specialize (IH nodes' eq_refl n). destruct (decide (n = k)) as [->|Hne].
    + rewrite lookup_insert_eq. destruct b; [split; [eauto|set_solver]|]. rewrite IH.
      split; [intros (s' & Hs' & _); by rewrite Hk in Hs'|intros (s' & [= <-] & ?); congruence].
    + rewrite lookup_insert_ne by done. rewrite <- IH. destruct b; set_solver.
Qed.

Section voting_laws.
Variables (nodeID : string) (quorum : Quorum) (GetQuorum : string → res (option Quorum)).

Abbreviation stmt_quorum := (getStatementQuorum nodeID GetQuorum).

(** The quorum a node of the map has announced. *)
Definition node_quorum (stmts : Stmts) (n : string) (q : Quorum) : Prop :=
  ∃ s, stmts !! n = Some s ∧ stmt_quorum s = Ok (Some q).

Lemma satisfied_spec stmts nodes sub :
  satisfied nodeID GetQuorum stmts nodes = Ok sub →
  ∀ n, n ∈ sub ↔ n ∈ nodes ∧ ∃ q, node_quorum stmts n q ∧ isQuorumSlice q nodes = true.
Proof.
  intros H n. rewrite <- (elem_of_elements nodes n). revert sub H. unfold satisfied.
  induction (elements nodes) as [|x l IH]; intros sub H; simpl in H; [injection H as <-; set_solver|].
  destruct (foldr _ _ l) as [sub'| | |] eqn:Hl; simpl in H; try done.
  destruct (stmts !! x) as [s|] eqn:Hs; simpl in H; [|done].
  destruct (stmt_quorum s) as [[q|]| | |] eqn:Hq; simpl in H; try done; injection H as <-; specialize (IH sub' eq_refl).
  - assert (∀ q', node_quorum stmts x q' ↔ q' = q) as Hx.
    { intros q'. unfold node_quorum. split; [intros (s' & Hs' & ?); congruence|intros ->; eauto]. }
    destruct (isQuorumSlice q nodes) eqn:Hsl; rewrite ?elem_of_union, IH, elem_of_cons, ?elem_of_singleton; split.
    + intros [->|[??]]; [split; [by left|exists q; by rewrite Hx]|auto].
    + intros [[->|?] ?]; [by left|auto].
    + intros [??]; auto.
    + intros [[->|?] (q' & Hq' & ?)]; [|eauto]. apply Hx in Hq' as ->. congruence.
  - rewrite IH, elem_of_cons. split; [intros [??]; auto|]. intros [[->|?] (q' & (s' & Hs' & Hq') & ?)]; [congruence|].
    split; [done|]. exists q'. split; [by exists s'|done].
Qed.

(** The loop stops after one pass: intersecting with the result of the pass gives that result. *)
Lemma quorum_loop_run stmts nodes :
  quorum_loop nodeID GetQuorum quorum_rounds stmts nodes ∅ =
    if decide (nodes = ∅) then Ok ∅ else satisfied nodeID GetQuorum stmts nodes.
Proof.
  unfold quorum_rounds. simpl. case_decide as Hn; [by rewrite Hn|].
  destruct (satisfied nodeID GetQuorum stmts nodes) as [sub| | |] eqn:Hs; simpl; try done.
  pose proof (satisfied_spec _ _ _ Hs) as Hsp. rewrite decide_True; [f_equal|]; set_solver.
Qed.

(** A set of nodes each of which has a slice within the set. *)
Definition is_quorum (stmts : Stmts) (u : gset string) : Prop :=
  ∀ n, n ∈ u → ∃ q, node_quorum stmts n q ∧ isQuorumSlice q u = true.

(** The threshold is a number, and every nested level needs at least one member to be blocked. *)
Definition regular (q : Quorum) : Prop := need_ok q ∧ Forall vb_ok (q_NestQuorums q).

(** Every statement of the map announces a quorum. *)
Definition all_quorums (stmts : Stmts) : Prop :=
  ∀ n s, stmts !! n = Some s → ∃ o, stmt_quorum s = Ok o.

Lemma satisfied_Ok stmts nodes :
  all_quorums stmts → (∀ n, n ∈ nodes → is_Some (stmts !! n)) →
  ∃ sub, satisfied nodeID GetQuorum stmts nodes = Ok sub.
Proof.
  intros Hall Hin. setoid_rewrite <- elem_of_elements in Hin. unfold satisfied.
  induction (elements nodes) as [|x l IH]; simpl; [eauto|].
  destruct IH as [sub ->]; [set_solver|]. simpl.
  destruct (Hin x) as [s Hs]; [set_solver|]. rewrite Hs. simpl.
  destruct (Hall x s Hs) as [[q|] ->]; simpl; eauto.
Qed.

End voting_laws.

(** The interval kept by the loop. *)
Definition interval_ok (counters : list Z) (F : Z → Z → res bool) (l r : Z) : Prop :=
  l ∈ counters ∧ r ∈ counters ∧ 0 < l <= r ∧ F l r = Ok true ∧ F r r = Ok true.

Lemma find_interval_found all cs F l r l' r' :
  (∀ c, c ∈ cs → c ∈ all ∧ 0 < c) → StronglySorted Z.gt cs → (∀ c, c ∈ cs → c < l) →
  interval_ok all F l r → find_interval cs F l r = Ok (l', r') → interval_ok all F l' r' ∧ r' = r.
Proof.
  revert l. induction cs as [|c cs IH]; intros l Hin Hss Hlt Hok H; simpl in H; [by injection H as <- <-|].
  apply StronglySorted_inv in Hss as [Hss Hgt]. rewrite Forall_forall in Hgt.
  destruct Hok as (Hl & Hr & Hlr & Hf & Hrr).
  specialize (Hlt c ltac:(set_solver)) as Hcl. destruct (Hin c ltac:(set_solver)) as [Hc Hpos].
  rewrite decide_False in H by lia. rewrite (decide_False (P := l = 0)) in H by lia.
  destruct (F c r) as [[]| | |] eqn:Hcr; simpl in H; try done.
  - apply IH in H; [done|set_solver|done| |].
    + intros c' Hc'. specialize (Hgt c' Hc'). lia.
    + split_and!; try done; lia.
  - rewrite decide_True in H by lia. injection H as <- <-. done.
Qed.

Lemma find_interval_spec all cs F l r :
  (∀ c, c ∈ cs → c ∈ all ∧ 0 < c) → StronglySorted Z.gt cs → find_interval cs F 0 0 = Ok (l, r) →
  (l = 0 ∧ r = 0 ∧ ∀ c, c ∈ cs → F c c = Ok false) ∨
  (interval_ok all F l r ∧ ∀ c, c ∈ cs → r < c → F c c = Ok false).
Proof.
  induction cs as [|c cs IH]; intros Hin Hss H; simpl in H; [injection H as <- <-; left; set_solver|].
  apply StronglySorted_inv in Hss as [Hss Hgt]. rewrite Forall_forall in Hgt.
  destruct (Hin c ltac:(set_solver)) as [Hc Hpos].
  destruct (F c c) as [[]| | |] eqn:Hcc; simpl in H; try done.
  - right. apply (find_interval_found all) in H as [Hok ->]; [|set_solver|done| |by split_and!].
    + split; [done|]. intros c' [->|Hc']%elem_of_cons; [lia|]. specialize (Hgt c' Hc'). lia.
    + intros c' Hc'. specialize (Hgt c' Hc'). lia.
  - destruct (IH ltac:(set_solver) Hss H) as [(-> & -> & Hf)|[Hok Hf]]; [left|right].
    + split_and!; [done..|]. intros c' [->|Hc']%elem_of_cons; auto.
    + split; [done|]. intros c' [->|Hc']%elem_of_cons; auto.
Qed.

(** * Properties *)

(** C13: federated voting finds every quorum.  If the nodes that pass the filter include a quorum (a
    set each of whose members has a slice inside it) that contains a slice of the local node, then
    [federatedRatify] answers true.  The local quorum and the announced ones must be regular, that is, the threshold is not NaN and
    every nested level needs at least one member to be blocked, and every statement must name a known quorum. *)
Theorem federatedRatify_complete (nodeID : string) (quorum : Quorum) (GetQuorum : string → res (option Quorum))
    (F : Statement → res bool) (stmts : Stmts) (voters u : gset string) :
  filter_nodes F stmts = Ok voters → all_quorums nodeID GetQuorum stmts →
  (∀ n q, node_quorum nodeID GetQuorum stmts n q → regular q) → regular quorum →
  u ⊆ voters → is_quorum nodeID GetQuorum stmts u → isQuorumSlice quorum u = true →
  federatedRatify nodeID quorum GetQuorum F stmts = Ok true.
Proof.
  intros Hf Hall Hmono [Hk Hmono'] Hu Hq Hl. unfold federatedRatify. rewrite Hf. simpl. unfold has_quorum.
  rewrite quorum_loop_run. case_decide as Hv.
  - assert (u = ∅) as -> by set_solver. simpl. by rewrite Hl.
  - destruct (satisfied_Ok nodeID GetQuorum stmts voters Hall) as [sub Hs].
    { intros n Hn. apply (filter_nodes_spec _ _ _ Hf) in Hn as (s & ? & _). eauto. }
    rewrite Hs. simpl. f_equal. apply (isQuorumSlice_mono quorum u); [done|done| |done].
    intros n Hn. apply (satisfied_spec _ _ _ _ _ Hs). split; [set_solver|].
    destruct (Hq n Hn) as (q & Hnq & Hsl). exists q. split; [done|].
    destruct (Hmono n q Hnq). by apply (isQuorumSlice_mono q u).
Qed.

(** C30: what the quorum test really requires.  The loop that should shrink the voters to a quorum
    runs one pass only, always ends, and keeps the voters that have a slice among all voters; the
    answer is whether these contain a slice of the local node. *)
Theorem federatedRatify_one_pass (nodeID : string) (quorum : Quorum) (GetQuorum : string → res (option Quorum))
    (F : Statement → res bool) (stmts : Stmts) (voters : gset string) :
  filter_nodes F stmts = Ok voters → all_quorums nodeID GetQuorum stmts →
  ∃ sub, federatedRatify nodeID quorum GetQuorum F stmts = Ok (isQuorumSlice quorum sub) ∧
    ∀ n, n ∈ sub ↔ n ∈ voters ∧ ∃ q, node_quorum nodeID GetQuorum stmts n q ∧ isQuorumSlice q voters = true.
Proof.
  intros Hf Hall. unfold federatedRatify. rewrite Hf. simpl. unfold has_quorum. rewrite quorum_loop_run.
  case_decide as Hv; [exists ∅; split; [done|set_solver]|].
  destruct (satisfied_Ok nodeID GetQuorum stmts voters Hall) as [sub Hs].
  { intros n Hn. apply (filter_nodes_spec _ _ _ Hf) in Hn as (s & ? & _). eauto. }
  exists sub. rewrite Hs. split; [done|]. by apply satisfied_spec.
Qed.

(** The commit interval.  Over counters in descending order, the search returns zeros exactly when
    no single counter passes; otherwise it returns counters l <= r of the list such that the
    interval passes, where r is the largest counter that passes on its own. *)
Theorem findCommitInterval_spec (counters : list Z) (F : Z → Z → res bool) (l r : Z) :
  StronglySorted Z.gt counters → Forall (λ c, 0 < c) counters → findCommitInterval counters F = Ok (l, r) →
  (l = 0 ∧ r = 0 ∧ ∀ c, c ∈ counters → F c c = Ok false) ∨
  (l ∈ counters ∧ r ∈ counters ∧ 0 < l <= r ∧ F l r = Ok true ∧ ∀ c, c ∈ counters → r < c → F c c = Ok false).
Proof.
  intros Hss Hpos H. rewrite Forall_forall in Hpos.
  destruct (find_interval_spec counters counters F l r) as [?|[(? & ? & ? & ? & _) ?]]; [auto|done|done|by left|right].
  split_and!; done || lia.
Qed.

(** * A federation without a quorum *)

Definition one_of (v : string) : Quorum := mkQuorum f64_one [v] [].
Definition vote (node hash : string) : Statement :=
  mkStatement StatementType_NOMINATE node 1 (Some (Stmt_Nominate (mkNominate ["x"] [] hash))).

(** The quorum hash of a node names the node it trusts. *)
Definition trusts (h : string) : res (option Quorum) := Ok (Some (one_of h)).
Definition chain : Stmts := {[ "a" := vote "a" "b"; "b" := vote "b" "c" ]}.

Lemma one_of_slice v s : isQuorumSlice (one_of v) s = bool_decide (v ∈ s).
Proof.
  apply Bool.eq_iff_eq_true. rewrite isQuorumSlice_hits by (done || (vm_compute; reflexivity)). unfold hits. simpl. rewrite bool_decide_eq_true.
  assert (slice_need (one_of v) = 1) as -> by (vm_compute; reflexivity).
  unfold count. simpl. case_bool_decide; split; done || lia.
Qed.

Lemma chain_quorum self n q : node_quorum self trusts chain n q → (n = "a" ∧ q = one_of "b") ∨ (n = "b" ∧ q = one_of "c").
Proof.
  intros (s & Hs & Hq). unfold chain in Hs.
  apply lookup_insert_Some in Hs as [[<- <-]|[_ Hs]]; [left; split; [done|by injection Hq]|].
  apply lookup_singleton_Some in Hs as [<- <-]. right. split; [done|by injection Hq].
Qed.

(** The one pass is not enough.  Two nodes vote; the first trusts the second, the second trusts a
    third that has not voted, and the local node trusts the first.  No quorum of voters exists that
    satisfies the local node, yet [federatedRatify] answers true. *)
Theorem federatedRatify_unsound :
  federatedRatify "me" (one_of "a") trusts (voteFilter "x") chain = Ok true ∧
  filter_nodes (voteFilter "x") chain = Ok {["a"; "b"]} ∧
  ∀ u : gset string, u ⊆ {["a"; "b"]} → is_quorum "me" trusts chain u → isQuorumSlice (one_of "a") u = false.
Proof.
  split; [vm_compute; reflexivity|]. split; [vm_compute; reflexivity|].
  intros u Hu Hq. rewrite one_of_slice. apply bool_decide_eq_false. intros Ha.
  assert ("b" ∉ u) as Hb.
  { intros Hb. destruct (Hq _ Hb) as (q & Hnq & Hsl). apply chain_quorum in Hnq as [[? _]|[_ ->]]; [done|].
    rewrite one_of_slice, bool_decide_eq_true in Hsl. set_solver. }
  destruct (Hq _ Ha) as (q & Hnq & Hsl). apply chain_quorum in Hnq as [[_ ->]|[? _]]; [|done].
  rewrite one_of_slice, bool_decide_eq_true in Hsl. done.
Qed.

(** ** Witnesses *)

Definition pair_votes : Stmts := {[ "a" := vote "a" "b"; "b" := vote "b" "a" ]}.

Lemma pair_all_quorums : all_quorums "me" trusts pair_votes.
Proof.
  intros n s Hs. unfold pair_votes in Hs. apply lookup_insert_Some in Hs as [[_ <-]|[_ Hs]]; [by eexists|].
  apply lookup_singleton_Some in Hs as [_ <-]. by eexists.
Qed.

Lemma pair_node_quorum n q : node_quorum "me" trusts pair_votes n q → q = one_of "a" ∨ q = one_of "b".
Proof.
  intros (s & Hs & Hq). unfold pair_votes in Hs. apply lookup_insert_Some in Hs as [[_ <-]|[_ Hs]]; [injection Hq; auto|].
  apply lookup_singleton_Some in Hs as [_ <-]. injection Hq; auto.
Qed.

Lemma federatedRatify_complete_witness :
  federatedRatify "me" (one_of "a") trusts (voteFilter "x") pair_votes = Ok true.
Proof.
  apply (federatedRatify_complete "me" (one_of "a") trusts (voteFilter "x") pair_votes {["a"; "b"]} {["a"; "b"]}).
  - vm_compute. reflexivity.
  - exact pair_all_quorums.
  - intros n q [->| ->]%pair_node_quorum; (split; [vm_compute; reflexivity|constructor]).
  - split; [vm_compute; reflexivity|constructor].
  - reflexivity.
  - intros n [->%elem_of_singleton| ->%elem_of_singleton]%elem_of_union.
    + exists (one_of "b"). split; [exists (vote "a" "b"); split; reflexivity|vm_compute; reflexivity].
    + exists (one_of "a"). split; [exists (vote "b" "a"); split; reflexivity|vm_compute; reflexivity].
  - vm_compute. reflexivity.
Defined.

Lemma federatedRatify_one_pass_witness :
  ∃ b, federatedRatify "me" (one_of "a") trusts (voteFilter "x") pair_votes = Ok b.
Proof.
  destruct (federatedRatify_one_pass "me" (one_of "a") trusts (voteFilter "x") pair_votes {["a"; "b"]}) as (sub & H & _);
    [vm_compute; reflexivity|exact pair_all_quorums|]. exists (isQuorumSlice (one_of "a") sub). exact H.
Defined.

(** Counters up to seven pass. *)
Definition up_to_seven (l r : Z) : res bool := Ok (bool_decide (r <= 7 ∧ 3 <= l)).

Lemma findCommitInterval_spec_witness : findCommitInterval [9; 7; 5; 2] up_to_seven = Ok (5, 7) ∧ up_to_seven 5 7 = Ok true.
Proof.
  split; [vm_compute; reflexivity|].
  destruct (findCommitInterval_spec [9; 7; 5; 2] up_to_seven 5 7) as [(H & _)|(_ & _ & _ & H & _)].
  - repeat constructor.
  - repeat constructor.
  - vm_compute. reflexivity.
  - discriminate H.
  - exact H.
Defined.
