(* ===== verification/Decree.v ===== *)
(** One decree of the consensus protocol, [consensus/decree.go]: nomination and ballot protocol.

    The state is the record [Decree].  Ballots are Go pointers, and [Reset] empties a ballot that
    other variables and statements already sent may point to, so the ballots the decree owns live
    in a heap and the variables [currentBallot], [pBallot], ... hold locations.  A statement built
    by the node holds the same locations; a statement from the network holds its own ballots, which
    nobody writes.

    The validator and the ledger manager are reached through the interface [DecreeEnv].  The mutual
    recursion recvBallot -> step -> accept/confirm -> sendBallot -> recvBallot is tied by fuel.
    Logging is left out; a channel is the list of what was sent on it; the timer of a
    re-nomination is recorded, not run. *)

From Stdlib Require Import SpecFloat.
From S2P Require Import Prelude Pb Crypto Quorum Ballot Federated.

(** * Interface to the validator and the ledger manager *)

Class DecreeEnv (E : Type) := {
  env_GetQuorum : E → string → res (option Quorum);
  env_GetTxSet : E → string → res (option TxSet);
  env_RecvTxSet : string → TxSet → M E unit;
  lm_LedgerSynced : E → bool;
  lm_NextLedgerHeaderSeq : E → Z;
  lm_CurrLedgerHeader : E → res LedgerHeader;
  lm_CurrLedgerHeaderHash : E → res string;
  lm_GetTxSet : E → string → res (option TxSet);
}.

(** * State *)

Inductive BallotPhase := BallotPhasePrepare | BallotPhaseConfirm | BallotPhaseExternalize.

#[global] Instance BallotPhase_eq_dec : EqDecision BallotPhase.
Proof. solve_decision. Defined.

Definition loc : Type := positive.

(** A statement in memory.  [ms_refs] is [None] for a statement from the network; for one built
    here it holds the locations of its ballots B, P and Q. *)
Record MStatement := mkMStatement {
  ms_val : Statement;
  ms_refs : option (option loc * option loc * option loc);
}.

Record Decree {E : Type} := mkDecree {
  d_env : E;
  d_index : Z;
  d_nodeID : string;
  d_quorum : Quorum;
  d_quorumHash : string;
  d_prevConsensusValue : string;
  d_votes : gset string;
  d_accepts : gset string;
  d_candidates : gset string;
  d_nominationLeaders : gset string;
  d_nominations : gmap string Statement;
  d_nominationRound : Z;
  d_nominationStart : bool;
  d_latestNomination : option Statement;
  d_latestComposite : string;
  d_currentPhase : BallotPhase;
  d_heap : gmap loc Ballot;
  d_next : loc;
  d_currentBallot : option loc;
  d_pBallot : option loc;
  d_qBallot : option loc;
  d_hBallot : option loc;
  d_cBallot : option loc;
  d_ballots : gmap string MStatement;
  d_latestBallot : option MStatement;
  d_nextValue : string;
  d_ballotMsgCount : Z;
  d_renomCount : Z;
  d_timers : list (string * string);
  d_statementChan : list MStatement;
  d_externalizeChan : list (Z * string);
}.
Arguments Decree E : clear implicits.

Definition maxRecursions : Z := 10.
Definition maxRenomCount : Z := 100.

(** The context: a nil quorum, manager, validator or channel does not typecheck, the empty strings are refused. *)
Definition NewDecree {E} (env : E) (index : Z) (nodeID : string) (quorum : Quorum) (quorumHash : string) : res (Decree E) :=
  if decide (nodeID = "") then Panic "decree context is invalid: empty node ID"
  else if decide (quorumHash = "") then Panic "decree context is invalid: initial quorum hash is empty"
  else Ok (mkDecree E env index nodeID quorum quorumHash "" ∅ ∅ ∅ ∅ ∅ 0 false None "" BallotPhasePrepare
             ∅ 1%positive None None None None None ∅ None "" 0 0 [] [] []).

(** The ballot protocol's variables, updated together. *)
Definition upd_ballot {E} (heap : gmap loc Ballot) (next : loc) (phase : BallotPhase) (b p q h c : option loc)
    (nextValue : string) (d : Decree E) : Decree E :=
  mkDecree E (d_env d) (d_index d) (d_nodeID d) (d_quorum d) (d_quorumHash d) (d_prevConsensusValue d)
    (d_votes d) (d_accepts d) (d_candidates d) (d_nominationLeaders d) (d_nominations d) (d_nominationRound d)
    (d_nominationStart d) (d_latestNomination d) (d_latestComposite d) phase heap next b p q h c
    (d_ballots d) (d_latestBallot d) nextValue (d_ballotMsgCount d) (d_renomCount d) (d_timers d)
    (d_statementChan d) (d_externalizeChan d).
(** The messages: statements received, latest sent, counter and channels. *)
Definition upd_msgs {E} (ballots : gmap string MStatement) (latest : option MStatement) (count : Z)
    (start : bool) (schan : list MStatement) (echan : list (Z * string)) (d : Decree E) : Decree E :=
  mkDecree E (d_env d) (d_index d) (d_nodeID d) (d_quorum d) (d_quorumHash d) (d_prevConsensusValue d)
    (d_votes d) (d_accepts d) (d_candidates d) (d_nominationLeaders d) (d_nominations d) (d_nominationRound d)
    start (d_latestNomination d) (d_latestComposite d) (d_currentPhase d) (d_heap d) (d_next d)
    (d_currentBallot d) (d_pBallot d) (d_qBallot d) (d_hBallot d) (d_cBallot d)
    ballots latest (d_nextValue d) count (d_renomCount d) (d_timers d) schan echan.
(** The nomination protocol's variables. *)
Definition upd_nom {E} (env : E) (prev : string) (votes accepts cands leaders : gset string)
    (noms : gmap string Statement) (round : Z) (start : bool) (latest : option Statement) (composite : string)
    (renom : Z) (timers : list (string * string)) (schan : list MStatement) (d : Decree E) : Decree E :=
  mkDecree E env (d_index d) (d_nodeID d) (d_quorum d) (d_quorumHash d) prev
    votes accepts cands leaders noms round start latest composite (d_currentPhase d) (d_heap d) (d_next d)
    (d_currentBallot d) (d_pBallot d) (d_qBallot d) (d_hBallot d) (d_cBallot d)
    (d_ballots d) (d_latestBallot d) (d_nextValue d) (d_ballotMsgCount d) renom timers schan (d_externalizeChan d).

Section setters.
Context {E : Type}.
Implicit Types d : Decree E.

Definition set_currentPhase (x : BallotPhase) d : Decree E :=
  upd_ballot (d_heap d) (d_next d) x (d_currentBallot d) (d_pBallot d) (d_qBallot d) (d_hBallot d) (d_cBallot d) (d_nextValue d) d.
Definition set_heap (x : gmap loc Ballot) d : Decree E :=
  upd_ballot x (d_next d) (d_currentPhase d) (d_currentBallot d) (d_pBallot d) (d_qBallot d) (d_hBallot d) (d_cBallot d) (d_nextValue d) d.
Definition set_currentBallot (x : option loc) d : Decree E :=
  upd_ballot (d_heap d) (d_next d) (d_currentPhase d) x (d_pBallot d) (d_qBallot d) (d_hBallot d) (d_cBallot d) (d_nextValue d) d.
Definition set_pBallot (x : option loc) d : Decree E :=
  upd_ballot (d_heap d) (d_next d) (d_currentPhase d) (d_currentBallot d) x (d_qBallot d) (d_hBallot d) (d_cBallot d) (d_nextValue d) d.
Definition set_qBallot (x : option loc) d : Decree E :=
  upd_ballot (d_heap d) (d_next d) (d_currentPhase d) (d_currentBallot d) (d_pBallot d) x (d_hBallot d) (d_cBallot d) (d_nextValue d) d.
Definition set_hBallot (x : option loc) d : Decree E :=
  upd_ballot (d_heap d) (d_next d) (d_currentPhase d) (d_currentBallot d) (d_pBallot d) (d_qBallot d) x (d_cBallot d) (d_nextValue d) d.
Definition set_cBallot (x : option loc) d : Decree E :=
  upd_ballot (d_heap d) (d_next d) (d_currentPhase d) (d_currentBallot d) (d_pBallot d) (d_qBallot d) (d_hBallot d) x (d_nextValue d) d.
Definition set_nextValue (x : string) d : Decree E :=
  upd_ballot (d_heap d) (d_next d) (d_currentPhase d) (d_currentBallot d) (d_pBallot d) (d_qBallot d) (d_hBallot d) (d_cBallot d) x d.
Definition set_ballots (x : gmap string MStatement) d : Decree E :=
  upd_msgs x (d_latestBallot d) (d_ballotMsgCount d) (d_nominationStart d) (d_statementChan d) (d_externalizeChan d) d.
Definition set_latestBallot (x : option MStatement) d : Decree E :=
  upd_msgs (d_ballots d) x (d_ballotMsgCount d) (d_nominationStart d) (d_statementChan d) (d_externalizeChan d) d.
Definition set_ballotMsgCount (x : Z) d : Decree E :=
  upd_msgs (d_ballots d) (d_latestBallot d) x (d_nominationStart d) (d_statementChan d) (d_externalizeChan d) d.
Definition set_nominationStart (x : bool) d : Decree E :=
  upd_msgs (d_ballots d) (d_latestBallot d) (d_ballotMsgCount d) x (d_statementChan d) (d_externalizeChan d) d.
Definition set_statementChan (x : list MStatement) d : Decree E :=
  upd_msgs (d_ballots d) (d_latestBallot d) (d_ballotMsgCount d) (d_nominationStart d) x (d_externalizeChan d) d.
Definition set_externalizeChan (x : list (Z * string)) d : Decree E :=
  upd_msgs (d_ballots d) (d_latestBallot d) (d_ballotMsgCount d) (d_nominationStart d) (d_statementChan d) x d.

(** ** The heap *)

Definition rd d (o : option loc) : option Ballot := o ≫= λ l, d_heap d !! l.
Definition cur d : option Ballot := rd d (d_currentBallot d).
Definition pb d : option Ballot := rd d (d_pBallot d).
Definition qb d : option Ballot := rd d (d_qBallot d).
Definition hb d : option Ballot := rd d (d_hBallot d).
Definition cb d : option Ballot := rd d (d_cBallot d).

(** A new object. *)
Definition alloc (b : Ballot) : M (Decree E) loc := λ d,
  let l := d_next d in
  (upd_ballot (<[l := b]> (d_heap d)) (Pos.succ l) (d_currentPhase d) (d_currentBallot d) (d_pBallot d) (d_qBallot d)
     (d_hBallot d) (d_cBallot d) (d_nextValue d) d, Ok l).
Definition alloc_opt (o : option Ballot) : M (Decree E) (option loc) :=
  match o with Some b => let! l := alloc b in ret (Some l) | None => ret None end.

(** [x.Reset()] *)
Definition reset (o : option loc) : M (Decree E) unit :=
  let! l := lift (deref o) in
  modify (λ d, set_heap (<[l := mkBallot 0 ""]> (d_heap d)) d).

(** The statement a memory statement is now. *)
Definition resolve (h : gmap loc Ballot) (m : MStatement) : Statement :=
  match ms_refs m with
  | None => ms_val m
  | Some (b, p, q) =>
      let at_ o := o ≫= λ l, h !! l in
      let s := ms_val m in
      mkStatement (s_Type s) (s_NodeID s) (s_Index s)
        (match s_Stmt s with
         | Some (Stmt_Prepare x) =>
             Some (Stmt_Prepare (mkPrepare (at_ b) (at_ q) (at_ p) (prep_HC x) (prep_LC x) (prep_QuorumHash x)))
         | Some (Stmt_Confirm x) =>
             Some (Stmt_Confirm (mkConfirm (at_ b) (conf_PC x) (conf_LC x) (conf_HC x) (conf_QuorumHash x)))
         | Some (Stmt_Externalize x) => Some (Stmt_Externalize (mkExternalize (at_ b) (ext_HC x) (ext_QuorumHash x)))
         | o => o
         end)
  end.

(** The ballot statements as they read now. *)
Definition view d : Stmts := resolve (d_heap d) <$> d_ballots d.

End setters.

(** * Reading the state *)

Definition gets {S A} (f : S → A) : M S A := λ s, (s, Ok (f s)).

Section protocol.
Context {E : Type} {Env : DecreeEnv E} {Crypto : CryptoLib} {Pbc : PbCodec} {GoRt : GoRuntime}.
Implicit Types d : Decree E.

(** Federated voting of the local node over the ballot statements. *)
Definition ballot_accept (voteF acceptF : Statement → res bool) : M (Decree E) bool := λ d,
  (d, federatedAccept (d_nodeID d) (d_quorum d) (env_GetQuorum (d_env d)) voteF acceptF (view d)).
Definition ballot_ratify (filterF : Statement → res bool) : M (Decree E) bool := λ d,
  (d, federatedRatify (d_nodeID d) (d_quorum d) (env_GetQuorum (d_env d)) filterF (view d)).

(** * Validation *)

Definition decode_value (e1 e2 val : string) : res ConsensusValue :=
  match b58_Decode val with
  | None => Err e1
  | Some vb => res_wrap e2 (decode_res vb)
  end.

Definition validateConsensusValueFull d (cv : ConsensusValue) : res unit :=
  if lm_LedgerSynced (d_env d) && bool_decide (lm_NextLedgerHeaderSeq (d_env d) ≠ d_index d)
  then Err "consensus value is not compatible with ledger state"
  else
    let? header := lm_CurrLedgerHeader (d_env d) in
    let? _ :=
      if decide (lh_ConsensusValue header ≠ "") then
        let? headerCV := decode_value "decode hex string failed: " "decode ledger header consensus value failed: "
                           (lh_ConsensusValue header) in
        if decide (cv_ProposeTime cv < cv_ProposeTime headerCV) then Err "consensus value is too old" else Ok tt
      else Ok tt in
    match lm_GetTxSet (d_env d) (cv_TxSetHash cv) with
    | Ok (Some _) => Ok tt
    | Panic w => Panic w
    | NoFuel => NoFuel
    | _ => Err "get txset failed: "
    end.

Definition validateConsensusValue d (val : string) : res unit :=
  let? cv := decode_value "decode hex string failed: " "decode consensus value failed: " val in
  res_wrap "consensus value is not valid: " (validateConsensusValueFull d cv).

(** Every value is checked and the last error wins. *)
Definition validate_values d (values : list string) : res unit :=
  foldl (λ acc v,
    match acc with
    | Panic w => Panic w
    | NoFuel => NoFuel
    | _ => match validateConsensusValue d v with Ok _ => acc | r => r end
    end) (Ok tt) values.

(** The sanity checks on the counters, and the values to validate. *)
Definition validate_prepare (fromSelf : bool) (p : Prepare) : res (gset string) :=
  let? zero := if fromSelf then Ok false else let? b := deref (prep_B p) in Ok (bool_decide (b_Counter b = 0)) in
  if zero : bool then Err "prepare ballot counter is zero and not self msg"
  else if bool_decide (is_Some (prep_Q p)) && bool_decide (is_Some (prep_P p)) &&
          negb (lessAndIncompatibleBallots (prep_Q p) (prep_P p))
  then Err "prepare q ballot and p ballot are not in expected states"
  else if negb (bool_decide (prep_HC p = 0) ||
                match prep_P p with Some x => bool_decide (prep_HC p <= b_Counter x) | None => false end)
  then Err "prepare p ballot and higher counters are not in expected states"
  else
    let? ok :=
      if decide (prep_LC p = 0) then Ok true
      else if decide (prep_HC p = 0) then Ok false
      else let? b := deref (prep_B p) in Ok (bool_decide (prep_HC p <= b_Counter b ∧ prep_LC p <= prep_HC p)) in
    if ok : bool then
      Ok ((match prep_B p with
           | Some b => if decide (0 < b_Counter b) then {[b_Value b]} else ∅
           | None => ∅
           end) ∪ (match prep_P p with Some x => {[b_Value x]} | None => ∅ end))
    else Err "prepare ballot counters are not in expected states".

Definition validate_confirm (c : Confirm) : res (gset string) :=
  let? b := deref (conf_B c) in
  if decide (b_Counter b = 0) then Err "confirm current ballot counter should not be zero"
  else if decide (conf_LC c <= conf_HC c ∧ conf_HC c <= b_Counter b) then Ok {[b_Value b]}
  else Err "confirm ballot counters are not in expected states".

Definition validate_externalize (e : Externalize) : res (gset string) :=
  let? b := deref (ext_B e) in
  if decide (0 < b_Counter b ∧ b_Counter b <= ext_HC e) then Ok {[b_Value b]}
  else Err "externalize ballot counters are not in expected states".

Definition validateBallot d (stmt : Statement) : res unit :=
  let? quorum := getStatementQuorum (d_nodeID d) (env_GetQuorum (d_env d)) stmt in
  let? q := deref quorum in
  let? _ := res_wrap "validate quorum failed: " (ValidateQuorum false 0 q) in
  let? values :=
    match s_Type stmt with
    | StatementType_PREPARE =>
        let? p := GetPrepare stmt in validate_prepare (bool_decide (d_nodeID d = s_NodeID stmt)) p
    | StatementType_CONFIRM => let? c := GetConfirm stmt in validate_confirm c
    | StatementType_EXTERNALIZE => let? e := GetExternalize stmt in validate_externalize e
    | _ => unknown_type
    end in
  validate_values d (elements values).

(** [checkBallotInvariants] kills the process when the ballots are inconsistent. *)
Definition checkBallotInvariants d : res unit :=
  let? _ := match cur d with
            | Some b => if decide (b_Counter b = 0) then Panic "current ballot is not nil but counter is zero" else Ok tt
            | None => Ok tt
            end in
  let? _ := if bool_decide (is_Some (pb d)) && bool_decide (is_Some (qb d)) && negb (lessAndIncompatibleBallots (qb d) (pb d))
            then Panic "q ballot and p ballot invariant not satisfied" else Ok tt in
  let? _ := if decide (is_Some (hb d)) then
              if decide (cur d = None) then Panic "high ballot is not nil but current ballot is nil"
              else if lessAndCompatibleBallots (hb d) (cur d) then Ok tt
              else Panic "current ballot and higher ballot invariant not satisfied"
            else Ok tt in
  let? _ := if decide (is_Some (cb d)) then
              if decide (cur d = None) then Panic "commit ballot is not nil but current ballot is nil"
              else if negb (lessAndCompatibleBallots (cb d) (hb d))
              then Panic "commit ballot and higher ballot invariant not satisfied"
              else if lessAndCompatibleBallots (hb d) (cur d) then Ok tt
              else Panic "current ballot and higher ballot invariant not satisfied"
            else Ok tt in
  match d_currentPhase d with
  | BallotPhasePrepare => Ok tt
  | BallotPhaseConfirm => if decide (cb d = None) then Panic "commit ballot should not be nil in confirm phase" else Ok tt
  | BallotPhaseExternalize =>
      if decide (cb d = None) then Panic "commit ballot should not be nil in externalize phase"
      else if decide (hb d = None) then Panic "higher ballot should not be nil in externalize phase"
      else Ok tt
  end.

Definition checkInvariants : M (Decree E) unit := λ d, (d, checkBallotInvariants d).

(** * The current ballot *)

Definition active (p : BallotPhase) : bool := bool_decide (p ≠ BallotPhaseExternalize).

Definition updateBallot (b : option Ballot) (check : bool) : M (Decree E) unit :=
  match b with
  | None => panic "cannot update ballot with nil ballot"
  | Some b =>
      let! d := get in
      if active (d_currentPhase d) then
        if check && bool_decide (is_Some (cur d)) && bool_decide (compareBallots (cur d) (Some b) > 0)
        then panic "cannot update current ballot with smaller one"
        else
          let! l := alloc b in
          do! modify (set_currentBallot (Some l)) in
          let! d := get in
          if bool_decide (is_Some (hb d)) && negb (compatibleBallots (cur d) (hb d)) then reset (d_hBallot d) else ret tt
      else panic "should not update ballot in externalize phase"
  end.

Definition updateBallotIfNeeded (b : option Ballot) : M (Decree E) bool :=
  let! d := get in
  if bool_decide (cur d = None) || bool_decide (compareBallots (cur d) b < 0)
  then do! updateBallot b true in ret true
  else ret false.

Definition updateBallotValue (b : Ballot) : M (Decree E) bool :=
  let! d := get in
  if negb (active (d_currentPhase d)) then ret false
  else if decide (cur d = None) then do! updateBallot (Some b) true in do! checkInvariants in ret true
  else if bool_decide (is_Some (cb d)) && negb (compatibleBallots (cb d) (Some b)) then ret false
  else if decide (compareBallots (cur d) (Some b) <= 0) then
    do! updateBallot (Some b) true in do! checkInvariants in ret true
  else do! checkInvariants in ret false.

(** * Messages

    [recv] is [recvBallot], which the handlers below call back through [sendBallot]. *)

Section handlers.
Variable recv : MStatement → M (Decree E) unit.

(** The statement of the current phase.  The counters are copied, the ballots are shared. *)
Definition ballot_statement d : res MStatement :=
  let stmt t body := mkStatement t (d_nodeID d) (d_index d) (Some body) in
  let counter (o : option Ballot) : Z := match o with Some b => b_Counter b | None => 0 end in
  match d_currentPhase d with
  | BallotPhasePrepare =>
      Ok (mkMStatement
            (stmt StatementType_PREPARE
               (Stmt_Prepare (mkPrepare (cur d) (qb d) (pb d) (counter (hb d)) (counter (cb d)) (d_quorumHash d))))
            (Some (d_currentBallot d, d_pBallot d, d_qBallot d)))
  | BallotPhaseConfirm =>
      let? p := deref (pb d) in
      let? c := deref (cb d) in
      let? h := deref (hb d) in
      Ok (mkMStatement
            (stmt StatementType_CONFIRM
               (Stmt_Confirm (mkConfirm (cur d) (b_Counter p) (b_Counter c) (b_Counter h) (d_quorumHash d))))
            (Some (d_currentBallot d, None, None)))
  | BallotPhaseExternalize =>
      let? h := deref (hb d) in
      Ok (mkMStatement
            (stmt StatementType_EXTERNALIZE (Stmt_Externalize (mkExternalize (cb d) (b_Counter h) (d_quorumHash d))))
            (Some (d_cBallot d, None, None)))
  end.

Definition broadcast (m : MStatement) : M (Decree E) unit :=
  modify (λ d, set_statementChan (d_statementChan d ++ [m]) d).

Definition newer_than_latest (m : MStatement) : M (Decree E) bool :=
  let! d := get in
  match d_latestBallot d with
  | None => ret true
  | Some l => lift (isNewerBallot (resolve (d_heap d) l) (resolve (d_heap d) m))
  end.

Definition sendBallot : M (Decree E) unit :=
  do! checkInvariants in
  let! d := get in
  let! stmt := lift (ballot_statement d) in
  if decide (d_currentBallot d = None) then ret tt
  else
    if decide (view d !! d_nodeID d = Some (resolve (d_heap d) stmt)) then ret tt
    else
      do! wrap "recv local ballot failed: " (recv stmt) in
      let! d := get in
      if decide (d_currentBallot d = None) then ret tt
      else
        let! newer := newer_than_latest stmt in
        if newer : bool then
          do! modify (set_latestBallot (Some stmt)) in
          broadcast stmt
        else ret tt.

(** [d.sendBallot()] as a statement: the error is dropped. *)
Definition sendBallot_ : M (Decree E) unit := do! try sendBallot in ret tt.

Definition updateBallotPhaseWithCounter (val : string) (counter : Z) : M (Decree E) bool :=
  let! d := get in
  if negb (active (d_currentPhase d)) then ret false
  else
    let b := mkBallot counter (if decide (d_nextValue d ≠ "") then d_nextValue d else val) in
    let! updated := updateBallotValue b in
    do! (if updated : bool then sendBallot_ else ret tt) in
    ret updated.

Definition updateBallotPhase (val : string) (force : bool) : M (Decree E) bool :=
  let! d := get in
  match cur d with
  | Some b => if force then updateBallotPhaseWithCounter val (uwrap32 (b_Counter b + 1)) else ret false
  | None => updateBallotPhaseWithCounter val 1
  end.

Definition abandonBallot (c : Z) : M (Decree E) bool :=
  let! d := get in
  let cv := if decide (d_latestComposite d ≠ "") then d_latestComposite d
            else match cur d with Some b => b_Value b | None => "" end in
  if decide (cv ≠ "") then
    if decide (c = 0) then updateBallotPhase cv true else updateBallotPhaseWithCounter cv c
  else ret false.

(** * Accepting and confirming as prepared *)

Definition setAcceptPrepared (l : loc) : M (Decree E) bool :=
  let! d := get in
  let b := rd d (Some l) in
  if decide (pb d = None) then do! modify (set_pBallot (Some l)) in ret true
  else
    let cmp := compareBallots b (pb d) in
    if decide (cmp < 0) then
      if bool_decide (qb d = None) || (bool_decide (compareBallots b (qb d) > 0) && negb (compatibleBallots b (pb d)))
      then do! modify (set_qBallot (Some l)) in ret true
      else ret false
    else if decide (cmp > 0) then
      do! (if negb (compatibleBallots b (pb d)) then modify (λ d, set_qBallot (d_pBallot d) d) else ret tt) in
      do! modify (set_pBallot (Some l)) in ret true
    else ret false.

Fixpoint alloc_all (bs : list Ballot) : M (Decree E) (list loc) :=
  match bs with
  | [] => ret []
  | b :: bs => let! l := alloc b in let! ls := alloc_all bs in ret (l :: ls)
  end.

(** The candidates are new objects. *)
Definition prepared_candidates (stmt : MStatement) : M (Decree E) (list loc) :=
  let! d := get in
  let! cands := lift (getPreparedCandidates (resolve (d_heap d) stmt) (view d)) in
  alloc_all cands.

(** What follows a successful [federatedAccept]. *)
Definition accept_candidate (cand : loc) : M (Decree E) bool :=
  let! updated := setAcceptPrepared cand in
  let! d := get in
  let void :=
    bool_decide (is_Some (cb d)) && bool_decide (is_Some (hb d)) &&
    ((bool_decide (is_Some (pb d)) && lessAndIncompatibleBallots (hb d) (pb d)) ||
     (bool_decide (is_Some (qb d)) && lessAndIncompatibleBallots (hb d) (qb d))) &&
    bool_decide (d_currentPhase d = BallotPhasePrepare) in
  let! updated := (if void then do! reset (d_cBallot d) in ret true else ret updated) in
  do! (if updated : bool then sendBallot_ else ret tt) in
  ret updated.

Fixpoint accept_loop (cands : list loc) : M (Decree E) bool :=
  match cands with
  | [] => ret false
  | l :: cands =>
      let! d := get in
      let cand := rd d (Some l) in
      if bool_decide (d_currentPhase d = BallotPhaseConfirm) && negb (lessAndCompatibleBallots (pb d) cand)
      then accept_loop cands
      else if bool_decide (d_currentPhase d = BallotPhaseConfirm) && negb (compatibleBallots (cb d) cand)
      then panic "candidate ballot and commit ballot are not compatible"
      else if bool_decide (is_Some (qb d)) && bool_decide (compareBallots cand (qb d) <= 0) then accept_loop cands
      else if bool_decide (is_Some (pb d)) && lessAndCompatibleBallots cand (pb d) then accept_loop cands
      else
        let! accepted := ballot_accept (prepareVoteFilter cand) (prepareAcceptFilter cand) in
        if accepted : bool then accept_candidate l else accept_loop cands
  end.

Definition acceptPrepared (stmt : MStatement) : M (Decree E) bool :=
  let! d := get in
  if active (d_currentPhase d) then
    let! cands := prepared_candidates stmt in
    accept_loop cands
  else ret false.

(** The highest candidate that is ratified, and the candidates from it on. *)
Fixpoint h_loop (cands : list loc) : M (Decree E) (option (loc * list loc)) :=
  match cands with
  | [] => ret None
  | l :: rest =>
      let! d := get in
      let cand := rd d (Some l) in
      if bool_decide (is_Some (hb d)) && bool_decide (compareBallots cand (hb d) <= 0) then ret None
      else
        let! ratified := ballot_ratify (prepareAcceptFilter cand) in
        if ratified : bool then ret (Some (l, cands)) else h_loop rest
  end.

(** The lowest candidate compatible with [h], not below the current ballot, down to which all are ratified. *)
Fixpoint c_loop (curb h : option Ballot) (cands : list loc) (c : option loc) : M (Decree E) (option loc) :=
  match cands with
  | [] => ret c
  | l :: rest =>
      let! d := get in
      let cand := rd d (Some l) in
      if decide (compareBallots cand curb < 0) then ret c
      else if negb (lessAndCompatibleBallots cand h) then c_loop curb h rest c
      else
        let! ratified := ballot_ratify (prepareAcceptFilter cand) in
        if ratified : bool then c_loop curb h rest (Some l) else ret c
  end.

Definition setConfirmPrepared (c : option loc) (h : loc) : M (Decree E) bool :=
  let! d := get in
  let! hv := lift (deref (rd d (Some h))) in
  do! modify (set_nextValue (b_Value hv)) in
  let hballot := Some hv in
  let! updated :=
    (if bool_decide (cur d = None) || compatibleBallots (cur d) hballot then
       let setH := bool_decide (hb d = None) || bool_decide (compareBallots (hb d) hballot < 0) in
       let setC := bool_decide (cb d = None) || bool_decide (compareBallots (rd d c) (cb d) < 0) in
       do! (if setH then modify (set_hBallot (Some h)) else ret tt) in
       do! (if setC then modify (set_cBallot c) else ret tt) in
       ret (setH || setC)
     else ret false) in
  let! needed := updateBallotIfNeeded hballot in
  let updated := needed || updated in
  do! (if updated then sendBallot_ else ret tt) in
  ret updated.

Definition confirmPrepared (stmt : MStatement) : M (Decree E) bool :=
  let! d := get in
  if bool_decide (d_currentPhase d ≠ BallotPhasePrepare) || bool_decide (pb d = None) then ret false
  else
    let! cands := prepared_candidates stmt in
    let! found := h_loop cands in
    match found with
    | None => ret false
    | Some (h, rest) =>
        let! d := get in
        let hv := rd d (Some h) in
        let curb := match cur d with Some b => Some b | None => Some (mkBallot 0 "") end in
        let! c :=
          (if bool_decide (cb d = None) &&
              (bool_decide (pb d = None) || negb (lessAndIncompatibleBallots hv (pb d))) &&
              (bool_decide (qb d = None) || negb (lessAndIncompatibleBallots hv (qb d)))
           then c_loop curb hv rest None else ret None) in
        setConfirmPrepared c h
    end.

(** * Accepting and confirming a commit *)

Definition setAcceptCommit (c h : loc) : M (Decree E) bool :=
  let! d := get in
  let! hv := lift (deref (rd d (Some h))) in
  do! modify (set_nextValue (b_Value hv)) in
  let changed :=
    bool_decide (hb d = None) || bool_decide (cb d = None) ||
    bool_decide (compareBallots (hb d) (Some hv) ≠ 0) || bool_decide (compareBallots (cb d) (rd d (Some c)) ≠ 0) in
  do! (if changed then do! modify (set_hBallot (Some h)) in modify (set_cBallot (Some c)) else ret tt) in
  let! updated :=
    (if decide (d_currentPhase d = BallotPhasePrepare) then
       do! modify (set_currentPhase BallotPhaseConfirm) in
       do! (if bool_decide (is_Some (cur d)) && negb (lessAndCompatibleBallots (Some hv) (cur d))
            then updateBallot (Some hv) false else ret tt) in
       let! d := get in
       do! (if decide (is_Some (qb d)) then reset (d_qBallot d) else ret tt) in
       ret true
     else ret changed) in
  do! (if updated : bool then
         let! d := get in
         do! updateBallotIfNeeded (hb d) in
         sendBallot_
       else ret tt) in
  ret updated.

(** The ballot that a statement votes to commit: its value with the high counter. *)
Definition commit_ballot (s : Statement) : res (option Ballot) :=
  match s_Type s with
  | StatementType_PREPARE =>
      let? p := GetPrepare s in
      if decide (prep_LC p = 0) then Ok None
      else let? b := deref (prep_B p) in Ok (Some (mkBallot (prep_HC p) (b_Value b)))
  | StatementType_CONFIRM =>
      let? c := GetConfirm s in let? b := deref (conf_B c) in Ok (Some (mkBallot (conf_HC c) (b_Value b)))
  | StatementType_EXTERNALIZE =>
      let? e := GetExternalize s in let? b := deref (ext_B e) in Ok (Some (mkBallot (ext_HC e) (b_Value b)))
  | _ => unknown_type
  end.

Definition accept_interval d (b : Ballot) : res (Z * Z) :=
  let? counters := getCommitCounters b (view d) in
  findCommitInterval counters (λ l r,
    federatedAccept (d_nodeID d) (d_quorum d) (env_GetQuorum (d_env d))
      (commitVoteFilter (Some b) l r) (commitAcceptFilter (Some b) l r) (view d)).

Definition ratify_interval d (b : Ballot) : res (Z * Z) :=
  let? counters := getCommitCounters b (view d) in
  findCommitInterval counters (λ l r,
    federatedRatify (d_nodeID d) (d_quorum d) (env_GetQuorum (d_env d)) (commitAcceptFilter (Some b) l r) (view d)).

Definition acceptCommit (stmt : MStatement) : M (Decree E) bool :=
  let! d := get in
  if negb (active (d_currentPhase d)) then ret false
  else
    let! o := lift (commit_ballot (resolve (d_heap d) stmt)) in
    match o with
    | None => ret false
    | Some b =>
        if bool_decide (d_currentPhase d = BallotPhaseConfirm) && negb (compatibleBallots (Some b) (hb d)) then ret false
        else
          let! '(lb, rb) := lift (accept_interval d b) in
          if decide (lb = 0) then ret false
          else
            let! better :=
              (if decide (d_currentPhase d ≠ BallotPhaseConfirm) then ret true
               else let! h := lift (deref (hb d)) in ret (bool_decide (b_Counter h < rb))) in
            if better : bool then
              let! c := alloc (mkBallot lb (b_Value b)) in
              let! h := alloc (mkBallot rb (b_Value b)) in
              setAcceptCommit c h
            else ret false
    end.

Definition setConfirmCommit (c h : loc) : M (Decree E) bool :=
  do! modify (set_cBallot (Some c)) in
  do! modify (set_hBallot (Some h)) in
  let! d := get in
  do! updateBallotIfNeeded (hb d) in
  do! modify (set_currentPhase BallotPhaseExternalize) in
  do! sendBallot_ in
  do! modify (set_nominationStart false) in
  let! d := get in
  let! cv := lift (deref (cb d)) in
  do! modify (λ d, set_externalizeChan (d_externalizeChan d ++ [(d_index d, b_Value cv)]) d) in
  ret true.

Definition confirmCommit (stmt : MStatement) : M (Decree E) bool :=
  let! d := get in
  if bool_decide (d_currentPhase d ≠ BallotPhaseConfirm) || bool_decide (hb d = None) || bool_decide (cb d = None)
  then ret false
  else
    let s := resolve (d_heap d) stmt in
    if decide (s_Type s = StatementType_PREPARE) then ret false
    else
      let! o := lift (commit_ballot s) in
      match o with
      | None => ret false
      | Some b =>
          if negb (compatibleBallots (cb d) (Some b)) then ret false
          else
            let! '(lb, rb) := lift (ratify_interval d b) in
            if decide (lb = 0) then ret false
            else
              let! c := alloc (mkBallot lb (b_Value b)) in
              let! h := alloc (mkBallot rb (b_Value b)) in
              setConfirmCommit c h
      end.

(** * Following the counters of the other nodes *)

Definition stmt_counters (s : Statement) : res (list Z) :=
  match s_Type s with
  | StatementType_PREPARE => let? p := GetPrepare s in let? b := deref (prep_B p) in Ok [b_Counter b]
  | StatementType_CONFIRM => let? c := GetConfirm s in let? b := deref (conf_B c) in Ok [b_Counter b]
  | StatementType_EXTERNALIZE => Ok [MaxUint32]
  | _ => unknown_type
  end.

Definition stmtFilter (counter : Z) (s : Statement) : res bool :=
  match s_Type s with
  | StatementType_PREPARE => let? p := GetPrepare s in let? b := deref (prep_B p) in Ok (bool_decide (counter < b_Counter b))
  | StatementType_CONFIRM => let? c := GetConfirm s in let? b := deref (conf_B c) in Ok (bool_decide (counter < b_Counter b))
  | _ => Ok (bool_decide (counter ≠ MaxUint32))
  end.

(** The nodes ahead of a counter. *)
Definition nodes_ahead (c : Z) (stmts : Stmts) : res (gset string) :=
  collect (λ s, let? b := stmtFilter c s in Ok (if b : bool then [s_NodeID s] else [])) stmts.

(** The loop over the sorted counters: [Some c] when the ballot is to be abandoned for counter [c]. *)
Fixpoint find_counter (quorum : Quorum) (stmts : Stmts) (target : Z) (counters : list Z) (nodes : gset string)
    : res (option Z) :=
  match counters with
  | [] => Ok None
  | c :: counters =>
      if decide (c < target) then Ok None
      else
        let? ahead := nodes_ahead c stmts in
        let nodes := nodes ∪ ahead in
        if isVblocking quorum nodes then find_counter quorum stmts target counters nodes
        else if decide (c = target) then Ok None
        else Ok (Some c)
  end.

Definition update : M (Decree E) bool :=
  let! d := get in
  if negb (active (d_currentPhase d)) then ret false
  else
    let! counters := lift (collect stmt_counters (view d)) in
    let target := match cur d with Some b => b_Counter b | None => 0 end in
    let sorted := go_sort (λ x y, bool_decide (x < y)) (elements ({[target]} ∪ counters)) in
    let! o := lift (find_counter (d_quorum d) (view d) target sorted ∅) in
    match o with
    | Some c => abandonBallot c
    | None => ret false
    end.

(** [for { counterUpdated = d.update(); ... }] *)
Fixpoint update_loop (fuel : nat) (updated : bool) : M (Decree E) bool :=
  match fuel with
  | O => λ d, (d, NoFuel)
  | S fuel =>
      let! counterUpdated := update in
      if counterUpdated : bool then update_loop fuel true else ret updated
  end.

(** * One step *)

Definition step (fuel : nat) (stmt : MStatement) : M (Decree E) unit :=
  do! modify (λ d, set_ballotMsgCount (d_ballotMsgCount d + 1) d) in
  let! d := get in
  if decide (d_ballotMsgCount d = maxRecursions) then fail "max number of invoking reached in step"
  else
    let! u1 := acceptPrepared stmt in
    let! u2 := confirmPrepared stmt in
    let! u3 := acceptCommit stmt in
    let! u4 := confirmCommit stmt in
    let updated := u4 || u3 || u2 || u1 in
    let! d := get in
    let! updated := (if decide (d_ballotMsgCount d = 1) then update_loop fuel updated else ret updated) in
    do! modify (λ d, set_ballotMsgCount (d_ballotMsgCount d - 1) d) in
    let! d := get in
    match d_latestBallot d with
    | Some m => if updated : bool then broadcast m else ret tt
    | None => ret tt
    end.

Definition store (stmt : MStatement) : M (Decree E) unit :=
  modify (λ d, set_ballots (<[s_NodeID (ms_val stmt) := stmt]> (d_ballots d)) d).

Definition is_newer_ballot d (stmt : MStatement) : res bool :=
  match d_ballots d !! s_NodeID (ms_val stmt) with
  | Some s => isNewerBallot (resolve (d_heap d) s) (resolve (d_heap d) stmt)
  | None => Ok true
  end.

(** The body of [recvBallot]. *)
Definition recv_body (fuel : nat) (stmt : MStatement) : M (Decree E) unit :=
  let! d := get in
  if decide (s_Index (ms_val stmt) ≠ d_index d) then fail "ballot indices are incompatible"
  else
    let! newer := lift (is_newer_ballot d stmt) in
    if negb newer then ret tt
    else
      do! wrap "ballot is invalid: " (lift (validateBallot d (resolve (d_heap d) stmt))) in
      if active (d_currentPhase d) then
        do! store stmt in
        wrap "step forward ballot state failed: " (step fuel stmt)
      else
        let! wb := lift (getWorkingBallot (resolve (d_heap d) stmt)) in
        let! c := lift (deref (cb d)) in
        let! w := lift (deref wb) in
        if decide (b_Value c ≠ b_Value w) then fail "incompatible working ballot value"
        else store stmt.

End handlers.

(** The recursion through [sendBallot], to a depth of [fuel]. *)
Fixpoint recvBallot (fuel : nat) (stmt : MStatement) : M (Decree E) unit :=
  match fuel with
  | O => λ d, (d, NoFuel)
  | S fuel => recv_body (recvBallot fuel) fuel stmt
  end.

End protocol.

(** * The life of a decree *)

Definition phase_num (p : BallotPhase) : Z :=
  match p with BallotPhasePrepare => 0 | BallotPhaseConfirm => 1 | BallotPhaseExternalize => 2 end.

(** What the ballot protocol has decided: its ballots and what it announced. *)
Definition decided {E} (d : Decree E) :=
  (d_heap d, d_currentBallot d, (d_pBallot d, d_qBallot d), (d_hBallot d, d_cBallot d), d_externalizeChan d).

(** Nothing decided is announced yet, or the value of the committed ballot is announced, once. *)
Definition announced {E} (d d' : Decree E) : Prop :=
  d_externalizeChan d' = d_externalizeChan d ∨
  ∃ c, cb d' = Some c ∧ d_externalizeChan d' = d_externalizeChan d ++ [(d_index d, b_Value c)].

(** The sets of the nomination protocol only grow, and what is accepted stays voted for. *)
Definition grows {E} (d d' : Decree E) : Prop :=
  d_votes d ⊆ d_votes d' ∧ d_accepts d ⊆ d_accepts d' ∧ d_candidates d ⊆ d_candidates d' ∧
  d_nominationLeaders d ⊆ d_nominationLeaders d' ∧ (d_accepts d ⊆ d_votes d → d_accepts d' ⊆ d_votes d').

(** The transitions: the phase never goes back; once externalized nothing decided changes; before
    that nothing is announced, and the transition to the last phase announces the committed value. *)
Definition progress {E} (d d' : Decree E) : Prop :=
  d_index d' = d_index d ∧ grows d d' ∧
  phase_num (d_currentPhase d) <= phase_num (d_currentPhase d') ∧
  match d_currentPhase d, d_currentPhase d' with
  | BallotPhaseExternalize, _ => decided d' = decided d
  | _, BallotPhaseExternalize => announced d d'
  | _, _ => d_externalizeChan d' = d_externalizeChan d
  end.

(** A quiet transition keeps the phase and announces nothing. *)
Definition quiet {E} (d d' : Decree E) : Prop :=
  d_index d' = d_index d ∧ d_currentPhase d' = d_currentPhase d ∧ d_externalizeChan d' = d_externalizeChan d ∧ grows d d'.

(** A silent transition does not touch the ballots either. *)
Definition silent {E} (d d' : Decree E) : Prop :=
  d_index d' = d_index d ∧ d_currentPhase d' = d_currentPhase d ∧ decided d' = decided d ∧ grows d d'.

#[global] Instance grows_preorder {E} : PreOrder (@grows E).
Proof. split; [done|]. intros a b c (?&?&?&?&?) (?&?&?&?&?). split_and!; first [by etrans | by auto]. Qed.
#[global] Instance quiet_preorder {E} : PreOrder (@quiet E).
Proof. split; [done|]. intros a b c (?&?&?&?) (?&?&?&?). split_and!; first [congruence | by etrans]. Qed.
#[global] Instance silent_preorder {E} : PreOrder (@silent E).
Proof. split; [done|]. intros a b c (?&?&?&?) (?&?&?&?). split_and!; first [congruence | by etrans]. Qed.

#[global] Instance progress_preorder {E} : PreOrder (@progress E).
Proof.
  split.
  - intros d. split_and!; [done..|lia|]. by destruct (d_currentPhase d).
  - intros a b c (I1&G1&L1&H1) (I2&G2&L2&H2). split; [congruence|]. split; [by etrans|]. split; [lia|].
    clear G1 G2. unfold announced, decided, cb, rd in *.
    destruct (d_currentPhase a), (d_currentPhase b), (d_currentPhase c); simplify_eq/=; try lia; try congruence;
      rewrite ?I1, ?H1 in H2; try done;
      repeat match goal with H : ?f c = ?f b |- _ => rewrite H; clear H end; done.
Qed.

Lemma silent_progress {E} (d d' : Decree E) : silent d d' → progress d d'.
Proof.
  intros (?&Hp&Hd&?). split; [done|]. split; [done|]. split; [rewrite Hp; lia|].
  assert (d_externalizeChan d' = d_externalizeChan d) by (unfold decided in Hd; congruence).
  rewrite Hp. destruct (d_currentPhase d); done.
Qed.

Lemma quiet_progress {E} (d d' : Decree E) : active (d_currentPhase d) = true → quiet d d' → progress d d'.
Proof.
  intros Ha (?&Hp&Hd&?). split; [done|]. split; [done|]. split; [rewrite Hp; lia|].
  rewrite Hp. by destruct (d_currentPhase d).
Qed.

Create HintDb decree_safe.

(** From a state that is not externalized. *)
Definition safe {E A} (m : M (Decree E) A) : Prop :=
  ∀ d, active (d_currentPhase d) = true → progress d (m d).1.

(** The same, and it does not externalize. *)
Definition calm {E A} (m : M (Decree E) A) : Prop :=
  ∀ d, active (d_currentPhase d) = true → progress d (m d).1 ∧ active (d_currentPhase (m d).1) = true.

Section life.
Context {E : Type} {Env : DecreeEnv E} {Crypto : CryptoLib} {Pbc : PbCodec} {GoRt : GoRuntime}.
Implicit Types d : Decree E.

Lemma preserves_silent {A} (m : M (Decree E) A) : preserves silent m → preserves progress m.
Proof. intros H d. apply silent_progress, H. Qed.
Lemma preserves_silent_quiet {A} (m : M (Decree E) A) : preserves silent m → preserves quiet m.
Proof. intros H d. destruct (H d) as (?&?&Hd&?). split; [done|]. split; [done|]. split; [|done]. unfold decided in Hd. congruence. Qed.
Lemma safe_progress {A} (m : M (Decree E) A) : preserves progress m → safe m.
Proof. intros H d _. apply H. Qed.
Lemma safe_quiet {A} (m : M (Decree E) A) : preserves quiet m → safe m.
Proof. intros H d Hd. by apply quiet_progress. Qed.

Lemma calm_quiet {A} (m : M (Decree E) A) : preserves quiet m → calm m.
Proof. intros H d Hd. split; [by apply quiet_progress|]. by destruct (H d) as (_&->&_&_). Qed.
Lemma calm_bind {A B} (m : M (Decree E) A) (k : A → M (Decree E) B) :
  calm m → (∀ a, calm (k a)) → calm (bind m k).
Proof.
  intros Hm Hk d Hd. destruct (Hm d Hd) as [Hp Ha]. unfold bind.
  destruct (m d) as [d1 [a|?|?|]]; simpl in *; try done.
  destruct (Hk a d1 Ha). split; [|done]. by etrans.
Qed.
Lemma calm_confirm : calm (modify (set_currentPhase (E:=E) BallotPhaseConfirm)).
Proof.
  intros d Hd. split; [|done]. split; [done|]. split; [done|]. split; [by destruct (d_currentPhase d)|].
  simpl. by destruct (d_currentPhase d).
Qed.
Lemma safe_bind {A B} (m : M (Decree E) A) (k : A → M (Decree E) B) :
  calm m → (∀ a, safe (k a)) → safe (bind m k).
Proof.
  intros Hm Hk d Hd. destruct (Hm d Hd) as [Hp Ha]. unfold bind.
  destruct (m d) as [d1 [a|?|?|]]; simpl in *; try done. etrans; [done|]. by apply Hk.
Qed.
Lemma safe_bind_last {A B} (m : M (Decree E) A) (k : A → M (Decree E) B) :
  safe m → (∀ a, preserves progress (k a)) → safe (bind m k).
Proof.
  intros Hm Hk d Hd. specialize (Hm d Hd). unfold bind.
  destruct (m d) as [d1 [a|?|?|]]; simpl in *; try done. etrans; [done|apply Hk].
Qed.
(** A handler that starts by leaving in the last phase. *)
Lemma preserves_guarded {A} (stop : Decree E → bool) (k : Decree E → M (Decree E) A) (a : A) :
  (∀ d, stop d = false → active (d_currentPhase d) = true) → (∀ d, safe (k d)) →
  preserves progress (let! d := get in if stop d then ret a else k d).
Proof.
  intros Hs Hk d. unfold bind, get; simpl. destruct (stop d) eqn:Hd; simpl; [reflexivity|].
  by apply Hk, Hs.
Qed.

(** ** The operations that only move ballots are quiet *)

Lemma quiet_alloc b : preserves quiet (alloc (E:=E) b).
Proof. by intros d. Qed.
Lemma quiet_reset o : preserves quiet (reset (E:=E) o).
Proof. intros d. by destruct o. Qed.
Lemma quiet_upd (f : Decree E → Decree E) : (∀ d, quiet d (f d)) → preserves quiet (modify f).
Proof. intros H d. apply H. Qed.

#[local] Hint Resolve quiet_alloc quiet_reset : go_preserves.

Lemma quiet_alloc_all bs : preserves quiet (alloc_all (E:=E) bs).
Proof. induction bs; simpl; pres (@quiet E). Qed.
#[local] Hint Resolve quiet_alloc_all : go_preserves.

Lemma quiet_updateBallot b check : preserves quiet (updateBallot (E:=E) b check).
Proof. unfold updateBallot. pres (@quiet E). Qed.
#[local] Hint Resolve quiet_updateBallot : go_preserves.
Lemma quiet_updateBallotIfNeeded b : preserves quiet (updateBallotIfNeeded (E:=E) b).
Proof. unfold updateBallotIfNeeded. pres (@quiet E). Qed.
Lemma quiet_checkInvariants : preserves quiet (checkInvariants (E:=E)).
Proof. by intros d. Qed.
#[local] Hint Resolve quiet_updateBallotIfNeeded quiet_checkInvariants : go_preserves.
Lemma quiet_updateBallotValue b : preserves quiet (updateBallotValue (E:=E) b).
Proof. unfold updateBallotValue. pres (@quiet E). Qed.
Lemma quiet_setAcceptPrepared l : preserves quiet (setAcceptPrepared (E:=E) l).
Proof. unfold setAcceptPrepared. pres (@quiet E). Qed.
Lemma quiet_prepared_candidates m : preserves quiet (prepared_candidates (E:=E) m).
Proof. unfold prepared_candidates. pres (@quiet E). Qed.
Lemma quiet_ballot_ratify f : preserves quiet (ballot_ratify (E:=E) f).
Proof. by intros d. Qed.
Lemma quiet_ballot_accept f g : preserves quiet (ballot_accept (E:=E) f g).
Proof. by intros d. Qed.
#[local] Hint Resolve quiet_updateBallotValue quiet_setAcceptPrepared quiet_prepared_candidates quiet_ballot_ratify quiet_ballot_accept : go_preserves.
Lemma quiet_h_loop cands : preserves quiet (h_loop (E:=E) cands).
Proof. induction cands; simpl; pres (@quiet E). Qed.
Lemma quiet_c_loop curb h cands c : preserves quiet (c_loop (E:=E) curb h cands c).
Proof. revert c; induction cands; simpl; pres (@quiet E). Qed.
#[local] Hint Resolve quiet_h_loop quiet_c_loop : go_preserves.

Section with_recv.
Variable recv : MStatement → M (Decree E) unit.
Hypothesis recv_progress : ∀ m, preserves progress (recv m).

Lemma silent_broadcast m : preserves silent (broadcast (E:=E) m).
Proof. by intros d. Qed.

Lemma progress_newer m : preserves progress (newer_than_latest (E:=E) m).
Proof. unfold newer_than_latest. pres (@progress E). Qed.
Lemma progress_broadcast m : preserves progress (broadcast (E:=E) m).
Proof. apply preserves_silent, silent_broadcast. Qed.
Lemma progress_latest m : preserves progress (modify (set_latestBallot (E:=E) m)).
Proof. apply preserves_silent. by intros d. Qed.
Lemma progress_check : preserves progress (checkInvariants (E:=E)).
Proof. intros d. reflexivity. Qed.
#[local] Hint Resolve recv_progress progress_newer progress_broadcast progress_latest progress_check : go_preserves.

Lemma progress_sendBallot : preserves progress (sendBallot_ recv).
Proof. unfold sendBallot_, sendBallot. pres (@progress E). Qed.
#[local] Hint Resolve progress_sendBallot : go_preserves.


Ltac pcalm := repeat first
  [ progress intros
  | apply calm_confirm
  | solve [apply calm_quiet; pres (@quiet E)]
  | apply calm_bind
  | match goal with |- calm (match ?x with _ => _ end) => destruct x end ].
Ltac psafe := repeat first
  [ progress intros
  | solve [eauto 2 with decree_safe]
  | apply safe_bind; [solve [pcalm]|]
  | apply safe_bind_last; [|solve [pres (@progress E)]]
  | match goal with |- safe (match ?x with _ => _ end) => destruct x end
  | solve [apply safe_progress; pres (@progress E)] ].

Lemma progress_updateBallotPhaseWithCounter val n : preserves progress (updateBallotPhaseWithCounter recv val n).
Proof. apply (preserves_guarded (λ d, negb (active (d_currentPhase d)))); [by intros d ?%negb_false_iff|]. psafe. Qed.
#[local] Hint Resolve progress_updateBallotPhaseWithCounter : go_preserves.
Lemma progress_updateBallotPhase val force : preserves progress (updateBallotPhase recv val force).
Proof. unfold updateBallotPhase. pres (@progress E). Qed.
#[local] Hint Resolve progress_updateBallotPhase : go_preserves.
Lemma progress_abandonBallot c : preserves progress (abandonBallot recv c).
Proof. unfold abandonBallot. pres (@progress E). Qed.
#[local] Hint Resolve progress_abandonBallot : go_preserves.
Lemma progress_update : preserves progress (update recv).
Proof. unfold update. pres (@progress E). Qed.
#[local] Hint Resolve progress_update : go_preserves.
Lemma progress_update_loop n u : preserves progress (update_loop recv n u).
Proof. revert u. induction n; intros u; simpl; [intros d; reflexivity|]. pres (@progress E). Qed.
#[local] Hint Resolve progress_update_loop : go_preserves.

Lemma safe_accept_candidate l : safe (accept_candidate recv l).
Proof. unfold accept_candidate. psafe. Qed.
#[local] Hint Resolve safe_accept_candidate : decree_safe.
Lemma safe_accept_loop ls : safe (accept_loop recv ls).
Proof. induction ls; simpl; psafe. Qed.
#[local] Hint Resolve safe_accept_loop : decree_safe.
Lemma progress_acceptPrepared m : preserves progress (acceptPrepared recv m).
Proof.
  intros d. unfold acceptPrepared, bind, get. simpl. destruct (active (d_currentPhase d)) eqn:Hd; [|reflexivity].
  revert d Hd. change (safe (let! cands := prepared_candidates m in accept_loop recv cands)). psafe.
Qed.

Lemma safe_setConfirmPrepared c h : safe (setConfirmPrepared recv c h).
Proof. unfold setConfirmPrepared. psafe. Qed.
#[local] Hint Resolve safe_setConfirmPrepared : decree_safe.
Lemma progress_confirmPrepared m : preserves progress (confirmPrepared recv m).
Proof.
  apply (preserves_guarded (λ d, bool_decide (d_currentPhase d ≠ BallotPhasePrepare) || bool_decide (pb d = None))).
  - intros d [H _]%orb_false_iff. by destruct (d_currentPhase d).
  - psafe.
Qed.
Lemma safe_setAcceptCommit c h : safe (setAcceptCommit recv c h).
Proof. unfold setAcceptCommit. psafe. Qed.
#[local] Hint Resolve safe_setAcceptCommit : decree_safe.
Lemma progress_acceptCommit m : preserves progress (acceptCommit recv m).
Proof. apply (preserves_guarded (λ d, negb (active (d_currentPhase d)))); [by intros d ?%negb_false_iff|]. psafe. Qed.

Lemma progress_set_ext d : active (d_currentPhase d) = true → progress d (set_currentPhase BallotPhaseExternalize d).
Proof.
  intros Hd. split; [done|]. split; [done|]. split; [by destruct (d_currentPhase d)|]. simpl.
  destruct (d_currentPhase d); try done; by left.
Qed.

(** The announcement, after the message of the last phase has been processed. *)
Lemma progress_announce d d2 c :
  active (d_currentPhase d) = true → progress (set_currentPhase BallotPhaseExternalize d) d2 → cb d2 = Some c →
  progress d (set_externalizeChan (d_externalizeChan d2 ++ [(d_index d2, b_Value c)]) d2).
Proof.
  intros Hd (Hi&Hg&Hl&Hdec) Hc. simpl in *.
  assert (d_currentPhase d2 = BallotPhaseExternalize) as Hp by (by destruct (d_currentPhase d2)).
  assert (d_externalizeChan d2 = d_externalizeChan d) as He by (by unfold decided in Hdec; simplify_eq/=).
  split; [done|]. split; [done|]. simpl. rewrite Hp. split; [by destruct (d_currentPhase d)|].
  destruct (d_currentPhase d); try done; right; exists c; rewrite He, Hi; done.
Qed.

Lemma safe_setConfirmCommit c h : safe (setConfirmCommit recv c h).
Proof.
  unfold setConfirmCommit. do 4 (apply safe_bind; [solve [pcalm]|intros ?]).
  intros d Hd. unfold bind at 1, modify. simpl.
  set (d1 := set_currentPhase BallotPhaseExternalize d).
  unfold bind at 1. pose proof (progress_sendBallot d1) as Hs.
  destruct (sendBallot_ recv d1) as [d2 [[]|?|?|]]; simpl in *;
    try (etrans; [by apply progress_set_ext|done]).
  unfold bind, get, lift. simpl.
  destruct (cb (set_nominationStart false d2)) as [cv|] eqn:Hc; simpl.
  - apply (progress_announce d (set_nominationStart false d2)); [done| |done].
    etrans; [apply Hs|]. by apply silent_progress.
  - etrans; [by apply progress_set_ext|]. etrans; [apply Hs|]. by apply silent_progress.
Qed.
#[local] Hint Resolve safe_setConfirmCommit : decree_safe.

Lemma progress_confirmCommit m : preserves progress (confirmCommit recv m).
Proof.
  apply (preserves_guarded (λ d, bool_decide (d_currentPhase d ≠ BallotPhaseConfirm) || bool_decide (hb d = None) ||
                                 bool_decide (cb d = None))).
  - intros d [[H _]%orb_false_iff _]%orb_false_iff. by destruct (d_currentPhase d).
  - psafe.
Qed.

Lemma progress_count f : preserves progress (modify (λ d, set_ballotMsgCount (E:=E) (f d) d)).
Proof. apply preserves_silent. by intros d. Qed.
Lemma progress_store m : preserves progress (store (E:=E) m).
Proof. apply preserves_silent. by intros d. Qed.
#[local] Hint Resolve progress_acceptPrepared progress_confirmPrepared progress_acceptCommit progress_confirmCommit
  progress_count progress_store : go_preserves.

Lemma progress_recv_body n m : preserves progress (recv_body recv n m).
Proof. unfold recv_body, step. pres (@progress E). Qed.
End with_recv.

Lemma progress_recvBallot n m : preserves progress (recvBallot n m).
Proof.
  revert m. induction n as [|n IH]; intros m; simpl; [intros d; reflexivity|].
  by apply progress_recv_body.
Qed.
End life.

(** ** No node ever follows the counters of the others *)
Section counters.
Context {GoRt : GoRuntime}.

Lemma find_counter_vblocked q stmts target cs nodes r :
  vb_ok q → isVblocking q nodes = true → find_counter q stmts target cs nodes = Ok r → r = None.
Proof.
  intros Hq. revert nodes. induction cs as [|c cs IH]; intros nodes Hv H; simpl in H; [congruence|].
  destruct (decide (c < target)); [congruence|].
  destruct (nodes_ahead c stmts) as [ahead|?|?|]; simpl in H; try done.
  assert (isVblocking q (nodes ∪ ahead) = true) as Hv'.
  { apply (isVblocking_mono q nodes); [done|set_solver|done]. }
  rewrite Hv' in H. by apply (IH (nodes ∪ ahead)).
Qed.

Lemma find_counter_none q stmts target cs r :
  vb_ok q → target ∈ cs → StronglySorted Z.le cs → find_counter q stmts target cs ∅ = Ok r → r = None.
Proof.
  intros Hq Hin Hs H. destruct cs as [|c cs]; [by apply not_elem_of_nil in Hin|]. simpl in H.
  destruct (decide (c < target)); [congruence|].
  assert (c = target) as ->.
  { apply StronglySorted_inv in Hs as [_ Hs]. rewrite Forall_forall in Hs.
    apply elem_of_cons in Hin as [?|Hin]; [done|]. specialize (Hs _ Hin). lia. }
  destruct (nodes_ahead target stmts) as [ahead|?|?|]; simpl in H; try done.
  destruct (isVblocking q (∅ ∪ ahead)) eqn:Hv; [by eapply find_counter_vblocked|].
  rewrite decide_True in H by done. congruence.
Qed.

Lemma counters_sorted (l : list Z) : StronglySorted Z.le (go_sort (λ x y, bool_decide (x < y)) l).
Proof.
  pose proof (go_sort_sorted Z (λ x y, bool_decide (x < y)) l) as H.
  assert (∀ a b : Z, sort_le (λ x y, bool_decide (x < y)) a b ↔ a <= b) as Hle.
  { intros a b. unfold sort_le. rewrite bool_decide_eq_true, bool_decide_eq_false. lia. }
  assert (transitive_on l (sort_le (λ x y, bool_decide (x < y)))) as Ht.
  { intros a b c _ _ _. rewrite !Hle. lia. }
  specialize (H Ht). induction H; constructor; [done|].
  eapply Forall_impl; [done|]. intros b. by rewrite Hle.
Qed.
End counters.

(** No node follows the counters of the others.  [update] is meant to abandon the ballot for the
    smallest counter that is not blocked by nodes ahead of it; but the set of nodes is emptied only
    after the test, so that once it blocks it blocks for every later counter, and the loop stops at
    once when some node is behind.  So it never calls [abandonBallot] and changes nothing. *)
Theorem update_never_abandons {E : Type} {Env : DecreeEnv E} {GoRt : GoRuntime}
    (recv : MStatement → M (Decree E) unit) (d : Decree E) :
  vb_ok (d_quorum d) → (update recv d).1 = d ∧ (update recv d).2 ≠ Ok true.
Proof.
  intros Hq. unfold update, bind, get, lift. simpl.
  destruct (active (d_currentPhase d)); simpl; [|done].
  destruct (collect stmt_counters (view d)) as [cs|?|?|]; simpl; try done.
  set (target := match cur d with Some b => b_Counter b | None => 0 end).
  destruct (find_counter _ _ _ _ _) as [o|?|?|] eqn:H; simpl; try done.
  apply find_counter_none in H as ->; [done|done| |apply counters_sorted].
  rewrite go_sort_perm. set_solver.
Qed.


(** ** The two highest ballots accepted as prepared *)

(** [q] is below [p] and incompatible with it; there is no [q] without [p]. *)
Definition pq_inv (p q : option Ballot) : Prop :=
  match p, q with
  | Some p, Some q => lessAndIncompatibleBallots (Some q) (Some p) = true
  | None, Some _ => False
  | _, _ => True
  end.

(** What the loop of [acceptPrepared] has not skipped. *)
Definition not_skipped (cand p q : option Ballot) : Prop :=
  (is_Some q → 0 < compareBallots cand q) ∧ (is_Some p → lessAndCompatibleBallots cand p = false).

#[local] Arguments compareBallots : simpl never.
#[local] Arguments compatibleBallots : simpl never.

(** The invariant of [p] and [q] is kept by [setAcceptPrepared] for every candidate that
    [acceptPrepared] has not skipped; the candidate becomes [p] or [q], so the state always changes. *)
Theorem setAcceptPrepared_invariant {E : Type} (d : Decree E) (l : loc) (cand : Ballot) :
  d_heap d !! l = Some cand → pq_inv (pb d) (qb d) → not_skipped (Some cand) (pb d) (qb d) →
  let d' := (setAcceptPrepared l d).1 in
  pq_inv (pb d') (qb d') ∧ (pb d' = Some cand ∨ qb d' = Some cand) ∧ (setAcceptPrepared l d).2 = Ok true.
Proof.
  intros Hl Hinv [Hq Hp]. unfold setAcceptPrepared, bind, get, modify, ret. simpl. rewrite Hl.
  destruct (pb d) as [p|] eqn:Ep; simpl.
  2:{ destruct (qb d) eqn:Eq; [done|]. unfold pb, qb, rd in *; simpl in *. rewrite Hl, Eq. auto. }
  specialize (Hp ltac:(eauto)). unfold lessAndCompatibleBallots in Hp.
  assert (Hqd : ∀ x y, qb (set_pBallot (E:=E) x (set_qBallot y d)) = rd d y) by done.
  destruct (compareBallots_cases (Some cand) (Some p)) as [Hc|[Hc|Hc]]; rewrite Hc in Hp |- *; simpl in *.
  - assert (bool_decide (qb d = None) || bool_decide (compareBallots (Some cand) (qb d) > 0) && negb (compatibleBallots (Some cand) (Some p)) = true) as ->.
    { simpl. rewrite Hp. destruct (qb d) as [q|] eqn:Eq; [|done]. simpl.
      rewrite bool_decide_true; [done|]. specialize (Hq ltac:(eauto)). lia. }
    simpl. change (pb (set_qBallot (Some l) d)) with (pb d). change (qb (set_qBallot (Some l) d)) with (rd d (Some l)).
    rewrite Ep. simpl. rewrite Hl. split_and!; [|by right|done].
    simpl. unfold lessAndIncompatibleBallots. rewrite Hc. simpl. by rewrite Hp.
  - exfalso. apply compareBallots_eq in Hc. rewrite Hc in Hp.
    assert (compatibleBallots (Some p) (Some p) = true) by (apply compatible_spec; eauto). congruence.
  - assert (compareBallots (Some p) (Some cand) <= 0) as Hpc by (rewrite compareBallots_opp; lia).
    destruct (compatibleBallots (Some cand) (Some p)) eqn:Hcp; simpl.
    + change (qb (set_pBallot (Some l) d)) with (qb d). change (pb (set_pBallot (Some l) d)) with (rd d (Some l)).
      simpl. rewrite Hl. split_and!; [|by left|done]. destruct (qb d) as [q|]; [|done].
      apply andb_true_iff in Hinv as [Hqp%bool_decide_eq_true Hn%negb_true_iff].
      apply andb_true_iff. rewrite bool_decide_eq_true, negb_true_iff. split.
      * by apply (compareBallots_le_trans _ (Some p)).
      * destruct (compatibleBallots (Some q) (Some cand)) eqn:Hqc; [|done].
        rewrite (compatible_trans (Some q) (Some cand) (Some p)) in Hn; done.
    + change (pb _) with (rd d (Some l)). rewrite Hqd. change (rd d (d_pBallot d)) with (pb d). rewrite Ep.
      simpl. rewrite Hl. split_and!; [|by left|done].
      simpl. unfold lessAndIncompatibleBallots. rewrite bool_decide_true by done. by rewrite compatible_sym, Hcp.
Qed.

(** ** Fatal checks *)

Lemma checkBallotInvariants_dead {E} (d : Decree E) :
  is_Panic (checkBallotInvariants d) = false → checkBallotInvariants d = Ok tt.
Proof. unfold checkBallotInvariants, res_bind. repeat case_match; done. Qed.

Lemma checkBallotInvariants_commit {E} (d : Decree E) :
  checkBallotInvariants d = Ok tt → is_Some (cb d) →
  compatibleBallots (cb d) (hb d) = true ∧ compatibleBallots (hb d) (cur d) = true ∧
  ∀ b, cur d = Some b → b_Counter b ≠ 0.
Proof.
  intros H Hc. unfold checkBallotInvariants in H.
  assert (∀ b, cur d = Some b → b_Counter b ≠ 0) as Hz.
  { intros b Hb. rewrite Hb in H. simpl in H. by destruct (decide (b_Counter b = 0)). }
  destruct (match cur d with Some b => _ | None => _ end); simpl in H; try done.
  destruct (_ && _ && _); simpl in H; try done.
  destruct (if decide (is_Some (hb d)) then _ else _); simpl in H; try done.
  rewrite decide_True in H by done.
  destruct (decide (cur d = None)); [done|].
  destruct (negb (lessAndCompatibleBallots (cb d) (hb d))) eqn:H1; [done|].
  destruct (lessAndCompatibleBallots (hb d) (cur d)) eqn:H2; [|done].
  apply negb_false_iff, andb_true_iff in H1 as [_ H1]. apply andb_true_iff in H2 as [_ H2]. done.
Qed.

Lemma checkBallotInvariants_high {E} (d : Decree E) :
  checkBallotInvariants d = Ok tt → is_Some (hb d) → compatibleBallots (hb d) (cur d) = true.
Proof.
  intros H Hh. unfold checkBallotInvariants in H.
  destruct (match cur d with Some b => _ | None => _ end); simpl in H; try done.
  destruct (_ && _ && _); simpl in H; try done.
  rewrite (decide_True (P:=is_Some (hb d))) in H by done.
  destruct (decide (cur d = None)); [done|].
  destruct (lessAndCompatibleBallots (hb d) (cur d)) eqn:H2; [|done].
  by apply andb_true_iff in H2 as [_ H2].
Qed.

(** Emptying the commit ballot of a state that has one. *)
Lemma reset_commit_fatal {E} (d : Decree E) (l : loc) (h b : Ballot) :
  d_cBallot d = Some l → hb d = Some h → cur d = Some b → b_Value h ≠ "" → b_Value b ≠ "" →
  is_Panic (checkBallotInvariants (set_heap (<[l := mkBallot 0 ""]> (d_heap d)) d)) = true.
Proof.
  intros Hl Hh Hb Hvh Hvb. set (d2 := set_heap _ d).
  assert (Hc2 : cb d2 = Some (mkBallot 0 "")).
  { unfold cb, rd. simpl. rewrite Hl. simpl. by rewrite lookup_insert_eq. }
  destruct (is_Panic _) eqn:Hp; [done|]. exfalso.
  apply checkBallotInvariants_dead, checkBallotInvariants_commit in Hp as (H1&H2&H3); [|by rewrite Hc2].
  rewrite Hc2 in H1. apply compatible_spec in H1 as (x & y & [= <-] & Hy & Hxy). simpl in Hxy.
  apply compatible_spec in H2 as (y' & z & Hy' & Hz & Hyz). rewrite Hy in Hy'. injection Hy' as <-.
  assert (∀ o v, rd d2 o = Some v → v = mkBallot 0 "" ∨ rd d o = Some v) as Hrd.
  { intros [o|] v; simpl; [|done]. destruct (decide (o = l)) as [->|Ho].
    - rewrite lookup_insert_eq. intros [= <-]. by left.
    - rewrite lookup_insert_ne by done. by right. }
  apply Hrd in Hz as Hz'. destruct Hz' as [->|Hz']; [by apply H3 in Hz|].
  change (cur d = Some z) in Hz'. congruence.
Qed.

(** C40: giving up a commit kills the node.  When a ballot accepted as prepared overtakes [h]
    incompatibly, [acceptPrepared] empties the commit ballot instead of removing it, and the check of
    the message it then sends finds the empty ballot incompatible with [h] and calls [log.Fatal]. *)
Theorem void_commit_is_fatal {E : Type} (recv : MStatement → M (Decree E) unit) (d : Decree E) (l : loc) (c h b : Ballot) :
  let d' := (setAcceptPrepared l d).1 in
  is_Ok (setAcceptPrepared l d).2 = true → d_currentPhase d' = BallotPhasePrepare →
  cb d' = Some c → hb d' = Some h → cur d' = Some b → b_Value h ≠ "" → b_Value b ≠ "" →
  lessAndIncompatibleBallots (Some h) (pb d') = true ∨ lessAndIncompatibleBallots (Some h) (qb d') = true →
  is_Panic (accept_candidate recv l d).2 = true.
Proof.
  intros d' Hok Hph Hc Hh Hb Hvh Hvb Hvoid. unfold accept_candidate, bind, get.
  destruct (setAcceptPrepared l d) as [d1 [u|?|?|]] eqn:Hs; try done. subst d'; simpl in *.
  rewrite Hc, Hh, Hph.
  assert ((bool_decide (is_Some (pb d1)) && lessAndIncompatibleBallots (Some h) (pb d1)
           || bool_decide (is_Some (qb d1)) && lessAndIncompatibleBallots (Some h) (qb d1)) = true) as ->.
  { apply orb_true_iff. destruct Hvoid as [Hvoid|Hvoid]; [left|right]; rewrite Hvoid.
    - destruct (pb d1); [done|]. by destruct h.
    - destruct (qb d1); [done|]. by destruct h. }
  simpl. destruct (d_cBallot d1) as [lc|] eqn:Hl; [|by unfold cb in Hc; rewrite Hl in Hc].
  unfold reset, sendBallot_, sendBallot, try, bind, lift, modify, checkInvariants. simpl.
  pose proof (reset_commit_fatal d1 lc h b Hl Hh Hb Hvh Hvb) as Hf.
  by destruct (checkBallotInvariants _).
Qed.

(** Changing to an incompatible value while a ballot is confirmed prepared *)

(** A new value kills the node.  Moving the current ballot to a value other than that of [h]
    empties [h] instead of removing it, and the check at the end of [updateBallotValue] calls [log.Fatal]. *)
Theorem new_value_is_fatal {E : Type} (d : Decree E) (b h x : Ballot) :
  active (d_currentPhase d) = true → cur d = Some x → hb d = Some h → cb d = None → d_hBallot d ≠ Some (d_next d) →
  compareBallots (Some x) (Some b) <= 0 → b_Value b ≠ b_Value h → b_Value b ≠ "" →
  is_Panic (updateBallotValue b d).2 = true.
Proof.
  intros Ha Hx Hh Hc Hn Hle Hne Hv. unfold updateBallotValue, bind, get. simpl. rewrite Ha, Hx, Hc. simpl.
  rewrite decide_True by done. unfold updateBallot, bind, get. simpl. rewrite Ha, Hx.
  rewrite (bool_decide_false (compareBallots _ _ > 0)) by lia. simpl.
  set (d1 := set_currentBallot _ _).
  assert (cur d1 = Some b) as Hc1 by (unfold cur, rd; simpl; by rewrite lookup_insert_eq).
  unfold hb in Hh. destruct (d_hBallot d) as [lh|] eqn:Hl; [|done]. simpl in Hh.
  assert (hb d1 = Some h) as Hh1.
  { unfold hb, rd, d1. simpl. rewrite ?Hl. simpl. rewrite lookup_insert_ne; congruence. }
  rewrite Hc1, Hh1. simpl.
  assert (compatibleBallots (Some b) (Some h) = false) as ->.
  { destruct (compatibleBallots (Some b) (Some h)) eqn:Hcp; [|done].
    apply compatible_spec in Hcp as (?&?&[= <-]&[= <-]&?). done. }
  simpl. unfold reset, bind, lift, modify, checkInvariants. simpl. rewrite ?Hl. simpl.
  set (d2 := set_heap _ d1).
  destruct (is_Panic (checkBallotInvariants d2)) eqn:Hp; [by destruct (checkBallotInvariants d2)|]. exfalso.
  apply checkBallotInvariants_dead, checkBallotInvariants_high in Hp.
  - unfold hb, cur, rd, d2, d1 in Hp. simpl in Hp. rewrite ?Hl in Hp. simpl in Hp.
    rewrite lookup_insert_eq, lookup_insert_ne, lookup_insert_eq in Hp by congruence.
    apply compatible_spec in Hp as (?&?&[= <-]&[= <-]&Hvv). by rewrite <- Hvv in Hv.
  - unfold hb, rd, d2, d1. simpl. rewrite ?Hl. simpl. by rewrite lookup_insert_eq.
Qed.

(** Confirming a higher ballot drops the commit.  A commit candidate is searched only while there is
    no commit ballot; otherwise [setConfirmPrepared] gets nil, nil is below every ballot, and the
    commit ballot the node has already voted for is replaced by nil before the message is sent. *)
Theorem confirm_prepared_drops_commit {E : Type} (recv : MStatement → M (Decree E) unit) (d : Decree E) (h : loc)
    (hv b : Ballot) :
  d_heap d !! h = Some hv → is_Some (cb d) → cur d = Some b → lessAndCompatibleBallots (Some hv) (Some b) = true →
  ∃ d1, setConfirmPrepared recv None h d = (do! sendBallot_ recv in ret true) d1 ∧ d_cBallot d1 = None.
Proof.
  intros Hh [c Hc] Hb [Hle%bool_decide_eq_true Hcp]%andb_true_iff. rewrite compatible_sym in Hcp.
  unfold setConfirmPrepared.
  rewrite (bind_eq_Ok _ _ _ d d), (bind_eq_Ok _ _ _ d hv), (bind_eq_Ok _ _ _ (set_nextValue (b_Value hv) d) tt)
    by (simpl; by rewrite ?Hh).
  set (d0 := set_nextValue (b_Value hv) d). rewrite Hb, Hc, Hcp.
  set (setH := bool_decide (hb d = None) || bool_decide (compareBallots (hb d) (Some hv) < 0)).
  set (d1 := set_cBallot None (if setH then set_hBallot (Some h) d0 else d0)).
  exists d1. split; [|done].
  rewrite (bind_eq_Ok _ _ _ d1 (setH || true)); [|by unfold d1; destruct setH].
  rewrite (bind_eq_Ok _ _ _ d1 false); [by rewrite orb_true_r|].
  unfold updateBallotIfNeeded. rewrite (bind_eq_Ok _ _ _ d1 d1) by done.
  assert (cur d1 = Some b) as -> by (unfold d1; by destruct setH).
  rewrite bool_decide_false, bool_decide_false; [done|rewrite compareBallots_opp; lia|done].
Qed.

(** * Concrete states *)

Module states.

#[export] Existing Instance ref_runtime.
#[export] Existing Instance ref_crypto.

(** Consensus values in a short encoding: the propose time as one byte, then the hash. *)
Program Definition value_codec : Codec ConsensusValue := {|
  Encode v := if decide (0 <= cv_ProposeTime v < 256) then Some (String (byte_of (cv_ProposeTime v)) (cv_TxSetHash v)) else None;
  Decode b := match b with String c h => Some (mkConsensusValue h (of_byte c)) | EmptyString => None end;
|}.
Next Obligation. intros [h t] b. simpl. case_decide; [|done]. intros [= <-]. by rewrite of_byte_of. Qed.

#[export] Instance short_codec : PbCodec := {|
  codec_Asset := ref_codec_of Asset;
  codec_Account := ref_codec_of Account;
  codec_Trust := ref_codec_of Trust;
  codec_Offer := ref_codec_of Offer;
  codec_Tx := ref_codec_of Tx;
  codec_TxSet := ref_codec_of TxSet;
  codec_ConsensusValue := value_codec;
  codec_LedgerHeader := ref_codec_of LedgerHeader;
  codec_Ledger := ref_codec_of Ledger;
  codec_LedgerCheckpoint := ref_codec_of LedgerCheckpoint;
  codec_TxStatus := ref_codec_of TxStatus;
|}.

(** A ledger at header 4, one known transaction set, and one quorum for every hash. *)
Definition header : LedgerHeader := mkLedgerHeader 1 "" "" "" 0 4 0 0 0.
Definition txset : TxSet := mkTxSet "head" [].
#[export] Instance quorum_env : DecreeEnv Quorum := {|
  env_GetQuorum q _ := Ok (Some q);
  env_GetTxSet _ _ := Ok (Some txset);
  env_RecvTxSet _ _ := ret tt;
  lm_LedgerSynced _ := true;
  lm_NextLedgerHeaderSeq _ := 5;
  lm_CurrLedgerHeader _ := Ok header;
  lm_CurrLedgerHeaderHash _ := Ok "head";
  lm_GetTxSet _ _ := Ok (Some txset);
|}.

Definition fresh (q : Quorum) : Decree Quorum :=
  mkDecree Quorum q 5 "me" q "qh" "" ∅ ∅ ∅ ∅ ∅ 0 false None "" BallotPhasePrepare
    ∅ 1%positive None None None None None ∅ None "" 0 0 [] [] [].

(** A majority of three, and a decree in the first phase with ballots at the locations given. *)
Definition majority : Quorum := mkQuorum (f64_frac 1 1) ["a"; "b"; "me"] [].
Definition prepared (heap : list (loc * Ballot)) (b p q h c : option loc) : Decree Quorum :=
  upd_ballot (list_to_map heap) 9%positive BallotPhasePrepare b p q h c "" (fresh majority).

Lemma update_never_abandons_witness :
  let d := prepared [(1%positive, mkBallot 2 "x")] (Some 1%positive) None None None None in
  vb_ok majority ∧ (update (recvBallot 3) d).1 = d ∧ (update (recvBallot 3) d).2 ≠ Ok true.
Proof.
  intros d. assert (vb_ok majority) by (split; [by vm_compute|constructor]).
  split; [done|]. by apply update_never_abandons.
Defined.

(** Candidate (2, y) above p = (1, x): it becomes p, and p becomes q. *)
Definition two_prepared : Decree Quorum :=
  prepared [(1%positive, mkBallot 1 "x"); (2%positive, mkBallot 2 "y")] (Some 1%positive) (Some 1%positive) None None None.

Lemma setAcceptPrepared_invariant_witness :
  let d' := (setAcceptPrepared 2%positive two_prepared).1 in
  pq_inv (pb d') (qb d') ∧ pb d' = Some (mkBallot 2 "y") ∧ qb d' = Some (mkBallot 1 "x").
Proof.
  intros d'. split; [|done].
  destruct (setAcceptPrepared_invariant two_prepared 2%positive (mkBallot 2 "y")) as [H _]; [done|done| |exact H].
  split; [by intros []|by vm_compute].
Defined.

(** h = c = (1, x) in separate objects, and (2, y) is accepted as prepared. *)
Definition commit_overtaken : Decree Quorum :=
  prepared [(1%positive, mkBallot 1 "x"); (2%positive, mkBallot 2 "y"); (3%positive, mkBallot 1 "x"); (4%positive, mkBallot 1 "x");
            (5%positive, mkBallot 1 "x")]
    (Some 1%positive) (Some 3%positive) None (Some 4%positive) (Some 5%positive).

Lemma void_commit_is_fatal_witness :
  is_Panic (accept_candidate (recvBallot 3) 2%positive commit_overtaken).2 = true.
Proof.
  apply (void_commit_is_fatal _ _ _ (mkBallot 1 "x") (mkBallot 1 "x") (mkBallot 1 "x")); try done.
  by left; vm_compute.
Defined.

(** b = h = (1, x) and the node moves to (2, y). *)
Lemma new_value_is_fatal_witness :
  is_Panic (updateBallotValue (mkBallot 2 "y")
    (prepared [(1%positive, mkBallot 1 "x"); (2%positive, mkBallot 1 "x")] (Some 1%positive) (Some 2%positive) None
       (Some 2%positive) None)).2 = true.
Proof. by apply (new_value_is_fatal _ _ (mkBallot 1 "x") (mkBallot 1 "x")). Defined.

(** b = (3, x), c = (1, x), and (2, x) is confirmed prepared. *)
Lemma confirm_prepared_drops_commit_witness :
  ∃ d1, setConfirmPrepared (recvBallot 3) None 2%positive
          (prepared [(1%positive, mkBallot 3 "x"); (2%positive, mkBallot 2 "x"); (3%positive, mkBallot 1 "x")] (Some 1%positive)
             (Some 1%positive) None (Some 3%positive) (Some 3%positive)) =
        (do! sendBallot_ (recvBallot 3) in ret true) d1 ∧ d_cBallot d1 = None.
Proof. apply (confirm_prepared_drops_commit _ _ _ (mkBallot 2 "x") (mkBallot 3 "x")); [done|by eexists|done|done]. Defined.

End states.
