(* ===== verification/Nomination.v ===== *)
(** The nomination protocol of [consensus/decree.go], the entry points of a decree ([Nominate], [Recv],
    [StopNomination]) and its life as a transition system.

    [binary.PutUvarint(buf, x)] writes at the start of [buf], wherever the last write ended, and the
    buffer keeps its length: [put_uvarint] does the same.  The sets are visited in an order that the
    code does not fix; the lists of a nomination are read only as sets. *)

From Stdlib Require Import SpecFloat.
From S2P Require Import Prelude Pb Crypto Quorum Ballot Federated Decree.
From S2P Require Ledger.

(** * Hashes and leaders *)

(** The varint of [encoding/binary]: seven bits a byte, low bits first. *)
Fixpoint uvarint (fuel : nat) (x : Z) : list Z :=
  match fuel with
  | O => []
  | S fuel => if decide (x < 128) then [x] else Z.lor (x mod 128) 128 :: uvarint fuel (x / 128)
  end.
(** Ten bytes hold 64 bits. *)
Definition MaxVarintLen64 : nat := 10.

Definition bytes_string (bs : list Z) : string := String.string_of_list_ascii (byte_of <$> bs).

Definition put_uvarint (buf : string) (x : Z) : string :=
  let v := bytes_string (uvarint MaxVarintLen64 x) in
  v +:+ String.substring (String.length v) (String.length buf - String.length v) buf.

Definition zero_buf : string := bytes_string (replicate MaxVarintLen64 0).

Definition hashN : Z := 1.
Definition hashP : Z := 2.
Definition hashK : Z := 3.

(** [uint64(f)] of a float.  Out of range Go leaves the result to the machine (here that of amd64);
    the weights under a valid threshold are in range. *)
Definition float_overflow : Z := 9223372036854775808.
Definition to_uint64 (z : Z) : Z := if decide (0 <= z ∧ z <= MaxUint64) then z else float_overflow.
Definition f64_uint64 (round : Z → Z → Z) (x : f64) : Z :=
  match x with
  | S754_zero _ => 0
  | S754_finite s m e => to_uint64 (round (if s then Zneg m else Zpos m) e)
  | _ => float_overflow
  end.
(** The integer part of [m * 2 ^ e]. *)
Definition trunc_scale (m e : Z) : Z := if decide (0 <= e) then m * 2 ^ e else Z.quot m (2 ^ (- e)).

(** [uint64(math.Ceil(float64(math.MaxInt64) * quorum.Threshold))] *)
Definition validator_weight (t : f64) : Z := f64_uint64 ceil_scale (f64_mul (f64_of_Z MaxInt64) t).

Fixpoint getNodeWeight (q : Quorum) (nodeID : string) : Z :=
  let 'mkQuorum t vs nqs := q in
  if decide (nodeID ∈ vs) then validator_weight t
  else
    (fix go (l : list Quorum) : Z :=
      match l with
      | [] => 0
      | nq :: l =>
          let w := getNodeWeight nq nodeID in
          if decide (0 < w) then f64_uint64 trunc_scale (f64_mul (f64_of_Z w) t) else go l
      end) nqs.

Section hashes.
Context {E : Type} {Crypto : CryptoLib} {GoRt : GoRuntime}.
Implicit Types d : Decree E.

Definition getNodeHash d (nodeID : string) (isPriority : bool) : Z :=
  let buf := put_uvarint zero_buf (d_index d) in
  let buf := buf +:+ d_prevConsensusValue d in
  let buf := put_uvarint buf (if isPriority then hashP else hashN) in
  let buf := put_uvarint buf (uwrap64 (d_nominationRound d)) in
  SHA256HashUint64 (buf +:+ nodeID).

Definition getConsensusValueHash d (vote : string) : Z :=
  let buf := put_uvarint zero_buf (d_index d) in
  let buf := buf +:+ d_prevConsensusValue d in
  let buf := put_uvarint buf hashK in
  let buf := put_uvarint buf (uwrap64 (d_nominationRound d)) in
  SHA256HashUint64 (buf +:+ vote).

Definition getNodePriority d (quorum : Quorum) (nodeID : string) : Z :=
  let weight := if decide (nodeID = d_nodeID d) then MaxUint64 else getNodeWeight quorum nodeID in
  if decide (0 < weight ∧ getNodeHash d nodeID false <= weight) then getNodeHash d nodeID true else 0.

(** The loop over the nodes: the leaders so far and their priority. *)
Definition leader_step d (quorum : Quorum) (acc : gset string * Z) (node : string) : gset string * Z :=
  let '(leaders, top) := acc in
  let priority := getNodePriority d quorum node in
  let '(leaders, top) := if decide (top < priority) then (∅, priority) else (leaders, top) in
  (if decide (0 < priority ∧ priority = top) then {[node]} ∪ leaders else leaders, top).

Definition round_leaders d : gset string :=
  let quorum := normalizeQuorum (d_quorum d) (d_nodeID d) in
  (foldl (leader_step d quorum) ({[d_nodeID d]}, getNodePriority d quorum (d_nodeID d)) (getQuorumNodes quorum)).1.

End hashes.

(** * Protocol *)

Section nomination.
Context {E : Type} {Env : DecreeEnv E} {Crypto : CryptoLib} {Pbc : PbCodec} {GoRt : GoRuntime}.
Implicit Types d : Decree E.

Definition set_votes (x : gset string) d : Decree E :=
  upd_nom (d_env d) (d_prevConsensusValue d) x (d_accepts d) (d_candidates d) (d_nominationLeaders d) (d_nominations d)
    (d_nominationRound d) (d_nominationStart d) (d_latestNomination d) (d_latestComposite d) (d_renomCount d) (d_timers d)
    (d_statementChan d) d.
Definition set_accepts (x : gset string) d : Decree E :=
  upd_nom (d_env d) (d_prevConsensusValue d) (d_votes d) x (d_candidates d) (d_nominationLeaders d) (d_nominations d)
    (d_nominationRound d) (d_nominationStart d) (d_latestNomination d) (d_latestComposite d) (d_renomCount d) (d_timers d)
    (d_statementChan d) d.
Definition set_candidates (x : gset string) d : Decree E :=
  upd_nom (d_env d) (d_prevConsensusValue d) (d_votes d) (d_accepts d) x (d_nominationLeaders d) (d_nominations d)
    (d_nominationRound d) (d_nominationStart d) (d_latestNomination d) (d_latestComposite d) (d_renomCount d) (d_timers d)
    (d_statementChan d) d.
Definition set_nominationLeaders (x : gset string) d : Decree E :=
  upd_nom (d_env d) (d_prevConsensusValue d) (d_votes d) (d_accepts d) (d_candidates d) x (d_nominations d)
    (d_nominationRound d) (d_nominationStart d) (d_latestNomination d) (d_latestComposite d) (d_renomCount d) (d_timers d)
    (d_statementChan d) d.
Definition set_nominations (x : gmap string Statement) d : Decree E :=
  upd_nom (d_env d) (d_prevConsensusValue d) (d_votes d) (d_accepts d) (d_candidates d) (d_nominationLeaders d) x
    (d_nominationRound d) (d_nominationStart d) (d_latestNomination d) (d_latestComposite d) (d_renomCount d) (d_timers d)
    (d_statementChan d) d.
(** [d.nominationStart = true; d.nominationRound++; d.prevConsensusValue = prevHash] *)
Definition start_round (prevHash : string) d : Decree E :=
  upd_nom (d_env d) prevHash (d_votes d) (d_accepts d) (d_candidates d) (d_nominationLeaders d) (d_nominations d)
    (d_nominationRound d + 1) true (d_latestNomination d) (d_latestComposite d) (d_renomCount d) (d_timers d)
    (d_statementChan d) d.
Definition set_latestNomination (x : option Statement) d : Decree E :=
  upd_nom (d_env d) (d_prevConsensusValue d) (d_votes d) (d_accepts d) (d_candidates d) (d_nominationLeaders d)
    (d_nominations d) (d_nominationRound d) (d_nominationStart d) x (d_latestComposite d) (d_renomCount d) (d_timers d)
    (d_statementChan d) d.
Definition set_latestComposite (x : string) d : Decree E :=
  upd_nom (d_env d) (d_prevConsensusValue d) (d_votes d) (d_accepts d) (d_candidates d) (d_nominationLeaders d)
    (d_nominations d) (d_nominationRound d) (d_nominationStart d) (d_latestNomination d) x (d_renomCount d) (d_timers d)
    (d_statementChan d) d.
Definition add_timer (prevHash currHash : string) d : Decree E :=
  upd_nom (d_env d) (d_prevConsensusValue d) (d_votes d) (d_accepts d) (d_candidates d) (d_nominationLeaders d)
    (d_nominations d) (d_nominationRound d) (d_nominationStart d) (d_latestNomination d) (d_latestComposite d)
    (d_renomCount d + 1) (d_timers d ++ [(prevHash, currHash)]) (d_statementChan d) d.
Definition set_env (x : E) d : Decree E :=
  upd_nom x (d_prevConsensusValue d) (d_votes d) (d_accepts d) (d_candidates d) (d_nominationLeaders d)
    (d_nominations d) (d_nominationRound d) (d_nominationStart d) (d_latestNomination d) (d_latestComposite d)
    (d_renomCount d) (d_timers d) (d_statementChan d) d.

(** Run an operation of the validator. *)
Definition on_env {A} (m : M E A) : M (Decree E) A := λ d, let '(e, r) := m (d_env d) in (set_env e d, r).

Definition updateRoundLeaders : M (Decree E) unit :=
  modify (λ d, set_nominationLeaders (d_nominationLeaders d ∪ round_leaders d) d).

(** The valid vote of the statement with the highest hash that the node does not vote for yet. *)
Definition getConsensusValue d (stmt : Statement) : res string :=
  let? nom := GetNominate stmt in
  let? best := foldl (λ acc vote,
    let? '(maxHashVal, newVote) := acc in
    match validateConsensusValue d vote with
    | Panic w => Panic w
    | NoFuel => NoFuel
    | Err _ => Ok (maxHashVal, newVote)
    | Ok _ =>
        if decide (vote ∈ d_votes d) then Ok (maxHashVal, newVote)
        else
          let hashVal := getConsensusValueHash d vote in
          Ok (if decide (maxHashVal < hashVal) then (hashVal, vote) else (maxHashVal, newVote))
    end) (Ok (0, "")) (nom_VoteList nom) in
  Ok best.2.

Definition nom_accept (vote : string) d : res bool :=
  federatedAccept (d_nodeID d) (d_quorum d) (env_GetQuorum (d_env d)) (voteFilter vote) (acceptFilter vote) (d_nominations d).
Definition nom_ratify (vote : string) d : res bool :=
  federatedRatify (d_nodeID d) (d_quorum d) (env_GetQuorum (d_env d)) (acceptFilter vote) (d_nominations d).

Fixpoint promote_accepts (votes : list string) (updated : bool) : M (Decree E) bool :=
  match votes with
  | [] => ret updated
  | vote :: votes =>
      let! d := get in
      if decide (vote ∈ d_accepts d) then promote_accepts votes updated
      else
        let! ok := lift (nom_accept vote d) in
        if negb ok then promote_accepts votes updated
        else
          let! valid := try (lift (validateConsensusValue d vote)) in
          match valid with
          | inl _ => promote_accepts votes updated
          | inr _ =>
              do! modify (λ d, set_votes ({[vote]} ∪ d_votes d) d) in
              do! modify (λ d, set_accepts ({[vote]} ∪ d_accepts d) d) in
              promote_accepts votes true
          end
  end.

Fixpoint promote_candidates (accepts : list string) (updated : bool) : M (Decree E) bool :=
  match accepts with
  | [] => ret updated
  | accept :: accepts =>
      let! d := get in
      if decide (accept ∈ d_candidates d) then promote_candidates accepts updated
      else
        let! ok := lift (nom_ratify accept d) in
        if negb ok then promote_candidates accepts updated
        else
          do! modify (λ d, set_candidates ({[accept]} ∪ d_candidates d) d) in
          promote_candidates accepts true
  end.

Definition promoteVotes (newNom : Nominate) : M (Decree E) (bool * bool) :=
  let! acceptUpdated := promote_accepts (nom_VoteList newNom) false in
  let! candidateUpdated := promote_candidates (nom_AcceptList newNom) false in
  ret (acceptUpdated, candidateUpdated).

(** ** Combining the candidates *)

(** The combined hash, the latest propose time and the values of the candidates. *)
Definition candidate_values (cands : list string) : res (string * Z * list ConsensusValue) :=
  foldl (λ acc cand,
    let? '(hash, time, vals) := acc in
    match b58_Decode cand with
    | None => Err "decode candidate failed: "
    | Some canb =>
        let? hash := bytesOr hash (SHA256Hash canb) in
        let? cv := res_wrap "decode consensus value failed: " (decode_res canb) in
        Ok (hash, Z.max time (cv_ProposeTime cv), vals ++ [cv])
    end) (Ok ("", 0, [])) cands.

(** The transaction set kept so far and its hash. *)
Definition choose_txset d (headerHash hash : string) (vals : list ConsensusValue) : res (option TxSet * string) :=
  foldl (λ acc cv,
    let? '(txset, txsetHash) := acc in
    match env_GetTxSet (d_env d) (cv_TxSetHash cv) with
    | Panic w => Panic w
    | NoFuel => NoFuel
    | Ok (Some ts) =>
        if decide (ts_PrevLedgerHash ts ≠ headerHash) then Ok (txset, txsetHash)
        else
          let? better :=
            match txset with
            | None => Ok true
            | Some _ => compareTxSet txsetHash txset (cv_TxSetHash cv) (Some ts) Ledger.GenesisBaseFee hash
            end in
          Ok (if better : bool then (Some ts, cv_TxSetHash cv) else (txset, txsetHash))
    | _ => Ok (txset, txsetHash)
    end) (Ok (None, "")) vals.

Definition combineCandidates : M (Decree E) string :=
  let! d := get in
  let! headerHash := lift (lm_CurrLedgerHeaderHash (d_env d)) in
  let! '(hash, time, vals) := lift (candidate_values (go_iter (d_candidates d))) in
  let! '(txset, _) := lift (choose_txset d headerHash hash vals) in
  match txset with
  | None => fail "txset is nil after candidate combination."
  | Some newTxSet =>
      let! newTxSetHash := wrap "compute tx set hash failed: " (lift (GetTxSetKey newTxSet)) in
      do! wrap "sync quorum to validator failed: " (on_env (env_RecvTxSet newTxSetHash newTxSet)) in
      let! candb := wrap "encode combine consensus value failed: " (lift (encode_res (mkConsensusValue newTxSetHash time))) in
      ret (b58_Encode candb)
  end.

(** ** Messages *)

Definition nomination_statement d : Statement :=
  mkStatement StatementType_NOMINATE (d_nodeID d) (d_index d)
    (Some (Stmt_Nominate (mkNominate (go_iter (d_votes d)) (go_iter (d_accepts d)) (d_quorumHash d)))).

(** [recv] is [recvBallot], [recvN] is [recvNomination]. *)
Section handlers.
Variables (recv : MStatement → M (Decree E) unit) (recvN : Statement → M (Decree E) unit).

Definition sendNomination : M (Decree E) unit :=
  let! d := get in
  let stmt := nomination_statement d in
  let! nom := lift (GetNominate stmt) in
  do! wrap "receive local nomination failed: " (recvN stmt) in
  let! d := get in
  let latest := d_latestNomination d ≫= λ s, match GetNominate s with Ok n => Some n | _ => None end in
  let! newer := lift (isNewerNomination latest (Some nom)) in
  if newer : bool then
    do! modify (set_latestNomination (Some stmt)) in
    broadcast (mkMStatement stmt None)
  else ret tt.

Definition store_nomination (stmt : Statement) (nom : Nominate) : M (Decree E) unit :=
  let! d := get in
  match d_nominations d !! s_NodeID stmt with
  | Some s =>
      let old := match GetNominate s with Ok n => Some n | _ => None end in
      let! newer := lift (isNewerNomination old (Some nom)) in
      if newer : bool then modify (λ d, set_nominations (<[s_NodeID stmt := stmt]> (d_nominations d)) d) else ret tt
  | None => modify (λ d, set_nominations (<[s_NodeID stmt := stmt]> (d_nominations d)) d)
  end.

Definition recvNomination_body (stmt : Statement) : M (Decree E) unit :=
  let! nom := lift (GetNominate stmt) in
  if decide (nom_VoteList nom = [] ∧ nom_AcceptList nom = []) then fail "vote and accept list is empty"
  else
    do! store_nomination stmt nom in
    let! d := get in
    if negb (d_nominationStart d) then ret tt
    else
      let! '(acceptUpdated, candidateUpdated) := wrap "promote votes failed: " (promoteVotes nom) in
      do! (if acceptUpdated : bool then do! try sendNomination in ret tt else ret tt) in
      if candidateUpdated : bool then
        let! compValue := wrap "combine candidates failed: " combineCandidates in
        do! modify (set_latestComposite compValue) in
        do! updateBallotPhase recv compValue false in
        ret tt
      else ret tt.

End handlers.

(** The recursion through [sendNomination]. *)
Fixpoint recvNomination (recv : MStatement → M (Decree E) unit) (fuel : nat) (stmt : Statement) : M (Decree E) unit :=
  match fuel with
  | O => λ d, (d, NoFuel)
  | S fuel => recvNomination_body recv (recvNomination recv fuel) stmt
  end.

(** ** Entry points *)

Definition renominate (prevHash currHash : string) : M (Decree E) unit :=
  let! d := get in
  if negb (d_nominationStart d) then ret tt
  else if decide (maxRenomCount < d_renomCount d) then ret tt
  else modify (add_timer prevHash currHash).

(** The loop over the leaders. *)
Fixpoint adopt_votes (currHash : string) (leaders : list string) (updated : bool) : M (Decree E) bool :=
  match leaders with
  | [] => ret updated
  | leader :: leaders =>
      let! d := get in
      if decide (leader = d_nodeID d) then
        if decide (currHash ∈ d_votes d) then adopt_votes currHash leaders updated
        else
          do! modify (λ d, set_votes ({[currHash]} ∪ d_votes d) d) in
          adopt_votes currHash leaders true
      else
        match d_nominations d !! leader with
        | None => adopt_votes currHash leaders updated
        | Some stmt =>
            let! nomination := wrap "get new consensus value from statement failed: " (lift (getConsensusValue d stmt)) in
            if decide (nomination ≠ "") then
              do! modify (λ d, set_votes ({[nomination]} ∪ d_votes d) d) in
              adopt_votes currHash leaders true
            else adopt_votes currHash leaders updated
        end
  end.

Definition Nominate_ (fuel : nat) (prevHash currHash : string) (isRenominate : bool)
    : M (Decree E) unit :=
  let! d := get in
  if isRenominate && negb (d_nominationStart d) then ret tt
  else
    do! modify (start_round prevHash) in
    do! updateRoundLeaders in
    let! d := get in
    let! updated := adopt_votes currHash (go_iter (d_nominationLeaders d)) false in
    do! renominate prevHash currHash in
    if updated : bool then
      wrap "send nomination failed: " (sendNomination (recvNomination (recvBallot fuel) fuel))
    else ret tt.

Definition StopNomination : M (Decree E) unit := modify (set_nominationStart false).

Definition Recv (fuel : nat) (stmt : option Statement) : M (Decree E) unit :=
  match stmt with
  | None => fail "statement is nil"
  | Some stmt =>
      match s_Type stmt with
      | StatementType_NOMINATE => wrap "recv nomination failed: " (recvNomination (recvBallot fuel) fuel stmt)
      | StatementType_PREPARE | StatementType_CONFIRM | StatementType_EXTERNALIZE =>
          wrap "recv ballot failed: " (recvBallot fuel (mkMStatement stmt None))
      | StatementType_other _ => ret tt
      end
  end.

Definition GetLatestStatements d : list Statement :=
  opt_list (d_latestNomination d) ++ (resolve (d_heap d) <$> opt_list (d_latestBallot d)).

End nomination.

(** * The life of a decree *)

Section nomination_life.
Context {E : Type} {Env : DecreeEnv E} {Crypto : CryptoLib} {Pbc : PbCodec} {GoRt : GoRuntime}.
Implicit Types d : Decree E.

(** A step that does not touch the ballots. *)
Lemma progress_modify (f : Decree E → Decree E) : (∀ d, silent d (f d)) → preserves progress (modify f).
Proof. intros Hf. apply preserves_silent. intros d. apply Hf. Qed.

Lemma progress_on_env {A} (m : M E A) : preserves progress (on_env m).
Proof. intros d. unfold on_env. destruct (m (d_env d)). by apply silent_progress. Qed.

Lemma progress_add_vote v : preserves progress (modify (λ d, set_votes (E:=E) ({[v]} ∪ d_votes d) d)).
Proof. apply progress_modify. intros d. do 3 (split; [done|]). unfold grows. simpl. set_solver. Qed.

Lemma progress_add_accept (v : string) (k : M (Decree E) bool) :
  preserves progress k →
  preserves progress (do! modify (λ d, set_votes ({[v]} ∪ d_votes d) d) in
                      do! modify (λ d, set_accepts ({[v]} ∪ d_accepts d) d) in k).
Proof.
  intros Hk d. unfold bind, modify. etrans; [|apply Hk]. apply silent_progress.
  do 3 (split; [done|]). unfold grows. simpl. set_solver.
Qed.

Lemma progress_add_candidate v : preserves progress (modify (λ d, set_candidates (E:=E) ({[v]} ∪ d_candidates d) d)).
Proof. apply progress_modify. intros d. do 3 (split; [done|]). unfold grows. simpl. set_solver. Qed.

Lemma progress_updateRoundLeaders : preserves progress (updateRoundLeaders (E:=E)).
Proof. apply progress_modify. intros d. do 3 (split; [done|]). unfold grows. simpl. set_solver. Qed.

Lemma progress_nominations f : preserves progress (modify (λ d, set_nominations (E:=E) (f d) d)).
Proof. by apply progress_modify. Qed.
Lemma progress_latestNomination x : preserves progress (modify (set_latestNomination (E:=E) x)).
Proof. by apply progress_modify. Qed.
Lemma progress_latestComposite x : preserves progress (modify (set_latestComposite (E:=E) x)).
Proof. by apply progress_modify. Qed.
Lemma progress_start_round x : preserves progress (modify (start_round (E:=E) x)).
Proof. by apply progress_modify. Qed.
Lemma progress_add_timer x y : preserves progress (modify (add_timer (E:=E) x y)).
Proof. by apply progress_modify. Qed.
Lemma progress_StopNomination : preserves progress (StopNomination (E:=E)).
Proof. by apply progress_modify. Qed.
#[local] Hint Resolve progress_on_env progress_add_vote progress_add_accept progress_add_candidate progress_updateRoundLeaders
  progress_nominations progress_latestNomination progress_latestComposite progress_start_round progress_add_timer
  progress_broadcast progress_updateBallotPhase progress_recvBallot : go_preserves.

Lemma progress_promote_accepts votes u : preserves progress (promote_accepts (E:=E) votes u).
Proof. revert u. induction votes; simpl; pres (@progress E). Qed.
Lemma progress_promote_candidates accepts u : preserves progress (promote_candidates (E:=E) accepts u).
Proof. revert u. induction accepts; simpl; pres (@progress E). Qed.
#[local] Hint Resolve progress_promote_accepts progress_promote_candidates : go_preserves.

Lemma progress_combineCandidates : preserves progress (combineCandidates (E:=E)).
Proof. unfold combineCandidates. pres (@progress E). Qed.
Lemma progress_store_nomination stmt nom : preserves progress (store_nomination (E:=E) stmt nom).
Proof. unfold store_nomination. pres (@progress E). Qed.
#[local] Hint Resolve progress_combineCandidates progress_store_nomination : go_preserves.

Lemma progress_sendNomination recvN :
  (∀ s, preserves progress (recvN s)) → preserves progress (sendNomination (E:=E) recvN).
Proof. intros H. unfold sendNomination. pres (@progress E). Qed.
#[local] Hint Resolve progress_sendNomination : go_preserves.

Lemma progress_recvNomination recv n s :
  (∀ m, preserves progress (recv m)) → preserves progress (recvNomination (E:=E) recv n s).
Proof.
  intros Hr. revert s. induction n as [|n IH]; intros s; simpl; [intros d; reflexivity|].
  unfold recvNomination_body, promoteVotes. pres (@progress E).
Qed.
#[local] Hint Resolve progress_recvNomination : go_preserves.

Lemma progress_Recv n s : preserves progress (Recv (E:=E) n s).
Proof. unfold Recv. pres (@progress E). Qed.

Lemma progress_adopt_votes v leaders u : preserves progress (adopt_votes (E:=E) v leaders u).
Proof. revert u. induction leaders; simpl; pres (@progress E). Qed.
#[local] Hint Resolve progress_adopt_votes : go_preserves.

Lemma progress_Nominate n x y r : preserves progress (Nominate_ (E:=E) n x y r).
Proof. unfold Nominate_, renominate. pres (@progress E). Qed.

(** The calls on a decree.  Between two of them the ledger and the validator may change. *)
Inductive decree_step : Decree E → Decree E → Prop :=
| step_Nominate n x y r d : decree_step d (Nominate_ n x y r d).1
| step_Recv n s d : decree_step d (Recv n s d).1
| step_StopNomination d : decree_step d (StopNomination d).1
| step_env e d : decree_step d (set_env e d).

Lemma decree_step_progress d d' : decree_step d d' → progress d d'.
Proof.
  destruct 1; [apply progress_Nominate|apply progress_Recv|apply progress_StopNomination|by apply silent_progress].
Qed.

Lemma decree_steps_progress d d' : rtc decree_step d d' → progress d d'.
Proof. induction 1; [reflexivity|]. etrans; [by apply decree_step_progress|done]. Qed.

End nomination_life.

(** C11: a decree externalizes at most once.  Whatever is called on a new decree, in whatever order: it
    announces nothing before the last phase, and it never announces more than one value, which is
    the value of its commit ballot under its own index. *)
Theorem externalizes_once {E : Type} {Env : DecreeEnv E} {Crypto : CryptoLib} {Pbc : PbCodec} {GoRt : GoRuntime}
    (env : E) (index : Z) (nodeID quorumHash : string) (quorum : Quorum) (d0 d : Decree E) :
  NewDecree env index nodeID quorum quorumHash = Ok d0 → rtc decree_step d0 d →
  (d_currentPhase d ≠ BallotPhaseExternalize → d_externalizeChan d = []) ∧
  (d_externalizeChan d = [] ∨ ∃ c, cb d = Some c ∧ d_externalizeChan d = [(index, b_Value c)]).
Proof.
  intros H0 (_&_&_&H)%decree_steps_progress. unfold NewDecree in H0.
  repeat case_decide; simplify_eq/=. unfold announced in H. simpl in H.
  destruct (d_currentPhase d); naive_solver.
Qed.

(** C12: what is externalized is final.  After the last phase is entered no call changes the phase, the
    ballots of the decree or what it has announced. *)
Theorem externalized_is_final {E : Type} {Env : DecreeEnv E} {Crypto : CryptoLib} {Pbc : PbCodec} {GoRt : GoRuntime}
    (d d' : Decree E) :
  rtc decree_step d d' → d_currentPhase d = BallotPhaseExternalize →
  d_currentPhase d' = BallotPhaseExternalize ∧ decided d' = decided d ∧ cb d' = cb d ∧ hb d' = hb d.
Proof.
  intros (_&_&Hp&H)%decree_steps_progress He. rewrite He in *. simpl in *.
  split; [by destruct (d_currentPhase d')|]. split; [done|]. unfold decided in H. injection H as Hh _ _ _ Hhb Hcb _.
  unfold cb, hb, rd. by rewrite Hh, Hhb, Hcb.
Qed.

(** C29: the nomination only moves forward.  Votes, accepted values, candidates and leaders are never
    withdrawn, whatever is called, and every accepted value is voted for. *)
Theorem nomination_moves_forward {E : Type} {Env : DecreeEnv E} {Crypto : CryptoLib} {Pbc : PbCodec} {GoRt : GoRuntime}
    (env : E) (index : Z) (nodeID quorumHash : string) (quorum : Quorum) (d0 d d' : Decree E) :
  NewDecree env index nodeID quorum quorumHash = Ok d0 → rtc decree_step d0 d → rtc decree_step d d' →
  d_accepts d' ⊆ d_votes d' ∧ d_votes d ⊆ d_votes d' ∧ d_accepts d ⊆ d_accepts d' ∧
  d_candidates d ⊆ d_candidates d' ∧ d_nominationLeaders d ⊆ d_nominationLeaders d'.
Proof.
  intros H0 (_&(_&_&_&_&G0)&_)%decree_steps_progress (_&(?&?&?&?&G)&_)%decree_steps_progress.
  split_and!; [|done..]. apply G, G0. unfold NewDecree in H0. repeat case_decide; simplify_eq/=. set_solver.
Qed.

(** ** The hashes of nodes and values *)

Lemma uvarint_cons n x : ∃ b bs, uvarint (S n) x = b :: bs.
Proof. simpl. case_decide; eauto. Qed.

Lemma substring_all_str (s : string) : String.substring 0 (String.length s) s = s.
Proof. induction s as [|c s IH]; simpl; [done|]. by rewrite IH. Qed.

(** Writing one byte and then anything else at the same place. *)
Lemma put_uvarint_over (b : ascii) (rest : string) (x y : Z) :
  0 <= x < 128 → put_uvarint (put_uvarint (String b rest) x) y = put_uvarint (String b rest) y.
Proof.
  intros Hx. unfold put_uvarint, MaxVarintLen64.
  assert (uvarint 10 x = [x]) as -> by (simpl; rewrite decide_True by lia; done).
  destruct (uvarint_cons 9 y) as (c & cs & ->). simpl.
  rewrite Nat.sub_0_r, substring_all_str. done.
Qed.

Lemma put_uvarint_nonempty buf x : ∃ b rest, put_uvarint buf x = String b rest.
Proof. unfold put_uvarint, MaxVarintLen64. destruct (uvarint_cons 9 x) as (c & cs & ->). simpl. eauto. Qed.

(** The hashes are not separated.  The tags that should tell apart the neighbour test, the priority
    and the value hash are written at the start of the buffer, and the round is written over them:
    the priority of a node is the very hash its weight is compared with, and the hash of a value
    is that of a node of the same name. *)
Theorem hash_tags_overwritten {E : Type} {Crypto : CryptoLib} (d : Decree E) (x : string) :
  getNodeHash d x true = getNodeHash d x false ∧ getConsensusValueHash d x = getNodeHash d x false.
Proof.
  unfold getNodeHash, getConsensusValueHash.
  destruct (put_uvarint_nonempty zero_buf (d_index d)) as (b & rest & ->).
  rewrite str_app_cons, !put_uvarint_over; unfold hashP, hashN, hashK; done.
Qed.

(** * Concrete runs *)

Module runs.
Import states.

(** A node that trusts only itself. *)
Definition alone : Quorum := mkQuorum f64_one ["me"] [].
Definition value (h : string) : string := match encode_res (mkConsensusValue h 7) with Ok b => b | _ => "" end.
Definition nominated : Decree Quorum := (Nominate_ 40 "head" (value "x") false (fresh alone)).1.
(** The value with the key of the transaction set that the candidates combine to. *)
Definition combined : string := match GetTxSetKey txset with Ok k => value k | _ => "" end.

(** A decree can run to its end.  From one call of [Nominate] a node that is its own quorum accepts
    its vote, confirms the candidate, combines it, prepares, commits and externalizes it: the
    recursion between messages and steps comes to an end and announces the combined value. *)
Theorem solo_decree_externalizes :
  (let '(d, r) := Nominate_ 40 "head" (value "x") false (fresh alone) in
   (r, d_currentPhase d, d_externalizeChan d, d_nominationStart d, d_ballotMsgCount d)) =
  (Ok tt, BallotPhaseExternalize, [(5, combined)], false, 0).
Proof. vm_compute. reflexivity. Qed.

Lemma nominated_reached : rtc decree_step (fresh alone) nominated.
Proof. apply rtc_once, step_Nominate. Qed.

Lemma externalizes_once_witness : ∃ c, cb nominated = Some c ∧ d_externalizeChan nominated = [(5, b_Value c)].
Proof.
  destruct (externalizes_once alone 5 "me" "qh" alone (fresh alone) nominated eq_refl nominated_reached) as [_ [H|H]];
    [|exact H]. exfalso. vm_compute in H. discriminate H.
Defined.

(** A late message of another value. *)
Definition late : Statement :=
  mkStatement StatementType_EXTERNALIZE "a" 5 (Some (Stmt_Externalize (mkExternalize (Some (mkBallot 1 (value "y"))) 1 "qh"))).

Lemma externalized_is_final_witness : decided (Recv 9 (Some late) nominated).1 = decided nominated.
Proof.
  apply (externalized_is_final nominated); [apply rtc_once, step_Recv|by vm_compute].
Defined.

Lemma nomination_moves_forward_witness : value "x" ∈ d_votes nominated ∧ d_accepts nominated ⊆ d_votes nominated.
Proof.
  split; [by vm_compute|].
  by destruct (nomination_moves_forward alone 5 "me" "qh" alone (fresh alone) (fresh alone) nominated eq_refl
    (rtc_refl _ _) nominated_reached).
Defined.

End runs.
