(* ===== verification/Outgoing.v ===== *)
(** What a decree does to the outside: the messages it sends, and its calls of the validator.

    A decree speaks in its own name and for its own index only, what it has sent stays sent, and the only effect
    on the validator is a transaction set stored under its own hash.  The engine relies on this. *)

From S2P Require Import Prelude Pb Crypto Quorum Ballot Federated Decree Nomination.

Section outgoing.
Context {E : Type} {Env : DecreeEnv E} {Crypto : CryptoLib} {Pbc : PbCodec} {GoRt : GoRuntime}.
(** A relation on the environment that storing a transaction set under its hash preserves. *)
Context (R : E → E → Prop) {R_pre : PreOrder R}.
Hypothesis R_RecvTxSet : ∀ h t, GetTxSetKey t = Ok h → preserves R (env_RecvTxSet h t).
Implicit Types d : Decree E.

(** A statement in the name of the node for the index of the decree. *)
Definition own_stmt d (s : Statement) : Prop := s_NodeID s = d_nodeID d ∧ s_Index s = d_index d.
Definition own d : Prop :=
  Forall (λ m, own_stmt d (ms_val m)) (d_statementChan d) ∧
  (∀ m, d_latestBallot d = Some m → own_stmt d (ms_val m)) ∧
  (∀ s, d_latestNomination d = Some s → own_stmt d s).

Definition ident d := (d_index d, d_nodeID d, (d_quorum d, d_quorumHash d)).

Definition moves d d' : Prop :=
  R (d_env d) (d_env d') ∧ ident d' = ident d ∧ (own d → own d') ∧
  d_statementChan d `prefix_of` d_statementChan d' ∧ d_externalizeChan d `prefix_of` d_externalizeChan d'.

#[global] Instance moves_preorder : PreOrder moves.
Proof.
  split; [by intros d|]. intros a b c (?&?&?&?&?) (?&?&?&?&?). split_and!; [by etrans|congruence|auto|by etrans..].
Qed.

(** The changes that concern neither messages nor environment. *)
Lemma moves_same d d' :
  d_env d' = d_env d → ident d' = ident d → d_statementChan d' = d_statementChan d →
  d_externalizeChan d' = d_externalizeChan d → d_latestBallot d' = d_latestBallot d →
  d_latestNomination d' = d_latestNomination d → moves d d'.
Proof.
  intros H1 H2 H3 H4 H5 H6. split; [by rewrite H1|]. split; [done|]. rewrite H3, H4. split; [|done].
  assert (d_index d' = d_index d ∧ d_nodeID d' = d_nodeID d) as [Hi Hn] by (unfold ident in H2; split; congruence).
  unfold own, own_stmt. by rewrite H3, H5, H6, Hi, Hn.
Qed.
Lemma moves_modify (f : Decree E → Decree E) :
  (∀ d, d_env (f d) = d_env d ∧ ident (f d) = ident d ∧ d_statementChan (f d) = d_statementChan d ∧
        d_externalizeChan (f d) = d_externalizeChan d ∧ d_latestBallot (f d) = d_latestBallot d ∧
        d_latestNomination (f d) = d_latestNomination d) → preserves moves (modify f).
Proof. intros Hf d. destruct (Hf d) as (?&?&?&?&?&?). by apply moves_same. Qed.
#[local] Hint Extern 1 (preserves _ (modify _)) => apply moves_modify; intros ?; split_and!; reflexivity : go_preserves.
(** A computation that leaves the state alone. *)
Lemma moves_read {A} (m : M (Decree E) A) : (∀ d, (m d).1 = d) → preserves moves m.
Proof. intros Hm d. by rewrite Hm. Qed.

(** ** Ballots *)

Lemma moves_alloc b : preserves moves (alloc (E:=E) b).
Proof. intros d. by apply moves_same. Qed.
Lemma moves_reset o : preserves moves (reset (E:=E) o).
Proof. unfold reset. pres moves. Qed.
Lemma moves_check : preserves moves (checkInvariants (E:=E)).
Proof. by apply moves_read. Qed.
Lemma moves_ratify f : preserves moves (ballot_ratify (E:=E) f).
Proof. by apply moves_read. Qed.
Lemma moves_accept f g : preserves moves (ballot_accept (E:=E) f g).
Proof. by apply moves_read. Qed.
Lemma moves_store m : preserves moves (store (E:=E) m).
Proof. unfold store. pres moves. Qed.
#[local] Hint Resolve moves_alloc moves_reset moves_check moves_ratify moves_accept moves_store : go_preserves.
Lemma moves_alloc_all bs : preserves moves (alloc_all (E:=E) bs).
Proof. induction bs; simpl; pres moves. Qed.
Lemma moves_updateBallot b check : preserves moves (updateBallot (E:=E) b check).
Proof. unfold updateBallot. pres moves. Qed.
#[local] Hint Resolve moves_alloc_all moves_updateBallot : go_preserves.
Lemma moves_updateBallotIfNeeded b : preserves moves (updateBallotIfNeeded (E:=E) b).
Proof. unfold updateBallotIfNeeded. pres moves. Qed.
Lemma moves_updateBallotValue b : preserves moves (updateBallotValue (E:=E) b).
Proof. unfold updateBallotValue. pres moves. Qed.
Lemma moves_setAcceptPrepared l : preserves moves (setAcceptPrepared (E:=E) l).
Proof. unfold setAcceptPrepared. pres moves. Qed.
Lemma moves_prepared_candidates m : preserves moves (prepared_candidates (E:=E) m).
Proof. unfold prepared_candidates. pres moves. Qed.
#[local] Hint Resolve moves_updateBallotIfNeeded moves_updateBallotValue moves_setAcceptPrepared moves_prepared_candidates : go_preserves.
Lemma moves_h_loop cands : preserves moves (h_loop (E:=E) cands).
Proof. induction cands; simpl; pres moves. Qed.
Lemma moves_c_loop curb h cands c : preserves moves (c_loop (E:=E) curb h cands c).
Proof. revert c; induction cands; simpl; pres moves. Qed.
#[local] Hint Resolve moves_h_loop moves_c_loop : go_preserves.

(** ** Messages *)

Lemma own_ident d d' s : ident d' = ident d → own_stmt d s → own_stmt d' s.
Proof. intros H [??]. unfold ident in H. split; congruence. Qed.

(** A message of its own may be sent, and remembered. *)
Lemma moves_broadcast m d : (own d → own_stmt d (ms_val m)) → moves d (broadcast m d).1.
Proof.
  intros Hm. split_and!; simpl; [reflexivity|done| |by apply prefix_app_r|done].
  intros Ho. pose proof Ho as (H1 & H2 & H3). split_and!; [|done..]. apply Forall_app. split; [done|].
  constructor; [|constructor]. by apply Hm.
Qed.
Lemma moves_latestBallot m d : own_stmt d (ms_val m) → moves d (set_latestBallot (Some m) d).
Proof.
  intros Hm. split_and!; simpl; [reflexivity|done| |done..].
  intros (H1 & H2 & H3). split_and!; [done| |done]. by intros m' [= <-].
Qed.
Lemma moves_latestNomination s d : own_stmt d s → moves d (set_latestNomination (Some s) d).
Proof.
  intros Hm. split_and!; simpl; [reflexivity|done| |done..].
  intros (H1 & H2 & H3). split_and!; [done..|]. by intros s' [= <-].
Qed.

Lemma ballot_statement_own d m : ballot_statement d = Ok m → own_stmt d (ms_val m).
Proof. unfold ballot_statement. intros H. repeat case_match; simplify_eq/=; try done. all: by destruct (pb d), (cb d), (hb d); simplify_eq/=. Qed.

(** [step] repeats its last message. *)
Lemma moves_repeat (u : bool) :
  preserves moves (let! d := get in match d_latestBallot d with
    | Some m => if u then broadcast m else ret tt | None => ret tt end).
Proof.
  apply preserves_bind_get. intros d. destruct (d_latestBallot d) eqn:Hl; [|done]. destruct u; [|done].
  apply moves_broadcast. intros (_ & H & _). by apply H.
Qed.

Section with_recv.
Variable recv : MStatement → M (Decree E) unit.
Hypothesis recv_moves : ∀ m, preserves moves (recv m).
#[local] Hint Resolve recv_moves moves_repeat : go_preserves.

Lemma moves_newer m : preserves moves (newer_than_latest (E:=E) m).
Proof. unfold newer_than_latest. pres moves. Qed.
#[local] Hint Resolve moves_newer : go_preserves.

Lemma moves_sendBallot : preserves moves (sendBallot_ recv).
Proof.
  unfold sendBallot_. apply (preserves_bind moves); [|pres moves]. apply preserves_try. unfold sendBallot.
  apply (preserves_bind moves); [pres moves|intros _]. apply preserves_bind_get. intros d.
  apply (bind_at moves); [done|]. intros m d1 Hm. unfold lift in Hm.
  destruct (ballot_statement d) as [m'| | |] eqn:Hb; try done. injection Hm as H1 H2. subst d1 m'. apply ballot_statement_own in Hb.
  repeat (case_decide; [done|]).
  apply (bind_at moves); [apply preserves_wrap, recv_moves|]. intros u d2 Hr.
  assert (ident d2 = ident d) as Hi2.
  { apply wrap_Ok in Hr. apply (preserves_run _ _ _ _ _ Hr (recv_moves m)). }
  apply (bind_at moves); [done|]. intros d3 d4 Hg. injection Hg as H1 H2. subst d3 d4. case_decide; [done|].
  apply (bind_at moves); [apply moves_newer|]. intros n d5 Hn.
  assert (ident d5 = ident d) as Hi5.
  { rewrite <-Hi2. apply (preserves_run _ _ _ _ _ Hn (moves_newer m)). }
  destruct n; [|done]. apply (own_ident _ d5) in Hb; [|done].
  apply (bind_at moves); [by apply moves_latestBallot|]. intros u' d6 Hd. injection Hd as Hd _. subst d6. apply moves_broadcast. by intros _.
Qed.
#[local] Hint Resolve moves_sendBallot : go_preserves.

Lemma moves_updateBallotPhaseWithCounter val n : preserves moves (updateBallotPhaseWithCounter recv val n).
Proof. unfold updateBallotPhaseWithCounter. pres moves. Qed.
#[local] Hint Resolve moves_updateBallotPhaseWithCounter : go_preserves.
Lemma moves_updateBallotPhase val force : preserves moves (updateBallotPhase recv val force).
Proof. unfold updateBallotPhase. pres moves. Qed.
#[local] Hint Resolve moves_updateBallotPhase : go_preserves.
Lemma moves_abandonBallot c : preserves moves (abandonBallot recv c).
Proof. unfold abandonBallot. pres moves. Qed.
#[local] Hint Resolve moves_abandonBallot : go_preserves.
Lemma moves_update : preserves moves (update recv).
Proof. unfold update. pres moves. Qed.
#[local] Hint Resolve moves_update : go_preserves.
Lemma moves_update_loop n u : preserves moves (update_loop recv n u).
Proof. revert u. induction n; intros u; simpl; [intros d; reflexivity|]. pres moves. Qed.
Lemma moves_accept_candidate l : preserves moves (accept_candidate recv l).
Proof. unfold accept_candidate. pres moves. Qed.
#[local] Hint Resolve moves_update_loop moves_accept_candidate : go_preserves.
Lemma moves_accept_loop ls : preserves moves (accept_loop recv ls).
Proof. induction ls; simpl; pres moves. Qed.
#[local] Hint Resolve moves_accept_loop : go_preserves.
Lemma moves_acceptPrepared m : preserves moves (acceptPrepared recv m).
Proof. unfold acceptPrepared. pres moves. Qed.
Lemma moves_setConfirmPrepared c h : preserves moves (setConfirmPrepared recv c h).
Proof. unfold setConfirmPrepared. pres moves. Qed.
Lemma moves_setAcceptCommit c h : preserves moves (setAcceptCommit recv c h).
Proof. unfold setAcceptCommit. pres moves. Qed.
Lemma moves_announce f : preserves moves (modify (λ d, set_externalizeChan (E:=E) (d_externalizeChan d ++ f d) d)).
Proof. intros d. split_and!; simpl; [reflexivity|done|by intros (?&?&?)|done|by apply prefix_app_r]. Qed.
#[local] Hint Resolve moves_acceptPrepared moves_setConfirmPrepared moves_setAcceptCommit moves_announce : go_preserves.
Lemma moves_confirmPrepared m : preserves moves (confirmPrepared recv m).
Proof. unfold confirmPrepared. pres moves. Qed.
Lemma moves_acceptCommit m : preserves moves (acceptCommit recv m).
Proof. unfold acceptCommit. pres moves. Qed.
Lemma moves_setConfirmCommit c h : preserves moves (setConfirmCommit recv c h).
Proof. unfold setConfirmCommit. pres moves. Qed.
#[local] Hint Resolve moves_setConfirmCommit : go_preserves.
Lemma moves_confirmCommit m : preserves moves (confirmCommit recv m).
Proof. unfold confirmCommit. pres moves. Qed.
#[local] Hint Resolve moves_confirmPrepared moves_acceptCommit moves_confirmCommit : go_preserves.
Lemma moves_step n m : preserves moves (step recv n m).
Proof. unfold step. pres moves. Qed.
#[local] Hint Resolve moves_step : go_preserves.
Lemma moves_recv_body n m : preserves moves (recv_body recv n m).
Proof. unfold recv_body. pres moves. Qed.

End with_recv.

Lemma moves_recvBallot n m : preserves moves (recvBallot n m).
Proof. revert m. induction n as [|n IH]; intros m; simpl; [by intros d|]. by apply moves_recv_body. Qed.
#[local] Hint Resolve moves_recvBallot : go_preserves.

(** ** Nomination *)

Lemma moves_on_env {A} (m : M E A) : preserves R m → preserves moves (on_env m).
Proof.
  intros Hm d. specialize (Hm (d_env d)). unfold on_env. destruct (m (d_env d)) as [e r]. simpl in *.
  split_and!; simpl; [done|done|by intros (?&?&?)|done|done].
Qed.

Lemma moves_combineCandidates : preserves moves (combineCandidates (E:=E)).
Proof.
  unfold combineCandidates. do 2 (apply (preserves_bind moves); [pres moves|intros ?]).
  apply (preserves_bind moves); [pres moves|intros [[? ?] ?]]. apply (preserves_bind moves); [pres moves|intros [[t|] ?]]; [|pres moves].
  intros d. apply (bind_at moves); [apply (preserves_wrap moves); pres moves|].
  intros h d1 Hk%wrap_Ok. injection Hk as H1 Hk. subst d1. at_all moves. apply (preserves_bind moves); [|pres moves].
  by apply preserves_wrap, moves_on_env, R_RecvTxSet.
Qed.
Lemma moves_promote_accepts votes u : preserves moves (promote_accepts (E:=E) votes u).
Proof. revert u. induction votes; simpl; pres moves. Qed.
Lemma moves_promote_candidates accepts u : preserves moves (promote_candidates (E:=E) accepts u).
Proof. revert u. induction accepts; simpl; pres moves. Qed.
Lemma moves_store_nomination stmt nom : preserves moves (store_nomination (E:=E) stmt nom).
Proof. unfold store_nomination. pres moves. Qed.
Lemma moves_updateRoundLeaders : preserves moves (updateRoundLeaders (E:=E)).
Proof. unfold updateRoundLeaders. pres moves. Qed.
Lemma moves_adopt_votes v leaders u : preserves moves (adopt_votes (E:=E) v leaders u).
Proof. revert u. induction leaders; simpl; pres moves. Qed.
#[local] Hint Resolve moves_combineCandidates moves_promote_accepts moves_promote_candidates moves_store_nomination
  moves_updateRoundLeaders moves_adopt_votes moves_updateBallotPhase : go_preserves.

Lemma moves_sendNomination recvN : (∀ s, preserves moves (recvN s)) → preserves moves (sendNomination (E:=E) recvN).
Proof.
  intros Hr. unfold sendNomination. apply preserves_bind_get. intros d.
  apply (bind_at moves); [done|]. intros nom d1 Hn. injection Hn as <- _.
  apply (bind_at moves); [apply preserves_wrap, Hr|]. intros u d2 H2%wrap_Ok.
  assert (own_stmt d2 (nomination_statement d)) as Ho.
  { apply (own_ident d); [apply (preserves_run _ _ _ _ _ H2 (Hr _))|done]. }
  apply (bind_at moves); [done|]. intros d3 d4 Hg. injection Hg as H3 H4. subst d3 d4.
  apply (bind_at moves); [done|]. intros newer d5 H5. injection H5 as <- _. destruct newer; [|done].
  apply (bind_at moves); [by apply moves_latestNomination|]. intros u' d6 H6. injection H6 as H6 _. subst d6.
  apply moves_broadcast. by intros _.
Qed.
#[local] Hint Resolve moves_sendNomination : go_preserves.
Lemma moves_recvNomination recv n s :
  (∀ m, preserves moves (recv m)) → preserves moves (recvNomination (E:=E) recv n s).
Proof.
  intros Hr. revert s. induction n as [|n IH]; intros s; simpl; [by intros d|].
  unfold recvNomination_body, promoteVotes. pres moves.
Qed.
#[local] Hint Resolve moves_recvNomination : go_preserves.

(** ** The calls on a decree *)

Lemma moves_Recv n s : preserves moves (Recv (E:=E) n s).
Proof. unfold Recv. pres moves. Qed.
Lemma moves_nominate n : preserves moves (sendNomination (recvNomination (recvBallot n) n)).
Proof. apply moves_sendNomination. intros s. apply moves_recvNomination, moves_recvBallot. Qed.
#[local] Hint Resolve moves_nominate : go_preserves.
Lemma moves_Nominate n x y r : preserves moves (Nominate_ (E:=E) n x y r).
Proof. unfold Nominate_, renominate. pres moves. Qed.
Lemma moves_StopNomination : preserves moves (StopNomination (E:=E)).
Proof. unfold StopNomination. pres moves. Qed.

Lemma own_latest d s : own d → s ∈ GetLatestStatements d → own_stmt d s.
Proof.
  intros (_ & Hb & Hn). unfold GetLatestStatements. rewrite elem_of_app. intros [Hs|Hs].
  - destruct (d_latestNomination d); [|by apply not_elem_of_nil in Hs]. apply list_elem_of_singleton in Hs as ->. by apply Hn.
  - destruct (d_latestBallot d) as [m|]; [|by apply not_elem_of_nil in Hs]. apply list_elem_of_singleton in Hs as ->.
    specialize (Hb m eq_refl). unfold resolve. by destruct (ms_refs m) as [[[??]?]|].
Qed.

End outgoing.
