(* ===== verification/Pledge.v ===== *)
(** What an honest node commits itself to.

    The first CONFIRM or EXTERNALIZE statement that a decree builds pledges it to the value of its current ballot.  The
    invariant [pledged g d] says what this means for a decree [d] whose pledge is [g]: the statements it has built hold
    that value and keep holding it, although the ballots are shared objects of a heap and [Reset] writes some of them;
    its current, high and commit ballots hold it; and every value it has announced was accepted, in the name of their
    senders, by a slice of its quorum.  Every call on a decree preserves the invariant.  [Agreement] concludes from it. *)

From S2P Require Import Prelude Pb Crypto Quorum Ballot Federated Decree Nomination.

Create HintDb pledge.

(** * Statements that commit *)

Definition is_commit (s : Statement) : bool :=
  match s_Stmt s with Some (Stmt_Confirm _) | Some (Stmt_Externalize _) => true | _ => false end.

(** The value a statement commits its sender to. *)
Definition commit_value (s : Statement) : option string :=
  match s_Stmt s with
  | Some (Stmt_Confirm c) => b_Value <$> conf_B c
  | Some (Stmt_Externalize e) => b_Value <$> ext_B e
  | _ => None
  end.

Lemma commit_value_is_commit s u : commit_value s = Some u → is_commit s = true.
Proof. unfold commit_value, is_commit. by repeat case_match. Qed.

Lemma compatible_value a b : compatibleBallots (Some a) (Some b) = true → b_Value a = b_Value b.
Proof. simpl. rewrite bool_decide_eq_true. apply strcmp_eq. Qed.

(** Who is counted as having accepted a commit has pledged its value. *)
Lemma commitAcceptFilter_value b l r s : commitAcceptFilter (Some b) l r s = Ok true → commit_value s = Some (b_Value b).
Proof.
  unfold commitAcceptFilter, commit_value, GetConfirm, GetExternalize. intros H.
  destruct (s_Type s), (s_Stmt s) as [[| |c|e]|]; simplify_eq/=.
  - apply andb_true_iff in H as [H _]. destruct (conf_B c) as [x|]; [|done]. simpl. by rewrite (compatible_value _ _ H).
  - destruct (ext_B e) as [x|]; simplify_eq/=. apply andb_true_iff in H as [H _]. by rewrite (compatible_value _ _ H).
Qed.

(** ** Quorums *)

(** An interval that is found passes. *)
Lemma find_interval_passes cs F l r l' r' :
  (l ≠ 0 → F l r = Ok true) → find_interval cs F l r = Ok (l', r') → l' ≠ 0 → F l' r' = Ok true.
Proof.
  revert l r. induction cs as [|c cs IH]; intros l r Hl H; simpl in H; [by simplify_eq|].
  destruct (decide (l ≠ 0 ∧ r < c)); [exact (IH _ _ Hl H)|].
  destruct (F c _) as [[]| | |] eqn:Hc; simpl in H; try done; [exact (IH _ _ (λ _, Hc) H)|].
  destruct (decide (l ≠ 0)); [by simplify_eq|exact (IH _ _ Hl H)].
Qed.

(** Ratified means: a slice of the local quorum passes the filter. *)
Lemma ratified_slice me q G F stmts :
  federatedRatify me q G F stmts = Ok true →
  ∃ S, isQuorumSlice q S = true ∧ ∀ x, x ∈ S → ∃ s, stmts !! x = Some s ∧ F s = Ok true.
Proof.
  unfold federatedRatify, has_quorum.
  destruct (filter_nodes F stmts) as [nodes| | |] eqn:Hf; try done. cbn [res_bind]. rewrite quorum_loop_run.
  pose proof (filter_nodes_spec _ _ _ Hf) as Hn. case_decide as He; cbn [res_bind].
  - intros [= Hq]. exists ∅. split; [done|set_solver].
  - destruct (satisfied me G stmts nodes) as [sub| | |] eqn:Hs; try done. intros [= Hq]. exists sub. split; [done|].
    intros x Hx. apply Hn. by apply (satisfied_spec _ _ _ _ _ Hs).
Qed.

(** * The invariant *)

Definition val (o : option Ballot) : option string := b_Value <$> o.

Section pledge.
Context {E : Type} {Env : DecreeEnv E} {Crypto : CryptoLib} {Pbc : PbCodec} {GoRt : GoRuntime}.
(** The honest nodes, and what the others of them are known to have pledged. *)
Context (honest : gset string) (claims : string → string → Prop).
Implicit Types (d : Decree E) (g : option string).

(** Node [x] has pledged [u], seen from node [me] with pledge [g]. *)
Definition said (me : string) g (x u : string) : Prop := if decide (x = me) then g = Some u else claims x u.

(** A statement from outside repeats what its sender, if honest, has pledged; one built here that commits holds the
    pledge of this node. *)
Definition faithful g d (m : MStatement) : Prop :=
  match ms_refs m with
  | None => s_NodeID (ms_val m) ∈ honest → ∀ u, commit_value (ms_val m) = Some u → said (d_nodeID d) g (s_NodeID (ms_val m)) u
  | Some (b, _, _) => s_NodeID (ms_val m) = d_nodeID d ∧
      (is_commit (ms_val m) = true → ∃ l c, b = Some l ∧ d_heap d !! l = Some c ∧ g = Some (b_Value c))
  end.

(** A slice of the quorum whose honest members have pledged [u]. *)
Definition backed g d (u : string) : Prop :=
  ∃ S, isQuorumSlice (d_quorum d) S = true ∧ ∀ x, x ∈ S → x ∈ honest → said (d_nodeID d) g x u.

(** What has left the decree: its messages and announcements. *)
Definition spoken g d : Prop :=
  (∀ m, m ∈ d_statementChan d ∨ d_latestBallot d = Some m → s_NodeID (ms_val m) = d_nodeID d ∧ faithful g d m) ∧
  (∀ s, d_latestNomination d = Some s → is_commit s = false) ∧
  (∀ i u, (i, u) ∈ d_externalizeChan d → backed g d u).

Record pledged g d : Prop := {
  pl_fresh : ∀ l b, d_heap d !! l = Some b → (l < d_next d)%positive;
  pl_stored : ∀ x m, d_ballots d !! x = Some m → x = s_NodeID (ms_val m) ∧ faithful g d m;
  pl_spoken : spoken g d;
  pl_value : ∀ v, g = Some v →
    d_currentPhase d ≠ BallotPhasePrepare ∧ val (cur d) = Some v ∧ val (hb d) = Some v ∧ val (cb d) = Some v;
}.

(** From one state to a later one: a pledge is kept, and from then on no ballot is written over. *)
Definition leads g d g' d' : Prop :=
  (∀ v, g = Some v → g' = Some v) ∧ d_nodeID d' = d_nodeID d ∧ d_quorum d' = d_quorum d ∧
  (is_Some g → d_heap d ⊆ d_heap d').

Lemma leads_refl g d : leads g d g d.
Proof. by split_and!. Qed.
Lemma leads_trans g1 d1 g2 d2 g3 d3 : leads g1 d1 g2 d2 → leads g2 d2 g3 d3 → leads g1 d1 g3 d3.
Proof.
  intros (Hg&?&?&H1) (Hg'&?&?&H2). split_and!; [auto|congruence..|]. intros [v Hv].
  etrans; [apply H1|apply H2]; eauto.
Qed.

Lemma said_mono me g g' x u : (∀ v, g = Some v → g' = Some v) → said me g x u → said me g' x u.
Proof. unfold said. case_decide; auto. Qed.
Lemma faithful_leads g d g' d' m : leads g d g' d' → faithful g d m → faithful g' d' m.
Proof.
  intros (Hg & Hn & _ & Hh). unfold faithful. rewrite Hn. destruct (ms_refs m) as [[[b p] q]|].
  - intros [? Hc]. split; [done|]. intros (l & c & ? & Hl & Hv)%Hc. exists l, c. split_and!; [done| |by apply Hg].
    apply (lookup_weaken (d_heap d)); [done|]. apply Hh. eauto.
  - intros H Hin u Hu. eapply said_mono; eauto.
Qed.
(** What a statement says now. *)
Lemma faithful_value g d m u :
  faithful g d m → s_NodeID (ms_val m) ∈ honest → commit_value (resolve (d_heap d) m) = Some u →
  said (d_nodeID d) g (s_NodeID (ms_val m)) u.
Proof.
  unfold faithful, resolve. intros Hf Hin Hu. destruct (ms_refs m) as [[[b p] q]|]; [|by apply Hf].
  destruct Hf as [Hn Hf]. unfold said. rewrite decide_True by done. unfold commit_value in Hu. simpl in Hu.
  assert (is_commit (ms_val m) = true) as Hc by (unfold is_commit; by destruct (s_Stmt (ms_val m)) as [[| | |]|]).
  destruct (Hf Hc) as (l & c & -> & Hl & ->). simpl in Hu. rewrite Hl in Hu.
  destruct (s_Stmt (ms_val m)) as [[| | |]|]; simpl in Hu; congruence.
Qed.
Lemma backed_leads g d g' d' u : leads g d g' d' → backed g d u → backed g' d' u.
Proof.
  intros (Hg & Hn & Hq & _) (S & HS & Hall). exists S. rewrite Hq, Hn. split; [done|].
  intros x Hx Hh. by eapply said_mono; [|apply Hall].
Qed.

(** The part of the state that has left the decree. *)
Definition sent d := (d_statementChan d, d_latestBallot d, d_latestNomination d, d_externalizeChan d).

Lemma spoken_leads g d g' d' : leads g d g' d' → sent d' = sent d → spoken g d → spoken g' d'.
Proof.
  intros Hl [= H1 H2 H3 H4] (Hm & Hn & He). pose proof Hl as (_ & Hid & _). unfold spoken. rewrite H1, H2, H3, H4, Hid. split_and!.
  - intros m Hin. destruct (Hm m Hin). split; [done|]. by eapply faithful_leads.
  - done.
  - intros i u Hin. by eapply backed_leads, He.
Qed.

(** A change of the ballots. *)
Lemma pledged_upd g d g' d' :
  pledged g d → leads g d g' d' → sent d' = sent d → d_ballots d' = d_ballots d →
  (∀ l b, d_heap d' !! l = Some b → (l < d_next d')%positive) →
  (∀ v, g' = Some v →
     d_currentPhase d' ≠ BallotPhasePrepare ∧ val (cur d') = Some v ∧ val (hb d') = Some v ∧ val (cb d') = Some v) →
  pledged g' d'.
Proof.
  intros [Hf Hst Hsp Hv] Hl Hs Hb Hf' Hv'. split; [done| |by eapply spoken_leads|done].
  rewrite Hb. intros x m Hx. destruct (Hst x m Hx). split; [done|]. by eapply faithful_leads.
Qed.

(** The variables that matter to the pledge. *)
Definition core d :=
  (sent d, d_ballots d, (d_heap d, d_next d), d_currentPhase d, (d_currentBallot d, d_hBallot d, d_cBallot d), (d_nodeID d, d_quorum d)).

Lemma pledged_same g d d' : core d' = core d → pledged g d → pledged g d' ∧ leads g d g d'.
Proof.
  intros Hc Hp. unfold core in Hc. injection Hc as H1 H2 H3 H4 Hb Hh Hn Hph Hcur Hhb Hcb Hid Hq.
  assert (sent d' = sent d) as Hs by (unfold sent; congruence).
  assert (leads g d g d') as Hl by (split_and!; [done..|by rewrite Hh]).
  split; [|done]. apply (pledged_upd g d); try done.
  - rewrite Hh, Hn. apply Hp.
  - intros v Hv. unfold cur, hb, cb, rd. rewrite Hph, Hh, Hcur, Hhb, Hcb. by apply Hp.
Qed.

(** ** Triples *)

(** A call that returns leaves the invariant; a process that dies, what it has said. *)
Definition holds {A} g d (r : res A) : Prop :=
  match r with Ok _ | Err _ => pledged g d | Panic _ | NoFuel => spoken g d end.
Definition after {A} g d (dr : Decree E * res A) : Prop := ∃ g', leads g d g' dr.1 ∧ holds g' dr.1 dr.2.
Definition keeps {A} (m : M (Decree E) A) : Prop := ∀ g d, pledged g d → after g d (m d).
(** The same with the pledge as it is. *)
Definition steady {A} (m : M (Decree E) A) : Prop := ∀ g d, pledged g d → leads g d g (m d).1 ∧ holds g (m d).1 (m d).2.

Lemma steady_keeps {A} (m : M (Decree E) A) : steady m → keeps m.
Proof. intros Hm g d Hp. exists g. by apply Hm. Qed.

Lemma pledged_holds {A} g d (r : res A) : pledged g d → holds g d r.
Proof. intros Hp. destruct r; simpl; try done; apply Hp. Qed.

Lemma after_leads {A} g d g1 d1 (r : Decree E * res A) : leads g d g1 d1 → after g1 d1 r → after g d r.
Proof. intros Hl (g2 & ? & ?). exists g2. split; [by eapply leads_trans|done]. Qed.

Lemma after_bind {A B} (m : M (Decree E) A) (k : A → M (Decree E) B) g d :
  after g d (m d) →
  (∀ g1 d1 a, m d = (d1, Ok a) → leads g d g1 d1 → pledged g1 d1 → after g1 d1 (k a d1)) →
  after g d (bind m k d).
Proof.
  intros (g1 & Hl & Hp) Hk. unfold bind. destruct (m d) as [d1 [a|?|?|]] eqn:Hm; simpl in *; [|by exists g1..].
  eapply after_leads; [done|]. by apply Hk.
Qed.
Lemma after_ret {A} g d (r : res A) : pledged g d → after g d (d, r).
Proof. intros Hp. exists g. split; [apply leads_refl|by apply pledged_holds]. Qed.

Lemma keeps_bind {A B} (m : M (Decree E) A) (k : A → M (Decree E) B) : keeps m → (∀ a, keeps (k a)) → keeps (bind m k).
Proof. intros Hm Hk g d Hp. apply after_bind; [by apply Hm|]. intros. by apply Hk. Qed.
Lemma keeps_bind_get {B} (k : Decree E → M (Decree E) B) :
  (∀ g d, pledged g d → after g d (k d d)) → keeps (bind get k).
Proof. intros Hk g d Hp. by apply Hk. Qed.
Lemma steady_bind {A B} (m : M (Decree E) A) (k : A → M (Decree E) B) : steady m → (∀ a, steady (k a)) → steady (bind m k).
Proof.
  intros Hm Hk g d Hp. destruct (Hm g d Hp) as [Hl Hh]. unfold bind.
  destruct (m d) as [d1 [a|?|?|]] eqn:He; simpl in *; try done.
  destruct (Hk a g d1 Hh) as [Hl2 ?]. split; [by eapply leads_trans|done].
Qed.

Lemma steady_read {A} (m : M (Decree E) A) : (∀ d, (m d).1 = d) → steady m.
Proof. intros Hm g d Hp. rewrite Hm. split; [apply leads_refl|by apply pledged_holds]. Qed.
Lemma steady_modify (f : Decree E → Decree E) : (∀ d, core (f d) = core d) → steady (modify f).
Proof. intros Hf g d Hp. simpl. destruct (pledged_same g d (f d) (Hf d) Hp). done. Qed.

Lemma steady_ret {A} (a : A) : steady (ret (S:=Decree E) a).
Proof. by apply steady_read. Qed.
Lemma steady_fail {A} e : steady (fail (S:=Decree E) (A:=A) e).
Proof. by apply steady_read. Qed.
Lemma steady_panic {A} w : steady (panic (S:=Decree E) (A:=A) w).
Proof. by apply steady_read. Qed.
Lemma steady_lift {A} (r : res A) : steady (lift (S:=Decree E) r).
Proof. by apply steady_read. Qed.
Lemma steady_get : steady (get (S:=Decree E)).
Proof. by apply steady_read. Qed.

Lemma after_wrap {A} p (m : M (Decree E) A) g d : after g d (m d) → after g d (wrap p m d).
Proof. intros (g' & Hl & Hh). exists g'. unfold wrap. destruct (m d) as [d' [| | |]]; done. Qed.
Lemma keeps_wrap {A} p (m : M (Decree E) A) : keeps m → keeps (wrap p m).
Proof. intros Hm g d Hp. by apply after_wrap, Hm. Qed.
Lemma keeps_try {A} (m : M (Decree E) A) : keeps m → keeps (try m).
Proof. intros Hm g d Hp. destruct (Hm g d Hp) as (g' & ? & ?). exists g'. unfold try. destruct (m d) as [d' [| | |]]; done. Qed.
Lemma steady_wrap {A} p (m : M (Decree E) A) : steady m → steady (wrap p m).
Proof. intros Hm g d Hp. destruct (Hm g d Hp). unfold wrap. destruct (m d) as [d' [| | |]]; done. Qed.
Lemma steady_try {A} (m : M (Decree E) A) : steady m → steady (try m).
Proof. intros Hm g d Hp. destruct (Hm g d Hp). unfold try. destruct (m d) as [d' [| | |]]; done. Qed.

#[local] Hint Resolve steady_ret steady_fail steady_panic steady_lift steady_get : pledge.
#[local] Hint Extern 1 (steady (modify _)) => apply steady_modify; intros ?; reflexivity : pledge.

(** A composite is steady, or keeps the pledge, when its parts do. *)
Ltac st := repeat first
  [ progress intros
  | solve [eauto 2 with pledge]
  | apply steady_bind | apply steady_wrap | apply steady_try
  | match goal with |- steady (match ?x with _ => _ end) => destruct x end ].
Ltac kp := repeat first
  [ progress intros
  | solve [eauto 2 with pledge]
  | solve [apply steady_keeps; eauto 2 with pledge]
  | apply keeps_bind | apply keeps_wrap | apply keeps_try
  | match goal with |- keeps (match ?x with _ => _ end) => destruct x end ].

(** ** Ballots *)

(** A new object is none of the old ones. *)
Lemma heap_alloc g d (b : Ballot) : pledged g d → d_heap d ⊆ <[d_next d := b]> (d_heap d).
Proof.
  intros Hp. apply insert_subseteq. destruct (d_heap d !! d_next d) eqn:Hl; [|done].
  apply (pl_fresh _ _ Hp) in Hl. lia.
Qed.
Lemma rd_weaken d d' o b : d_heap d ⊆ d_heap d' → rd d o = Some b → rd d' o = Some b.
Proof. destruct o as [l|]; [|done]. simpl. intros. by eapply lookup_weaken. Qed.
Lemma val_weaken d d' o v : d_heap d ⊆ d_heap d' → val (rd d o) = Some v → val (rd d' o) = Some v.
Proof. intros Hs. destruct (rd d o) as [b|] eqn:Hb; [|done]. by rewrite (rd_weaken d d' o b Hs Hb). Qed.

Lemma steady_alloc b : steady (alloc (E:=E) b).
Proof.
  intros g d Hp. pose proof (heap_alloc _ _ b Hp) as Hs. simpl.
  assert (leads g d g (alloc b d).1) as Hl by (by split_and!).
  split; [done|]. apply (pledged_upd g d); try done; simpl.
  - intros l b' [[<- _]|[_ Hl']]%lookup_insert_Some; [lia|]. apply (pl_fresh _ _ Hp) in Hl'. lia.
  - intros v Hv. destruct (pl_value _ _ Hp v Hv) as (Hph & H1 & H2 & H3).
    split; [done|]. split_and!; by eapply (val_weaken d).
Qed.
#[local] Hint Resolve steady_alloc : pledge.
Lemma steady_alloc_all bs : steady (alloc_all (E:=E) bs).
Proof. induction bs; simpl; st. Qed.
#[local] Hint Resolve steady_alloc_all : pledge.

(** Without a pledge the ballots may change. *)
Lemma pledged_free d d' :
  pledged None d → sent d' = sent d → d_ballots d' = d_ballots d → d_nodeID d' = d_nodeID d → d_quorum d' = d_quorum d →
  (∀ l b, d_heap d' !! l = Some b → (l < d_next d')%positive) → pledged None d' ∧ leads None d None d'.
Proof.
  intros Hp Hs Hb Hn Hq Hf. assert (leads None d None d') as Hl by (split_and!; [done..|by intros []]).
  split; [|done]. by apply (pledged_upd None d).
Qed.

(** [reset] writes an object that exists. *)
Lemma reset_free o d : pledged None d → is_Some (rd d o) → pledged None (reset o d).1 ∧ leads None d None (reset o d).1.
Proof.
  intros Hp [b Hb]. destruct o as [l|]; [|done]. simpl in *. apply (pledged_free d); try done. simpl.
  intros l' b' [[<- _]|[_ Hl']]%lookup_insert_Some; by eapply (pl_fresh _ _ Hp).
Qed.

(** A value that a pledge allows. *)
Definition fits g (b : option Ballot) : Prop := ∀ v, g = Some v → val b = Some v.

Lemma fits_compatible g a b : fits g a → compatibleBallots a b = true → fits g b.
Proof.
  intros Ha Hc v Hv. specialize (Ha v Hv). destruct a as [a|], b as [b|]; try done.
  apply compatible_value in Hc. unfold val in *. simpl in *. congruence.
Qed.
Lemma value_compatible a b v : val a = Some v → val b = Some v → compatibleBallots a b = true.
Proof. destruct a, b; try done. unfold val. simpl. intros [= <-] [= ->]. by rewrite strcmp_refl. Qed.

(** The ballot variables, set to ballots the pledge allows. *)
Lemma pledged_set_current g d l :
  pledged g d → fits g (rd d (Some l)) → pledged g (set_currentBallot (Some l) d) ∧ leads g d g (set_currentBallot (Some l) d).
Proof.
  intros Hp Hf. assert (leads g d g (set_currentBallot (Some l) d)) as Hl by (by split_and!).
  split; [|done]. apply (pledged_upd g d); try done; [apply Hp|].
  intros v Hv. destruct (pl_value _ _ Hp v Hv) as (? & _ & ? & ?). split_and!; try done. by apply Hf.
Qed.
Lemma pledged_set_high g d l :
  pledged g d → fits g (rd d (Some l)) → pledged g (set_hBallot (Some l) d) ∧ leads g d g (set_hBallot (Some l) d).
Proof.
  intros Hp Hf. assert (leads g d g (set_hBallot (Some l) d)) as Hl by (by split_and!).
  split; [|done]. apply (pledged_upd g d); try done; [apply Hp|].
  intros v Hv. destruct (pl_value _ _ Hp v Hv) as (? & ? & _ & ?). split_and!; try done. by apply Hf.
Qed.
Lemma pledged_set_commit g d l :
  pledged g d → fits g (rd d (Some l)) → pledged g (set_cBallot (Some l) d) ∧ leads g d g (set_cBallot (Some l) d).
Proof.
  intros Hp Hf. assert (leads g d g (set_cBallot (Some l) d)) as Hl by (by split_and!).
  split; [|done]. apply (pledged_upd g d); try done; [apply Hp|].
  intros v Hv. destruct (pl_value _ _ Hp v Hv) as (? & ? & ? & _). split_and!; try done. by apply Hf.
Qed.
Lemma pledged_set_phase g d ph :
  pledged g d → ph ≠ BallotPhasePrepare → pledged g (set_currentPhase ph d) ∧ leads g d g (set_currentPhase ph d).
Proof.
  intros Hp Hne. assert (leads g d g (set_currentPhase ph d)) as Hl by (by split_and!).
  split; [|done]. apply (pledged_upd g d); try done; [apply Hp|].
  intros v Hv. destruct (pl_value _ _ Hp v Hv) as (_ & ? & ? & ?). by split_and!.
Qed.

(** From one state. *)
Definition steady_at {A} g d (m : M (Decree E) A) : Prop := leads g d g (m d).1 ∧ holds g (m d).1 (m d).2.

Lemma steady_at_bind {A B} (m : M (Decree E) A) (k : A → M (Decree E) B) g d :
  steady_at g d m → (∀ d1 a, m d = (d1, Ok a) → leads g d g d1 → pledged g d1 → steady_at g d1 (k a)) →
  steady_at g d (bind m k).
Proof.
  intros [Hl Hh] Hk. unfold steady_at, bind. destruct (m d) as [d1 [a|?|?|]] eqn:He; simpl in *; try done.
  destruct (Hk d1 a eq_refl Hl Hh) as [Hl2 ?]. split; [by eapply leads_trans|done].
Qed.

Lemma after_bind_at {A B} (m : M (Decree E) A) (k : A → M (Decree E) B) g d :
  steady_at g d m → (∀ d1 a, m d = (d1, Ok a) → leads g d g d1 → pledged g d1 → after g d1 (k a d1)) →
  after g d (bind m k d).
Proof.
  intros [Hl Hh] Hk. unfold bind. destruct (m d) as [d1 [a|?|?|]] eqn:He; simpl in *; [|by exists g..].
  eapply after_leads; [done|]. by apply Hk.
Qed.
Lemma after_bind_steady {A B} (m : M (Decree E) A) (k : A → M (Decree E) B) g d :
  pledged g d → steady m → (∀ d1 a, m d = (d1, Ok a) → leads g d g d1 → pledged g d1 → after g d1 (k a d1)) →
  after g d (bind m k d).
Proof. intros Hp Hm. apply after_bind_at. by apply Hm. Qed.
Lemma steady_at_after {A} g d (m : M (Decree E) A) : steady_at g d m → after g d (m d).
Proof. intros [? ?]. by exists g. Qed.

Lemma updateBallot_steady g d b check : pledged g d → fits g b → steady_at g d (updateBallot b check).
Proof.
  intros Hp Hf. destruct b as [b|]; [|by apply steady_panic]. unfold updateBallot.
  apply steady_at_bind; [by apply steady_get|]. intros d1 a [= <- <-] _ _.
  case_match; [|by apply steady_panic]. case_match; [by apply steady_panic|].
  apply steady_at_bind; [by apply steady_alloc|]. intros d1 l [= <- <-] _ Hp1.
  destruct (pledged_set_current g _ (d_next d) Hp1) as [Hp2 Hl2]; [simpl; by rewrite lookup_insert_eq|].
  apply steady_at_bind; [by split|]. intros d2 u Hd2 _ _. injection Hd2 as <- _.
  apply steady_at_bind; [by apply steady_get|]. intros d3 a Hd3 _ _. injection Hd3 as <- <-.
  set (d2 := set_currentBallot _ _) in *.
  case_match eqn:Hr; [|by apply steady_ret]. apply andb_true_iff in Hr as [Hh%bool_decide_eq_true Hc%negb_true_iff].
  destruct g as [v|].
  - exfalso. destruct (pl_value _ _ Hp2 v eq_refl) as (_ & H1 & H2 & _). by rewrite (value_compatible _ _ v H1 H2) in Hc.
  - destruct (reset_free (d_hBallot d2) d2 Hp2 Hh). split; [done|]. by apply pledged_holds.
Qed.

Lemma updateBallotIfNeeded_steady g d b : pledged g d → fits g b → steady_at g d (updateBallotIfNeeded b).
Proof.
  intros Hp Hf. unfold updateBallotIfNeeded. apply steady_at_bind; [by apply steady_get|]. intros d1 a [= <- <-] _ _.
  case_match; [|by apply steady_ret]. apply steady_at_bind; [by apply updateBallot_steady|]. intros. by apply steady_ret.
Qed.

Lemma steady_check : steady (checkInvariants (E:=E)).
Proof. by apply steady_read. Qed.
Lemma steady_ratify f : steady (ballot_ratify (E:=E) f).
Proof. by apply steady_read. Qed.
Lemma steady_accept f h : steady (ballot_accept (E:=E) f h).
Proof. by apply steady_read. Qed.
#[local] Hint Resolve steady_check steady_ratify steady_accept : pledge.

Lemma steady_updateBallotValue b : steady (updateBallotValue (E:=E) b).
Proof.
  intros g d Hp. change (steady_at g d (updateBallotValue b)). unfold updateBallotValue.
  apply steady_at_bind; [by apply steady_get|]. intros d1 a [= <- <-] _ _.
  assert (is_Some (cb d) ∧ compatibleBallots (cb d) (Some b) = true → fits g (Some b)) as Hfit.
  { intros [_ Hc]. eapply fits_compatible; [|done]. intros v Hv. apply (pl_value _ _ Hp v Hv). }
  assert (steady (do! checkInvariants (E:=E) in ret true)) as Htail by st.
  case_match; [by apply steady_ret|]. case_decide as Hcur.
  - apply steady_at_bind; [|intros; by apply Htail]. apply updateBallot_steady; [done|].
    intros v Hv. destruct (pl_value _ _ Hp v Hv) as (_ & H1 & _). by rewrite Hcur in H1.
  - case_match eqn:Hg; [by apply steady_ret|]. case_decide; [|assert (steady (do! checkInvariants (E:=E) in ret false)) as Ht by st; by apply Ht].
    apply steady_at_bind; [|intros; by apply Htail]. apply updateBallot_steady; [done|]. intros v Hv.
    destruct (pl_value _ _ Hp v Hv) as (_ & _ & _ & H3). destruct (cb d) as [c|] eqn:Hcb; [|done].
    apply Hfit; [|done]. split; [done|]. apply andb_false_iff in Hg as [Hg%bool_decide_eq_false|Hg%negb_false_iff]; [|done].
    destruct Hg. eauto.
Qed.

Lemma steady_setAcceptPrepared l : steady (setAcceptPrepared (E:=E) l).
Proof. unfold setAcceptPrepared. st. Qed.
Lemma steady_prepared_candidates m : steady (prepared_candidates (E:=E) m).
Proof. unfold prepared_candidates. st. Qed.
Lemma steady_h_loop cands : steady (h_loop (E:=E) cands).
Proof. induction cands; simpl; st. Qed.
Lemma steady_c_loop curb h cands c : steady (c_loop (E:=E) curb h cands c).
Proof. revert c. induction cands; simpl; st. Qed.
#[local] Hint Resolve steady_updateBallotValue steady_setAcceptPrepared steady_prepared_candidates steady_h_loop steady_c_loop : pledge.

(** Without a pledge: the computations that may change every ballot. *)
Definition free {A} (m : M (Decree E) A) : Prop := ∀ d, pledged None d → steady_at None d m.

Lemma free_steady {A} (m : M (Decree E) A) : steady m → free m.
Proof. intros Hm d. apply Hm. Qed.
Lemma free_bind {A B} (m : M (Decree E) A) (k : A → M (Decree E) B) : free m → (∀ a, free (k a)) → free (bind m k).
Proof. intros Hm Hk d Hp. apply steady_at_bind; [by apply Hm|]. intros. by apply Hk. Qed.
Lemma free_modify (f : Decree E → Decree E) :
  (∀ d, (sent (f d), d_ballots (f d), (d_nodeID (f d), d_quorum (f d)), (d_heap (f d), d_next (f d))) =
        (sent d, d_ballots d, (d_nodeID d, d_quorum d), (d_heap d, d_next d))) → free (modify f).
Proof.
  intros Hf d Hp. specialize (Hf d). injection Hf as H1 H2 H3 H4 Hb Hn Hq Hh Hx.
  destruct (pledged_free d (f d)) as [? ?]; try done; [unfold sent; congruence|rewrite Hh, Hx; apply Hp].
Qed.
Lemma free_updateBallot b check : free (updateBallot (E:=E) b check).
Proof. intros d Hp. by apply updateBallot_steady. Qed.
Lemma free_updateBallotIfNeeded b : free (updateBallotIfNeeded (E:=E) b).
Proof. intros d Hp. by apply updateBallotIfNeeded_steady. Qed.
#[local] Hint Resolve free_updateBallot free_updateBallotIfNeeded : pledge.
#[local] Hint Extern 1 (free (modify _)) => apply free_modify; intros ?; reflexivity : pledge.
Ltac fr := repeat first
  [ progress intros
  | solve [eauto 2 with pledge]
  | solve [apply free_steady; eauto 2 with pledge]
  | apply free_bind
  | match goal with |- free (match ?x with _ => _ end) => destruct x end ].

(** ** Messages *)

Lemma lessAndCompatible_val a b : lessAndCompatibleBallots a b = true → ∃ v, val a = Some v ∧ val b = Some v.
Proof.
  intros [_ H]%andb_true_iff. destruct a as [a|], b as [b|]; try done. apply compatible_value in H.
  exists (b_Value a). unfold val. simpl. by rewrite H.
Qed.

(** The check that precedes every statement: after the first phase the three ballots hold one value. *)
Lemma checked_value d :
  checkBallotInvariants d = Ok tt → d_currentPhase d ≠ BallotPhasePrepare →
  ∃ v, val (cur d) = Some v ∧ val (hb d) = Some v ∧ val (cb d) = Some v.
Proof.
  unfold checkBallotInvariants. intros H Hph.
  destruct (match cur d with Some b => _ | None => _ end) as [[]| | |]; simpl in H; try done.
  destruct (if bool_decide (is_Some (pb d)) && _ && _ then _ else _) as [[]| | |]; simpl in H; try done.
  destruct (if decide (is_Some (hb d)) then _ else _) as [[]| | |]; simpl in H; try done.
  destruct (decide (is_Some (cb d))) as [Hc|Hc].
  - destruct (decide (cur d = None)); [done|]. destruct (lessAndCompatibleBallots (cb d) (hb d)) eqn:H1; simpl in H; [|done].
    destruct (lessAndCompatibleBallots (hb d) (cur d)) eqn:H2; simpl in H; [|done].
    apply lessAndCompatible_val in H1 as (v & ? & ?), H2 as (w & ? & ?). exists v. split_and!; congruence.
  - apply eq_None_not_Some in Hc. rewrite Hc in H. by destruct (d_currentPhase d).
Qed.

(** A checked decree may pledge itself, if it has not. *)
Lemma pledge_checked g d :
  pledged g d → checkBallotInvariants d = Ok tt → d_currentPhase d ≠ BallotPhasePrepare →
  ∃ v, pledged (Some v) d ∧ leads g d (Some v) d ∧ val (cur d) = Some v ∧ val (cb d) = Some v.
Proof.
  intros Hp Hc Hph. destruct (checked_value d Hc Hph) as (v & H1 & H2 & H3). exists v.
  assert (leads g d (Some v) d) as Hl.
  { split_and!; try done. intros w Hw. destruct (pl_value _ _ Hp w Hw) as (_ & ? & _). congruence. }
  split_and!; try done. apply (pledged_upd g d); try done; [apply Hp|]. by intros w [= <-].
Qed.

(** The statement that is sent says what the decree pledges. *)
Lemma statement_faithful g d m :
  pledged g d → checkBallotInvariants d = Ok tt → ballot_statement d = Ok m →
  ∃ g', pledged g' d ∧ leads g d g' d ∧ s_NodeID (ms_val m) = d_nodeID d ∧ faithful g' d m.
Proof.
  intros Hp Hc Hm. unfold ballot_statement in Hm. destruct (d_currentPhase d) eqn:Hph.
  - exists g. injection Hm as <-. split_and!; [done|apply leads_refl|done|]. by split.
  - destruct (pledge_checked g d Hp Hc) as (v & Hv & Hl & H1 & _); [by rewrite Hph|]. exists (Some v).
    destruct (pb d), (cb d), (hb d); simplify_eq/=. split_and!; try done. split; [done|]. intros _.
    unfold cur, rd in H1. destruct (d_currentBallot d) as [l|]; [|done]. simpl in H1.
    destruct (d_heap d !! l) as [c|] eqn:Hlc; [|done]. exists l, c. split_and!; done.
  - destruct (pledge_checked g d Hp Hc) as (v & Hv & Hl & _ & H1); [by rewrite Hph|]. exists (Some v).
    destruct (hb d); simplify_eq/=. split_and!; try done. split; [done|]. intros _.
    unfold cb, rd in H1. destruct (d_cBallot d) as [l|]; [|done]. simpl in H1.
    destruct (d_heap d !! l) as [c|] eqn:Hlc; [|done]. exists l, c. split_and!; done.
Qed.

(** A message of its own may be sent, and remembered. *)
Lemma say_steady g d m :
  pledged g d → s_NodeID (ms_val m) = d_nodeID d → faithful g d m →
  steady_at g d (broadcast (E:=E) m) ∧ steady_at g d (modify (set_latestBallot (E:=E) (Some m))).
Proof.
  intros Hp Hn Hf. pose proof (pl_spoken _ _ Hp) as (Hm & Hno & He).
  assert (∀ d', core (set_latestBallot None (set_statementChan [] d')) = core (set_latestBallot None (set_statementChan [] d)) →
    (∀ m', m' ∈ d_statementChan d' ∨ d_latestBallot d' = Some m' →
       m' = m ∨ m' ∈ d_statementChan d ∨ d_latestBallot d = Some m') → leads g d g d' ∧ pledged g d') as Hgen.
  { intros d' Hc Hin. unfold core, sent in Hc. simpl in Hc. injection Hc as H3 H4 Hb Hh Hx Hph Hcur Hhb Hcb Hid Hq.
    assert (leads g d g d') as Hl by (split_and!; [done..|by rewrite Hh]). split; [done|]. split.
    - rewrite Hh, Hx. apply Hp.
    - rewrite Hb. intros x m' Hx'. destruct (pl_stored _ _ Hp x m' Hx'). split; [done|]. by eapply faithful_leads.
    - split_and!; rewrite ?Hid, ?H3, ?H4; [|done|intros i u Hi; by eapply backed_leads, He].
      intros m' [->|Hm']%Hin; [|destruct (Hm m' Hm')]; split; try done; by eapply faithful_leads.
    - intros v Hv. unfold cur, hb, cb, rd. rewrite Hph, Hh, Hcur, Hhb, Hcb. by apply Hp. }
  split; apply Hgen; try done; simpl; intros m'.
  - rewrite elem_of_app, list_elem_of_singleton. naive_solver.
  - intros [?|[= ->]]; auto.
Qed.

Section with_recv.
Variable recv : MStatement → M (Decree E) unit.
Hypothesis recv_keeps : ∀ m g d, pledged g d → faithful g d m → after g d (recv m d).
Hypothesis recv_progress : ∀ m, preserves progress (recv m).

Lemma steady_newer m : steady (newer_than_latest (E:=E) m).
Proof. unfold newer_than_latest. st. Qed.
#[local] Hint Resolve steady_newer : pledge.

Lemma keeps_sendBallot : keeps (sendBallot_ recv).
Proof.
  unfold sendBallot_. apply keeps_bind; [|kp]. apply keeps_try. intros g d Hp. unfold sendBallot.
  apply after_bind_steady; [done|st|]. intros d1 [] Hc _ _. injection Hc as <- Hc.
  apply after_bind_steady; [done|st|]. intros d1 d' [= <- <-] _ _.
  apply after_bind_steady; [done|st|]. intros d1 m Hm _ _. injection Hm as <- Hm.
  destruct (statement_faithful g d m Hp Hc Hm) as (g' & Hp' & Hl & Hn & Hf). eapply after_leads; [exact Hl|].
  case_decide; [by apply after_ret|]. case_decide; [by apply after_ret|].
  apply after_bind; [by apply after_wrap, recv_keeps|]. intros g1 d1 [] _ Hl1 Hp1.
  apply after_bind_steady; [done|st|]. intros d2 d' [= <- <-] _ _. case_decide; [by apply after_ret|].
  apply after_bind_steady; [done|st|]. intros d2 n _ Hl2 Hp2. destruct n; [|by apply after_ret].
  assert (∀ d3, leads g1 d2 g1 d3 → s_NodeID (ms_val m) = d_nodeID d3 ∧ faithful g1 d3 m) as Hsame.
  { intros d3 Hl3. assert (leads g' d g1 d3) as Hl4.
    { eapply leads_trans; [exact Hl1|]. eapply leads_trans; [exact Hl2|exact Hl3]. }
    split; [destruct Hl4 as (_ & -> & _); done|by eapply faithful_leads]. }
  destruct (Hsame d2 (leads_refl _ _)) as [Hn2 Hf2]. destruct (say_steady _ _ _ Hp2 Hn2 Hf2) as [_ Hs].
  apply after_bind_at; [done|]. intros d3 u Hd3 Hl3 Hp3. destruct (Hsame d3 Hl3) as [Hn3 Hf3].
  apply steady_at_after. by apply say_steady.
Qed.
#[local] Hint Resolve keeps_sendBallot : pledge.

Lemma keeps_updateBallotPhaseWithCounter v n : keeps (updateBallotPhaseWithCounter recv v n).
Proof. unfold updateBallotPhaseWithCounter. kp. Qed.
#[local] Hint Resolve keeps_updateBallotPhaseWithCounter : pledge.
Lemma keeps_updateBallotPhase v force : keeps (updateBallotPhase recv v force).
Proof. unfold updateBallotPhase. kp. Qed.
#[local] Hint Resolve keeps_updateBallotPhase : pledge.
Lemma keeps_abandonBallot c : keeps (abandonBallot recv c).
Proof. unfold abandonBallot. kp. Qed.
#[local] Hint Resolve keeps_abandonBallot : pledge.
Lemma keeps_update : keeps (update recv).
Proof. unfold update. kp. Qed.
#[local] Hint Resolve keeps_update : pledge.
Lemma keeps_update_loop n u : keeps (update_loop recv n u).
Proof. revert u. induction n; intros u; simpl; [intros g d Hp; by apply after_ret|]. kp. Qed.
#[local] Hint Resolve keeps_update_loop : pledge.

(** In the first phase nothing is pledged. *)
Lemma prepare_unpledged g d : pledged g d → d_currentPhase d = BallotPhasePrepare → g = None.
Proof. intros Hp Hph. destruct g as [v|]; [|done]. by destruct (pl_value _ _ Hp v eq_refl). Qed.

(** The commit ballot is emptied in the first phase only. *)
Lemma keeps_accept_candidate l : keeps (accept_candidate recv l).
Proof.
  unfold accept_candidate. apply keeps_bind; [kp|intros u]. apply keeps_bind_get. intros g d Hp.
  apply after_bind_at; [|intros; assert (∀ b : bool, keeps (do! (if b then sendBallot_ recv else ret tt) in ret b)) as Hk by kp; by apply Hk].
  case_match eqn:Hv; [|by apply steady_ret].
  apply andb_true_iff in Hv as [Hv Hph%bool_decide_eq_true]. do 2 apply andb_true_iff in Hv as [Hv _]. apply bool_decide_eq_true in Hv.
  pose proof (prepare_unpledged g d Hp Hph) as ->. destruct (reset_free (d_cBallot d) d Hp Hv) as [Hp' Hl].
  apply steady_at_bind; [split; [done|by apply pledged_holds]|]. intros. by apply steady_ret.
Qed.
#[local] Hint Resolve keeps_accept_candidate : pledge.
Lemma keeps_accept_loop ls : keeps (accept_loop recv ls).
Proof. induction ls; simpl; kp. Qed.
#[local] Hint Resolve keeps_accept_loop : pledge.
Lemma keeps_acceptPrepared m : keeps (acceptPrepared recv m).
Proof. unfold acceptPrepared. kp. Qed.

Lemma setConfirmPrepared_after d c h : pledged None d → after None d (setConfirmPrepared recv c h d).
Proof.
  intros Hp. unfold setConfirmPrepared.
  apply after_bind_steady; [done|st|]. intros d1 d' [= <- <-] _ _.
  apply after_bind_steady; [done|st|]. intros d1 hv Hd _ _. injection Hd as <- _.
  apply after_bind_steady; [done|st|]. intros d1 [] _ _ Hp1.
  apply after_bind_at. { match goal with |- steady_at _ _ ?m => assert (free m) as Hm by fr; by apply Hm end. }
  intros d2 u _ _ Hp2. apply after_bind_at; [by apply free_updateBallotIfNeeded|]. intros d3 n _ _ Hp3.
  match goal with |- after _ _ (?m _) => assert (keeps m) as Hk by kp; by apply Hk end.
Qed.

Lemma keeps_confirmPrepared m : keeps (confirmPrepared recv m).
Proof.
  unfold confirmPrepared. apply keeps_bind_get. intros g d Hp. case_match eqn:Hg; [by apply after_ret|].
  apply orb_false_iff in Hg as [Hg%bool_decide_eq_false _].
  assert (g = None) as ->. { apply (prepare_unpledged g d Hp). by destruct (decide (d_currentPhase d = BallotPhasePrepare)); [|destruct Hg]. }
  apply after_bind_steady; [done|st|]. intros d1 cands _ _ Hp1.
  apply after_bind_steady; [done|st|]. intros d2 [[h rest]|] _ _ Hp2; [|by apply after_ret].
  apply after_bind_steady; [done|st|]. intros d3 d' [= <- <-] _ _.
  apply after_bind_steady; [done|st|]. intros d3 c _ _ Hp3. by apply setConfirmPrepared_after.
Qed.
#[local] Hint Resolve keeps_acceptPrepared keeps_confirmPrepared : pledge.

(** ** Commits *)

(** Two new ballots of a value the pledge allows. *)
Lemma commit_pair_at g d (lb rb : Z) (u : string) (k : loc → loc → M (Decree E) bool) :
  pledged g d →
  (∀ c h d2, pledged g d2 → leads g d g d2 → d_currentPhase d2 = d_currentPhase d →
     rd d2 (Some c) = Some (mkBallot lb u) → rd d2 (Some h) = Some (mkBallot rb u) → after g d2 (k c h d2)) →
  after g d ((let! c := alloc (mkBallot lb u) in let! h := alloc (mkBallot rb u) in k c h) d).
Proof.
  intros Hp Hk. apply after_bind_at; [by apply steady_alloc|]. intros d1 c Hc Hl1 Hp1. injection Hc as Hc Hc'.
  apply after_bind_at; [by apply steady_alloc|]. intros d2 h Hh Hl2 Hp2. injection Hh as Hh Hh'.
  apply Hk; [done|by eapply leads_trans|by rewrite <-Hh, <-Hc| |].
  - apply (rd_weaken d1); [rewrite <-Hh; by eapply heap_alloc|]. rewrite <-Hc, <-Hc'. simpl. by rewrite lookup_insert_eq.
  - rewrite <-Hh, <-Hh'. simpl. by rewrite lookup_insert_eq.
Qed.

Lemma setAcceptCommit_after g d c h cv hv :
  pledged g d → rd d (Some c) = Some cv → rd d (Some h) = Some hv → fits g (Some cv) → fits g (Some hv) →
  after g d (setAcceptCommit recv c h d).
Proof.
  intros Hp Hc Hh Hfc Hfh. unfold setAcceptCommit.
  apply after_bind_steady; [done|st|]. intros d1 d' [= <- <-] _ _.
  apply after_bind_steady; [done|st|]. intros d1 w Hd _ _. rewrite Hh in Hd. injection Hd as <- <-.
  apply after_bind_steady; [done|st|]. intros d1 [] Hd1 _ Hp1. injection Hd1 as Hd1.
  assert (∀ l, rd d1 l = rd d l) as Hrd by (by rewrite <-Hd1).
  apply after_bind_at.
  { case_match; [|by apply steady_ret].
    destruct (pledged_set_high g d1 h Hp1) as [Hp2 Hl2]; [by rewrite Hrd, Hh|].
    apply steady_at_bind; [by split|]. intros d2 [] Hd2 _ _. injection Hd2 as Hd2. rewrite <-Hd2.
    destruct (pledged_set_commit g _ c Hp2) as [Hp3 Hl3]; [|by split].
    change (fits g (rd d1 (Some c))). by rewrite Hrd, Hc. }
  intros d2 [] _ _ Hp2. apply after_bind_at.
  { case_decide as Hph; [|by apply steady_ret]. pose proof (prepare_unpledged g d Hp Hph) as ->.
    apply steady_at_bind.
    { destruct (pledged_set_phase None d2 BallotPhaseConfirm Hp2) as [? ?]; [done|by split]. }
    intros d3 [] _ _ Hp3. apply steady_at_bind.
    { case_match; [by apply free_updateBallot|by apply steady_ret]. }
    intros d4 [] _ _ Hp4. apply steady_at_bind; [by apply steady_get|]. intros d5 d' [= <- <-] _ _.
    apply steady_at_bind; [|intros; by apply steady_ret]. case_decide as Hq; [|by apply steady_ret].
    destruct (reset_free (d_qBallot d4) d4 Hp4 Hq). split; [done|by apply pledged_holds]. }
  intros d3 u _ _ Hp3. destruct u; [|by apply after_ret].
  apply after_bind; [|intros; by apply after_ret].
  apply after_bind_steady; [done|st|]. intros d4 d' [= <- <-] _ _.
  apply after_bind_at; [|intros; by apply keeps_sendBallot].
  apply updateBallotIfNeeded_steady; [done|]. intros v Hv. apply (pl_value _ _ Hp3 v Hv).
Qed.

(** In the second phase only the value of the high ballot is looked at. *)
Lemma keeps_acceptCommit m : keeps (acceptCommit recv m).
Proof.
  unfold acceptCommit. apply keeps_bind_get. intros g d Hp. case_match eqn:Ha; [by apply after_ret|]. apply negb_false_iff in Ha.
  apply after_bind_steady; [done|st|]. intros d1 o Ho _ _. injection Ho as <- _. destruct o as [b|]; [|by apply after_ret].
  case_match eqn:Hg; [by apply after_ret|].
  assert (fits g (Some b)) as Hfit.
  { intros v Hv. destruct (pl_value _ _ Hp v Hv) as (Hph & _ & Hh & _).
    apply andb_false_iff in Hg as [Hg%bool_decide_eq_false|Hg%negb_false_iff].
    - by destruct (d_currentPhase d).
    - destruct (hb d) as [x|]; [|done]. apply compatible_value in Hg. unfold val in *. simpl in *. congruence. }
  apply after_bind_steady; [done|st|]. intros d1 [lb rb] Hi _ _. injection Hi as <- _.
  destruct (decide (lb = 0)); [by apply after_ret|]. apply after_bind_steady; [done|st|]. intros d1 better _ Hl1 Hp1.
  destruct better; [|by apply after_ret]. apply commit_pair_at; [done|]. intros c h d2 Hp2 _ _ Hc Hh.
  by eapply setAcceptCommit_after.
Qed.

(** The local node sees the statements of honest nodes as they are. *)
Lemma view_said g d x s u :
  pledged g d → view d !! x = Some s → commit_value s = Some u → x ∈ honest → said (d_nodeID d) g x u.
Proof.
  intros Hp Hx Hu Hin. unfold view in Hx. rewrite lookup_fmap in Hx. destruct (d_ballots d !! x) as [m|] eqn:Hm; simplify_eq/=.
  destruct (pl_stored _ _ Hp x m Hm) as [-> Hf]. by apply faithful_value.
Qed.

Lemma ratified_backed g d b lb rb :
  pledged g d → ratify_interval d b = Ok (lb, rb) → lb ≠ 0 → backed g d (b_Value b).
Proof.
  intros Hp Hr Hlb. unfold ratify_interval in Hr. destruct (getCommitCounters b (view d)) as [cs| | |]; try done. cbn [res_bind] in Hr.
  apply find_interval_passes in Hr; [|done..]. apply ratified_slice in Hr as (S & HS & Hall). exists S. split; [done|].
  intros x Hx Hin. destruct (Hall x Hx) as (s & Hs & Hf). apply commitAcceptFilter_value in Hf. by eapply view_said.
Qed.

(** To follow the high ballot empties no ballot. *)
Lemma follow_high g d d' n :
  pledged g d → updateBallotIfNeeded (hb d) d = (d', Ok n) → d_heap d ⊆ d_heap d' ∧ d_cBallot d' = d_cBallot d.
Proof.
  intros Hp H. destruct (hb d) as [b|] eqn:Hb; [|unfold updateBallotIfNeeded, updateBallot in H; mrun; done].
  set (d1 := set_currentBallot (Some (d_next d)) (alloc b d).1).
  assert (hb d1 = Some b) as Hb1 by (apply (rd_weaken d); [by eapply heap_alloc|done]).
  assert (cur d1 = Some b) as Hc1 by (unfold d1, cur, rd; simpl; by rewrite lookup_insert_eq).
  unfold updateBallotIfNeeded, updateBallot, bind, get, modify, ret, panic in H. destruct (_ || _); [|by injection H as <- _].
  destruct (active _); [|done]. destruct (_ && _ && _); [done|]. cbn -[set_currentBallot hb] in H.
  change (set_currentBallot _ _) with d1 in H. rewrite Hb1, Hc1, (value_compatible (Some b) (Some b) (b_Value b)), andb_false_r in H by done.
  injection H as <- _. split; [by eapply heap_alloc|done].
Qed.

(** The announcement. *)
Lemma announce_steady g d u :
  pledged g d → backed g d u → steady_at g d (modify (λ d, set_externalizeChan (d_externalizeChan d ++ [(d_index d, u)]) d)).
Proof.
  intros [Hf Hst (H1 & H2 & H3) Hv] Hb. split; [by split_and!|]. simpl. split; simpl; try done. split_and!; try done.
  intros i w [Hin|Hin]%elem_of_app; [by apply (H3 i)|]. apply list_elem_of_singleton in Hin as [= -> ->]. done.
Qed.

Lemma setConfirmCommit_after g d c h cv hv :
  pledged g d → rd d (Some c) = Some cv → rd d (Some h) = Some hv → fits g (Some cv) → fits g (Some hv) →
  backed g d (b_Value cv) → after g d (setConfirmCommit recv c h d).
Proof.
  intros Hp Hc Hh Hfc Hfh Hb. unfold setConfirmCommit.
  destruct (pledged_set_commit g d c Hp) as [Hp1 Hl1]; [by rewrite Hc|].
  apply after_bind_at; [by split|]. intros d1 [] Hd1 _ _. injection Hd1 as Hd1. subst d1.
  destruct (pledged_set_high g _ h Hp1) as [Hp2 Hl2]; [by rewrite <-Hh in Hfh|].
  apply after_bind_at; [by split|]. intros d2 [] Hd2 _ _. injection Hd2 as Hd2.
  apply after_bind_at; [rewrite <-Hd2; by apply steady_get|]. intros d3 d' Hd3 _ Hp3. injection Hd3 as <- <-.
  apply after_bind_at; [apply updateBallotIfNeeded_steady; [done|]; intros v Hv; apply (pl_value _ _ Hp3 v Hv)|].
  intros d4 n Hn Hl4 Hp4. destruct (follow_high g d2 d4 n Hp3 Hn) as [Hs4 Hc4].
  assert (cb d4 = Some cv) as Hcv.
  { unfold cb. rewrite Hc4, <-Hd2. apply (rd_weaken d2); [done|]. by rewrite <-Hd2. }
  destruct (pledged_set_phase g d4 BallotPhaseExternalize Hp4) as [Hp5 Hl5]; [done|].
  apply after_bind_at; [by split|]. intros d5 [] Hd5 _ _. injection Hd5 as Hd5. rewrite <-Hd5. clear Hd5.
  assert (backed g (set_currentPhase BallotPhaseExternalize d4) (b_Value cv)) as Hb5.
  { eapply backed_leads; [|exact Hb]. rewrite <-Hd2 in Hl4. repeat (eapply leads_trans; [eassumption|]). apply leads_refl. }
  pose proof (progress_sendBallot recv recv_progress (set_currentPhase BallotPhaseExternalize d4)) as (_ & _ & _ & Hdec).
  apply after_bind; [by apply keeps_sendBallot|]. intros g6 d6 [] H6 Hl6 Hp6. rewrite H6 in Hdec. simpl in Hdec.
  apply after_bind_steady; [done|st|]. intros d7 [] Hd7 Hl7 Hp7. injection Hd7 as Hd7.
  apply after_bind_steady; [done|st|]. intros d8 d' [= <- <-] _ _.
  apply after_bind_steady; [done|st|]. intros d8 cv' Hd8 _ _. injection Hd8 as <- Hcv'.
  assert (cv' = cv) as ->.
  { unfold decided in Hdec. injection Hdec as Hh6 _ _ _ _ Hc6 _. rewrite <-Hd7 in Hcv'. unfold cb, rd in Hcv', Hcv. simpl in Hcv'.
    rewrite Hh6, Hc6, Hcv in Hcv'. by injection Hcv'. }
  apply after_bind_at; [|intros; by apply after_ret]. apply announce_steady; [done|].
  eapply backed_leads; [exact Hl7|]. by eapply backed_leads.
Qed.

Lemma keeps_confirmCommit m : keeps (confirmCommit recv m).
Proof.
  unfold confirmCommit. apply keeps_bind_get. intros g d Hp. case_match eqn:Hg; [by apply after_ret|].
  destruct (decide (s_Type _ = _)); [by apply after_ret|].
  apply after_bind_steady; [done|st|]. intros d1 o Ho _ _. injection Ho as <- _. destruct o as [b|]; [|by apply after_ret].
  case_match eqn:Hc; [by apply after_ret|]. apply negb_false_iff in Hc.
  assert (fits g (Some b)) as Hfit.
  { eapply fits_compatible; [|exact Hc]. intros v Hv. apply (pl_value _ _ Hp v Hv). }
  apply after_bind_steady; [done|st|]. intros d1 [lb rb] Hi _ _. injection Hi as <- Hi.
  destruct (decide (lb = 0)); [by apply after_ret|]. apply commit_pair_at; [done|]. intros c h d2 Hp2 Hl2 _ Hcv Hhv.
  eapply setConfirmCommit_after; try done. simpl. eapply backed_leads; [exact Hl2|]. by eapply ratified_backed.
Qed.
#[local] Hint Resolve keeps_acceptCommit keeps_confirmCommit : pledge.

(** ** Receiving *)

(** [step] repeats its last message. *)
Lemma keeps_repeat (u : bool) :
  keeps (let! d := get in match d_latestBallot d with Some m => if u then broadcast m else ret tt | None => ret tt end).
Proof.
  apply keeps_bind_get. intros g d Hp. destruct (d_latestBallot d) as [m|] eqn:Hm; [|by apply after_ret].
  destruct u; [|by apply after_ret]. destruct (pl_spoken _ _ Hp) as (Hs & _). destruct (Hs m (or_intror Hm)).
  apply steady_at_after. by apply say_steady.
Qed.
#[local] Hint Resolve keeps_repeat : pledge.
Lemma keeps_step n m : keeps (step recv n m).
Proof. unfold step. kp. Qed.

Lemma store_steady g d m : pledged g d → faithful g d m → steady_at g d (store (E:=E) m).
Proof.
  intros [Hf Hst Hsp Hv] Hm. split; [by split_and!|]. simpl. split; simpl; try done.
  intros x m' [[<- <-]|[_ Hx]]%lookup_insert_Some; [done|by apply Hst].
Qed.

Lemma recv_body_after n m g d : pledged g d → faithful g d m → after g d (recv_body recv n m d).
Proof.
  intros Hp Hm. unfold recv_body. apply after_bind_steady; [done|st|]. intros d1 d' [= <- <-] _ _.
  case_decide; [by apply steady_at_after, steady_fail|].
  apply after_bind_steady; [done|st|]. intros d1 newer Hd _ _. injection Hd as <- _. destruct newer; [|by apply after_ret].
  apply after_bind_steady; [done|st|]. intros d1 [] Hd%wrap_Ok _ _. injection Hd as <- _. simpl.
  destruct (active (d_currentPhase d)).
  - apply after_bind_at; [by apply store_steady|]. intros d1 [] _ _ Hp1. by apply after_wrap, keeps_step.
  - do 3 (apply after_bind_steady; [done|st|]; intros ? ? Hd _ _; injection Hd as <- _).
    case_decide; [by apply steady_at_after, steady_fail|]. by apply steady_at_after, store_steady.
Qed.
End with_recv.

Lemma recvBallot_after n m g d : pledged g d → faithful g d m → after g d (recvBallot n m d).
Proof.
  revert m g d. induction n as [|n IH]; intros m g d Hp Hm; simpl; [by apply after_ret|].
  apply recv_body_after; [done|intros; apply progress_recvBallot|done|done].
Qed.

(** ** Nomination *)

Lemma steady_on_env {A} (m : M E A) : steady (on_env (E:=E) m).
Proof.
  intros g d Hp. unfold on_env. destruct (m (d_env d)) as [e r]. simpl.
  destruct (pledged_same g d (set_env e d) eq_refl Hp). split; [done|by apply pledged_holds].
Qed.
#[local] Hint Resolve steady_on_env : pledge.
Lemma steady_combineCandidates : steady (combineCandidates (E:=E)).
Proof. unfold combineCandidates. st. Qed.
Lemma steady_promote_accepts votes u : steady (promote_accepts (E:=E) votes u).
Proof. revert u. induction votes; simpl; st. Qed.
Lemma steady_promote_candidates accepts u : steady (promote_candidates (E:=E) accepts u).
Proof. revert u. induction accepts; simpl; st. Qed.
Lemma steady_store_nomination stmt nom : steady (store_nomination (E:=E) stmt nom).
Proof. unfold store_nomination. st. Qed.
Lemma steady_updateRoundLeaders : steady (updateRoundLeaders (E:=E)).
Proof. unfold updateRoundLeaders. st. Qed.
Lemma steady_adopt_votes v leaders u : steady (adopt_votes (E:=E) v leaders u).
Proof. revert u. induction leaders; simpl; st. Qed.
#[local] Hint Resolve steady_combineCandidates steady_promote_accepts steady_promote_candidates steady_store_nomination
  steady_updateRoundLeaders steady_adopt_votes : pledge.

(** A nomination commits to nothing. *)
Lemma steady_latestNomination g d d0 : pledged g d → steady_at g d (modify (set_latestNomination (Some (nomination_statement d0)))).
Proof.
  intros [Hf Hst (H1 & H2 & H3) Hv]. split; [by split_and!|]. simpl. split; simpl; try done. split_and!; try done.
  by intros s [= <-].
Qed.

Lemma keeps_sendNomination recvN : (∀ s, keeps (recvN s)) → keeps (sendNomination (E:=E) recvN).
Proof.
  intros Hr. unfold sendNomination. apply keeps_bind_get. intros g d Hp.
  apply after_bind_steady; [done|st|]. intros d1 nom Hd _ _. injection Hd as <- _.
  apply after_bind; [by apply after_wrap, Hr|]. intros g1 d1 [] _ Hl1 Hp1.
  apply after_bind_steady; [done|st|]. intros d2 d' [= <- <-] _ _.
  apply after_bind_steady; [done|st|]. intros d2 newer Hd _ _. injection Hd as <- _. destruct newer; [|by apply after_ret].
  apply after_bind_at; [by apply steady_latestNomination|]. intros d2 [] Hd2 Hl2 Hp2. apply steady_at_after.
  apply say_steady; [done|destruct Hl1 as (_ & Hn1 & _), Hl2 as (_ & Hn2 & _); simpl in *; congruence|]. by intros _ u.
Qed.
#[local] Hint Resolve keeps_sendNomination keeps_updateBallotPhase : pledge.

Lemma keeps_recvNomination recv n s :
  (∀ m g d, pledged g d → faithful g d m → after g d (recv m d)) → keeps (recvNomination (E:=E) recv n s).
Proof.
  intros Hr. revert s. induction n as [|n IH]; intros s; simpl; [intros g d Hp; by apply after_ret|].
  unfold recvNomination_body, promoteVotes. kp.
Qed.

(** ** The calls on a decree *)

Lemma nominate_keeps n s : keeps (recvNomination (recvBallot n) n s).
Proof. apply keeps_recvNomination. intros. by apply recvBallot_after. Qed.
#[local] Hint Resolve nominate_keeps : pledge.
Lemma Nominate_keeps n x y r : keeps (Nominate_ (E:=E) n x y r).
Proof. unfold Nominate_, renominate. kp. Qed.
Lemma StopNomination_keeps : keeps (StopNomination (E:=E)).
Proof. unfold StopNomination. kp. Qed.

(** A statement that is delivered repeats what its sender has pledged, if the sender is honest. *)
Lemma Recv_keeps n s g d :
  pledged g d → (s_NodeID s ∈ honest → ∀ u, commit_value s = Some u → said (d_nodeID d) g (s_NodeID s) u) →
  after g d (Recv n (Some s) d).
Proof.
  intros Hp Hs. unfold Recv. destruct (s_Type s).
  - by apply after_wrap, nominate_keeps.
  - by apply after_wrap, recvBallot_after.
  - by apply after_wrap, recvBallot_after.
  - by apply after_wrap, recvBallot_after.
  - by apply after_ret.
Qed.

End pledge.
