(* ===== verification/Agreement.v ===== *)
(** Agreement: the decrees of the honest nodes for one ledger index never announce two values.

    The network is the map of the honest nodes, each with its decree, and the pool of the statements they have sent.
    Every node may be called at any time, in any order: a nomination, a renomination by the timer, the end of a
    nomination, a change of its ledger or validator, a statement that arrives.  The statements of a node outside the map
    are arbitrary and need not be the same for two receivers; a statement in the name of an honest node is one that the
    node has sent, possibly long ago, possibly delivered many times or never.  The server does not check this (it trusts
    every peer to speak for any node, see [Server.Notify_trusts_any_peer]), so here it is part of what a step is.  A call
    that ends the process, [log.Fatal] or a nil pointer, leaves what the node has sent before and stops the node for good. *)

From stdpp Require Import relations.
From S2P Require Import Prelude Pb Crypto Quorum Ballot Federated Decree Nomination Pledge.

Section network.
Context {E : Type} {Env : DecreeEnv E} {Crypto : CryptoLib} {Pbc : PbCodec} {GoRt : GoRuntime}.
Implicit Types d : Decree E.

(** * The network *)

(** The decree of each honest node, whether its process still runs, and the statements sent. *)
Record Net := mkNet {
  net_nodes : gmap string (Decree E * bool);
  net_pool : list Statement;
}.
Implicit Types N : Net.

Inductive Act :=
| ANominate (x prevHash currHash : string) (isRenominate : bool)
| AStopNomination (x : string)
| AEnv (x : string) (e : E)
| ARecv (x : string) (s : Statement)
| ASend (x : string) (s : Statement).

(** The process survives an error, not a panic. *)
Definition survives {A} (r : res A) : bool := match r with Ok _ | Err _ => true | Panic _ | NoFuel => false end.

Definition on_node (x : string) (m : M (Decree E) unit) N : option Net :=
  match net_nodes N !! x with
  | Some (d, true) => let '(d', r) := m d in Some (mkNet (<[x := (d', survives r)]> (net_nodes N)) (net_pool N))
  | _ => None
  end.

(** What a node has put on its channel, or repeats when it rebroadcasts, as it reads when it is encoded. *)
Definition sayings d : list Statement := GetLatestStatements d ++ (resolve (d_heap d) <$> d_statementChan d).

(** No one speaks for an honest node. *)
Definition authentic N (s : Statement) : Prop := s_NodeID s ∈ dom (net_nodes N) → s ∈ net_pool N.
#[global] Instance authentic_dec N s : Decision (authentic N s).
Proof. unfold authentic. apply _. Defined.

Definition act (fuel : nat) (a : Act) N : option Net :=
  match a with
  | ANominate x prevHash currHash r => on_node x (Nominate_ fuel prevHash currHash r) N
  | AStopNomination x => on_node x StopNomination N
  | AEnv x e => on_node x (modify (set_env e)) N
  | ARecv x s => if decide (authentic N s) then on_node x (Recv fuel (Some s)) N else None
  | ASend x s =>
      match net_nodes N !! x with
      | Some (d, _) => if decide (s ∈ sayings d) then Some (mkNet (net_nodes N) (s :: net_pool N)) else None
      | None => None
      end
  end.

Definition net_step N N' : Prop := ∃ fuel a, act fuel a N = Some N'.

(** The network before the first call. *)
Definition net_start (start : gmap string (Decree E)) : Net := mkNet ((λ d, (d, true)) <$> start) [].

(** A schedule. *)
Fixpoint net_run (fuel : nat) (acts : list Act) N : option Net :=
  match acts with
  | [] => Some N
  | a :: acts => N' ← act fuel a N; net_run fuel acts N'
  end.

Lemma net_run_steps fuel acts N N' : net_run fuel acts N = Some N' → rtc net_step N N'.
Proof.
  revert N. induction acts as [|a acts IH]; intros N H; simpl in H; [by simplify_eq|].
  apply bind_Some in H as (N1 & H1 & H2). eapply rtc_l; [by exists fuel, a|auto].
Qed.

(** * The invariant of the network *)

(** ** More claims *)

Section claims.
Context (honest : gset string) (claims claims' : string → string → Prop).
Hypothesis more : ∀ x u, claims x u → claims' x u.
Implicit Types g : option string.

Lemma said_claims me g x u : said claims me g x u → said claims' me g x u.
Proof. unfold said. case_decide; auto. Qed.
Lemma faithful_claims g d m : faithful honest claims g d m → faithful honest claims' g d m.
Proof. unfold faithful. destruct (ms_refs m) as [[[??]?]|]; [done|]. intros H Hin u Hu. by apply said_claims, H. Qed.
Lemma spoken_claims g d : spoken honest claims g d → spoken honest claims' g d.
Proof.
  intros (H1 & H2 & H3). split_and!; [|done|].
  - intros m Hm. destruct (H1 m Hm). split; [done|by apply faithful_claims].
  - intros i u Hi. destruct (H3 i u Hi) as (S & HS & Hall). exists S. split; [done|]. intros. by apply said_claims, Hall.
Qed.
Lemma pledged_claims g d : pledged honest claims g d → pledged honest claims' g d.
Proof.
  intros [Hf Hst Hsp Hv]. split; [done| |by apply spoken_claims|done].
  intros x m Hx. destruct (Hst x m Hx). split; [done|by apply faithful_claims].
Qed.
End claims.

(** The pledges of all honest nodes: what each is known for by the others. *)
Definition claimed (g : string → option string) (x u : string) : Prop := g x = Some u.

Definition node_ok (start : gmap string (Decree E)) (g : string → option string) (x : string) (p : Decree E * bool) : Prop :=
  let '(d, alive) := p in
  (∃ d0, start !! x = Some d0 ∧ d_quorum d = d_quorum d0 ∧ progress d0 d) ∧ d_nodeID d = x ∧
  if alive : bool then pledged (dom start) (claimed g) (g x) d else spoken (dom start) (claimed g) (g x) d.

Definition net_ok (start : gmap string (Decree E)) N : Prop :=
  dom (net_nodes N) = dom start ∧
  ∃ g, map_Forall (node_ok start g) (net_nodes N) ∧
       ∀ s u, s ∈ net_pool N → s_NodeID s ∈ dom start → commit_value s = Some u → g (s_NodeID s) = Some u.

(** One node runs, and may pledge itself. *)
Lemma node_runs start g x d (dr : Decree E * res unit) N :
  dom (net_nodes N) = dom start → map_Forall (node_ok start g) (net_nodes N) →
  (∀ s u, s ∈ net_pool N → s_NodeID s ∈ dom start → commit_value s = Some u → g (s_NodeID s) = Some u) →
  net_nodes N !! x = Some (d, true) → after (dom start) (claimed g) (g x) d dr → progress d dr.1 →
  net_ok start (mkNet (<[x := (dr.1, survives dr.2)]> (net_nodes N)) (net_pool N)).
Proof.
  intros Hdom Hall Hpool Hx (v & Hl & Hh) Hpr. pose proof Hl as (Hmono & Hid & Hq & _).
  set (g' := λ y, if decide (y = x) then v else g y).
  assert (g' x = v) as Hgx by (unfold g'; by rewrite decide_True).
  assert (∀ y u, g y = Some u → g' y = Some u) as Hg.
  { intros y u Hy. unfold g'. case_decide as He; [rewrite He in Hy; auto|done]. }
  destruct (map_Forall_lookup_1 _ _ _ _ Hall Hx) as ((d0 & Hs0 & Hq0 & Hp0) & Hn & _).
  split; [simpl; rewrite dom_insert_L; apply elem_of_dom_2 in Hs0; set_solver|].
  exists g'. split; [|intros s u ? ? ?; by apply Hg, (Hpool s)].
  apply map_Forall_lookup. intros y [dy by'] Hy. simpl in Hy. apply lookup_insert_Some in Hy as [[<- [= <- <-]]|[Hne Hy]].
  - split; [exists d0; split_and!; [done|congruence|by etrans]|]. split; [congruence|]. rewrite Hgx.
    destruct dr as [d1 [| | |]]; simpl in *; first [by apply (pledged_claims _ (claimed g))|by apply (spoken_claims _ (claimed g))].
  - destruct (map_Forall_lookup_1 _ _ _ _ Hall Hy) as (H1 & H2 & H3). split; [done|]. split; [done|].
    assert (g' y = g y) as -> by (unfold g'; by rewrite decide_False).
    by destruct by'; [apply (pledged_claims _ (claimed g))|apply (spoken_claims _ (claimed g))].
Qed.

(** What a node says is its pledge. *)
Lemma sayings_pledge honest claims g d s u :
  spoken honest claims g d → d_nodeID d ∈ honest → s ∈ sayings d → commit_value s = Some u →
  s_NodeID s = d_nodeID d ∧ g = Some u.
Proof.
  intros (Hm & Hno & _) Hin Hs Hu.
  assert (∀ m, m ∈ d_statementChan d ∨ d_latestBallot d = Some m → s = resolve (d_heap d) m →
    s_NodeID s = d_nodeID d ∧ g = Some u) as Hsay.
  { intros m Hmm ->. destruct (Hm m Hmm) as [Hid Hf]. apply (faithful_value _ _ _ _ _ u) in Hf; [|by rewrite Hid|done].
    rewrite Hid in Hf. unfold said in Hf. rewrite decide_True in Hf by done. split; [|done].
    unfold resolve. by destruct (ms_refs m) as [[[??]?]|]. }
  unfold sayings, GetLatestStatements in Hs. rewrite !elem_of_app in Hs. destruct Hs as [[Hs|Hs]|Hs].
  - destruct (d_latestNomination d) as [n|] eqn:Hln; [|by apply not_elem_of_nil in Hs].
    apply list_elem_of_singleton in Hs as ->. apply commit_value_is_commit in Hu. by rewrite (Hno n) in Hu.
  - apply list_elem_of_fmap in Hs as (m & -> & Hs). destruct (d_latestBallot d) as [m'|] eqn:Hlb; [|by apply not_elem_of_nil in Hs].
    apply list_elem_of_singleton in Hs as ->. by apply (Hsay m'); [right|].
  - apply list_elem_of_fmap in Hs as (m & -> & Hs). by apply (Hsay m); [left|].
Qed.

Lemma node_spoken start g x d b : node_ok start g x (d, b) → spoken (dom start) (claimed g) (g x) d.
Proof. intros (_ & _ & H). destruct b; [apply H|done]. Qed.

(** A call on one node: what holds of each state of the node and of the pool. *)
Lemma on_node_ok start x (m : M (Decree E) unit) N N' :
  net_ok start N → on_node x m N = Some N' → preserves progress m →
  (∀ g d, pledged (dom start) (claimed g) (g x) d → d_nodeID d = x →
     (∀ s u, s ∈ net_pool N → s_NodeID s ∈ dom start → commit_value s = Some u → g (s_NodeID s) = Some u) →
     after (dom start) (claimed g) (g x) d (m d)) →
  net_ok start N'.
Proof.
  intros (Hdom & g & Hall & Hpool) H Hpr Hm. unfold on_node in H.
  destruct (net_nodes N !! x) as [[d [|]]|] eqn:Hx; try done. destruct (m d) as [d' r] eqn:Hr. injection H as <-.
  destruct (map_Forall_lookup_1 _ _ _ _ Hall Hx) as (_ & Hn & Hp).
  specialize (Hm g d Hp Hn Hpool). specialize (Hpr d). rewrite Hr in Hm, Hpr. by apply (node_runs start g x d (d', r)).
Qed.

Lemma act_ok start fuel a N N' : net_ok start N → act fuel a N = Some N' → net_ok start N'.
Proof.
  intros Hok H. destruct a as [x p c r|x|x e|x s|x s]; cbn [act] in H.
  - eapply on_node_ok; [done|exact H|apply progress_Nominate|]. intros. by apply Nominate_keeps.
  - eapply on_node_ok; [done|exact H|apply progress_StopNomination|]. intros. by apply StopNomination_keeps.
  - eapply on_node_ok; [done|exact H|by intros d; apply silent_progress|]. intros.
    apply steady_keeps; [by apply steady_modify|done].
  - case_decide as Ha; [|done]. pose proof Hok as (Hdom & _).
    eapply on_node_ok; [done|exact H|apply progress_Recv|]. intros g d Hp Hn Hpool. apply Recv_keeps; [done|].
    intros Hin u Hu. unfold authentic in Ha. rewrite Hdom in Ha. specialize (Hpool s u (Ha Hin) Hin Hu).
    unfold said, claimed. case_decide as He; [by rewrite He, Hn in Hpool|done].
  - destruct (net_nodes N !! x) as [[d b]|] eqn:Hx; [|done]. case_decide as Hs; [|done]. injection H as <-.
    destruct Hok as (Hdom & g & Hall & Hpool). split; [done|]. exists g. split; [done|]. simpl.
    intros s' u [->|Hin]%elem_of_cons Hh Hu; [|by apply (Hpool s')].
    pose proof (map_Forall_lookup_1 _ _ _ _ Hall Hx) as Hno. pose proof (node_spoken _ _ _ _ _ Hno) as Hsp.
    destruct Hno as (_ & Hn & _). apply (sayings_pledge _ _ _ _ s u) in Hsp as [Hid Hg]; try done; [by rewrite Hid, Hn|].
    rewrite Hn, <-Hdom. by apply elem_of_dom_2 in Hx.
Qed.

Lemma steps_ok start N N' : net_ok start N → rtc net_step N N' → net_ok start N'.
Proof. intros Hok H. induction H as [|N1 N2 N3 (fuel & a & Ha) _ IH]; [done|]. by eapply IH, act_ok. Qed.

(** New decrees, one for each honest node, all for one index. *)
Definition new_decrees (index : Z) (start : gmap string (Decree E)) : Prop :=
  ∀ x d, start !! x = Some d → ∃ env q h, NewDecree env index x q h = Ok d.

Lemma new_pledged honest claims env index x q h d : NewDecree env index x q h = Ok d → pledged honest claims None d.
Proof.
  unfold NewDecree. intros H. repeat case_decide; simplify_eq/=. split; simpl; [| | |done].
  - intros l b Hl. by rewrite lookup_empty in Hl.
  - intros y m Hy. by rewrite lookup_empty in Hy.
  - split_and!; simpl; [|done|]; [intros m [Hm|Hm]; [|done]|intros i u Hm]; by apply not_elem_of_nil in Hm.
Qed.

Lemma net_start_ok index start : new_decrees index start → net_ok start (net_start start).
Proof.
  intros Hnew. split; [simpl; by rewrite dom_fmap_L|]. exists (λ _, None). split; [|by intros s u Hs%not_elem_of_nil].
  apply map_Forall_lookup. intros x [d b] Hx. simpl in Hx. rewrite lookup_fmap in Hx.
  destruct (start !! x) as [d0|] eqn:H0; simplify_eq/=. destruct (Hnew x d H0) as (env & q & h & Hd).
  split; [exists d; split_and!; [done..|reflexivity]|]. split; [|by eapply new_pledged].
  unfold NewDecree in Hd. repeat case_decide; by simplify_eq/=.
Qed.

(** Any two slices of honest nodes share an honest node. *)
Definition intersecting (start : gmap string (Decree E)) : Prop :=
  ∀ x y dx dy (S T : gset string), start !! x = Some dx → start !! y = Some dy →
    isQuorumSlice (d_quorum dx) S = true → isQuorumSlice (d_quorum dy) T = true → ∃ z, z ∈ S ∧ z ∈ T ∧ z ∈ dom start.

(** Two announcements, each backed by a slice. *)
Lemma backed_agree start g x y dx dy bx by' i j u w :
  intersecting start → node_ok start g x (dx, bx) → node_ok start g y (dy, by') →
  (i, u) ∈ d_externalizeChan dx → (j, w) ∈ d_externalizeChan dy → u = w.
Proof.
  intros Hint Hx Hy Hu Hw.
  pose proof (node_spoken _ _ _ _ _ Hx) as (_ & _ & Hbx). pose proof (node_spoken _ _ _ _ _ Hy) as (_ & _ & Hby).
  destruct Hx as ((dx0 & Hx0 & Hqx & _) & Hnx & _), Hy as ((dy0 & Hy0 & Hqy & _) & Hny & _).
  destruct (Hbx i u Hu) as (S & HS & HSall), (Hby j w Hw) as (T & HT & HTall). rewrite Hqx in HS. rewrite Hqy in HT.
  destruct (Hint x y dx0 dy0 S T Hx0 Hy0 HS HT) as (z & HzS & HzT & Hz).
  specialize (HSall z HzS Hz). specialize (HTall z HzT Hz). unfold said, claimed in *.
  rewrite Hnx in HSall. rewrite Hny in HTall. repeat case_decide; congruence.
Qed.

(** What a decree has announced. *)
Lemma announced_once start g index x d b :
  new_decrees index start → node_ok start g x (d, b) →
  d_externalizeChan d = [] ∨ ∃ u, d_externalizeChan d = [(index, u)].
Proof.
  intros Hnew ((d0 & H0 & _ & (_ & _ & _ & Hp)) & _). destruct (Hnew x d0 H0) as (env & q & h & Hd).
  unfold NewDecree in Hd. repeat case_decide; simplify_eq/=. unfold announced in Hp. simpl in Hp.
  destruct (d_currentPhase d); naive_solver.
Qed.

Lemma net_agrees index start N :
  new_decrees index start → intersecting start → net_ok start N →
  ∃ u, ∀ x d b, net_nodes N !! x = Some (d, b) → d_externalizeChan d = [] ∨ d_externalizeChan d = [(index, u)].
Proof.
  intros Hnew Hint (_ & g & Hall & _).
  destruct (decide (map_Forall (λ _ p, d_externalizeChan (E:=E) p.1 = []) (net_nodes N))) as [Hno|Hsome].
  - exists "". intros x d b Hx. left. apply (map_Forall_lookup_1 _ _ _ _ Hno Hx).
  - apply map_not_Forall in Hsome as (x & [dx bx] & Hx & Hne); [|apply _]. simpl in Hne.
    pose proof (map_Forall_lookup_1 _ _ _ _ Hall Hx) as Hox.
    destruct (announced_once _ _ index _ _ _ Hnew Hox) as [?|[u Hu]]; [done|]. exists u. intros y dy b Hy.
    pose proof (map_Forall_lookup_1 _ _ _ _ Hall Hy) as Hoy.
    destruct (announced_once _ _ index _ _ _ Hnew Hoy) as [?|[w Hw]]; [by left|right]. rewrite Hw. do 2 f_equal.
    eapply (backed_agree start g y x); try done; [rewrite Hw|rewrite Hu]; by apply list_elem_of_singleton.
Qed.

(** ** The specification: a register that is written once *)

Inductive decide_step : option string → option string → Prop :=
| decide_value u : decide_step None (Some u).

(** The register as the announcements show it. *)
Definition shows (index : Z) N (o : option string) : Prop :=
  (∀ x d b, net_nodes N !! x = Some (d, b) →
     d_externalizeChan d = [] ∨ ∃ u, o = Some u ∧ d_externalizeChan d = [(index, u)]) ∧
  (∀ u, o = Some u → ∃ x d b, net_nodes N !! x = Some (d, b) ∧ d_externalizeChan d = [(index, u)]).

Lemma progress_prefix d d' : progress d d' → d_externalizeChan d `prefix_of` d_externalizeChan d'.
Proof.
  intros (_ & _ & _ & H). unfold announced, decided in H.
  destruct (d_currentPhase d); [destruct (d_currentPhase d')..|]; try (by injection H as _ _ _ _ _ _ ->); try (by rewrite H).
  all: destruct H as [->|(c & _ & ->)]; [done|by apply prefix_app_r].
Qed.

Lemma act_progress fuel a N N' x d b :
  act fuel a N = Some N' → net_nodes N !! x = Some (d, b) → ∃ d' b', net_nodes N' !! x = Some (d', b') ∧ progress d d'.
Proof.
  intros H Hx.
  assert (∀ y (m : M (Decree E) unit), preserves progress m → on_node y m N = Some N' →
    ∃ d' b', net_nodes N' !! x = Some (d', b') ∧ progress d d') as Hon.
  { intros y m Hm Hy. unfold on_node in Hy. destruct (net_nodes N !! y) as [[dy [|]]|] eqn:Hdy; try done.
    specialize (Hm dy). destruct (m dy) as [d' r]. injection Hy as <-. simpl in *. destruct (decide (x = y)) as [->|Hne].
    - rewrite lookup_insert_eq. exists d', (survives r). by simplify_eq.
    - rewrite lookup_insert_ne by done. by exists d, b. }
  destruct a as [y p c r|y|y e|y s|y s]; cbn [act] in H.
  - by eapply Hon, H; apply progress_Nominate.
  - by eapply Hon, H; apply progress_StopNomination.
  - by eapply Hon, H; intros d1; apply silent_progress.
  - case_decide; [|done]. by eapply Hon, H; apply progress_Recv.
  - repeat case_match; simplify_eq. by exists d, b.
Qed.

(** One step shows at most one writing. *)
Lemma step_shows index start N N' o :
  new_decrees index start → intersecting start → net_ok start N' → net_step N N' → shows index N o →
  ∃ o', (o' = o ∨ decide_step o o') ∧ shows index N' o'.
Proof.
  intros Hnew Hint Hok (fuel & a & Ha) [Hall Hsome]. destruct (net_agrees index start N' Hnew Hint Hok) as [u Hu].
  destruct o as [v|].
  - exists (Some v). split; [by left|]. destruct (Hsome v eq_refl) as (x & d & b & Hx & Hv).
    destruct (act_progress _ _ _ _ _ _ _ Ha Hx) as (d' & b' & Hx' & Hp%progress_prefix). rewrite Hv in Hp.
    destruct Hp as [k Hk]. destruct (Hu x d' b' Hx') as [Hd|Hd]; rewrite Hd in Hk; [done|]. simplify_eq/=. split.
    + intros y dy by' Hy. destruct (Hu y dy by' Hy); eauto.
    + intros w [= <-]. by exists x, d', b'.
  - destruct (decide (map_Forall (λ _ p, d_externalizeChan (E:=E) p.1 = []) (net_nodes N'))) as [Hno|Hyes].
    + exists None. split; [by left|]. split; [|done]. intros x d b Hx. left. apply (map_Forall_lookup_1 _ _ _ _ Hno Hx).
    + apply map_not_Forall in Hyes as (x & [d b] & Hx & Hne); [|apply _]. exists (Some u). split; [by right|]. split.
      * intros y dy by' Hy. destruct (Hu y dy by' Hy); eauto.
      * intros w [= <-]. exists x, d, b. by destruct (Hu x d b Hx).
Qed.

Lemma start_shows index start : new_decrees index start → shows index (net_start start) None.
Proof.
  intros Hnew. split; [|done]. intros x d b Hx. simpl in Hx. rewrite lookup_fmap in Hx. left.
  destruct (start !! x) as [d0|] eqn:H0; simplify_eq/=. destruct (Hnew x d H0) as (env & q & h & Hd).
  unfold NewDecree in Hd. repeat case_decide; by simplify_eq/=.
Qed.

End network.
Arguments Net E : clear implicits.
Arguments Act E : clear implicits.

(** C1: agreement.  Let the honest nodes start new decrees for one index, with quorums such that any slice of one and any slice
    of another share an honest node.  Whatever the nodes outside send, in whatever order the honest nodes are called and
    their statements delivered, repeated or lost, and whichever processes die: there is one value such that every honest
    decree has announced nothing, or that value, once. *)
Theorem agreement {E : Type} {Env : DecreeEnv E} {Crypto : CryptoLib} {Pbc : PbCodec} {GoRt : GoRuntime}
    (index : Z) (start : gmap string (Decree E)) (N : Net E) :
  new_decrees index start → intersecting start → rtc net_step (net_start start) N →
  ∃ u, ∀ x d alive, net_nodes N !! x = Some (d, alive) →
    d_externalizeChan d = [] ∨ d_externalizeChan d = [(index, u)].
Proof. intros Hnew Hint Hr. apply (net_agrees index start); [done..|]. eapply steps_ok; [by eapply net_start_ok|done]. Qed.

(** C23: the network implements a register that is written once.  Let the honest nodes start new decrees for one index, with quorums such that any slice of one and any slice
    of another share an honest node, and let no one else speak in their names.  The announcements of the honest decrees show the register
    empty at the start; every step of the network, from any state it can reach, is no step of the register or its one writing; and every state that
    the network reaches shows a state that the register reaches. *)
Theorem network_refines_register {E : Type} {Env : DecreeEnv E} {Crypto : CryptoLib} {Pbc : PbCodec} {GoRt : GoRuntime}
    (index : Z) (start : gmap string (Decree E)) :
  new_decrees index start → intersecting start →
  shows index (net_start start) None ∧
  (∀ N N' o, rtc net_step (net_start start) N → net_step N N' → shows index N o →
    ∃ o', (o' = o ∨ decide_step o o') ∧ shows index N' o') ∧
  ∀ N, rtc net_step (net_start start) N → ∃ o, rtc decide_step None o ∧ shows index N o.
Proof.
  intros Hnew Hint. pose proof (start_shows index start Hnew) as H0. pose proof (net_start_ok index start Hnew) as Hok.
  assert (∀ N N' o, rtc net_step (net_start start) N → net_step N N' → shows index N o →
    ∃ o', (o' = o ∨ decide_step o o') ∧ shows index N' o') as Hstep.
  { intros N N' o Hr Hs. apply (step_shows index start); try done. eapply steps_ok; [done|]. by eapply rtc_r. }
  split_and!; [done..|]. apply (rtc_ind_r (λ N, ∃ o, rtc decide_step None o ∧ shows index N o)); [by exists None|].
  intros N N' Hr Hs (o & Ho & Hsh). destruct (Hstep N N' o Hr Hs Hsh) as (o' & [->|Hd] & Hsh'); [by exists o|].
  exists o'. split; [by eapply rtc_r|done].
Qed.

(** Nodes that share a quorum without nested quorums. *)
Lemma flat_intersecting {E} (t : f64) (vs : list string) (start : gmap string (Decree E)) :
  (∀ x d, start !! x = Some d → d_quorum d = mkQuorum t vs []) →
  Z.of_nat (length vs) + count ((λ v, bool_decide (v ∉ dom start)) <$> vs) < 2 * slice_need (mkQuorum t vs []) →
  intersecting start.
Proof.
  intros Hq Hn x y dx dy S T Hx Hy HS HT. rewrite (Hq x dx Hx) in HS. rewrite (Hq y dy Hy) in HT.
  destruct (slices_intersect t vs (dom start) S T Hn HS HT) as (v & _ & ? & ? & ?). eauto.
Qed.

(** * Four nodes, one of them faulty *)

Module four_nodes.
Import Decree.states Nomination.runs.

(** Any three of the four are a slice; node z lies. *)
Definition quorum : Quorum := mkQuorum three_quarters ["a"; "b"; "c"; "z"] [].
Definition new (x : string) : Decree Quorum := match NewDecree quorum 5 x quorum "qh" with Ok d => d | _ => fresh quorum end.
Definition start : gmap string (Decree Quorum) := {[ "a" := new "a"; "b" := new "b"; "c" := new "c" ]}.

(** Node z tells node a that it has externalized one value and node b that it confirms another. *)
Definition lie_a : Statement :=
  mkStatement StatementType_EXTERNALIZE "z" 5 (Some (Stmt_Externalize (mkExternalize (Some (mkBallot 1 (value "y"))) 1 "qh"))).
Definition lie_b : Statement :=
  mkStatement StatementType_CONFIRM "z" 5 (Some (Stmt_Confirm (mkConfirm (Some (mkBallot 1 (value "w"))) 1 1 1 "qh"))).

(** Every node sends what it has said last, and the others receive it. *)
Definition exchange (N : Net Quorum) : list (Act Quorum) :=
  let nodes := map_to_list (net_nodes N) in
  '(x, (d, _)) ← nodes;
  s ← GetLatestStatements d;
  ASend x s :: ((λ y, ARecv y s) <$> filter (λ y, y ≠ x) nodes.*1).

Definition opening : list (Act Quorum) := (λ x, ANominate x "head" (value "x") false) <$> ["a"; "b"; "c"].

Fixpoint rounds (first : list (Act Quorum)) (n : nat) : option (Net Quorum) :=
  match n with
  | O => net_run 40 first (net_start start)
  | S n => N ← rounds first n; net_run 40 (exchange N) N
  end.

(** The phase of each node, and what it has announced. *)
Definition outcome (N : Net Quorum) : list (string * bool * BallotPhase * list (Z * string)) :=
  (λ '(x, (d, alive)), (x, alive, d_currentPhase d, d_externalizeChan d)) <$> map_to_list (net_nodes N).

(** The honest nodes come to a decision.  Three of four nodes nominate, the fourth is silent, and after three rounds of
    messages the three decrees have all announced the value their candidates combine to. *)
Theorem three_of_four_decide :
  outcome <$> rounds opening 3 =
    Some ((λ x, (x, true, BallotPhaseExternalize, [(5, combined)])) <$> ["c"; "a"; "b"]).
Proof. vm_compute. reflexivity. Qed.

(** One of four nodes decides alone.  The quorum is meant to tolerate one faulty node, but a single node is enough to block it
    (see [vblocking_off_by_one]), and what a blocking set claims is accepted: before anyone has spoken, one message makes
    node a confirm the value of the liar, another makes node b confirm a second one.  Node a, with the other honest node,
    then announces the liar's value, which no honest node has proposed, and node b is left with a pledge that no quorum
    will ever share. *)
Theorem one_liar_decides :
  outcome <$> rounds (ARecv "a" lie_a :: ARecv "b" lie_b :: opening) 3 =
    Some [("c", true, BallotPhaseConfirm, []); ("a", true, BallotPhaseExternalize, [(5, value "y")]);
          ("b", true, BallotPhaseConfirm, [])].
Proof. vm_compute. reflexivity. Qed.

(** ** Witnesses *)

Definition finish : Net Quorum := default (net_start start) (rounds (ARecv "a" lie_a :: ARecv "b" lie_b :: opening) 3).

Lemma rounds_steps first n N : rounds first n = Some N → rtc net_step (net_start start) N.
Proof.
  revert N. induction n as [|n IH]; intros N H; simpl in H; [by eapply net_run_steps|].
  apply bind_Some in H as (N1 & H1 & H2). etrans; [by apply IH|by eapply net_run_steps].
Qed.
Lemma finish_reached : rtc net_step (net_start start) finish.
Proof. apply (rounds_steps (ARecv "a" lie_a :: ARecv "b" lie_b :: opening) 3). vm_compute. reflexivity. Qed.

Lemma start_cases x d : start !! x = Some d → x ∈ ["a"; "b"; "c"] ∧ d = new x.
Proof.
  unfold start. intros [[<- <-]|[_ H]]%lookup_insert_Some; [split; [set_solver|done]|].
  apply lookup_insert_Some in H as [[<- <-]|[_ H]]; [split; [set_solver|done]|].
  apply lookup_singleton_Some in H as [<- <-]. split; [set_solver|done].
Qed.
Lemma start_new : new_decrees 5 start.
Proof. intros x d [Hx ->]%start_cases. exists quorum, quorum, "qh". repeat (apply elem_of_cons in Hx as [->|Hx]; [done|]). by apply not_elem_of_nil in Hx. Qed.
Lemma start_intersecting : intersecting start.
Proof.
  apply (flat_intersecting three_quarters ["a"; "b"; "c"; "z"]); [|vm_compute; reflexivity].
  intros x d [Hx ->]%start_cases. repeat (apply elem_of_cons in Hx as [->|Hx]; [done|]). by apply not_elem_of_nil in Hx.
Qed.

Lemma agreement_witness :
  ∃ u, ∀ x d alive, net_nodes finish !! x = Some (d, alive) → d_externalizeChan d = [] ∨ d_externalizeChan d = [(5, u)].
Proof. exact (agreement 5 start finish start_new start_intersecting finish_reached). Defined.

(** The register in the run with the liar: empty at the start, and written with the liar's value at the end. *)
Lemma network_refines_register_witness :
  shows 5 (net_start start) None ∧ ∃ o, rtc decide_step None o ∧ shows 5 finish o ∧ o = Some (value "y").
Proof.
  destruct (network_refines_register 5 start start_new start_intersecting) as (H0 & _ & H). split; [exact H0|].
  destruct (H finish finish_reached) as (o & Ho & Hs). exists o. split; [exact Ho|]. split; [exact Hs|].
  assert ((λ p, d_externalizeChan p.1) <$> net_nodes finish !! "a" = Some [(5, value "y")]) as Ha by (vm_compute; reflexivity).
  destruct (net_nodes finish !! "a") as [[d b]|] eqn:Hd; [|discriminate Ha]. injection Ha as Ha.
  destruct (proj1 Hs "a" d b Hd) as [He|(u & -> & He)]; cbn [fst] in Ha; rewrite Ha in He; [discriminate He|]. by injection He as <-.
Defined.

End four_nodes.
