(* ===== verification/Future.v ===== *)
(** Request futures, [future/future.go]: the cell through which the node answers a request of the RPC server.

    A channel of capacity one is its buffer and whether it is closed; an operation that blocks has no result
    ([None]).  The futures of the requests are a cell with the fields of the request and of its answer.

    The specification is a write-once cell ([Module once]): the first answer is kept, and waiting for it gives
    that answer however often it is asked for.  [future_refines_once] is the refinement. *)

From S2P Require Import Prelude Pb Quorum Ballot.

(** * The cell *)

Record errChan := mkErrChan { ch_buf : list (option string); ch_closed : bool }.

(** [d_err] is the error, nil or not; [None] for [d_errChan] is the nil channel. *)
Record deferError := mkDeferError {
  fe_err : option string;
  fe_errChan : option errChan;
  fe_responded : bool;
}.

Definition zero_deferError : deferError := mkDeferError None None false.

Definition Init (d : deferError) : deferError := mkDeferError (fe_err d) (Some (mkErrChan [] false)) (fe_responded d).

(** Send on a channel of capacity one: it blocks on a full buffer and panics on a closed channel. *)
Definition chan_send (x : option string) (c : errChan) : option (res errChan) :=
  if ch_closed c then Some (Panic "send on closed channel")
  else if decide (1 <= length (ch_buf c))%nat then None
  else Some (Ok (mkErrChan (ch_buf c ++ [x]) false)).

Definition chan_close (c : errChan) : res errChan :=
  if ch_closed c then Panic "close of closed channel" else Ok (mkErrChan (ch_buf c) true).

(** Receive: a closed and drained channel gives the zero value, an open and empty one blocks. *)
Definition chan_recv (c : errChan) : option (errChan * option string) :=
  match ch_buf c with
  | x :: buf => Some (mkErrChan buf (ch_closed c), x)
  | [] => if ch_closed c then Some (c, None) else None
  end.

Definition Respond (err : option string) (d : deferError) : option (res deferError) :=
  match fe_errChan d with
  | None => Some (Ok d)
  | Some c =>
      if fe_responded d then Some (Ok d)
      else match chan_send err c with
      | None => None
      | Some r => Some (let? c := r in let? c := chan_close c in Ok (mkDeferError (fe_err d) (Some c) true))
      end
  end.

Definition Error (d : deferError) : option (res (deferError * option string)) :=
  match fe_err d with
  | Some e => Some (Ok (d, Some e))
  | None =>
      match fe_errChan d with
      | None => Some (Panic "waiting for response on nil channel")
      | Some c =>
          match chan_recv c with
          | None => None
          | Some (c, x) => Some (Ok (mkDeferError x (Some c) (fe_responded d), x))
          end
      end
  end.

(** * The futures *)

Module future.

Record Tx := mkTx { f_Tx_err : deferError; f_TxKey : string; f_Tx : Pb.Tx }.
Record Peer := mkPeer { f_Peer_err : deferError; f_Addr : string }.
Record Statement := mkStatement { f_Stmt_err : deferError; f_Stmt : Ballot.Statement }.
Record TxSet := mkTxSet { f_TxSet_err : deferError; f_TxSetHash : string; f_TxSet : option Pb.TxSet }.
Record Quorum := mkQuorum { f_Quorum_err : deferError; f_QuorumHash : string; f_Quorum : option Quorum.Quorum }.
Record Ledger := mkLedger { f_Ledger_err : deferError; f_LedgerSeq : string; f_Ledger : option Pb.Ledger }.
Record TxStatus := mkTxStatus { f_TxStatus_err : deferError; f_TxStatusKey : string; f_TxStatus : option Pb.TxStatus }.
Record Account := mkAccount { f_Account_err : deferError; f_AccountID : string; f_Account : option Pb.Account }.

End future.

(** * The specification *)

Inductive op := OpRespond (e : option string) | OpError.

(** The answer of a call: it returns (with the error that [Error] gives), panics, or blocks. *)
Inductive answer := Returned (e : option (option string)) | Panicked | Blocked.

Definition run_op (o : op) (d : deferError) : deferError * answer :=
  match o with
  | OpRespond e =>
      match Respond e d with
      | Some (Ok d) => (d, Returned None)
      | Some _ => (d, Panicked)
      | None => (d, Blocked)
      end
  | OpError =>
      match Error d with
      | Some (Ok (d, x)) => (d, Returned (Some x))
      | Some _ => (d, Panicked)
      | None => (d, Blocked)
      end
  end.

Fixpoint run_ops (os : list op) (d : deferError) : list answer :=
  match os with
  | [] => []
  | o :: os => let '(d, a) := run_op o d in a :: run_ops os d
  end.

Module once.

(** The first answer, if there is one. *)
Abbreviation cell := (option (option string)).

Definition run_op (o : op) (c : cell) : cell * answer :=
  match o, c with
  | OpRespond e, None => (Some e, Returned None)
  | OpRespond _, Some _ => (c, Returned None)
  | OpError, None => (c, Blocked)
  | OpError, Some x => (c, Returned (Some x))
  end.

Fixpoint run_ops (os : list op) (c : cell) : list answer :=
  match os with
  | [] => []
  | o :: os => let '(c, a) := run_op o c in a :: run_ops os c
  end.

End once.

(** A future and the cell it stands for: before the answer, with the answer in the channel, and after it was read. *)
Inductive stands_for : deferError → once.cell → Prop :=
| stands_waiting : stands_for (mkDeferError None (Some (mkErrChan [] false)) false) None
| stands_answered x : stands_for (mkDeferError None (Some (mkErrChan [x] true)) true) (Some x)
| stands_read x : stands_for (mkDeferError x (Some (mkErrChan [] true)) true) (Some x).

Lemma run_op_simulates o d c :
  stands_for d c →
  (run_op o d).2 = (once.run_op o c).2 ∧ stands_for (run_op o d).1 (once.run_op o c).1.
Proof. intros H. destruct o, H as [|x|[y|]]; simpl; eauto using stands_for. Qed.

(** * Properties *)

(** C21: a future is a write-once cell.  Whatever sequence of calls is made on an initialised future, every call
    answers as on a cell that keeps the first response: later responses have no effect, [Error] blocks before the
    first one and afterwards gives it every time, and nothing panics or sends twice. *)
Theorem future_refines_once (os : list op) : run_ops os (Init zero_deferError) = once.run_ops os None.
Proof.
  generalize (stands_waiting : stands_for (Init zero_deferError) None).
  generalize (Init zero_deferError), (@None (option string)).
  induction os as [|o os IH]; intros d c Hd; [done|]. simpl.
  destruct (run_op_simulates o d c Hd) as [Ha Hs].
  destruct (run_op o d) as [d' a], (once.run_op o c) as [c' a']. simpl in *. f_equal; auto.
Qed.

(** The node answers, then the server reads the answer. *)
Lemma respond_then_Error e :
  ∃ d, Respond e (Init zero_deferError) = Some (Ok d) ∧ ∃ d', Error d = Some (Ok (d', e)).
Proof. eexists. split; [done|]. by eexists. Qed.
