(* ===== verification/Validator.v ===== *)
(** The validator of statements, [consensus/validator.go]: it holds a statement back until its quorum and
    its transaction sets are known, asks for what is missing, and hands statements to the engine in
    the order of the ledger.

    The goroutines [download], [monitor] and [dispatch] are one definition per case of their select;
    a channel is the list of what is on it.  The validator works on the database of the ledger
    manager.  With the ledger manager it discharges the interface [DecreeEnv] of a decree. *)

From S2P Require Import Prelude Lru Pb Db Crypto TxManager Ledger Quorum Ballot Federated Decree.

Definition validator_bucket : string := "VALIDATOR".
Definition quorum_cache_size : nat := 1000.

Record Validator {D : Type} := mkValidator {
  v_lm : LedgerManager D;
  v_maxDecrees : Z;
  v_downloads : gmap string Statement;
  v_decreeStmts : gmap Z (list Statement);
  v_maxSeqNum : Z;
  v_statements : gset string;
  v_quorumCache : lru Quorum;
  v_quorumDownloadChan : list string;
  v_txsetDownloadChan : list string;
  v_readyChan : list Statement;
  v_dispatchChan : list Statement;
  v_downloadChan : list Statement;
}.
Arguments Validator D : clear implicits.

(** * What a statement needs *)

Definition extractQuorumHash (stmt : Statement) : res string :=
  match s_Type stmt with
  | StatementType_NOMINATE => let? nom := GetNominate stmt in Ok (nom_QuorumHash nom)
  | StatementType_PREPARE => let? p := GetPrepare stmt in Ok (prep_QuorumHash p)
  | StatementType_CONFIRM => let? c := GetConfirm stmt in Ok (conf_QuorumHash c)
  | StatementType_EXTERNALIZE => let? e := GetExternalize stmt in Ok (ext_QuorumHash e)
  | StatementType_other _ => unknown_type
  end.

(** The removal of the statements of an old index: the index is computed anew in every round. *)
Fixpoint remove_old (fuel : nat) (nextSeqNum maxDecrees : Z) (stmts : gmap Z (list Statement)) : res (gmap Z (list Statement)) :=
  match fuel with
  | O => NoFuel
  | S fuel =>
      if decide (nextSeqNum <= maxDecrees) then Ok stmts
      else
        let index := nextSeqNum - maxDecrees in
        match stmts !! index with
        | Some _ => remove_old fuel nextSeqNum maxDecrees (delete index stmts)
        | None => Ok stmts
        end
  end.

Section validator.
Context {D T : Type} {StoreD : Store D} {StoreT : Store T} {TxDb : TxDatabase D T}.
Context {Pbc : PbCodec} {GoRt : GoRuntime} {Crypto : CryptoLib}.
(** The codecs of the messages of the consensus. *)
Context {QuorumCodec : Codec Quorum} {StatementCodec : Codec Statement}.
Implicit Types v : Validator D.

Definition value_txset (val : string) : res string :=
  match b58_Decode val with
  | None => Err "decode hex string failed: "
  | Some b => let? cv := res_wrap "decode consensus value failed: " (decode_res b) in Ok (cv_TxSetHash cv)
  end.

Definition extractTxSetHash (stmt : Statement) : res (list string) :=
  match s_Type stmt with
  | StatementType_NOMINATE =>
      let? nom := GetNominate stmt in
      res_map value_txset (nom_VoteList nom ++ nom_AcceptList nom)
  | StatementType_PREPARE | StatementType_CONFIRM | StatementType_EXTERNALIZE =>
      let? wb := getWorkingBallot stmt in
      let? ballot := deref wb in
      let? h := value_txset (b_Value ballot) in
      Ok [h]
  | StatementType_other _ => Err "unknown statement type"
  end.

(** * State *)

Definition set_v_lm (lm : LedgerManager D) v : Validator D :=
  mkValidator D lm (v_maxDecrees v) (v_downloads v) (v_decreeStmts v) (v_maxSeqNum v) (v_statements v) (v_quorumCache v)
    (v_quorumDownloadChan v) (v_txsetDownloadChan v) (v_readyChan v) (v_dispatchChan v) (v_downloadChan v).
Definition set_quorumCache (c : lru Quorum) v : Validator D :=
  mkValidator D (v_lm v) (v_maxDecrees v) (v_downloads v) (v_decreeStmts v) (v_maxSeqNum v) (v_statements v) c
    (v_quorumDownloadChan v) (v_txsetDownloadChan v) (v_readyChan v) (v_dispatchChan v) (v_downloadChan v).
(** The statements on their way. *)
Definition set_queues (downloads : gmap string Statement) (seen : gset string) (dispatch download : list Statement) v
    : Validator D :=
  mkValidator D (v_lm v) (v_maxDecrees v) downloads (v_decreeStmts v) (v_maxSeqNum v) seen (v_quorumCache v)
    (v_quorumDownloadChan v) (v_txsetDownloadChan v) (v_readyChan v) dispatch download.
(** The statements that wait for their ledger, and those handed over. *)
Definition set_waiting (stmts : gmap Z (list Statement)) (maxSeq : Z) (ready : list Statement) v : Validator D :=
  mkValidator D (v_lm v) (v_maxDecrees v) (v_downloads v) stmts maxSeq (v_statements v) (v_quorumCache v)
    (v_quorumDownloadChan v) (v_txsetDownloadChan v) ready (v_dispatchChan v) (v_downloadChan v).
(** The requests for quorums and transaction sets. *)
Definition set_requests (qs ts : list string) v : Validator D :=
  mkValidator D (v_lm v) (v_maxDecrees v) (v_downloads v) (v_decreeStmts v) (v_maxSeqNum v) (v_statements v) (v_quorumCache v)
    qs ts (v_readyChan v) (v_dispatchChan v) (v_downloadChan v).

Definition NewValidator (lm : LedgerManager D) (maxDecrees : Z) : Validator D :=
  mkValidator D lm maxDecrees ∅ ∅ 0 ∅ [] [] [] [] [] [].

Definition on_lm {A} (m : M (LedgerManager D) A) : M (Validator D) A := λ v,
  let '(lm, r) := m (v_lm v) in (set_v_lm lm v, r).

(** * Quorums and transaction sets *)

Definition RecvQuorum (quorumHash : string) (quorum : option Quorum) : M (Validator D) unit :=
  let! q := lift (deref quorum) in
  do! lift (ValidateQuorum false 0 q) in
  let! qb := wrap "encode quorum failed: " (lift (encode_res q)) in
  do! wrap "save quorum to db failed: " (on_lm (ledger_db (db_Put validator_bucket quorumHash qb))) in
  modify (λ v, set_quorumCache (lru_AddN quorum_cache_size quorumHash q (v_quorumCache v)) v).

Definition GetQuorum (quorumHash : string) : M (Validator D) (option Quorum) :=
  let! v := get in
  let '(c, o) := lru_Get quorumHash (v_quorumCache v) in
  do! put (set_quorumCache c v) in
  match o with
  | Some q => ret (Some q)
  | None =>
      let! qb := wrap "get quorum from db failed: " (on_lm (ledger_db (db_Get validator_bucket quorumHash))) in
      match qb with
      | None => ret None
      | Some qb =>
          let! quorum := wrap "decode quorum failed: " (lift (decode_res qb)) in
          do! modify (λ v, set_quorumCache (lru_AddN quorum_cache_size quorumHash quorum (v_quorumCache v)) v) in
          ret (Some quorum)
      end
  end.

Definition RecvTxSet (txsetHash : string) (txset : TxSet) : M (Validator D) unit := on_lm (AddTxSet txsetHash txset).
Definition Validator_GetTxSet (txsetHash : string) : M (Validator D) (option TxSet) := on_lm (GetTxSet txsetHash).

(** * Validation *)

Fixpoint have_txsets (hashes : list string) : M (Validator D) bool :=
  match hashes with
  | [] => ret true
  | h :: hashes =>
      let! txset := wrap "query txset failed: " (on_lm (GetTxSet h)) in
      match txset with
      | None => ret false
      | Some _ => have_txsets hashes
      end
  end.

Definition validate (stmt : Statement) : M (Validator D) bool :=
  let! quorumHash := wrap "extract quorum hash from statement failed: " (lift (extractQuorumHash stmt)) in
  let! quorum := wrap "query quorum failed: " (GetQuorum quorumHash) in
  match quorum with
  | None => ret false
  | Some _ =>
      let! hashes := wrap "extract tx list hash from statement failed: " (lift (extractTxSetHash stmt)) in
      have_txsets hashes
  end.

Definition Validator_Recv (stmt : option Statement) : M (Validator D) unit :=
  match stmt with
  | None => ret tt
  | Some stmt =>
      let! b := wrap "compute statement hash failed: " (lift (encode_res stmt)) in
      let hash := SHA256Hash b in
      let! v := get in
      if decide (hash ∈ v_statements v) then ret tt
      else
        do! modify (λ v, set_queues (v_downloads v) ({[hash]} ∪ v_statements v) (v_dispatchChan v) (v_downloadChan v) v) in
        let! valid := wrap "validate statement failed: " (validate stmt) in
        if valid : bool then
          modify (λ v, set_queues (v_downloads v) (v_statements v) (v_dispatchChan v ++ [stmt]) (v_downloadChan v) v)
        else
          modify (λ v, set_queues (<[hash := stmt]> (v_downloads v)) (v_statements v) (v_dispatchChan v) (v_downloadChan v ++ [stmt]) v)
  end.

(** * The goroutines *)

(** [monitor]: statements whose download is complete go to the dispatcher. *)
Definition monitor_tick : M (Validator D) unit :=
  let! v := get in
  mfor (go_range (v_downloads v)) (λ '(h, stmt),
    let! valid := try (validate stmt) in
    match valid with
    | inr true =>
        modify (λ v, set_queues (delete h (v_downloads v)) (v_statements v) (v_dispatchChan v ++ [stmt]) (v_downloadChan v) v)
    | _ => ret tt
    end).

(** [dispatch] on a statement. *)
Definition dispatch_stmt : M (Validator D) unit :=
  let! v := get in
  match v_dispatchChan v with
  | [] => ret tt
  | stmt :: rest =>
      do! modify (set_queues (v_downloads v) (v_statements v) rest (v_downloadChan v)) in
      if decide (s_Index stmt = NextLedgerHeaderSeq (v_lm v))
      then modify (λ v, set_waiting (v_decreeStmts v) (v_maxSeqNum v) (v_readyChan v ++ [stmt]) v)
      else modify (λ v, set_waiting (<[s_Index stmt := default [] (v_decreeStmts v !! s_Index stmt) ++ [stmt]]> (v_decreeStmts v))
                          (Z.max (v_maxSeqNum v) (s_Index stmt)) (v_readyChan v) v)
  end.

(** One index of the loop of the tick. *)
Definition release (i : Z) : M (Validator D) unit :=
  modify (λ v,
    match v_decreeStmts v !! i with
    | None | Some [] => v
    | Some stmts => set_waiting (<[i := []]> (v_decreeStmts v)) (v_maxSeqNum v) (v_readyChan v ++ stmts) v
    end).

(** The loop of the tick: every index up to the largest one received.  The increment wraps around. *)
Fixpoint release_from (fuel : nat) (i maxSeqNum : Z) : M (Validator D) unit :=
  match fuel with
  | O => lift NoFuel
  | S fuel =>
      if decide (maxSeqNum < i) then ret tt
      else do! release i in release_from fuel (uwrap64 (i + 1)) maxSeqNum
  end.

(** [dispatch] on a tick. *)
Definition dispatch_tick (fuel : nat) : M (Validator D) unit :=
  let! v := get in
  let nextSeqNum := NextLedgerHeaderSeq (v_lm v) in
  do! release_from fuel nextSeqNum (v_maxSeqNum v) in
  let! v := get in
  let! stmts := lift (remove_old 2 nextSeqNum (v_maxDecrees v) (v_decreeStmts v)) in
  modify (set_waiting stmts (v_maxSeqNum v) (v_readyChan v)).

(** [download]: ask for what is missing.  Errors count as missing. *)
Definition download_stmt : M (Validator D) unit :=
  let! v := get in
  match v_downloadChan v with
  | [] => ret tt
  | stmt :: rest =>
      do! modify (set_queues (v_downloads v) (v_statements v) (v_dispatchChan v) rest) in
      let! quorumHash := try (lift (extractQuorumHash stmt)) in
      let quorumHash := match quorumHash with inr h => h | inl _ => "" end in
      let! quorum := try (GetQuorum quorumHash) in
      do! match quorum with
          | inr (Some _) => ret tt
          | _ => modify (λ v, set_requests (v_quorumDownloadChan v ++ [quorumHash]) (v_txsetDownloadChan v) v)
          end in
      let! hashes := try (lift (extractTxSetHash stmt)) in
      mfor (match hashes with inr l => l | inl _ => [] end) (λ h,
        let! txset := try (on_lm (GetTxSet h)) in
        match txset with
        | inr (Some _) => ret tt
        | _ => modify (λ v, set_requests (v_quorumDownloadChan v) (v_txsetDownloadChan v ++ [h]) v)
        end)
  end.

(** * The interface of a decree

    The reads answer without their effect on the caches. *)
#[global] Instance Validator_DecreeEnv : DecreeEnv (Validator D) := {|
  env_GetQuorum v h := (GetQuorum h v).2;
  env_GetTxSet v h := (Validator_GetTxSet h v).2;
  env_RecvTxSet := RecvTxSet;
  lm_LedgerSynced v := LedgerSynced (v_lm v);
  lm_NextLedgerHeaderSeq v := NextLedgerHeaderSeq (v_lm v);
  lm_CurrLedgerHeader v := CurrLedgerHeader (v_lm v);
  lm_CurrLedgerHeaderHash v := CurrLedgerHeaderHash (v_lm v);
  lm_GetTxSet v h := (GetTxSet h (v_lm v)).2;
|}.

End validator.

(** * What is known *)

Lemma remove_old_run next maxD m :
  remove_old 2 next maxD m = Ok (if decide (next <= maxD) then m else delete (next - maxD) m).
Proof.
  simpl. case_decide; [done|]. destruct (m !! (next - maxD)) eqn:E; [|by rewrite delete_id].
  by rewrite lookup_delete_eq.
Qed.

Section known.
Context {D T : Type} {StoreD : Store D} {LawsD : StoreLaws D} {StoreT : Store T} {TxDb : TxDatabase D T}.
Context {Pbc : PbCodec} {GoRt : GoRuntime} {Crypto : CryptoLib}.
Context {QuorumCodec : Codec Quorum} {StatementCodec : Codec Statement}.
Implicit Types v : Validator D.

Definition vdb v : D := tm_database (lm_tm (v_lm v)).
(** The quorum and the transaction set of a hash in the database. *)
Definition quorum_at v (h : string) : option Quorum := db_view (vdb v) validator_bucket h ≫= Decode.
Definition txset_at v (h : string) : option TxSet := db_view (vdb v) txset_bucket h ≫= Decode.

(** The database is open and the caches agree with it. *)
Definition vok v : Prop :=
  db_ok (vdb v) ∧ db_bucket (vdb v) validator_bucket ∧ db_bucket (vdb v) txset_bucket ∧
  (∀ k q, lru_find k (v_quorumCache v) = Some q → quorum_at v k = Some q) ∧
  (∀ k t, lru_find k (lm_txsetCache (v_lm v)) = Some t → txset_at v k = Some t).

Definition queues v :=
  (v_dispatchChan v, v_readyChan v, v_decreeStmts v).

(** A read touches caches and requests only. *)
Definition reads v v' : Prop := vok v → vok v' ∧ vdb v' = vdb v ∧ queues v' = queues v.
#[global] Instance reads_preorder : PreOrder reads.
Proof.
  split; [by intros v H|]. intros a b c H1 H2 H. destruct (H1 H) as (Hb & ? & ?). destruct (H2 Hb) as (? & ? & ?).
  split_and!; congruence.
Qed.

(** What a lookup answers for the bytes in the database. *)
Definition read_result {A} `{!Codec A} (p : string) (o : option string) : res (option A) :=
  match o with
  | None => Ok None
  | Some b => res_wrap p (let? a := decode_res b in Ok (Some a))
  end.

Lemma read_result_Some {A} `{!Codec A} p o (a : A) : read_result p o = Ok (Some a) ↔ o ≫= Decode = Some a.
Proof.
  unfold read_result, decode_res. destruct o as [b|]; simpl; [|by split].
  destruct (Decode b); simpl; split; intros; by simplify_eq.
Qed.

(** Changing the quorum cache of a good state. *)
Lemma vok_quorumCache v c :
  vok v → (∀ k q, lru_find k c = Some q → quorum_at v k = Some q) → vok (set_quorumCache c v).
Proof. by intros (?&?&?&?&?) ?. Qed.

Lemma GetQuorum_read v h : vok v → reads v (GetQuorum h v).1 ∧ (GetQuorum h v).2 = read_result "decode quorum failed: " (db_view (vdb v) validator_bucket h).
Proof.
  intros Hv. pose proof Hv as (Hok & Hb & Hbt & Hqc & Htc). unfold GetQuorum.
  rewrite (bind_eq_Ok _ _ _ v v) by done.
  destruct (lru_find_Get h (v_quorumCache v) h) as [_ Hres].
  pose proof (λ k, proj1 (lru_find_Get h (v_quorumCache v) k)) as Hsame.
  destruct (lru_Get h (v_quorumCache v)) as [c o]. simpl in Hres, Hsame.
  rewrite (bind_eq_Ok _ _ _ (set_quorumCache c v) tt) by done.
  assert (vok (set_quorumCache c v)) as Hv1.
  { apply vok_quorumCache; [done|]. intros k q Hf. rewrite Hsame in Hf. by apply Hqc. }
  destruct o as [q|]; simpl.
  { split; [by intros _|]. symmetry. by apply read_result_Some, Hqc. }
  unfold bind, wrap, on_lm, ledger_db, on_tm, on_db. simpl.
  change (tm_database (lm_tm (v_lm v))) with (vdb v). rewrite (Get_spec (vdb v)) by done. simpl.
  destruct (db_view (vdb v) validator_bucket h) as [b|] eqn:Hdb; simpl.
  2:{ done. }
  unfold decode_res, lift. destruct (Decode b) as [q|] eqn:Hdec; simpl.
  2:{ done. }
  split; [|done]. intros _. split; [|done]. apply vok_quorumCache; [by destruct Hv1 as (?&?&?&?&?)|].
  intros k q' Hf. simpl in Hf. unfold quorum_cache_size in Hf. unfold quorum_at, vdb. simpl. change (tm_database (lm_tm (v_lm v))) with (vdb v).
  destruct (decide (k = h)) as [->|Hne].
  - rewrite (proj1 (lru_find_AddN 999 h q c "")) in Hf. simplify_eq. by rewrite Hdb.
  - apply (lru_find_AddN 999 h q c k) in Hf; [|done]. rewrite Hsame in Hf. by apply Hqc.
Qed.

(** The same for the transaction sets of the ledger manager. *)
Lemma vok_txsetCache v hc c :
  vok v → (∀ k t, lru_find k c = Some t → txset_at v k = Some t) → vok (set_v_lm (set_caches hc c (v_lm v)) v).
Proof. by intros (?&?&?&?&?) ?. Qed.

Lemma GetTxSet_read v h : vok v → reads v (Validator_GetTxSet h v).1 ∧ (Validator_GetTxSet h v).2 = read_result "decode txset failed: " (db_view (vdb v) txset_bucket h).
Proof.
  intros Hv. pose proof Hv as (Hok & Hb & Hbt & Hqc & Htc). unfold Validator_GetTxSet, on_lm, GetTxSet.
  rewrite (bind_eq_Ok _ _ _ (v_lm v) (v_lm v)) by done.
  destruct (lru_find_Get h (lm_txsetCache (v_lm v)) h) as [_ Hres].
  pose proof (λ k, proj1 (lru_find_Get h (lm_txsetCache (v_lm v)) k)) as Hsame.
  destruct (lru_Get h (lm_txsetCache (v_lm v))) as [c o]. simpl in Hres, Hsame.
  rewrite (bind_eq_Ok _ _ _ (set_caches (lm_headers (v_lm v)) c (v_lm v)) tt) by done.
  assert (vok (set_v_lm (set_caches (lm_headers (v_lm v)) c (v_lm v)) v)) as Hv1.
  { apply vok_txsetCache; [done|]. intros k t Hf. rewrite Hsame in Hf. by apply Htc. }
  destruct o as [t|]; simpl.
  { split; [by intros _|]. symmetry. by apply read_result_Some, Htc. }
  unfold bind, wrap, ledger_db, on_tm, on_db. simpl.
  change (tm_database (lm_tm (v_lm v))) with (vdb v). rewrite (Get_spec (vdb v)) by done. simpl.
  destruct (db_view (vdb v) txset_bucket h) as [b|] eqn:Hdb; simpl.
  2:{ split; [|done]. intros _. split; [|done]. by destruct Hv1 as (?&?&?&?&?). }
  unfold decode_res, lift. destruct (Decode b) as [t|] eqn:Hdec; simpl.
  2:{ split; [|done]. intros _. split; [|done]. by destruct Hv1 as (?&?&?&?&?). }
  split; [|done]. intros _. split; [|done].
  destruct Hv1 as (?&?&?&?&_). split; [done|]. split; [done|]. split; [done|]. split; [done|].
  intros k t' Hf. simpl in Hf. unfold txset_at, vdb. simpl. change (tm_database (lm_tm (v_lm v))) with (vdb v).
  destruct (decide (k = h)) as [->|Hne].
  - rewrite (proj1 (lru_find_Add h t c "")) in Hf. simplify_eq. by rewrite Hdb.
  - apply (lru_find_Add h t c k) in Hf; [|done]. rewrite Hsame in Hf. by apply Htc.
Qed.

(** A preserved relation of programs that start from a good state. *)
Lemma reads_GetQuorum h : preserves reads (GetQuorum h).
Proof. intros v Hv. by apply (GetQuorum_read v h). Qed.
Lemma reads_GetTxSet h : preserves reads (Validator_GetTxSet h).
Proof. intros v Hv. by apply (GetTxSet_read v h). Qed.
#[local] Hint Resolve reads_GetQuorum reads_GetTxSet : go_preserves.
Lemma reads_have_txsets hs : preserves reads (have_txsets hs).
Proof. induction hs; simpl; pres reads. Qed.
#[local] Hint Resolve reads_have_txsets : go_preserves.
Lemma reads_validate s : preserves reads (validate s).
Proof. unfold validate. pres reads. Qed.

(** ** Complete statements *)

Definition complete v (s : Statement) : Prop :=
  ∃ qh hs, extractQuorumHash s = Ok qh ∧ extractTxSetHash s = Ok hs ∧ is_Some (quorum_at v qh) ∧
    Forall (λ h, is_Some (txset_at v h)) hs.

Lemma complete_db v v' s : vdb v' = vdb v → complete v s → complete v' s.
Proof. unfold complete, quorum_at, txset_at. by intros ->. Qed.

Lemma have_txsets_true hs v : vok v → (have_txsets hs v).2 = Ok true → Forall (λ h, is_Some (txset_at v h)) hs.
Proof.
  revert v. induction hs as [|h hs IH]; intros v Hv H; [done|]. simpl in H.
  destruct (GetTxSet_read v h Hv) as [Hr Ha]. destruct (Hr Hv) as (Hv1 & Hdb & _).
  unfold bind, wrap in H. fold (Validator_GetTxSet (D:=D) h) in H.
  destruct (Validator_GetTxSet h v) as [v1 r]. simpl in *.
  destruct r as [[t|]|?|?|]; simplify_eq/=. constructor.
  - symmetry in Ha. apply read_result_Some in Ha. eauto.
  - apply IH in H; [|done]. eapply Forall_impl; [done|]. intros k. unfold txset_at. by rewrite Hdb.
Qed.

Lemma validate_complete v s : vok v → (validate s v).2 = Ok true → complete v s.
Proof.
  intros Hv H. unfold validate, bind at 1, wrap at 1, lift at 1 in H.
  destruct (extractQuorumHash s) as [qh|?|?|] eqn:Hq; simplify_eq/=.
  destruct (GetQuorum_read v qh Hv) as [Hr Ha]. destruct (Hr Hv) as (Hv1 & Hdb & _).
  unfold bind at 1, wrap at 1 in H. destruct (GetQuorum qh v) as [v1 r]. simpl in *.
  destruct r as [[q|]|?|?|]; simplify_eq/=.
  unfold bind at 1, wrap at 1, lift at 1 in H.
  destruct (extractTxSetHash s) as [hs|?|?|] eqn:Hh; simplify_eq/=.
  apply have_txsets_true in H; [|done]. exists qh, hs. split_and!; try done.
  - symmetry in Ha. apply read_result_Some in Ha. eauto.
  - eapply Forall_impl; [done|]. intros k. unfold txset_at. by rewrite Hdb.
Qed.

(** ** The invariant: every statement on its way is complete *)

Definition in_flight v (s : Statement) : Prop :=
  s ∈ v_dispatchChan v ∨ s ∈ v_readyChan v ∨ ∃ i l, v_decreeStmts v !! i = Some l ∧ s ∈ l.
Definition vinv v : Prop := vok v ∧ ∀ s, in_flight v s → complete v s.
Definition keepsv v v' : Prop := vinv v → vinv v'.
#[global] Instance keepsv_preorder : PreOrder keepsv.
Proof. split; [by intros v H|]. intros a b c H1 H2 H. by apply H2, H1. Qed.

Lemma reads_keepsv v v' : reads v v' → keepsv v v'.
Proof.
  intros Hr [Hv Hf]. destruct (Hr Hv) as (Hv' & Hdb & Hq). split; [done|]. unfold queues in Hq. injection Hq as H1 H2 H3.
  intros s Hs. apply (complete_db v); [done|]. apply Hf. unfold in_flight in *. by rewrite <- H1, <- H2, <- H3.
Qed.
Lemma preserves_reads {A} (m : M (Validator D) A) : preserves reads m → preserves keepsv m.
Proof. intros H v. apply reads_keepsv, H. Qed.

(** A step on the queues that brings in only complete statements. *)
Lemma vinv_queues v v' :
  vinv v → (vok v → vok v') → vdb v' = vdb v → (∀ s, in_flight v' s → in_flight v s ∨ complete v s) → vinv v'.
Proof.
  intros [Hv Hf] Hok Hdb Hs. split; [auto|]. intros s Hin. apply (complete_db v); [done|].
  destruct (Hs s Hin); auto.
Qed.

Lemma keepsv_modify (f : Validator D → Validator D) :
  (∀ v, (vok v → vok (f v)) ∧ vdb (f v) = vdb v ∧ ∀ s, in_flight (f v) s → in_flight v s) → preserves keepsv (modify f).
Proof. intros Hf v Hv. destruct (Hf v) as (H1 & H2 & H3). apply (vinv_queues v); auto. Qed.

Lemma push_dispatch v s downloads seen download :
  vinv v → complete v s → vinv (set_queues downloads seen (v_dispatchChan v ++ [s]) download v).
Proof.
  intros Hv Hs. apply (vinv_queues v); try done. intros s' [H|H].
  - apply elem_of_app in H as [H|H]; [by left; left|]. apply list_elem_of_singleton in H as ->. by right.
  - left. by right.
Qed.

(** What follows a validation may rely on it. *)
Lemma validate_run v s : vinv v →
  vinv (validate s v).1 ∧ ((validate s v).2 = Ok true → complete (validate s v).1 s).
Proof.
  intros Hv. pose proof (reads_validate s v) as Hr. split; [by apply (reads_keepsv _ _ Hr)|].
  intros Ht. destruct Hv as [Hok _]. apply (complete_db v); [by apply Hr|by apply validate_complete].
Qed.

Lemma keepsv_Recv s : preserves keepsv (Validator_Recv s).
Proof.
  destruct s as [s|]; [|apply (preserves_ret keepsv)]. unfold Validator_Recv.
  apply (preserves_bind keepsv); [apply (preserves_wrap keepsv), (preserves_lift keepsv)|intros b]. cbv zeta.
  apply (preserves_bind keepsv); [apply (preserves_get keepsv)|intros v0].
  case_decide; [apply (preserves_ret keepsv)|].
  apply (preserves_bind keepsv); [by apply keepsv_modify|intros _].
  intros v Hv. destruct (validate_run v s Hv) as [Hv' Hc]. unfold bind, wrap.
  destruct (validate s v) as [v' [[]|?|?|]]; simpl in *; try done.
  apply push_dispatch; auto.
Qed.

Lemma keepsv_monitor : preserves keepsv monitor_tick.
Proof.
  unfold monitor_tick. apply (preserves_bind keepsv); [apply (preserves_get keepsv)|intros v0].
  apply (preserves_mfor keepsv). intros [h s] v Hv. destruct (validate_run v s Hv) as [Hv' Hc]. unfold bind, try.
  destruct (validate s v) as [v' [[]|?|?|]]; simpl in *; try done.
  apply push_dispatch; auto.
Qed.

Lemma keepsv_dispatch_stmt : preserves keepsv dispatch_stmt.
Proof.
  intros v Hv. unfold dispatch_stmt, bind, get, modify. simpl.
  destruct (v_dispatchChan v) as [|s rest] eqn:Hd; [done|]. simpl.
  case_decide as Hi; simpl; apply (vinv_queues v); try done; intros s'; unfold in_flight; simpl; rewrite Hd.
  - rewrite elem_of_app, list_elem_of_singleton. intros [H|[[H| ->]|H]]; left; [left; by right|right; by left|left; by left|by right; right].
  - intros [H|[H|(i & l & Hl & H)]]; left; [left; by right|right; by left|].
    destruct (decide (i = s_Index s)) as [->|Hne].
    + rewrite lookup_insert_eq in Hl. simplify_eq. apply elem_of_app in H as [H|H]; [|apply list_elem_of_singleton in H as ->; left; by left].
      destruct (v_decreeStmts v !! s_Index s) as [l0|] eqn:Hl0; [|by apply not_elem_of_nil in H]. right; right. eauto.
    + rewrite lookup_insert_ne in Hl by done. right; right. eauto.
Qed.

Lemma keepsv_release i : preserves keepsv (release i).
Proof.
  apply keepsv_modify. intros v. destruct (v_decreeStmts v !! i) as [[|s l]|] eqn:Hi; try done.
  split_and!; [done..|]. intros s'. unfold in_flight. simpl. rewrite elem_of_app.
  intros [H|[[H|H]|(j & l' & Hl & H)]]; [by left|by right; left|right; right; eauto|].
  destruct (decide (j = i)) as [->|Hne].
  - rewrite lookup_insert_eq in Hl. simplify_eq. by apply not_elem_of_nil in H.
  - rewrite lookup_insert_ne in Hl by done. right; right; eauto.
Qed.

Lemma preserves_release_from (R : Validator D → Validator D → Prop) {R_pre : PreOrder R} n i x :
  (∀ i, preserves R (release i)) → preserves R (release_from n i x).
Proof. intros HR. revert i. induction n as [|n IH]; intros i; simpl; [apply (preserves_lift R)|]. case_decide; pres R; apply HR. Qed.

Lemma keepsv_dispatch_tick n : preserves keepsv (dispatch_tick n).
Proof.
  unfold dispatch_tick. apply (preserves_bind keepsv); [apply (preserves_get keepsv)|intros v0]. cbv zeta.
  apply (preserves_bind keepsv); [apply preserves_release_from, keepsv_release; apply _|intros _].
  intros v Hv. rewrite (bind_eq_Ok _ _ _ v v) by done. unfold bind, lift. rewrite remove_old_run. simpl.
  apply (vinv_queues v); try done. intros s [H|[H|(j & l & Hl & H)]]; left; [by left|by right; left|].
  right; right. exists j, l. split; [|done]. simpl in Hl. case_decide; [done|]. by apply lookup_delete_Some in Hl as [_ ?].
Qed.

Lemma reads_requests f g : preserves reads (modify (λ v, set_requests (f v) (g v) v)).
Proof. by intros v Hv. Qed.

Lemma keepsv_download : preserves keepsv download_stmt.
Proof.
  intros v Hv. unfold download_stmt. rewrite (bind_eq_Ok _ _ _ v v) by done.
  destruct (v_downloadChan v) as [|s rest]; [done|].
  set (v1 := set_queues (v_downloads v) (v_statements v) (v_dispatchChan v) rest v).
  rewrite (bind_eq_Ok _ _ _ v1 tt) by done.
  assert (vinv v1) as Hv1 by (by apply (vinv_queues v); try done; left).
  refine (preserves_reads _ _ v1 Hv1). pres reads; try apply reads_GetQuorum; try apply reads_requests.
  apply (preserves_mfor reads). intros h. pres reads; first [apply reads_requests|apply reads_GetTxSet].
Qed.

(** Writing a value under a hash: what was known stays known. *)
Lemma vinv_write v d' b k x :
  db_Put b k x (vdb v) = (d', Ok tt) → vok v → db_bucket (vdb v) b →
  db_ok d' ∧ (∀ b', db_bucket (vdb v) b' → db_bucket d' b') ∧
  ∀ b' k', db_bucket (vdb v) b' → db_view d' b' k' = if decide (b' = b ∧ k' = k) then Some x else db_view (vdb v) b' k'.
Proof.
  intros Hp (Hok & _) Hb. destruct (Put_spec _ _ _ _ _ _ Hok Hb Hp) as [(_ & H1 & H2 & H3)|(e & ? & _)]; [|done].
  split_and!; done.
Qed.

(** The state after such a write: same queues, and at least what was known is known. *)
Lemma vinv_known v v' :
  vinv v → vok v' → queues v' = queues v →
  (∀ k, is_Some (quorum_at v k) → is_Some (quorum_at v' k)) → (∀ k, is_Some (txset_at v k) → is_Some (txset_at v' k)) →
  vinv v'.
Proof.
  intros [Hv Hf] Hv' Hq H1 H2. split; [done|]. unfold queues in Hq. injection Hq as Q1 Q2 Q3.
  intros s Hs. assert (complete v s) as (qh & hs & ? & ? & ? & ?).
  { apply Hf. unfold in_flight in *. by rewrite <- Q1, <- Q2, <- Q3. }
  exists qh, hs. split_and!; auto. eapply Forall_impl; [done|]. simpl. auto.
Qed.

Lemma keepsv_RecvQuorum h q : preserves keepsv (RecvQuorum h q).
Proof.
  unfold RecvQuorum. apply (preserves_bind keepsv); [apply (preserves_lift keepsv)|intros q'].
  apply (preserves_bind keepsv); [apply (preserves_lift keepsv)|intros _].
  intros v Hv. destruct (encode_res q') as [qb|?|?|] eqn:He; unfold bind, wrap, lift; simpl; try done.
  apply encode_res_Ok in He. unfold on_lm, ledger_db, on_tm, on_db. change (tm_database (lm_tm (v_lm v))) with (vdb v).
  pose proof Hv as [Hok _]. pose proof Hok as (Hdb & Hb & Hbt & Hqc & Htc).
  destruct (db_Put validator_bucket h qb (vdb v)) as [d' r] eqn:Hp.
  destruct (Put_spec _ _ _ _ _ _ Hdb Hb Hp) as [(-> & Hd' & Hb' & Hview)|(e & -> & ->)]; simpl.
  2:{ by apply (vinv_queues v); try done; left. }
  assert (∀ k, db_view d' validator_bucket k = if decide (k = h) then Some qb else db_view (vdb v) validator_bucket k) as Hq.
  { intros k. rewrite (Hview validator_bucket k Hb). unfold view_put. repeat case_decide; naive_solver. }
  assert (∀ k, db_view d' txset_bucket k = db_view (vdb v) txset_bucket k) as Ht.
  { intros k. rewrite (Hview txset_bucket k Hbt). unfold view_put. rewrite decide_False; [done|]. by intros [? _]. }
  apply (vinv_known v); try done.
  - split_and!; try by auto.
    + intros k q0 Hf. simpl in Hf. unfold quorum_cache_size in Hf. unfold quorum_at, vdb. simpl. rewrite Hq.
      case_decide as Hk; [subst k|].
      * rewrite (proj1 (lru_find_AddN 999 h q' _ "")) in Hf. simplify_eq. simpl. by apply Decode_Encode.
      * apply (lru_find_AddN 999 h q' _ k) in Hf; [|done]. by apply Hqc.
    + intros k t Hf. unfold txset_at, vdb. simpl. rewrite Ht. by apply Htc.
  - intros k Hk. unfold quorum_at, vdb. simpl. rewrite Hq. case_decide; [|done]. simpl. rewrite (Decode_Encode _ _ He). eauto.
  - intros k Hk. unfold txset_at, vdb. simpl. by rewrite Ht.
Qed.

Lemma keepsv_RecvTxSet h t : preserves keepsv (RecvTxSet h t).
Proof.
  intros v Hv. unfold RecvTxSet, on_lm, AddTxSet, bind, wrap, lift.
  destruct (encode_res t) as [tb|?|?|] eqn:He; simpl; try (by apply (vinv_queues v); try done; left).
  apply encode_res_Ok in He. unfold ledger_db, on_tm, on_db. change (tm_database (lm_tm (v_lm v))) with (vdb v).
  pose proof Hv as [Hok _]. pose proof Hok as (Hdb & Hb & Hbt & Hqc & Htc).
  destruct (db_Put txset_bucket h tb (vdb v)) as [d' r] eqn:Hp.
  destruct (Put_spec _ _ _ _ _ _ Hdb Hbt Hp) as [(-> & Hd' & Hb' & Hview)|(e & -> & ->)]; simpl.
  2:{ by apply (vinv_queues v); try done; left. }
  assert (∀ k, db_view d' txset_bucket k = if decide (k = h) then Some tb else db_view (vdb v) txset_bucket k) as Ht.
  { intros k. rewrite (Hview txset_bucket k Hbt). unfold view_put. repeat case_decide; naive_solver. }
  assert (∀ k, db_view d' validator_bucket k = db_view (vdb v) validator_bucket k) as Hq.
  { intros k. rewrite (Hview validator_bucket k Hb). unfold view_put. rewrite decide_False; [done|]. by intros [? _]. }
  apply (vinv_known v); try done.
  - split_and!; try by auto.
    + intros k q0 Hf. unfold quorum_at, vdb. simpl. rewrite Hq. by apply Hqc.
    + intros k t0 Hf. simpl in Hf. unfold txset_at, vdb. simpl. rewrite Ht. case_decide as Hk; [subst k|].
      * rewrite (proj1 (lru_find_Add h t _ "")) in Hf. simplify_eq. simpl. by apply Decode_Encode.
      * apply (lru_find_Add h t _ k) in Hf; [|done]. by apply Htc.
  - intros k Hk. unfold quorum_at, vdb. simpl. by rewrite Hq.
  - intros k Hk. unfold txset_at, vdb. simpl. rewrite Ht. case_decide; [|done]. simpl. rewrite (Decode_Encode _ _ He). eauto.
Qed.

(** ** The steps of the validator *)

(** A step of the ledger manager that keeps the database in order and forgets nothing. *)
Definition ledger_keeps v (lm : LedgerManager D) : Prop :=
  vok (set_v_lm lm v) ∧ (∀ k, is_Some (quorum_at v k) → is_Some (quorum_at (set_v_lm lm v) k)) ∧
  (∀ k, is_Some (txset_at v k) → is_Some (txset_at (set_v_lm lm v) k)).

Inductive validator_step : Validator D → Validator D → Prop :=
| vstep_Recv s v : validator_step v (Validator_Recv s v).1
| vstep_RecvQuorum h q v : validator_step v (RecvQuorum h q v).1
| vstep_RecvTxSet h t v : validator_step v (RecvTxSet h t v).1
| vstep_monitor v : validator_step v (monitor_tick v).1
| vstep_dispatch v : validator_step v (dispatch_stmt v).1
| vstep_tick n v : validator_step v (dispatch_tick n v).1
| vstep_download v : validator_step v (download_stmt v).1
| vstep_take s rest v : v_readyChan v = s :: rest → validator_step v (set_waiting (v_decreeStmts v) (v_maxSeqNum v) rest v)
| vstep_ledger lm v : ledger_keeps v lm → validator_step v (set_v_lm lm v).

Lemma validator_step_keeps v v' : validator_step v v' → keepsv v v'.
Proof.
  destruct 1.
  - apply keepsv_Recv.
  - apply keepsv_RecvQuorum.
  - apply keepsv_RecvTxSet.
  - apply keepsv_monitor.
  - apply keepsv_dispatch_stmt.
  - apply keepsv_dispatch_tick.
  - apply keepsv_download.
  - intros Hv. apply (vinv_queues v); try done. intros s' [H'|[H'|H']]; left; [by left| |by right; right].
    right; left. rewrite H. by right.
  - intros Hv. destruct H as (H1 & H2 & H3). by apply (vinv_known v).
Qed.

Lemma validator_steps_keep v v' : rtc validator_step v v' → vinv v → vinv v'.
Proof. induction 1 as [|a b c Hab _ IH]; [done|]. intros Hv. by apply IH, (validator_step_keeps _ _ Hab). Qed.

(** A complete statement has its quorum. *)
Lemma complete_quorum v s nodeID : vok v → complete v s →
  is_Panic (getStatementQuorum nodeID (env_GetQuorum v) s) = false.
Proof.
  intros Hv (qh & hs & Hq & _ & [q Hk] & _).
  assert (env_GetQuorum v qh = Ok (Some q)) as He.
  { simpl. rewrite (proj2 (GetQuorum_read v qh Hv)). by apply read_result_Some. }
  unfold extractQuorumHash in Hq. unfold getStatementQuorum.
  destruct (s_Type s); [destruct (GetNominate s)|destruct (GetPrepare s)|destruct (GetConfirm s)|done|done]; simplify_eq/=; try done;
    case_decide; try done; by rewrite He.
Qed.

End known.

(** C15: a decree gets only statements it can use.  Whatever statements, quorums and transaction sets arrive,
    and however the goroutines of the validator interleave, every statement handed to the engine has
    its quorum and all its transaction sets in the database, and a decree that asks for its quorum
    does not meet the [log.Fatal] of a missing one. *)
Theorem ready_statements_complete {D T : Type} {StoreD : Store D} {LawsD : StoreLaws D} {StoreT : Store T}
    {TxDb : TxDatabase D T} {Pbc : PbCodec} {GoRt : GoRuntime} {Crypto : CryptoLib}
    {QuorumCodec : Codec Quorum} {StatementCodec : Codec Statement}
    (lm : LedgerManager D) (maxDecrees : Z) (v : Validator D) (s : Statement) (nodeID : string) :
  vok (NewValidator lm maxDecrees) → rtc validator_step (NewValidator lm maxDecrees) v → s ∈ v_readyChan v →
  complete v s ∧ is_Panic (getStatementQuorum nodeID (env_GetQuorum v) s) = false.
Proof.
  intros H0 Hr Hs. assert (vinv v) as [Hv Hf].
  { apply (validator_steps_keep _ _ Hr). split; [done|]. intros s' [H|[H|(i & l & Hl & _)]];
      [by apply not_elem_of_nil in H..|]. simpl in Hl. by rewrite lookup_empty in Hl. }
  assert (complete v s) by (apply Hf; by right; left). split; [done|]. by apply complete_quorum.
Qed.

(** Reading is invisible.  A lookup of a quorum or of a transaction set changes only caches: every later
    lookup answers as it would have before, so that a decree may take the answers of the validator
    as functions of the database. *)
Theorem reads_are_invisible {D T : Type} {StoreD : Store D} {LawsD : StoreLaws D} {StoreT : Store T}
    {TxDb : TxDatabase D T} {Pbc : PbCodec} {GoRt : GoRuntime} {Crypto : CryptoLib}
    {QuorumCodec : Codec Quorum} {StatementCodec : Codec Statement} (v : Validator D) (h k : string) :
  vok v →
  (∀ v', v' = (GetQuorum h v).1 ∨ v' = (Validator_GetTxSet h v).1 →
    vok v' ∧ vdb v' = vdb v ∧ (GetQuorum k v').2 = (GetQuorum k v).2 ∧
    (Validator_GetTxSet k v').2 = (Validator_GetTxSet k v).2).
Proof.
  intros Hv v' Hv'.
  assert (vok v' ∧ vdb v' = vdb v) as [Hok Hdb].
  { destruct Hv' as [->| ->]; [destruct (reads_GetQuorum h v Hv) as (?&?&_)|destruct (reads_GetTxSet h v Hv) as (?&?&_)]; done. }
  split_and!; [done..| |].
  - by rewrite (proj2 (GetQuorum_read v k Hv)), (proj2 (GetQuorum_read v' k Hok)), Hdb.
  - by rewrite (proj2 (GetTxSet_read v k Hv)), (proj2 (GetTxSet_read v' k Hok)), Hdb.
Qed.

(** * A concrete run *)

Module arrivals.
Import states.

(** A vote of node a for the ledger after the genesis ledger. *)
Definition vote_value : string := match encode_res (mkConsensusValue "x" 7) with Ok b => b | _ => "" end.
Definition ballot_vote : Statement := mkStatement StatementType_NOMINATE "a" 2 (Some (Stmt_Nominate (mkNominate [vote_value] [] "qh"))).

(** Quorums of one node by its name, and the one statement. *)
Definition node_name (q : Quorum) : option string :=
  match q with mkQuorum t [v] [] => if decide (t = f64_one) then Some v else None | _ => None end.
Lemma node_name_inv q b : node_name q = Some b → Some (mkQuorum f64_one [b] []) = Some q.
Proof. destruct q as [t [|v [|? ?]] [|? ?]]; simpl; try done. case_decide; [|done]. intros [= <-]. by subst. Qed.
#[local] Instance one_node_codec : Codec Quorum :=
  {| Encode := node_name; Decode b := Some (mkQuorum f64_one [b] []); Decode_Encode := node_name_inv |}.

Definition vote_name (s : Statement) : option string := if decide (s = ballot_vote) then Some "s" else None.
Lemma vote_name_inv s b : vote_name s = Some b → Some ballot_vote = Some s.
Proof. unfold vote_name. case_decide; [|done]. by subst. Qed.
#[local] Instance vote_codec : Codec Statement :=
  {| Encode := vote_name; Decode b := Some ballot_vote; Decode_Encode := vote_name_inv |}.

Definition db : boltdb := {[ ledger_bucket := ∅; txset_bucket := ∅; validator_bucket := ∅ ]}.
Definition ledger : LedgerManager boltdb := (CreateGenesisLedger 10 (NewLedgerManager (NewManager db))).1.
Definition start : Validator boltdb := NewValidator ledger 5.
(** The statement comes before its quorum and its transaction set. *)
Definition v1 : Validator boltdb := (Validator_Recv (Some ballot_vote) start).1.
Definition v2 : Validator boltdb := (RecvQuorum "qh" (Some (getSingletonQuorum "a")) v1).1.
Definition v3 : Validator boltdb := (RecvTxSet "x" txset v2).1.
Definition v4 : Validator boltdb := (monitor_tick v3).1.
Definition v5 : Validator boltdb := (dispatch_stmt v4).1.

Example held_back : v_dispatchChan v1 = [] ∧ v_dispatchChan v4 = [ballot_vote] ∧ v_readyChan v5 = [ballot_vote].
Proof. vm_compute. repeat split; reflexivity. Qed.

Lemma start_ok : vok start.
Proof.
  split; [exact I|]. split; [eexists; vm_compute; reflexivity|]. split; [eexists; vm_compute; reflexivity|].
  split; intros k x H; vm_compute in H; discriminate H.
Qed.

Lemma ready_statements_complete_witness : complete v5 ballot_vote.
Proof.
  apply (ready_statements_complete ledger 5 v5 ballot_vote "me" start_ok).
  - eapply rtc_l; [apply (vstep_Recv (Some ballot_vote))|]. eapply rtc_l; [apply (vstep_RecvQuorum "qh" (Some (getSingletonQuorum "a")))|].
    eapply rtc_l; [apply (vstep_RecvTxSet "x" txset)|]. eapply rtc_l; [apply vstep_monitor|].
    eapply rtc_l; [apply vstep_dispatch|]. apply rtc_refl.
  - assert (v_readyChan v5 = [ballot_vote]) as -> by (vm_compute; reflexivity). by left.
Defined.

Lemma reads_are_invisible_witness : (GetQuorum "qh" (GetQuorum "z" start).1).2 = (GetQuorum "qh" start).2.
Proof. apply (reads_are_invisible start "z" "qh" start_ok). left. reflexivity. Defined.

End arrivals.
