(* ===== verification/Converge.v ===== *)
(** When the recursion of the code comes to an end.

    A recursion of the code that is not structural is a family of computations, one for each amount of fuel.  The family
    [settles] at a state when from some amount of fuel on the computation has one and the same outcome, which is not that
    the fuel is spent: then the code returns (or the process dies), with that outcome.  Settling is compositional, so that
    a caller needs no bound on what it calls.

    The second part is the measure that the proofs of termination use: how many elements of a finite list are still ahead. *)

From S2P Require Import Prelude.

(** * Results that are not short of fuel *)

Definition returns {A} (r : res A) : Prop := match r with NoFuel => False | _ => True end.

Lemma returns_spec {A} (r : res A) : returns r ↔ r ≠ NoFuel.
Proof. by destruct r. Qed.

Create HintDb go_returns.

Section returns.
Context {A B : Type}.

Lemma returns_Ok (a : A) : returns (Ok a).
Proof. done. Qed.
Lemma returns_Err e : returns (A:=A) (Err e).
Proof. done. Qed.
Lemma returns_Panic w : returns (A:=A) (Panic w).
Proof. done. Qed.
Lemma returns_bind (r : res A) (k : A → res B) : returns r → (∀ a, r = Ok a → returns (k a)) → returns (res_bind r k).
Proof. intros Hr Hk. destruct r; try done. by apply Hk. Qed.
Lemma returns_wrap p (r : res A) : returns r → returns (res_wrap p r).
Proof. by destruct r. Qed.
Lemma returns_deref (o : option A) : returns (deref o).
Proof. by destruct o. Qed.

(** The visit of a list, or of a map, that stops at the first failure. *)
Lemma returns_foldr (f : A → res B → res B) (r : res B) l :
  returns r → (∀ a acc, returns acc → returns (f a acc)) → returns (foldr f r l).
Proof. intros Hr Hf. induction l; simpl; auto. Qed.
Lemma returns_foldl (f : res B → A → res B) (r : res B) l :
  returns r → (∀ a acc, returns acc → returns (f acc a)) → returns (foldl f r l).
Proof. intros Hr Hf. revert r Hr. induction l; simpl; auto. Qed.
Lemma returns_map_fold (f : string → A → res B → res B) (r : res B) (m : gmap string A) :
  returns r → (∀ k a acc, returns acc → returns (f k a acc)) → returns (map_fold f r m).
Proof. intros Hr Hf. apply (map_fold_weak_ind (λ r _, returns r)); auto. Qed.
End returns.

#[export] Hint Resolve returns_Ok returns_Err returns_Panic returns_deref : go_returns.

(** A composite returns when its parts do. *)
Ltac rets := repeat first
  [ progress intros
  | solve [eauto 2 with go_returns]
  | apply returns_bind | apply returns_wrap
  | match goal with |- returns (match ?x with _ => _ end) => let H := fresh in destruct x eqn:H end ].

(** * Families of computations *)

Section settles.
Context {S : Type}.

Definition settles {A} (m : nat → M S A) (s : S) (Q : S → res A → Prop) : Prop :=
  ∃ N s' r, (∀ n, (N ≤ n)%nat → m n s = (s', r)) ∧ returns r ∧ Q s' r.

Lemma settles_const {A} (m : M S A) s (Q : S → res A → Prop) :
  returns (m s).2 → Q (m s).1 (m s).2 → settles (λ _, m) s Q.
Proof. intros Hr HQ. exists 0%nat, (m s).1, (m s).2. split_and!; [|done..]. intros n _. by destruct (m s). Qed.

Lemma settles_mono {A} (m : nat → M S A) s (Q Q' : S → res A → Prop) :
  settles m s Q → (∀ s' r, returns r → Q s' r → Q' s' r) → settles m s Q'.
Proof. intros (N & s' & r & Hm & Hr & HQ) H. exists N, s', r. split_and!; auto. Qed.

(** One more level of the recursion. *)
Lemma settles_S {A} (m : nat → M S A) s (Q : S → res A → Prop) :
  settles (λ n, m (Datatypes.S n)) s Q → settles m s Q.
Proof.
  intros (N & s' & r & Hm & Hr & HQ). exists (Datatypes.S N), s', r. split_and!; [|done..].
  intros [|n] Hn; [lia|]. apply Hm. lia.
Qed.

Lemma settles_eventually {A} (m m' : nat → M S A) s (Q : S → res A → Prop) K :
  (∀ n, (K ≤ n)%nat → m n s = m' n s) → settles m' s Q → settles m s Q.
Proof.
  intros He (N & s' & r & Hm & Hr & HQ). exists (Nat.max N K), s', r. split_and!; [|done..].
  intros n Hn. rewrite He by lia. apply Hm. lia.
Qed.

(** A share of the fuel that grows with it. *)
Definition unbounded (f : nat → nat) : Prop := ∀ K, ∃ N, ∀ n, (N ≤ n)%nat → (K ≤ f n)%nat.

Lemma unbounded_id : unbounded (λ n, n).
Proof. intros K. by exists K. Qed.
Lemma unbounded_pred f : unbounded f → unbounded (λ n, pred (f n)).
Proof. intros Hf K. destruct (Hf (Datatypes.S K)) as [N HN]. exists N. intros n Hn. specialize (HN n Hn). lia. Qed.
Lemma settles_reindex {A} (m : nat → M S A) f s (Q : S → res A → Prop) :
  unbounded f → settles m s Q → settles (λ n, m (f n)) s Q.
Proof.
  intros Hf (N & s' & r & Hm & Hr & HQ). destruct (Hf N) as [K HK]. exists K, s', r. split_and!; [|done..].
  intros n Hn. by apply Hm, HK.
Qed.

(** The outcomes that end a sequence. *)
Definition cut {A B} (s : S) (r : res A) (Q : S → res B → Prop) (k : A → Prop) : Prop :=
  match r with
  | Ok a => k a
  | Err e => Q s (Err e)
  | Panic w => Q s (Panic w)
  | NoFuel => True
  end.

Lemma settles_bind {A B} (m : nat → M S A) (k : nat → A → M S B) s (Q : S → res B → Prop) :
  settles m s (λ s1 r, cut s1 r Q (λ a, settles (λ n, k n a) s1 Q)) → settles (λ n, bind (m n) (k n)) s Q.
Proof.
  intros (N & s1 & r & Hm & Hr & HQ). destruct r as [a|e|w|]; simpl in HQ; [| | |done].
  - destruct HQ as (N2 & s2 & r2 & Hk & Hr2 & HQ2). exists (Nat.max N N2), s2, r2. split_and!; [|done..].
    intros n Hn. unfold bind. rewrite Hm by lia. apply Hk. lia.
  - exists N, s1, (Err e). split_and!; [|done..]. intros n Hn. unfold bind. by rewrite Hm.
  - exists N, s1, (Panic w). split_and!; [|done..]. intros n Hn. unfold bind. by rewrite Hm.
Qed.

(** A first part that does not depend on the fuel. *)
Lemma settles_run {A B} (m : M S A) (k : nat → A → M S B) s (Q : S → res B → Prop) :
  returns (m s).2 → cut (m s).1 (m s).2 Q (λ a, settles (λ n, k n a) (m s).1 Q) → settles (λ n, bind m (k n)) s Q.
Proof. intros Hr HQ. apply (settles_bind (λ _, m)). by apply settles_const. Qed.

Lemma settles_wrap {A} p (m : nat → M S A) s (Q : S → res A → Prop) :
  settles m s (λ s' r, Q s' (res_wrap p r)) → settles (λ n, wrap p (m n)) s Q.
Proof.
  intros (N & s' & r & Hm & Hr & HQ). exists N, s', (res_wrap p r). split_and!; [|by apply returns_wrap|done].
  intros n Hn. unfold wrap. by rewrite Hm.
Qed.

Definition caught {A} (r : res A) : res (string + A) :=
  match r with Ok a => Ok (inr a) | Err e => Ok (inl e) | Panic w => Panic w | NoFuel => NoFuel end.
Lemma settles_try {A} (m : nat → M S A) s (Q : S → res (string + A) → Prop) :
  settles m s (λ s' r, Q s' (caught r)) → settles (λ n, try (m n)) s Q.
Proof.
  intros (N & s' & r & Hm & Hr & HQ). exists N, s', (caught r). split_and!; [|by destruct r|done].
  intros n Hn. unfold try. rewrite Hm by done. by destruct r.
Qed.

(** What a family settles at is unique. *)
Lemma settles_at {A} (m : nat → M S A) s (Q : S → res A → Prop) N s' r :
  settles m s Q → (∀ n, (N ≤ n)%nat → m n s = (s', r)) → returns r ∧ Q s' r.
Proof.
  intros (N2 & s2 & r2 & Hm & Hr & HQ) H. pose proof (Hm (Nat.max N N2) ltac:(lia)) as H1.
  rewrite H in H1 by lia. by simplify_eq.
Qed.
End settles.

(** * The elements that are still ahead *)

Section ahead.
Context {T : Type}.
Implicit Types (P Q : T → Prop) (l : list T).

Definition ahead P `{∀ t, Decision (P t)} l : nat := length (filter P l).

Lemma ahead_le P Q `{∀ t, Decision (P t), ∀ t, Decision (Q t)} l :
  (∀ t, t ∈ l → P t → Q t) → (ahead P l ≤ ahead Q l)%nat.
Proof.
  unfold ahead. induction l as [|x l IH]; intros H1; [done|].
  specialize (IH ltac:(set_solver)). rewrite !filter_cons. specialize (H1 x ltac:(set_solver)).
  repeat case_decide; simpl; tauto || lia.
Qed.

Lemma ahead_lt P Q `{∀ t, Decision (P t), ∀ t, Decision (Q t)} l x :
  (∀ t, t ∈ l → P t → Q t) → x ∈ l → Q x → ¬ P x → (ahead P l < ahead Q l)%nat.
Proof.
  unfold ahead. induction l as [|y l IH]; intros H1 Hx HQ HP; [by apply not_elem_of_nil in Hx|].
  rewrite !filter_cons. pose proof (H1 y ltac:(set_solver)) as Hy.
  assert (length (filter P l) ≤ length (filter Q l))%nat by (apply ahead_le; set_solver).
  apply elem_of_cons in Hx as [<-|Hx].
  - rewrite decide_False, decide_True by done. simpl. lia.
  - specialize (IH ltac:(set_solver) Hx HQ HP). repeat case_decide; simpl; tauto || lia.
Qed.
End ahead.
