(* ===== verification/Managers.v ===== *)
(** The operations of the managers come to an end.

    The database, the accounts, the exchange, the operations of a transaction, the transaction manager and the ledger manager
    have loops over what is in memory or in the database only, so every call of theirs returns: with a value, with an error
    or with the death of the process, from every state.  [always] says so of a computation; [alw] finds the parts in
    [go_always].  What the theorems on whole engines need of the managers is here. *)

From S2P Require Import Prelude Lru Converge Pb Db Crypto Account Exchange TxOps TxManager Ledger.

(** * Computations that return from every state *)

Definition always {S A} (m : M S A) : Prop := ∀ s, returns (m s).2.

Create HintDb go_always.

Section always.
Context {S : Type}.

Lemma always_lift {A} (r : res A) : returns r → always (lift (S:=S) r).
Proof. by intros Hr s. Qed.
Lemma always_ret {A} (a : A) : always (ret (S:=S) a).
Proof. done. Qed.
Lemma always_fail {A} e : always (fail (S:=S) (A:=A) e).
Proof. done. Qed.
Lemma always_panic {A} w : always (panic (S:=S) (A:=A) w).
Proof. done. Qed.
Lemma always_get : always (get (S:=S)).
Proof. done. Qed.
Lemma always_put s : always (put (S:=S) s).
Proof. done. Qed.
Lemma always_modify f : always (modify (S:=S) f).
Proof. done. Qed.
Lemma always_bind {A B} (m : M S A) (k : A → M S B) : always m → (∀ a, always (k a)) → always (bind m k).
Proof. intros Hm Hk s. specialize (Hm s). unfold bind. destruct (m s) as [s1 [a| | |]]; try done. apply Hk. Qed.
Lemma always_wrap {A} p (m : M S A) : always m → always (wrap p m).
Proof. intros Hm s. specialize (Hm s). unfold wrap. destruct (m s). by apply returns_wrap. Qed.
Lemma always_try {A} (m : M S A) : always m → always (try m).
Proof. intros Hm s. specialize (Hm s). unfold try. by destruct (m s) as [s1 [a| | |]]. Qed.
Lemma always_mfor {A} (l : list A) (body : A → M S unit) : (∀ a, always (body a)) → always (mfor l body).
Proof. intros Hb. induction l; simpl; [done|]. by apply always_bind. Qed.
Lemma always_or_fatal {A} w (m : M S A) : always m → always (or_fatal w m).
Proof. intros Hm s. specialize (Hm s). unfold or_fatal. by destruct (m s) as [s1 [a| | |]]. Qed.
Lemma always_on_fst {X A} (m : M S A) : always m → always (on_fst (X:=X) m).
Proof. intros Hm [s x]. specialize (Hm s). unfold on_fst. by destruct (m s). Qed.
Lemma always_on_snd {X A} (m : M S A) : always m → always (on_snd (S:=X) m).
Proof. intros Hm [x s]. specialize (Hm s). unfold on_snd. by destruct (m s). Qed.
End always.

#[export] Hint Resolve always_ret always_fail always_panic always_get always_put always_modify : go_always.

(** A composite returns when its parts do; values are left to [rets]. *)
Ltac alw := repeat first
  [ progress intros
  | solve [eauto 4 with go_always]
  | apply always_bind | apply always_wrap | apply always_try | apply always_or_fatal | apply always_mfor
  | apply always_on_fst | apply always_on_snd
  | apply always_lift; solve [rets]
  | match goal with |- always (match ?x with _ => _ end) => destruct x end ].

(** * Encodings *)

Lemma returns_decode_res {A} {CA : Codec A} b : returns (decode_res (A:=A) b).
Proof. unfold decode_res. rets. Qed.
Lemma returns_encode_res {A} {CA : Codec A} (a : A) : returns (encode_res a).
Proof. unfold encode_res. rets. Qed.
Lemma returns_encode_ptr {A} {CA : Codec A} (o : option A) : returns (encode_ptr o).
Proof. unfold encode_ptr, encode_res. rets. Qed.
Lemma returns_res_map {A B} (f : A → res B) l : (∀ a, returns (f a)) → returns (res_map f l).
Proof. intros Hf. apply returns_foldr; [done|]. rets. Qed.
#[export] Hint Resolve returns_decode_res returns_encode_res returns_encode_ptr : go_returns.

Section keys.
Context {Pbc : PbCodec} {GoRt : GoRuntime} {Crypto : CryptoLib}.
Lemma returns_GetTxSetKey ts : returns (GetTxSetKey ts).
Proof. unfold GetTxSetKey, nth_tx. rets; apply returns_res_map; rets. Qed.
Lemma returns_GetLedgerHeaderKey h : returns (GetLedgerHeaderKey h).
Proof. unfold GetLedgerHeaderKey, msg_key. rets. Qed.
Lemma returns_trust_key id a : returns (trust_key id a).
Proof. unfold trust_key. rets. Qed.
End keys.
#[export] Hint Resolve returns_GetTxSetKey returns_GetLedgerHeaderKey returns_trust_key : go_returns.

(** * The database *)

Class StoreReturns (D : Type) {StoreD : Store D} : Prop := {
  always_db_Get : ∀ b k, always (db_Get (D:=D) b k);
  always_db_GetAll : ∀ b k, always (db_GetAll (D:=D) b k);
  always_db_Put : ∀ b k v, always (db_Put (D:=D) b k v);
  always_db_Delete : ∀ b k, always (db_Delete (D:=D) b k);
}.
Class TxReturns (D T : Type) {TxDb : TxDatabase D T} : Prop := {
  always_db_Begin : always (db_Begin (D:=D) (T:=T));
  always_tx_Commit : ∀ t, always (tx_Commit (D:=D) (T:=T) t);
  always_tx_Rollback : ∀ t, always (tx_Rollback (D:=D) (T:=T) t);
}.
#[export] Hint Resolve always_db_Get always_db_GetAll always_db_Put always_db_Delete : go_always.
#[export] Hint Resolve always_db_Begin always_tx_Commit always_tx_Rollback : go_always.

#[global] Instance memdb_StoreReturns `{!GoRuntime} : StoreReturns memdb.memdb.
Proof. split; intros; intros d; simpl; unfold memdb.Get, memdb.GetAll, memdb.Put, memdb.Delete; by repeat case_match. Qed.
#[global] Instance boltdb_StoreReturns : StoreReturns boltdb.boltdb.
Proof. split; intros; intros d; simpl; unfold boltdb.Get, boltdb.GetAll, boltdb.Put, boltdb.Delete; by repeat case_match. Qed.
#[global] Instance memdb_TxReturns : TxReturns memdb.memdb memdb.memdb.
Proof. by split. Qed.
#[global] Instance boltdb_TxReturns : TxReturns boltdb.boltdb boltdb.boltdb.
Proof. by split. Qed.

(** * Accounts, orders and operations *)

Lemma returns_GetBalance r a : returns (GetBalance r a).
Proof. unfold GetBalance, acc_liab. rets. Qed.
Lemma returns_GetRestLimit a : returns (GetRestLimit a).
Proof. unfold GetRestLimit, acc_liab. rets. Qed.
Lemma returns_UpdateBalance a n : returns (UpdateBalance a n).
Proof. unfold UpdateBalance, acc_liab. rets. Qed.
Lemma returns_update_liab l n b : returns (update_liab l n b).
Proof. unfold update_liab, update_side. rets. Qed.
#[export] Hint Resolve returns_GetBalance returns_GetRestLimit returns_UpdateBalance returns_update_liab : go_returns.
Lemma returns_UpdateLiability a n b : returns (UpdateLiability a n b).
Proof. unfold UpdateLiability, acc_liab. rets. Qed.
Lemma returns_UpdateEntryCount r a n : returns (UpdateEntryCount r a n).
Proof. unfold UpdateEntryCount. rets. Qed.
Lemma returns_GetTrustRestLimit t : returns (GetTrustRestLimit t).
Proof. unfold GetTrustRestLimit, tst_liab. rets. Qed.
Lemma returns_GetTrustBalance t : returns (GetTrustBalance t).
Proof. unfold GetTrustBalance, tst_liab. rets. Qed.
Lemma returns_UpdateTrustBalance t n : returns (UpdateTrustBalance t n).
Proof. unfold UpdateTrustBalance. rets. Qed.
Lemma returns_UpdateTrustLiability t n b : returns (UpdateTrustLiability t n b).
Proof. unfold UpdateTrustLiability, tst_liab. rets. Qed.
#[export] Hint Resolve returns_UpdateLiability returns_UpdateEntryCount returns_GetTrustRestLimit returns_GetTrustBalance
  returns_UpdateTrustBalance returns_UpdateTrustLiability : go_returns.

Lemma returns_DivideBigInt v d r : returns (DivideBigInt v d r).
Proof. unfold DivideBigInt. rets. Qed.
Lemma returns_ComparePrice a b : returns (ComparePrice a b).
Proof. unfold ComparePrice, NewRat. rets. Qed.
#[export] Hint Resolve returns_DivideBigInt returns_ComparePrice : go_returns.
Lemma returns_exchange_amounts a b p : returns (exchange_amounts a b p).
Proof. unfold exchange_amounts. rets. Qed.
#[export] Hint Resolve returns_exchange_amounts : go_returns.
Lemma returns_Exchange o a b p c : returns (Exchange o a b p c).
Proof. unfold Exchange. rets. Qed.
#[export] Hint Resolve returns_Exchange : go_returns.
Lemma returns_GetMaxToSell r a t : returns (GetMaxToSell r a t).
Proof. unfold GetMaxToSell. rets. Qed.
Lemma returns_GetMaxToBuy a t : returns (GetMaxToBuy a t).
Proof. unfold GetMaxToBuy. rets. Qed.
Lemma returns_GetLiability o b : returns (GetLiability o b).
Proof. unfold GetLiability. rets. Qed.
Lemma returns_is_native a : returns (is_native a).
Proof. unfold is_native. rets. Qed.
Lemma returns_offer_pair_key o : returns (offer_pair_key o).
Proof. unfold offer_pair_key. rets. Qed.
Lemma returns_decode_offers {Pbc : PbCodec} bs : returns (decode_offers bs).
Proof. apply returns_foldr; [done|]. rets. Qed.
Lemma returns_sort_offers {GoRt : GoRuntime} os : returns (sort_offers os).
Proof. unfold sort_offers. rets. Qed.
Lemma returns_validateAsset a : returns (validateAsset a).
Proof. unfold validateAsset. rets. Qed.
#[export] Hint Resolve returns_GetMaxToSell returns_GetMaxToBuy returns_GetLiability returns_is_native returns_offer_pair_key
  returns_decode_offers returns_sort_offers returns_validateAsset : go_returns.

Section operations.
Context {D : Type} {StoreD : Store D} {RetD : StoreReturns D} {Pbc : PbCodec} {GoRt : GoRuntime}.
Variable baseReserve : Z.

Lemma always_GetAccount id : always (GetAccount (D:=D) id).
Proof. unfold GetAccount. alw. Qed.
Lemma always_SaveAccount a : always (SaveAccount (D:=D) a).
Proof. unfold SaveAccount. alw. Qed.
Lemma always_CreateAccount id b s n : always (CreateAccount (D:=D) baseReserve id b s n).
Proof. unfold CreateAccount. alw. Qed.
Lemma always_GetTrust id a : always (GetTrust (D:=D) id a).
Proof. unfold GetTrust. alw. Qed.
Lemma always_SaveTrust t : always (SaveTrust (D:=D) t).
Proof. unfold SaveTrust. alw. Qed.
Lemma always_CreateTrust id a n : always (CreateTrust (D:=D) id a n).
Proof. unfold CreateTrust. alw. Qed.
Lemma always_DeleteTrust id a : always (DeleteTrust (D:=D) id a).
Proof. unfold DeleteTrust. alw. Qed.
#[local] Hint Resolve always_GetAccount always_SaveAccount always_CreateAccount always_GetTrust always_SaveTrust always_CreateTrust
  always_DeleteTrust : go_always.

Lemma always_loadOffers a b : always (loadOffers (D:=D) a b).
Proof. unfold loadOffers. alw. Qed.
Lemma always_SaveOffer o : always (SaveOffer (D:=D) o).
Proof. unfold SaveOffer. alw. Qed.
Lemma always_DeleteOffer o : always (DeleteOffer (D:=D) o).
Proof. unfold DeleteOffer. alw. Qed.
Lemma always_UpdateLiability o b : always (em_UpdateLiability (D:=D) o b).
Proof. unfold em_UpdateLiability. alw. Qed.
#[local] Hint Resolve always_loadOffers always_SaveOffer always_DeleteOffer always_UpdateLiability : go_always.
Lemma always_Fill : always (Fill (D:=D) baseReserve).
Proof. unfold Fill. alw. Qed.
Lemma always_fill_one (offer : Offer) : always (λ '(d, o), let '((d', (o', f')), r) := try (Fill (D:=D) baseReserve) (d, (o, offer)) in
  ((d', o'), res_bind r (λ _, Ok f'))).
Proof.
  intros [d o]. pose proof (always_try _ always_Fill (d, (o, offer))) as H. simpl.
  destruct (try (Fill baseReserve) (d, (o, offer))) as [[d' [o' f']] r]. by destruct r.
Qed.
#[local] Hint Resolve always_fill_one : go_always.
Lemma always_fill_loop p offers : always (fill_loop (D:=D) baseReserve p offers).
Proof. induction offers; simpl; alw. Qed.
#[local] Hint Resolve always_fill_loop : go_always.
Lemma always_FillOrder : always (FillOrder (D:=D) baseReserve).
Proof. unfold FillOrder. alw. Qed.
Lemma always_fill_order (order : Order) : always (λ d : D,
  let '((d', o'), r) := FillOrder baseReserve (d, order) in (d', res_bind r (λ _, Ok o'))).
Proof. intros d. pose proof (always_FillOrder (d, order)) as H. destruct (FillOrder baseReserve (d, order)) as [[d' o'] r]. by destruct r. Qed.
#[local] Hint Resolve always_fill_order : go_always.

Lemma always_require_issuer m a : always (require_issuer (D:=D) m a).
Proof. unfold require_issuer. alw. Qed.
Lemma always_pay_trust id a n : always (pay_trust (D:=D) id a n).
Proof. unfold pay_trust. alw. Qed.
#[local] Hint Resolve always_require_issuer always_pay_trust : go_always.
Lemma always_path_loop path a n : always (path_loop (D:=D) baseReserve path a n).
Proof. revert a n. induction path; intros; simpl; alw. Qed.
#[local] Hint Resolve always_path_loop : go_always.
Lemma always_PathPayment p : always (PathPayment_Apply (D:=D) baseReserve p).
Proof. unfold PathPayment_Apply, credit_dst, debit_src. alw. Qed.
#[local] Hint Resolve always_PathPayment : go_always.
Lemma always_Opr_Apply o : always (Opr_Apply (D:=D) baseReserve o).
Proof. unfold Opr_Apply, CreateAccount_Apply, Payment_Apply, Trust_Apply, tst_liab. alw. Qed.
End operations.

(** * The transaction manager *)

Section transactions.
Context {D T : Type} {StoreD : Store D} {StoreT : Store T} {TxDb : TxDatabase D T}.
Context {RetD : StoreReturns D} {RetT : StoreReturns T} {RetTx : TxReturns D T}.
Context {Pbc : PbCodec} {GoRt : GoRuntime} {Crypto : CryptoLib}.
Variable baseReserve : Z.

Lemma always_on_db {A} (m : M D A) : always m → always (on_db m).
Proof. intros Hm tm. specialize (Hm (tm_database tm)). unfold on_db. by destruct (m (tm_database tm)). Qed.
#[local] Hint Resolve always_on_db always_GetAccount always_SaveAccount : go_always.

Lemma always_Lock : always (Lock (D:=D)).
Proof. unfold Lock. alw. Qed.
Lemma always_UpdateTxStatus k s : always (UpdateTxStatus (D:=D) k s).
Proof. unfold UpdateTxStatus. alw. Qed.
#[local] Hint Resolve always_Lock always_UpdateTxStatus : go_always.
Lemma always_GetTxStatus k : always (GetTxStatus (D:=D) k).
Proof. unfold GetTxStatus. alw. Qed.
Lemma always_AddTx k tx : always (AddTx (D:=D) baseReserve k tx).
Proof. unfold AddTx, Unlock. alw. Qed.
Lemma always_take_tx : always (take_tx (D:=D)).
Proof. unfold take_tx. alw. Qed.
Lemma always_set_failed tx e : always (set_failed (D:=D) tx e).
Proof. unfold set_failed. alw. Qed.
#[local] Hint Resolve always_set_failed : go_always.
Lemma always_charge acc txs : always (charge (D:=D) acc txs).
Proof. revert acc. induction txs; intros; simpl; alw. Qed.
#[local] Hint Resolve always_charge : go_always.
Lemma always_charge_all groups : always (charge_all (D:=D) groups).
Proof. induction groups as [|[id txs] groups IH]; simpl; alw. Qed.
Lemma returns_getTxOpList ops id n : returns (getTxOpList baseReserve ops id n).
Proof. apply returns_res_map. intros o. unfold to_op. rets. Qed.
Lemma always_apply_ops ops : always (apply_ops (D:=D) (T:=T) baseReserve ops).
Proof.
  unfold apply_ops. apply always_bind; [alw|]. intros dt.
  pose proof (always_mfor ops (Opr_Apply baseReserve) (always_Opr_Apply (D:=T) baseReserve) dt) as H.
  destruct (mfor ops (Opr_Apply baseReserve) dt) as [dt' [[]| | |]]; alw.
Qed.
#[local] Hint Resolve always_charge_all always_apply_ops : go_always.
Lemma always_apply_tx n tx : always (apply_tx (D:=D) (T:=T) baseReserve n tx).
Proof.
  unfold apply_tx. apply always_bind; [|alw]. pose proof (returns_getTxOpList (tx_OpList tx) (tx_AccountID tx) n).
  destruct (getTxOpList _ _ _ _); alw.
Qed.
#[local] Hint Resolve always_apply_tx : go_always.
Lemma always_ApplyTxList txs n : always (ApplyTxList (D:=D) (T:=T) baseReserve txs n).
Proof. unfold ApplyTxList. alw. Qed.
Lemma always_GetTxList : always (GetTxList (D:=D)).
Proof. unfold GetTxList. alw. Qed.
Lemma always_DeleteTxList txs : always (DeleteTxList (D:=D) txs).
Proof. unfold DeleteTxList, Unlock. alw. Qed.
End transactions.

(** * The ledger manager *)

Section ledgers.
Context {D T : Type} {StoreD : Store D} {StoreT : Store T} {TxDb : TxDatabase D T}.
Context {RetD : StoreReturns D} {RetT : StoreReturns T} {RetTx : TxReturns D T}.
Context {Pbc : PbCodec} {GoRt : GoRuntime} {Crypto : CryptoLib}.
Variable baseReserve : Z.

Lemma always_on_tm {A} (m : M (Manager D) A) : always m → always (on_tm m).
Proof. intros Hm lm. specialize (Hm (lm_tm lm)). unfold on_tm. by destruct (m (lm_tm lm)). Qed.
Lemma always_ledger_db {A} (m : M D A) : always m → always (ledger_db m).
Proof. intros Hm. by apply always_on_tm, always_on_db. Qed.
#[local] Hint Resolve always_on_tm always_ledger_db : go_always.

Lemma returns_CurrHash (lm : LedgerManager D) : returns (CurrLedgerHeaderHash lm).
Proof. unfold CurrLedgerHeaderHash. rets. Qed.
Lemma returns_CurrHeader (lm : LedgerManager D) : returns (CurrLedgerHeader lm).
Proof. unfold CurrLedgerHeader. rets. Qed.
#[local] Hint Resolve returns_CurrHash returns_CurrHeader : go_returns.
Lemma always_GetLedgerHeader k : always (GetLedgerHeader (D:=D) k).
Proof. unfold GetLedgerHeader. alw. Qed.
Lemma always_GetTxSet h : always (GetTxSet (D:=D) h).
Proof. unfold GetTxSet. alw. Qed.
Lemma always_AddTxSet h ts : always (AddTxSet (D:=D) h ts).
Proof. unfold AddTxSet. alw. Qed.
#[local] Hint Resolve always_GetLedgerHeader always_GetTxSet : go_always.
Lemma always_GetLedger k : always (GetLedger (D:=D) k).
Proof. unfold GetLedger. alw. Qed.
Lemma always_advanceLedger now seq p t cv : always (advanceLedger (D:=D) now seq p t cv).
Proof. unfold advanceLedger, saveCheckpoint. alw. Qed.
#[local] Hint Resolve always_advanceLedger always_ApplyTxList : go_always.
Lemma always_closeLedger now i x ts : always (closeLedger (D:=D) (T:=T) baseReserve now i x ts).
Proof. unfold closeLedger. alw. Qed.
#[local] Hint Resolve always_closeLedger : go_always.
Lemma always_RecvExtVal now i x ts : always (RecvExtVal (D:=D) (T:=T) baseReserve now i x ts).
Proof. unfold RecvExtVal, AddTask. alw. Qed.
Lemma always_drain now infos : always (drain (D:=D) (T:=T) baseReserve now infos).
Proof. induction infos; simpl; alw. Qed.
#[local] Hint Resolve always_drain : go_always.
Lemma always_recv_downloaded now info : always (recv_downloaded (D:=D) (T:=T) baseReserve now info).
Proof. unfold recv_downloaded. alw. Qed.
End ledgers.
