(* ===== verification/Space.v ===== *)
(** The finite space in which a decree moves while it handles one message.

    A decree that handles a message sends messages to itself.  All the ballots that it can build then have a counter and a
    value that it has heard of: [bal] and [own_statements] list them over a list [C] of counters and a list [V] of values.
    [shaped] says how the variables of a decree and the statements that it has stored share ballot objects, [inv] adds that
    everything is in the space.  Two measures go down: [statements_left] counts the statements that are newer than the one
    the node has stored for itself, [ballots_left] the places above its current ballot.  A step of the handlers is [mild]
    (it raises neither) and storing an own statement lowers the first ([store_own_strict]).  [EnvReturns] is what a decree
    needs of the managers behind it: that their calls return. *)

From Stdlib Require Import SpecFloat.
From S2P Require Import Prelude Converge Pb Crypto Quorum Ballot Federated Decree Nomination.

(** * What only reads the state returns *)

Lemma returns_GetPrepare s : returns (GetPrepare s).
Proof. unfold GetPrepare. rets. Qed.
Lemma returns_GetConfirm s : returns (GetConfirm s).
Proof. unfold GetConfirm. rets. Qed.
Lemma returns_GetExternalize s : returns (GetExternalize s).
Proof. unfold GetExternalize. rets. Qed.
Lemma returns_GetNominate s : returns (GetNominate s).
Proof. unfold GetNominate. rets. Qed.
Lemma returns_unknown_type A : returns (unknown_type (A:=A)).
Proof. done. Qed.
#[local] Hint Resolve returns_GetPrepare returns_GetConfirm returns_GetExternalize returns_GetNominate returns_unknown_type : go_returns.

Lemma returns_isNewerBallot a b : returns (isNewerBallot a b).
Proof. unfold isNewerBallot. rets. Qed.
Lemma returns_isNewerNomination a b : returns (isNewerNomination a b).
Proof. unfold isNewerNomination. rets. Qed.
Lemma returns_getWorkingBallot s : returns (getWorkingBallot s).
Proof. unfold getWorkingBallot. rets. Qed.
Lemma returns_voteFilter v s : returns (voteFilter v s).
Proof. unfold voteFilter. rets. Qed.
Lemma returns_acceptFilter v s : returns (acceptFilter v s).
Proof. unfold acceptFilter. rets. Qed.
Lemma returns_prepareVoteFilter b s : returns (prepareVoteFilter b s).
Proof. unfold prepareVoteFilter. rets. Qed.
Lemma returns_prepareAcceptFilter b s : returns (prepareAcceptFilter b s).
Proof. unfold prepareAcceptFilter. rets. Qed.
Lemma returns_commitVoteFilter b l r s : returns (commitVoteFilter b l r s).
Proof. unfold commitVoteFilter. rets. Qed.
Lemma returns_commitAcceptFilter b l r s : returns (commitAcceptFilter b l r s).
Proof. unfold commitAcceptFilter. rets. Qed.
#[local] Hint Resolve returns_isNewerBallot returns_isNewerNomination returns_getWorkingBallot returns_voteFilter returns_acceptFilter
  returns_prepareVoteFilter returns_prepareAcceptFilter returns_commitVoteFilter returns_commitAcceptFilter : go_returns.

Lemma returns_filter_nodes f stmts : (∀ s, returns (f s)) → returns (filter_nodes f stmts).
Proof. intros Hf. apply returns_map_fold; [done|]. rets. Qed.
Lemma returns_collect {A} `{Countable A} f stmts : (∀ s, returns (f s)) → returns (collect (A:=A) f stmts).
Proof. intros Hf. apply returns_map_fold; [done|]. rets. Qed.

Section voting.
Variables (me : string) (q : Quorum) (G : string → res (option Quorum)).

Lemma returns_getStatementQuorum s : returns (getStatementQuorum me G s).
Proof. unfold getStatementQuorum. rets. Qed.
#[local] Hint Resolve returns_getStatementQuorum : go_returns.

Lemma returns_has_quorum stmts nodes : returns (has_quorum me q G stmts nodes).
Proof.
  unfold has_quorum. rewrite quorum_loop_run. apply returns_bind; [|rets]. case_decide; [done|].
  apply returns_foldr; [done|]. rets.
Qed.
#[local] Hint Resolve returns_has_quorum returns_filter_nodes : go_returns.
Lemma returns_federatedAccept vf af stmts :
  (∀ s, returns (vf s)) → (∀ s, returns (af s)) → returns (federatedAccept me q G vf af stmts).
Proof. intros Hv Ha. unfold federatedAccept. rets. Qed.
Lemma returns_federatedRatify f stmts : (∀ s, returns (f s)) → returns (federatedRatify me q G f stmts).
Proof. intros Hf. unfold federatedRatify. rets. Qed.
End voting.

Lemma returns_find_interval cs F l r : (∀ x y, returns (F x y)) → returns (find_interval cs F l r).
Proof. intros HF. revert l r. induction cs; simpl; rets. Qed.
Lemma returns_stmt_ballots s : returns (stmt_ballots s).
Proof. unfold stmt_ballots. rets. Qed.
Lemma returns_candidate_of b s : returns (candidate_of b s).
Proof. unfold candidate_of. rets. Qed.
Lemma returns_commit_counters_of b s : returns (commit_counters_of b s).
Proof. unfold commit_counters_of. rets. Qed.
Lemma returns_stmt_counters s : returns (stmt_counters s).
Proof. unfold stmt_counters. rets. Qed.
Lemma returns_stmtFilter c s : returns (stmtFilter c s).
Proof. unfold stmtFilter. rets. Qed.
Lemma returns_commit_ballot s : returns (commit_ballot s).
Proof. unfold commit_ballot. rets. Qed.
Lemma returns_ValidateQuorum e n q : returns (ValidateQuorum e n q).
Proof.
  revert n. induction q as [t vs nqs IH] using Quorum_nest_ind. intros n. simpl. rets.
  induction IH; rets.
Qed.
#[local] Hint Resolve returns_stmt_ballots returns_candidate_of returns_commit_counters_of returns_stmt_counters returns_stmtFilter
  returns_commit_ballot returns_ValidateQuorum returns_getStatementQuorum : go_returns.

Lemma returns_find_counter q stmts t cs nodes : returns (find_counter q stmts t cs nodes).
Proof. revert nodes. induction cs; simpl; rets. apply returns_collect. rets. Qed.

(** The managers behind a decree return. *)
Class EnvReturns (E : Type) {Env : DecreeEnv E} : Prop := {
  returns_CurrLedgerHeader : ∀ e, returns (lm_CurrLedgerHeader e);
  returns_CurrLedgerHeaderHash : ∀ e, returns (lm_CurrLedgerHeaderHash e);
  returns_lm_GetTxSet : ∀ e h, returns (lm_GetTxSet e h);
  returns_env_GetTxSet : ∀ e h, returns (env_GetTxSet e h);
  returns_env_RecvTxSet : ∀ h ts e, returns (env_RecvTxSet h ts e).2;
}.
#[export] Hint Resolve returns_CurrLedgerHeader returns_CurrLedgerHeaderHash : go_returns.

Section reads.
Context {E : Type} {Env : DecreeEnv E} {Ret : EnvReturns E} {Crypto : CryptoLib} {Pbc : PbCodec} {GoRt : GoRuntime}.
Implicit Types d : Decree E.

Lemma returns_getPreparedCandidates s stmts : returns (getPreparedCandidates s stmts).
Proof. unfold getPreparedCandidates. rets. apply returns_foldr; rets. apply returns_collect. rets. Qed.
Lemma returns_getCommitCounters b stmts : returns (getCommitCounters b stmts).
Proof. unfold getCommitCounters. rets. apply returns_collect. rets. Qed.
#[local] Hint Resolve returns_getPreparedCandidates returns_getCommitCounters : go_returns.
Lemma returns_accept_interval d b : returns (accept_interval d b).
Proof. unfold accept_interval. rets. apply returns_find_interval. intros. apply returns_federatedAccept; rets. Qed.
Lemma returns_ratify_interval d b : returns (ratify_interval d b).
Proof. unfold ratify_interval. rets. apply returns_find_interval. intros. apply returns_federatedRatify; rets. Qed.

Lemma returns_decode_value e1 e2 v : returns (decode_value e1 e2 v).
Proof. unfold decode_value, decode_res. rets. Qed.
#[local] Hint Resolve returns_decode_value : go_returns.
Lemma returns_validateConsensusValue d v : returns (validateConsensusValue d v).
Proof.
  unfold validateConsensusValue, validateConsensusValueFull. rets. pose proof (returns_lm_GetTxSet (d_env d) (cv_TxSetHash a)).
  by destruct (lm_GetTxSet _ _) as [[]| | |].
Qed.
Lemma returns_validate_values d vs : returns (validate_values d vs).
Proof.
  apply returns_foldl; [done|]. intros v acc Hacc. pose proof (returns_validateConsensusValue d v).
  destruct acc; try done; by destruct (validateConsensusValue d v).
Qed.
#[local] Hint Resolve returns_validateConsensusValue returns_validate_values : go_returns.
Lemma returns_validateBallot d s : returns (validateBallot d s).
Proof. unfold validateBallot, validate_prepare, validate_confirm, validate_externalize. rets. Qed.

Lemma returns_checkBallotInvariants d : returns (checkBallotInvariants d).
Proof. unfold checkBallotInvariants. rets. Qed.
Lemma returns_ballot_statement d : returns (ballot_statement d).
Proof. unfold ballot_statement. rets. Qed.
Lemma returns_is_newer_ballot d m : returns (is_newer_ballot d m).
Proof. unfold is_newer_ballot. rets. Qed.
End reads.

(** * The finite space in which a decree moves

    While it handles one message a decree only builds ballots from the counters [C] and the values [V] that its own ballots
    and the statements it has stored hold. *)

Section space.
Variables (C : list Z) (V : list string).

Definition bal (b : Ballot) : Prop := b_Counter b ∈ C ∧ b_Value b ∈ V.
Definition obal (o : option Ballot) : Prop := ∀ b, o = Some b → bal b.

Definition within (s : Statement) : Prop :=
  match s_Stmt s with
  | Some (Stmt_Prepare p) => (obal (prep_B p) ∧ obal (prep_P p) ∧ obal (prep_Q p)) ∧ prep_HC p ∈ C ∧ prep_LC p ∈ C
  | Some (Stmt_Confirm c) => obal (conf_B c) ∧ conf_PC c ∈ C ∧ conf_LC c ∈ C ∧ conf_HC c ∈ C
  | Some (Stmt_Externalize e) => obal (ext_B e) ∧ ext_HC e ∈ C
  | _ => True
  end.

(** The ballots, and the statements of a node, over the space. *)
Definition ballots : list (option Ballot) := None :: (c ← C; v ← V; [Some (mkBallot c v)]).
Definition own_statements (me : string) (idx : Z) (qh : string) : list Statement :=
  let stmt t body := mkStatement t me idx (Some body) in
  (b ← ballots; p ← ballots; q ← ballots; h ← C; l ← C;
     [stmt StatementType_PREPARE (Stmt_Prepare (mkPrepare b q p h l qh))]) ++
  (b ← ballots; p ← C; l ← C; h ← C; [stmt StatementType_CONFIRM (Stmt_Confirm (mkConfirm b p l h qh))]) ++
  (b ← ballots; h ← C; [stmt StatementType_EXTERNALIZE (Stmt_Externalize (mkExternalize b h qh))]).

Lemma elem_of_ballots o : obal o → o ∈ ballots.
Proof.
  intros Ho. destruct o as [[c v]|]; [|by left]. destruct (Ho _ eq_refl) as [Hc Hv]. simpl in *. right.
  apply list_elem_of_bind. exists c. split; [|done]. apply list_elem_of_bind. exists v. split; [by left|done].
Qed.

Hypothesis C_max : MaxUint32 ∈ C.

(** The candidates, the counters of commits and the counters of the others are in the space. *)
Lemma collect_elem {A} `{Countable A} (f : Statement → res (list A)) (stmts : Stmts) X (P : A → Prop) :
  collect f stmts = Ok X → (∀ x s l a, stmts !! x = Some s → f s = Ok l → a ∈ l → P a) → ∀ a, a ∈ X → P a.
Proof.
  unfold collect. revert X.
  apply (map_fold_weak_ind (λ r m, ∀ X, r = Ok X →
    (∀ x s l a, m !! x = Some s → f s = Ok l → a ∈ l → P a) → ∀ a, a ∈ X → P a)); [intros X [= <-]; set_solver|].
  intros k s m r Hk IH X HX HP a Ha. destruct r as [Y| | |]; try done. simpl in HX.
  destruct (f s) as [l| | |] eqn:Hf; try done. simpl in HX. injection HX as <-. apply elem_of_union in Ha as [Ha|Ha].
  - apply elem_of_list_to_set in Ha. eapply HP; [apply lookup_insert_eq|done|done].
  - apply (IH Y eq_refl); [|done]. intros x s' l' a' Hx. apply (HP x). rewrite lookup_insert_ne; [done|]. congruence.
Qed.

Lemma stmt_ballots_bal s bs b : within s → stmt_ballots s = Ok bs → b ∈ bs → bal b.
Proof.
  unfold within, stmt_ballots, GetPrepare, GetConfirm, GetExternalize. intros Hw H Hb.
  destruct (s_Type s), (s_Stmt s) as [[|p|c|e]|]; try done; simpl in H.
  - destruct Hw as ((HB & HP & HQ) & _). injection H as <-.
    rewrite !elem_of_app in Hb. unfold obal in *. destruct (prep_B p), (prep_P p), (prep_Q p); set_solver.
  - destruct (conf_B c) as [x|]; [|done]. simpl in H. injection H as <-. destruct Hw as (HB & HP & _).
    destruct (HB x eq_refl). unfold bal. set_solver.
  - destruct (ext_B e) as [x|]; [|done]. simpl in H. injection H as <-. destruct Hw as (HB & _).
    destruct (HB x eq_refl). unfold bal. set_solver.
Qed.

Lemma candidate_of_bal b s l a : bal b → within s → candidate_of b s = Ok l → a ∈ l → bal a.
Proof.
  unfold within, candidate_of, GetPrepare, GetConfirm, GetExternalize. intros Hb Hw H Ha.
  destruct (s_Type s), (s_Stmt s) as [[|p|c|e]|]; try done; simpl in H.
  - destruct Hw as ((HB & HP & HQ) & _). injection H as <-. unfold obal in *. unfold keep_below in Ha.
    rewrite !elem_of_app in Ha. repeat case_match; set_solver.
  - injection H as <-. destruct Hw as (_ & HP & _), Hb. unfold bal. repeat case_match; set_solver.
  - injection H as <-. case_match; set_solver.
Qed.

Lemma candidates_bal {GoRt : GoRuntime} s (stmts : Stmts) cs b :
  within s → (∀ x t, stmts !! x = Some t → within t) → getPreparedCandidates s stmts = Ok cs → b ∈ cs → bal b.
Proof.
  unfold getPreparedCandidates. intros Hw Hs H Hb. destruct (stmt_ballots s) as [bs| | |] eqn:Hbs; try done. cbn [res_bind] in H.
  assert (∀ b, b ∈ elements (list_to_set bs : gset Ballot) → bal b) as Hin.
  { intros x Hx. eapply stmt_ballots_bal; [done..|set_solver]. }
  revert H. destruct (foldr _ _ _) as [X| | |] eqn:HX; try done. intros [= <-]. rewrite go_sort_perm, elem_of_elements in Hb.
  clear Hbs. revert X HX Hb. induction (elements _) as [|x xs IH]; intros X HX Hb; simpl in HX; [injection HX as <-; set_solver|].
  destruct (foldr _ _ xs) as [Y| | |]; try done. cbn [res_bind] in HX. destruct (collect _ _) as [Z| | |] eqn:HZ; try done.
  injection HX as <-. apply elem_of_union in Hb as [Hb|Hb]; [|eapply IH; [set_solver|done|done]].
  eapply (collect_elem _ _ _ bal HZ); [|done]. intros y t l a Ht Hl Ha.
  eapply candidate_of_bal; [|by eapply Hs|done|done]. apply Hin. by left.
Qed.

Lemma commit_counters_in {GoRt : GoRuntime} b (stmts : Stmts) cs c :
  (∀ x t, stmts !! x = Some t → within t) → getCommitCounters b stmts = Ok cs → c ∈ cs → c ∈ C.
Proof.
  unfold getCommitCounters. intros Hs H Hc. destruct (collect _ _) as [X| | |] eqn:HX; try done. injection H as <-.
  rewrite go_sort_perm, elem_of_elements in Hc. revert c Hc. apply (collect_elem _ _ _ _ HX).
  intros x t l a Ht Hl Ha. specialize (Hs x t Ht). revert Hs Hl. unfold within, commit_counters_of, GetPrepare, GetConfirm, GetExternalize.
  destruct (s_Type t), (s_Stmt t) as [[|p|c|e]|]; try done; simpl; intros Hs Hl.
  - injection Hl as <-. case_match; set_solver.
  - injection Hl as <-. case_match; set_solver.
  - destruct (ext_B e) as [x'|]; [|simplify_eq; set_solver]. injection Hl as <-. destruct Hs as [HB ?].
    destruct (HB x' eq_refl). case_match; set_solver.
Qed.

Lemma stmt_counters_in (stmts : Stmts) X c :
  (∀ x t, stmts !! x = Some t → within t) → collect stmt_counters stmts = Ok X → c ∈ X → c ∈ C.
Proof.
  intros Hs HX. revert c. apply (collect_elem _ _ _ _ HX). intros x t l a Ht Hl Ha. specialize (Hs x t Ht).
  revert Hs Hl. unfold within, stmt_counters, GetPrepare, GetConfirm, GetExternalize.
  destruct (s_Type t), (s_Stmt t) as [[|p|c|e]|]; try done; simpl; intros Hs Hl; try (simplify_eq; set_solver).
  - destruct (prep_B p) as [y|]; [|done]. injection Hl as <-. destruct Hs as ((HB & _) & _). destruct (HB y eq_refl). set_solver.
  - destruct (conf_B c) as [y|]; [|done]. injection Hl as <-. destruct Hs as (HB & _). destruct (HB y eq_refl). set_solver.
Qed.

(** An interval that is found has its bounds among the counters. *)
Lemma find_interval_in cs F l r l' r' :
  0 ∈ C → (∀ c, c ∈ cs → c ∈ C) → l ∈ C → r ∈ C → find_interval cs F l r = Ok (l', r') → l' ∈ C ∧ r' ∈ C.
Proof.
  intros H0. revert l r. induction cs as [|c cs IH]; intros l r Hcs Hl Hr H; simpl in H; [by simplify_eq|].
  assert (c ∈ C) by set_solver. assert (∀ c, c ∈ cs → c ∈ C) by set_solver.
  destruct (decide (l ≠ 0 ∧ r < c)); [by apply (IH l r)|].
  destruct (F c _) as [[]| | |]; try done; cbn [res_bind] in H.
  - eapply IH; [done|done| |done]. by case_decide.
  - destruct (decide (l ≠ 0)); [by simplify_eq|by apply (IH l r)].
Qed.

Lemma commit_ballot_in s b : within s → commit_ballot s = Ok (Some b) → b_Value b ∈ V.
Proof.
  unfold within, commit_ballot, GetPrepare, GetConfirm, GetExternalize. intros Hw H.
  destruct (s_Type s), (s_Stmt s) as [[|p|c|e]|]; try done; simpl in H.
  - case_decide; [done|]. destruct (prep_B p) as [x|]; [|done]. injection H as <-. destruct Hw as ((HB & _) & _). by destruct (HB x eq_refl).
  - destruct (conf_B c) as [x|]; [|done]. injection H as <-. destruct Hw as (HB & _). by destruct (HB x eq_refl).
  - destruct (ext_B e) as [x|]; [|done]. injection H as <-. destruct Hw as (HB & _). by destruct (HB x eq_refl).
Qed.
End space.

(** * The invariant *)

(** The objects that a stored statement shares with the decree; an EXTERNALIZE statement is only compared by its type. *)
Definition refers (m : MStatement) (l : loc) : Prop :=
  match ms_refs m with
  | Some (b, p, q) => s_Type (ms_val m) ≠ StatementType_EXTERNALIZE ∧ (b = Some l ∨ p = Some l ∨ q = Some l)
  | None => False
  end.

Section invariant.
Context {E : Type}.
Implicit Types d : Decree E.

(** The objects a statement of the decree shows, and those it holds back: only these are ever emptied. *)
Definition shown d (l : loc) : Prop :=
  d_currentBallot d = Some l ∨ d_pBallot d = Some l ∨ d_qBallot d = Some l ∨ ∃ x m, d_ballots d !! x = Some m ∧ refers m l.
Definition held d (l : loc) : Prop := d_hBallot d = Some l ∨ d_cBallot d = Some l.

(** A stored statement that the decree has built is of its phase, or of an earlier one. *)
Definition stored_ok d (x : string) (m : MStatement) : Prop :=
  x = s_NodeID (ms_val m) ∧
  (is_Some (ms_refs m) → stmt_type_num (s_Type (ms_val m)) <= phase_num (d_currentPhase d) + 1).

(** The shape of the state, whatever its counters and values are. *)
Record shaped d : Prop := {
  sh_heap : ∀ l b, d_heap d !! l = Some b → (l < d_next d)%positive;
  sh_shown : ∀ l, shown d l → (l < d_next d)%positive ∧ ¬ held d l;
  sh_held : ∀ l, held d l → (l < d_next d)%positive;
  sh_stored : ∀ x m, d_ballots d !! x = Some m → stored_ok d x m;
}.

(** An object that nothing refers to. *)
Definition unused d (l : loc) : Prop := (l < d_next d)%positive ∧ ¬ shown d l ∧ ¬ held d l.

(** What the shape depends on. *)
Definition form d :=
  (d_heap d, d_next d, d_ballots d, d_currentPhase d, (d_currentBallot d, d_pBallot d, d_qBallot d), (d_hBallot d, d_cBallot d)).

Lemma shaped_form d d' : form d' = form d → shaped d → shaped d'.
Proof.
  unfold form. intros Hf. injection Hf as H1 H2 H3 H4 H5 H6 H7 H8 H9. intros [Ha Hb Hc Hd].
  split; unfold shown, held, stored_ok in *; rewrite ?H1, ?H2, ?H3, ?H4, ?H5, ?H6, ?H7, ?H8, ?H9; assumption.
Qed.

Lemma shaped_alloc b d : shaped d → shaped (alloc b d).1 ∧ unused (alloc b d).1 (d_next d).
Proof.
  intros [Ha Hb Hc Hd].
  assert (∀ l, (l < d_next d → l < Pos.succ (d_next d))%positive) as Hlt by lia.
  split; [split|split; [|split]]; simpl.
  - intros l b' [[<- _]|[_ Hl]]%lookup_insert_Some; [lia|]. eauto.
  - intros l Hl. destruct (Hb l Hl). auto.
  - intros l Hl. auto.
  - done.
  - lia.
  - intros Hl. destruct (Hb _ Hl). lia.
  - intros Hl. specialize (Hc _ Hl). lia.
Qed.

(** The variables that are shown. *)
Lemma shaped_show (cu p q : option loc) d :
  shaped d → (∀ l, cu = Some l ∨ p = Some l ∨ q = Some l → (l < d_next d)%positive ∧ ¬ held d l) →
  shaped (set_currentBallot cu (set_pBallot p (set_qBallot q d))).
Proof.
  intros [Ha Hb Hc Hd] Hl. split; simpl; try done. intros l [H|[H|[H|H]]]; try (apply Hl; tauto).
  apply Hb. by do 3 right.
Qed.
(** The variables that are held back. *)
Lemma shaped_hold (h c : option loc) d :
  shaped d → (∀ l, h = Some l ∨ c = Some l → (l < d_next d)%positive ∧ ¬ shown d l) →
  shaped (set_hBallot h (set_cBallot c d)).
Proof.
  intros [Ha Hb Hc Hd] Hl. split; simpl; try done.
  - intros l Hs. split; [by apply Hb|]. intros Hh. by destruct (Hl l Hh).
  - intros l Hh. by destruct (Hl l Hh).
Qed.
Lemma shaped_phase ph d : phase_num (d_currentPhase d) <= phase_num ph → shaped d → shaped (set_currentPhase ph d).
Proof.
  intros Hp [Ha Hb Hc Hd]. split; simpl; try done. intros x m Hx. destruct (Hd x m Hx) as [? Ht]. split; [done|].
  simpl. intros Hr. specialize (Ht Hr). lia.
Qed.
Lemma shaped_write l b d : (l < d_next d)%positive → shaped d → shaped (set_heap (<[l := b]> (d_heap d)) d).
Proof. intros Hl [Ha Hb Hc Hd]. split; simpl; try done. intros l' b' [[<- _]|[_ ?]]%lookup_insert_Some; eauto. Qed.
Lemma shaped_store m d :
  stored_ok d (s_NodeID (ms_val m)) m → (∀ l, refers m l → shown d l) → shaped d →
  shaped (set_ballots (<[s_NodeID (ms_val m) := m]> (d_ballots d)) d).
Proof.
  intros Hm Hr [Ha Hb Hc Hd]. split; simpl; try done.
  - intros l Hs. apply Hb. destruct Hs as [H|[H|[H|(x & m' & Hx & H)]]]; [by left|by right; left|by do 2 right; left|].
    simpl in Hx. apply lookup_insert_Some in Hx as [[_ <-]|[_ Hx]]; [by apply Hr|]. do 3 right. by exists x, m'.
  - intros x m' [[<- <-]|[_ Hx]]%lookup_insert_Some; [done|by apply Hd].
Qed.
End invariant.

(** * Measures *)

Definition phases : list BallotPhase := [BallotPhasePrepare; BallotPhaseConfirm; BallotPhaseExternalize].

Section measures.
Context {E : Type} (C : list Z) (V : list string) (me : string) (idx : Z) (qh : string).
Implicit Types d : Decree E.

(** The shape, and all counters and values in the space. *)
Record inv d : Prop := {
  i_ids : d_nodeID d = me ∧ d_index d = idx ∧ d_quorumHash d = qh;
  i_shaped : shaped d;
  i_heap : ∀ l b, d_heap d !! l = Some b → bal C V b;
  i_stored : ∀ x m, d_ballots d !! x = Some m → within C V (ms_val m);
  i_values : d_nextValue d ∈ V ∧ d_latestComposite d ∈ V;
}.

(** The node's own statement as it is stored, and what would replace it. *)
Definition own d : option Statement := resolve (d_heap d) <$> d_ballots d !! me.
Definition newer_than (o : option Statement) (t : Statement) : bool :=
  match o with
  | None => true
  | Some s => match isNewerBallot s t with Ok b => b | _ => false end
  end.

(** A statement that the node might still store for itself. *)
Definition pending d (t : Statement) : Prop :=
  phase_num (d_currentPhase d) + 1 <= stmt_type_num (s_Type t) ∧ newer_than (own d) t = true.
(** A place that the current ballot might still reach. *)
Definition higher d (x : BallotPhase * option Ballot) : Prop :=
  phase_num (d_currentPhase d) < phase_num x.1 ∨ d_currentPhase d = x.1 ∧ compareBallots (cur d) x.2 < 0.

#[global] Instance pending_dec d t : Decision (pending d t).
Proof. unfold pending. apply _. Defined.
#[global] Instance higher_dec d x : Decision (higher d x).
Proof. unfold higher. apply _. Defined.

Definition statements_left d : nat := ahead (pending d) (own_statements C V me idx qh).
Definition ballots_left d : nat := ahead (higher d) (ph ← phases; o ← ballots C V; [(ph, o)]).

Definition descends d d' : Prop := (statements_left d' ≤ statements_left d ∧ ballots_left d' ≤ ballots_left d)%nat.
#[global] Instance descends_preorder : PreOrder descends.
Proof. split; [by split|]. intros a b c [? ?] [? ?]. split; lia. Qed.

(** A change that keeps the stored statements and the phase, and does not lower the current ballot. *)
Definition mild d d' : Prop :=
  d_ballots d' = d_ballots d ∧ d_currentPhase d' = d_currentPhase d ∧
  (∀ x m l, d_ballots d !! x = Some m → refers m l → d_heap d' !! l = d_heap d !! l) ∧
  compareBallots (cur d) (cur d') <= 0.
#[global] Instance mild_preorder : PreOrder mild.
Proof.
  split; [intros d; split_and!; try done; by rewrite compareBallots_refl|].
  intros a b c (H1 & H2 & H3 & H4) (H1' & H2' & H3' & H4'). split_and!; [congruence..| |by eapply compareBallots_le_trans].
  intros x m l Hx Hl. rewrite (H3' x m l); [by eapply H3|by rewrite H1|done].
Qed.

Lemma resolve_type h m : s_Type (resolve h m) = s_Type (ms_val m).
Proof. unfold resolve. by destruct (ms_refs m) as [[[]]|]. Qed.

(** What a statement is compared by does not change when what it refers to does not. *)
Lemma newer_resolve h h' m t :
  (∀ l, refers m l → h' !! l = h !! l) → newer_than (Some (resolve h' m)) t = newer_than (Some (resolve h m)) t.
Proof.
  intros Hl. destruct (decide (s_Type (ms_val m) = StatementType_EXTERNALIZE)) as [He|He].
  - unfold newer_than, isNewerBallot. rewrite !resolve_type, He. case_decide as Ht; [done|]. by rewrite <-Ht.
  - assert (resolve h' m = resolve h m) as ->; [|done]. unfold resolve, refers in *. destruct (ms_refs m) as [[[b p] q]|]; [|done].
    assert (∀ o, o = b ∨ o = p ∨ o = q → (o ≫= λ l, h' !! l) = (o ≫= λ l, h !! l)) as Ho.
    { intros [l|] Hin; [|done]. apply Hl. split; [done|]. naive_solver. }
    by rewrite (Ho b), (Ho p), (Ho q) by tauto.
Qed.

Lemma mild_newer d d' t : mild d d' → newer_than (own d') t = newer_than (own d) t.
Proof.
  intros (Hb & _ & Hh & _). unfold own. rewrite Hb. destruct (d_ballots d !! me) as [m|] eqn:Hm; [|done].
  apply newer_resolve. intros l. by apply (Hh me).
Qed.

Lemma mild_descends d d' : mild d d' → descends d d'.
Proof.
  intros Hm. pose proof (λ t, mild_newer d d' t Hm) as Hn. destruct Hm as (_ & Hp & _ & Hc). split; apply ahead_le.
  - intros t _. unfold pending. rewrite Hp, Hn. done.
  - intros [ph o] _ [H|[H1 H2]]; rewrite Hp in *; [by left|right]. simpl in *. split; [done|].
    destruct (decide (compareBallots (cur d) (cur d') = 0)) as [->%compareBallots_eq|]; [done|].
    apply (compareBallots_lt_trans _ (cur d')); [lia|done].
Qed.

(** A new phase: a statement of it is newer than all that the decree has stored for itself. *)
Lemma rise_descends d d' :
  inv d → d_ballots d' = d_ballots d → phase_num (d_currentPhase d) < phase_num (d_currentPhase d') → descends d d'.
Proof.
  intros Hi Hb Hp. split; apply ahead_le; [|intros x _ [?|[Heq _]]; left; rewrite <-?Heq; lia].
  intros t _ [Ht Hn]. split; [lia|]. unfold own in *. rewrite Hb in Hn.
  destruct (d_ballots d !! me) as [m|] eqn:Hm; [|done].
  destruct (sh_stored _ (i_shaped _ Hi) _ _ Hm) as [_ Hr]. destruct (ms_refs m) as [r|] eqn:He.
  - specialize (Hr ltac:(eauto)). simpl. unfold isNewerBallot. rewrite resolve_type.
    rewrite decide_True by (intros Heq; rewrite <-Heq in Ht; lia). rewrite bool_decide_true by lia. done.
  - simpl in *. unfold resolve in *. by rewrite He in *.
Qed.

(** A higher current ballot. *)
Lemma climb_strict d d' :
  d_currentPhase d' = d_currentPhase d → compareBallots (cur d) (cur d') < 0 → obal C V (cur d') →
  (ballots_left d' < ballots_left d)%nat.
Proof.
  intros Hp Hc Ho. apply (ahead_lt _ _ _ (d_currentPhase d, cur d')).
  - intros [ph o] _ [H|[H1 H2]]; rewrite Hp in *; [by left|right]. split; [done|]. by eapply compareBallots_lt_trans.
  - apply list_elem_of_bind. exists (d_currentPhase d). split; [|unfold phases; destruct (d_currentPhase d); set_solver].
    apply list_elem_of_bind. exists (cur d'). split; [by left|by apply elem_of_ballots].
  - by right.
  - intros [H|[_ H]]; simpl in H; [rewrite Hp in H; lia|]. by rewrite compareBallots_refl in H.
Qed.

Lemma newer_than_trans o s t : newer_than o s = true → newer_than (Some s) t = true → newer_than o t = true.
Proof.
  destruct o as [a|]; [|done]. unfold newer_than. destruct (isNewerBallot a s) as [[]| | |] eqn:H1; try done.
  destruct (isNewerBallot s t) as [[]| | |] eqn:H2; try done. intros _ _.
  by rewrite (proj2 (proj2 (isNewerBallot_strict_order a s t)) H1 H2).
Qed.
Lemma newer_than_irrefl s : newer_than (Some s) s = false.
Proof.
  unfold newer_than. pose proof (proj1 (isNewerBallot_strict_order s s s)) as H.
  by destruct (isNewerBallot s s) as [[]| | |].
Qed.

Lemma within_resolve d m : (∀ l b, d_heap d !! l = Some b → bal C V b) → within C V (ms_val m) → within C V (resolve (d_heap d) m).
Proof.
  intros Hh. unfold within, resolve. destruct (ms_refs m) as [[[b p] q]|]; [|done]. simpl.
  assert (∀ o, obal C V (o ≫= λ l, d_heap d !! l)) as Ho by (intros [l|] x Hx; [by eapply Hh|done]).
  destruct (s_Stmt (ms_val m)) as [[|x|x|x]|]; simpl; naive_solver.
Qed.
Lemma view_within d x s : inv d → view d !! x = Some s → within C V s.
Proof.
  intros Hi. unfold view. rewrite lookup_fmap. intros (m & <- & Hm)%fmap_Some_1 || intros (m & Hm & ->)%fmap_Some_1.
  apply within_resolve; [apply Hi|by eapply i_stored].
Qed.
Lemma rd_bal d o : inv d → obal C V (rd d o).
Proof. intros Hi b Hb. destruct o as [l|]; [|done]. by eapply i_heap. Qed.

(** ** The statement that a decree builds *)

Ltac in_bind x := apply list_elem_of_bind; exists x; split; [|by first [apply elem_of_ballots|assumption]].

Lemma own_prepare b p q h l :
  obal C V b → obal C V p → obal C V q → h ∈ C → l ∈ C →
  mkStatement StatementType_PREPARE me idx (Some (Stmt_Prepare (mkPrepare b q p h l qh))) ∈ own_statements C V me idx qh.
Proof. intros. apply elem_of_app. left. in_bind b. in_bind p. in_bind q. in_bind h. in_bind l. by left. Qed.
Lemma own_confirm b p l h :
  obal C V b → p ∈ C → l ∈ C → h ∈ C →
  mkStatement StatementType_CONFIRM me idx (Some (Stmt_Confirm (mkConfirm b p l h qh))) ∈ own_statements C V me idx qh.
Proof. intros. apply elem_of_app. right. apply elem_of_app. left. in_bind b. in_bind p. in_bind l. in_bind h. by left. Qed.
Lemma own_externalize b h :
  obal C V b → h ∈ C →
  mkStatement StatementType_EXTERNALIZE me idx (Some (Stmt_Externalize (mkExternalize b h qh))) ∈ own_statements C V me idx qh.
Proof. intros. apply elem_of_app. right. apply elem_of_app. right. in_bind b. in_bind h. by left. Qed.

Hypothesis C_zero : 0 ∈ C.

Lemma own_statement d m :
  inv d → ballot_statement d = Ok m →
  resolve (d_heap d) m = ms_val m ∧ ms_val m ∈ own_statements C V me idx qh ∧ within C V (ms_val m) ∧
  s_NodeID (ms_val m) = me ∧ s_Index (ms_val m) = idx ∧
  stmt_type_num (s_Type (ms_val m)) = phase_num (d_currentPhase d) + 1 ∧ ∀ l, refers m l → shown d l.
Proof.
  intros Hi Hm. destruct (i_ids _ Hi) as (Hme & Hidx & Hqh). unfold ballot_statement in Hm.
  rewrite Hme, Hidx, Hqh in Hm. pose proof (λ o, rd_bal d o Hi) as Hrd.
  assert (∀ o b, rd d o = Some b → b_Counter b ∈ C) as Hcnt by (intros o b Hb; by destruct (Hrd o b Hb)).
  destruct (d_currentPhase d) eqn:Hph; simpl in Hm.
  - injection Hm as <-. simpl.
    assert (∀ o, match rd d o with Some b => b_Counter b | None => 0 end ∈ C) as Hc.
    { intros o. destruct (rd d o) eqn:Ho; [by eapply Hcnt|done]. }
    split_and!; [done|apply own_prepare|unfold within; simpl; split_and!|..]; try done; try apply Hrd; try apply Hc.
    intros l [_ [H|[H|H]]]; unfold shown; tauto.
  - destruct (pb d) as [p|] eqn:Hp, (cb d) as [c|] eqn:Hc, (hb d) as [h|] eqn:Hh; try done. injection Hm as <-. simpl.
    split_and!; [done|apply own_confirm|unfold within; simpl; split_and!|..]; try done; try apply Hrd; eauto.
    intros l [_ [H|[H|H]]]; try done. by left.
  - destruct (hb d) as [h|] eqn:Hh; try done. injection Hm as <-. simpl.
    split_and!; [done|apply own_externalize|unfold within; simpl; split_and!|..]; try done; try apply Hrd; eauto. by intros l [].
Qed.

(** The node replaces its own statement by a newer one of its phase. *)
Lemma store_own_strict d m :
  inv d → ballot_statement d = Ok m → newer_than (own d) (ms_val m) = true →
  (statements_left (set_ballots (<[me := m]> (d_ballots d)) d) < statements_left d)%nat.
Proof.
  intros Hi Hm Hn. destruct (own_statement d m Hi Hm) as (Hr & Hin & _ & _ & _ & Ht & _).
  assert (own (set_ballots (<[me := m]> (d_ballots d)) d) = Some (ms_val m)) as Ho.
  { unfold own. simpl. rewrite lookup_insert_eq. simpl. by rewrite Hr. }
  apply (ahead_lt _ _ _ (ms_val m)); [|done| |].
  - intros t _ [H1 H2]. split; [done|]. rewrite Ho in H2. by eapply newer_than_trans.
  - split; [lia|done].
  - intros [_ H]. rewrite Ho, newer_than_irrefl in H. done.
Qed.
End measures.
