(* ===== verification/Termination.v ===== *)
(** The recursion of the ballot protocol comes to an end.

    An operation that does not send is [gentle]: it returns and keeps the invariant of [Space].  One that sends [halts] if the
    messages of the decree to itself are handled while fewer statements are left.  The handlers of [Decree] are taken in the order
    in which they call each other, up to [recvBallot_own], by induction on the statements that are left, and
    [recvBallot_outside], which is a message from another node.  The last part is about [ballotMsgCount], the counter that the
    code has to limit the recursion: [recursion_limit_leaks]. *)

From Stdlib Require Import SpecFloat.
From S2P Require Import Prelude Converge Pb Crypto Quorum Ballot Federated Decree Nomination Space.

Create HintDb gentle.

#[local] Arguments compareBallots : simpl never.
#[local] Arguments compatibleBallots : simpl never.

Section handlers.
Context {E : Type} {Env : DecreeEnv E} {Ret : EnvReturns E} {Crypto : CryptoLib} {Pbc : PbCodec} {GoRt : GoRuntime}.
Context (C : list Z) (V : list string) (me : string) (idx : Z) (qh : string).
Hypotheses (C_uint : ∀ c, c ∈ C → 0 <= c) (C_zero : 0 ∈ C) (C_max : MaxUint32 ∈ C) (V_empty : "" ∈ V).
Implicit Types d : Decree E.

#[local] Abbreviation inv := (Space.inv (E:=E) C V me idx qh).
#[local] Abbreviation descends := (Space.descends (E:=E) C V me idx qh).
#[local] Abbreviation statements_left := (Space.statements_left (E:=E) C V me idx qh).

(** * Operations that do not send *)

Definition gentle_at {A} (m : M (Decree E) A) d : Prop := returns (m d).2 ∧ inv (m d).1 ∧ mild d (m d).1.
Definition gentle {A} (m : M (Decree E) A) : Prop := ∀ d, inv d → gentle_at m d.

Lemma gentle_at_bind {A B} (m : M (Decree E) A) (k : A → M (Decree E) B) d :
  gentle_at m d → (∀ d1 a, m d = (d1, Ok a) → inv d1 → mild d d1 → gentle_at (k a) d1) → gentle_at (bind m k) d.
Proof.
  intros (Hr & Hi & Hm) Hk. unfold gentle_at, bind. destruct (m d) as [d1 [a|?|?|]]; simpl in *; try done.
  destruct (Hk d1 a eq_refl Hi Hm) as (? & ? & ?). split_and!; [done..|by etrans].
Qed.
Lemma gentle_bind {A B} (m : M (Decree E) A) (k : A → M (Decree E) B) : gentle m → (∀ a, gentle (k a)) → gentle (bind m k).
Proof. intros Hm Hk d Hi. apply gentle_at_bind; [by apply Hm|]. intros. by apply Hk. Qed.

Lemma gentle_read {A} (m : M (Decree E) A) : (∀ d, (m d).1 = d ∧ returns (m d).2) → gentle m.
Proof. intros Hm d Hi. destruct (Hm d) as [He Hr]. unfold gentle_at. rewrite He. done. Qed.
Lemma gentle_ret {A} (a : A) : gentle (ret a).
Proof. by apply gentle_read. Qed.
Lemma gentle_fail {A} e : gentle (fail (A:=A) e).
Proof. by apply gentle_read. Qed.
Lemma gentle_panic {A} w : gentle (panic (A:=A) w).
Proof. by apply gentle_read. Qed.
Lemma gentle_lift {A} (r : res A) : returns r → gentle (lift r).
Proof. intros. by apply gentle_read. Qed.
Lemma gentle_get : gentle get.
Proof. by apply gentle_read. Qed.
Lemma gentle_check : gentle (checkInvariants (E:=E)).
Proof. apply gentle_read. intros d. split; [done|apply returns_checkBallotInvariants]. Qed.
Lemma gentle_accept vf af : (∀ s, returns (vf s)) → (∀ s, returns (af s)) → gentle (ballot_accept (E:=E) vf af).
Proof. intros. apply gentle_read. intros d. split; [done|]. by apply returns_federatedAccept. Qed.
Lemma gentle_ratify f : (∀ s, returns (f s)) → gentle (ballot_ratify (E:=E) f).
Proof. intros. apply gentle_read. intros d. split; [done|]. by apply returns_federatedRatify. Qed.

(** What the invariant and the measures depend on. *)
Definition body d := (form d, (d_nodeID d, d_index d, d_quorumHash d), (d_nextValue d, d_latestComposite d)).
Lemma inv_body d d' : body d' = body d → inv d → inv d' ∧ mild d d'.
Proof.
  unfold body, form. intros Hb [Hids Hsh Hh Hst Hv]. injection Hb as F1 F2 F3 F4 F5 F6 F7 F8 F9 H1 H2 H3 H4 H5. split.
  - split; rewrite ?H1, ?H2, ?H3, ?H4, ?H5, ?F1, ?F3; try done. apply (shaped_form d); [unfold form; congruence|done].
  - split_and!; try done; [by rewrite F1|]. unfold cur, rd. rewrite F1, F5. by rewrite compareBallots_refl.
Qed.
Lemma gentle_modify (f : Decree E → Decree E) : (∀ d, body (f d) = body d) → gentle (modify f).
Proof. intros Hf d Hi. destruct (inv_body d (f d) (Hf d) Hi). by split_and!. Qed.

(** The shape decides; the values are in the space. *)
Lemma inv_shape d d' :
  inv d → shaped d' → (d_nodeID d', d_index d', d_quorumHash d') = (d_nodeID d, d_index d, d_quorumHash d) →
  (∀ l b, d_heap d' !! l = Some b → bal C V b) → d_ballots d' = d_ballots d → d_nextValue d' ∈ V →
  d_latestComposite d' = d_latestComposite d → inv d'.
Proof.
  intros [Hids Hsh Hh Hst Hv] Hs Hid Hh' Hb Hn Hc. injection Hid as H1 H2 H3.
  split; rewrite ?H1, ?H2, ?H3, ?Hb, ?Hc; try done. split; [done|apply Hv].
Qed.

Lemma gentle_nextValue v : v ∈ V → gentle (modify (set_nextValue (E:=E) v)).
Proof.
  intros Hv d Hi. split_and!; [done| |split_and!; try done; by rewrite compareBallots_refl].
  apply (inv_shape d); try done; [|apply Hi]. eapply (shaped_form d); [done|apply Hi].
Qed.

Lemma bal_empty : bal C V (mkBallot 0 "").
Proof. by split. Qed.

Lemma alloc_gentle b d : inv d → bal C V b → gentle_at (alloc b) d ∧ unused (alloc b d).1 (d_next d).
Proof.
  intros Hi Hb. destruct (shaped_alloc b d (i_shaped _ _ _ _ _ _ Hi)) as [Hs Hu]. split; [|done].
  assert (∀ l, (l < d_next d)%positive → d_heap (alloc b d).1 !! l = d_heap d !! l) as Hold.
  { intros l Hl. simpl. apply lookup_insert_ne. lia. }
  split_and!; [done| |].
  - apply (inv_shape d); try done; [|apply Hi]. simpl. intros l b' [[_ <-]|[_ Hl]]%lookup_insert_Some; [done|by eapply i_heap].
  - split_and!; try done.
    + intros x m l Hx Hl. apply Hold. eapply sh_shown; [apply Hi|]. do 3 right. eauto.
    + assert (cur (alloc b d).1 = cur d) as ->; [|by rewrite compareBallots_refl].
      unfold cur, rd. change (d_currentBallot (alloc b d).1) with (d_currentBallot d).
      destruct (d_currentBallot d) as [l|] eqn:Hl; [|done]. apply Hold. eapply sh_shown; [apply Hi|by left].
Qed.

(** Emptying an object that is held back. *)
Lemma reset_gentle l d : inv d → held d l → gentle_at (reset (Some l)) d.
Proof.
  intros Hi Hl. pose proof (i_shaped _ _ _ _ _ _ Hi) as Hs. split_and!; [done| |].
  - apply (inv_shape d); try done; [| |apply Hi].
    + apply shaped_write; [by apply (sh_held _ Hs)|done].
    + simpl. intros l' b' [[_ <-]|[_ H]]%lookup_insert_Some; [apply bal_empty|by eapply i_heap].
  - assert (∀ l', shown d l' → d_heap (reset (Some l) d).1 !! l' = d_heap d !! l') as Hsh.
    { intros l' Hl'. simpl. apply lookup_insert_ne. intros <-. by destruct (sh_shown _ Hs _ Hl'). }
    split_and!; try done.
    + intros x m l' Hx Hr. apply Hsh. do 3 right. eauto.
    + assert (cur (reset (Some l) d).1 = cur d) as ->; [|by rewrite compareBallots_refl].
      unfold cur, rd. change (d_currentBallot (reset (Some l) d).1) with (d_currentBallot d).
      destruct (d_currentBallot d) as [l'|] eqn:Hl'; [|done]. apply Hsh. by left.
Qed.

(** ** The ballot variables *)

Lemma shown_ok d l : inv d → shown d l → (l < d_next d)%positive ∧ ¬ held d l.
Proof. intros Hi. apply (sh_shown _ (i_shaped _ _ _ _ _ _ Hi)). Qed.
Lemma held_ok d l : inv d → held d l → (l < d_next d)%positive ∧ ¬ shown d l.
Proof.
  intros Hi Hl. split; [by apply (sh_held _ (i_shaped _ _ _ _ _ _ Hi))|]. intros Hs. by destruct (shown_ok d l Hi Hs).
Qed.

Lemma show_gentle p q d :
  inv d → (∀ l, p = Some l ∨ q = Some l → (l < d_next d)%positive ∧ ¬ held d l) →
  inv (set_pBallot p (set_qBallot q d)) ∧ mild d (set_pBallot p (set_qBallot q d)).
Proof.
  intros Hi Hl. split; [|split_and!; try done; by rewrite compareBallots_refl].
  apply (inv_shape d); try done; [|apply Hi..]. apply (shaped_show (d_currentBallot d) p q); [apply Hi|].
  intros l [H|H]; [|by apply Hl]. apply shown_ok; [done|by left].
Qed.
Lemma hold_gentle h c d :
  inv d → (∀ l, h = Some l ∨ c = Some l → (l < d_next d)%positive ∧ ¬ shown d l) →
  inv (set_hBallot h (set_cBallot c d)) ∧ mild d (set_hBallot h (set_cBallot c d)).
Proof.
  intros Hi Hl. split; [|split_and!; try done; by rewrite compareBallots_refl].
  apply (inv_shape d); try done; [|apply Hi..]. apply shaped_hold; [apply Hi|done].
Qed.
Lemma set_hBallot_gentle l d : inv d → (l < d_next d)%positive → ¬ shown d l → gentle_at (modify (set_hBallot (Some l))) d.
Proof.
  intros Hi Hl Hs. destruct (hold_gentle (Some l) (d_cBallot d) d Hi); [|by split_and!].
  intros l' [[= <-]|H]; [done|]. apply held_ok; [done|by right].
Qed.
Lemma set_cBallot_gentle c d :
  inv d → (∀ l, c = Some l → (l < d_next d)%positive ∧ ¬ shown d l) → gentle_at (modify (set_cBallot c)) d.
Proof.
  intros Hi Hl. destruct (hold_gentle (d_hBallot d) c d Hi); [|by split_and!].
  intros l' [H|H]; [|by apply Hl]. apply held_ok; [done|by left].
Qed.

Lemma setAcceptPrepared_gentle l d : inv d → (l < d_next d)%positive → ¬ held d l → gentle_at (setAcceptPrepared l) d.
Proof.
  intros Hi Hl Hh.
  assert (∀ p q, (∀ l', p = Some l' ∨ q = Some l' → l' = l ∨ shown d l') →
    inv (set_pBallot p (set_qBallot q d)) ∧ mild d (set_pBallot p (set_qBallot q d))) as Hset.
  { intros p q H. apply show_gentle; [done|]. intros l' [->|Hs]%H; [done|by apply shown_ok]. }
  pose proof (Hset (Some l) (d_qBallot d)) as Hp. pose proof (Hset (d_pBallot d) (Some l)) as Hq.
  pose proof (Hset (Some l) (d_pBallot d)) as Hpq.
  assert (inv d ∧ mild d d) as Hsame by (split; [done|reflexivity]).
  unfold gentle_at, setAcceptPrepared, bind, get, modify, ret. simpl.
  unfold shown in *. repeat (case_match; simplify_eq/=); (split; [done|]);
    first [exact Hsame | refine (Hp _) | refine (Hq _) | refine (Hpq _)]; clear; naive_solver.
Qed.

(** A new current ballot.  The high ballot that it voids is emptied. *)
Definition ballot_updated (b : Ballot) (check : bool) d (dr : Decree E * res unit) : Prop :=
  returns dr.2 ∧ inv dr.1 ∧ d_ballots dr.1 = d_ballots d ∧ d_currentPhase dr.1 = d_currentPhase d ∧
  (dr.2 = Ok tt → cur dr.1 = Some b) ∧ (check = true → mild d dr.1).

Lemma current_gentle b d :
  inv d → bal C V b → let d2 := set_currentBallot (Some (d_next d)) (alloc b d).1 in
  inv d2 ∧ cur d2 = Some b ∧ (compareBallots (cur d) (Some b) <= 0 → mild d d2).
Proof.
  intros Hi Hb. destruct (alloc_gentle b d Hi Hb) as [(_ & Hi1 & Hm1) Hu]. set (d1 := (alloc b d).1) in *.
  set (d2 := set_currentBallot (Some (d_next d)) d1).
  assert (cur d2 = Some b) as Hcur by (unfold cur, rd; simpl; apply lookup_insert_eq). split_and!; [|done|].
  - apply (inv_shape d1); try done; [|apply Hi1..].
    change d2 with (set_currentBallot (Some (d_next d)) (set_pBallot (d_pBallot d1) (set_qBallot (d_qBallot d1) d1))).
    apply shaped_show; [apply Hi1|].
    destruct Hu as (Hu1 & _ & Hu2). intros l [[= <-]|H]; [done|]. apply shown_ok; [done|]. unfold shown. tauto.
  - intros Hc. destruct Hm1 as (M1 & M2 & M3 & _). split_and!; try done. by rewrite Hcur.
Qed.

(** The high ballot, emptied or not. *)
Lemma void_high d :
  inv d → ∃ d', (if bool_decide (is_Some (hb d)) && negb (compatibleBallots (cur d) (hb d))
                 then reset (d_hBallot d) else ret tt) d = (d', Ok tt) ∧ inv d' ∧ mild d d' ∧ cur d' = cur d.
Proof.
  intros Hi. destruct (bool_decide (is_Some (hb d)) && _) eqn:Hr; [|exists d; by split_and!].
  apply andb_true_iff in Hr as [[h Hh]%bool_decide_eq_true _]. unfold hb, rd in Hh.
  destruct (d_hBallot d) as [lh|] eqn:Hlh; [|done].
  destruct (reset_gentle lh d Hi) as (_ & Hi3 & Hm3); [by left|]. eexists. split; [done|]. split_and!; [done..|].
  unfold cur, rd. simpl. destruct (d_currentBallot d) as [l|] eqn:Hl; [|done]. simpl. apply lookup_insert_ne. intros ->.
  destruct (held_ok d l Hi) as [_ []]; by left.
Qed.

Lemma updateBallot_inv b check d : inv d → bal C V b → ballot_updated b check d (updateBallot (Some b) check d).
Proof.
  intros Hi Hb. assert (mild d d) by reflexivity. unfold updateBallot, bind at 1, get.
  destruct (active (d_currentPhase d)); [|by split_and!].
  destruct (check && _ && _) eqn:Hc; [by split_and!|].
  destruct (current_gentle b d Hi Hb) as (Hi2 & Hcur & Hm2). set (d2 := set_currentBallot _ _) in *.
  destruct (void_high d2 Hi2) as (d3 & He & Hi3 & Hm3 & Hc3).
  change (ballot_updated b check d ((if bool_decide (is_Some (hb d2)) && negb (compatibleBallots (cur d2) (hb d2))
                 then reset (d_hBallot d2) else ret tt) d2)). rewrite He.
  pose proof Hm3 as (M1 & M2 & _). split_and!; try done; [intros _; simpl; congruence|].
  intros ->. etrans; [apply Hm2|done]. destruct (cur d) as [b0|]; [|done].
  simpl in Hc. apply bool_decide_eq_false in Hc. lia.
Qed.

Lemma updateBallotIfNeeded_gentle o d : inv d → obal C V o → gentle_at (updateBallotIfNeeded o) d.
Proof.
  intros Hi Ho. unfold updateBallotIfNeeded. apply gentle_at_bind; [by apply gentle_get|]. intros d1 d' [= <- <-] _ _.
  case_match; [|by apply gentle_ret]. apply gentle_at_bind; [|intros; by apply gentle_ret].
  destruct o as [b|]; [|by apply gentle_panic]. destruct (updateBallot_inv b true d Hi (Ho b eq_refl)) as (? & ? & _ & _ & _ & Hm).
  split_and!; [done..|by apply Hm].
Qed.

(** ** Candidates *)

Lemma alloc_all_gentle bs d :
  inv d → Forall (bal C V) bs →
  ∃ d' ls, alloc_all bs d = (d', Ok ls) ∧ inv d' ∧ mild d d' ∧ (d_next d <= d_next d')%positive ∧
    (∀ l, shown d' l ↔ shown d l) ∧ (∀ l, held d' l ↔ held d l) ∧
    ∀ l, l ∈ ls → (d_next d <= l < d_next d')%positive.
Proof.
  revert d. induction bs as [|b bs IH]; intros d Hi Hbs; simpl.
  - exists d, []. split_and!; try done; set_solver.
  - apply Forall_cons in Hbs as [Hb Hbs]. destruct (alloc_gentle b d Hi Hb) as [(_ & Hi1 & Hm1) _].
    destruct (IH (alloc b d).1 Hi1 Hbs) as (d' & ls & He & Hi' & Hm' & Hn & Hs & Hh & Hl).
    exists d', (d_next d :: ls). unfold bind. simpl in *. rewrite He. split_and!; try done; [by etrans|lia|].
    intros l [->|Hin]%elem_of_cons; [lia|]. specialize (Hl l Hin). lia.
Qed.

(** The candidates are new objects, which nothing refers to. *)
Lemma prepared_candidates_gentle m d :
  inv d → within C V (ms_val m) → gentle_at (prepared_candidates m) d ∧
  ∀ d' ls, prepared_candidates m d = (d', Ok ls) → ∀ l, l ∈ ls → unused d' l.
Proof.
  intros Hi Hw. unfold gentle_at, prepared_candidates, bind, get, lift.
  pose proof (returns_getPreparedCandidates (resolve (d_heap d) m) (view d)) as Hr.
  assert (mild d d) as Hself by reflexivity.
  destruct (getPreparedCandidates _ _) as [bs| | |] eqn:Hc; try (split; [by split_and!|done]).
  destruct (alloc_all_gentle bs d Hi) as (d' & ls & He & Hi' & Hm & Hn & Hs & Hh & Hl).
  { apply Forall_forall. intros b Hb. eapply candidates_bal; [done| |by intros; eapply view_within|done|done].
    eapply within_resolve; [apply Hi|done]. }
  rewrite He. split; [by split_and!|]. intros d1 ls1 [= <- <-] l Hin. specialize (Hl l Hin). split_and!; [lia| |].
  - rewrite Hs. intros H%shown_ok; [lia|done].
  - rewrite Hh. intros H%held_ok; [lia|done].
Qed.

Lemma h_loop_read cands d :
  (h_loop cands d).1 = d ∧ returns (h_loop cands d).2 ∧
  ∀ h rest, (h_loop cands d).2 = Ok (Some (h, rest)) → h ∈ cands ∧ rest ⊆ cands.
Proof.
  induction cands as [|l cands IH]; [done|]. simpl. unfold bind, get. simpl.
  destruct (_ && _); [done|]. unfold ballot_ratify.
  pose proof (returns_federatedRatify (d_nodeID d) (d_quorum d) (env_GetQuorum (d_env d)) (prepareAcceptFilter (rd d (Some l))) (view d)
    ltac:(intros; apply returns_prepareAcceptFilter)) as Hr. simpl in Hr.
  destruct (federatedRatify _ _ _ _ _) as [[]| | |]; try done.
  - split_and!; [done..|]. intros h rest [= <- <-]. set_solver.
  - destruct IH as (? & ? & IH). split_and!; [done..|]. intros h rest [? ?]%IH. set_solver.
Qed.
Lemma c_loop_read curb h cands c d :
  (c_loop curb h cands c d).1 = d ∧ returns (c_loop curb h cands c d).2 ∧
  ∀ o, (c_loop curb h cands c d).2 = Ok o → o = c ∨ ∃ l, o = Some l ∧ l ∈ cands.
Proof.
  revert c. induction cands as [|l cands IH]; intros c; [split_and!; try done; naive_solver|]. simpl. unfold bind, get. simpl.
  destruct (decide _); [split_and!; try done; naive_solver|].
  assert (∀ o, (∃ l0, o = Some l0 ∧ l0 ∈ cands) → ∃ l0, o = Some l0 ∧ l0 ∈ l :: cands) as Hsub by set_solver.
  destruct (negb _). { destruct (IH c) as (? & ? & Ho). split_and!; try done. intros o [?|?]%Ho; auto. }
  unfold ballot_ratify.
  pose proof (returns_federatedRatify (d_nodeID d) (d_quorum d) (env_GetQuorum (d_env d)) (prepareAcceptFilter (rd d (Some l))) (view d)
    ltac:(intros; apply returns_prepareAcceptFilter)) as Hr. simpl in Hr.
  destruct (federatedRatify _ _ _ _ _) as [[]| | |]; try done; [|split_and!; try done; naive_solver].
  destruct (IH (Some l)) as (? & ? & Ho). split_and!; try done. intros o [->|?]%Ho; [right; set_solver|auto].
Qed.

Lemma commit_read (b : bool) curb h cands d :
  let m := if b then c_loop curb h cands None else ret None in
  (m d).1 = d ∧ returns (m d).2 ∧ ∀ o, (m d).2 = Ok o → ∀ l, o = Some l → l ∈ cands.
Proof.
  destruct b; simpl; [|by split_and!; try done; intros o [= <-]]. destruct (c_loop_read curb h cands None d) as (? & ? & Ho).
  split_and!; try done. intros o [->|(l' & -> & ?)]%Ho l; [done|]. by intros [= <-].
Qed.

(** * Operations that may send *)

(** The family settles, and leaves the invariant and a measure that is not higher. *)
Definition halts {A} (m : nat → M (Decree E) A) d : Prop :=
  settles m d (λ d' r, is_Panic r = false → inv d' ∧ descends d d').

Lemma halts_gentle {A} (m : M (Decree E) A) d : gentle_at m d → halts (λ _, m) d.
Proof. intros (Hr & Hi & Hm). apply settles_const; [done|]. intros _. split; [done|by apply mild_descends]. Qed.
Lemma halts_descends {A} (m : nat → M (Decree E) A) d d1 : descends d d1 → halts m d1 →
  settles m d1 (λ d' r, is_Panic r = false → inv d' ∧ descends d d').
Proof. intros Hd Hm. eapply settles_mono; [exact Hm|]. intros d' r _ H Hp. destruct (H Hp). split; [done|by etrans]. Qed.

Lemma halts_bind {A B} (m : nat → M (Decree E) A) (k : nat → A → M (Decree E) B) d :
  halts m d → (∀ d1 a, inv d1 → descends d d1 → halts (λ n, k n a) d1) → halts (λ n, bind (m n) (k n)) d.
Proof.
  intros Hm Hk. apply settles_bind. eapply settles_mono; [exact Hm|]. intros d1 [a|e|w|] _ H; simpl in *; try done.
  destruct (H eq_refl) as [Hi Hd]. apply halts_descends; [done|]. by apply Hk.
Qed.
Lemma halts_then {A B} (m : M (Decree E) A) (k : nat → A → M (Decree E) B) d :
  gentle_at m d → (∀ d1 a, m d = (d1, Ok a) → inv d1 → mild d d1 → halts (λ n, k n a) d1) → halts (λ n, bind m (k n)) d.
Proof.
  intros (Hr & Hi & Hm) Hk. apply settles_run; [done|]. destruct (m d) as [d1 [a|e|w|]]; simpl in *; try done.
  - apply halts_descends; [by apply mild_descends|]. by apply Hk.
  - intros _. split; [done|by apply mild_descends].
Qed.
(** Reading the state. *)
Lemma halts_get {B} (k : nat → Decree E → M (Decree E) B) d :
  halts (λ n, k n d) d → halts (λ n, bind get (k n)) d.
Proof. intros Hk. apply settles_run; done. Qed.
Lemma halts_lift {A B} (r : res A) (k : nat → A → M (Decree E) B) d :
  inv d → returns r → (∀ a, r = Ok a → halts (λ n, k n a) d) → halts (λ n, bind (lift r) (k n)) d.
Proof.
  intros Hi Hr Hk. apply halts_then; [by apply gentle_lift|]. intros d1 a Ha _ _. injection Ha as <- Ha. by apply Hk.
Qed.
Lemma halts_wrap {A} p (m : nat → M (Decree E) A) d : halts m d → halts (λ n, wrap p (m n)) d.
Proof. intros Hm. apply settles_wrap. eapply settles_mono; [exact Hm|]. intros d' [] _ H; apply H. Qed.
Lemma halts_try {A} (m : nat → M (Decree E) A) d : halts m d → halts (λ n, try (m n)) d.
Proof. intros Hm. apply settles_try. eapply settles_mono; [exact Hm|]. intros d' [] Hr H; try done; apply H. Qed.

Lemma halts_ret {A} (a : A) d : inv d → halts (λ _, ret a) d.
Proof. intros Hi. by apply halts_gentle, gentle_ret. Qed.
Lemma halts_fail {A} e d : inv d → halts (λ _, fail (A:=A) e) d.
Proof. intros Hi. by apply halts_gentle, gentle_fail. Qed.
Lemma halts_panic {A} w d : inv d → halts (λ _, panic (A:=A) w) d.
Proof. intros Hi. by apply halts_gentle, gentle_panic. Qed.

Section with_recv.
(** [recvBallot] for the messages of the decree to itself, while fewer than [k] statements are left. *)
Variables (recv : nat → MStatement → M (Decree E) unit) (k : nat).
Definition low d : Prop := (statements_left d < k)%nat.
Hypothesis recv_halts : ∀ d m, inv d → low d → ballot_statement d = Ok m → halts (λ n, recv n m) d.

Lemma low_descends d d' : descends d d' → low d → low d'.
Proof. unfold low. intros [? _] ?. lia. Qed.
Lemma low_mild d d' : mild d d' → low d → low d'.
Proof. intros H. eapply low_descends, mild_descends, H. Qed.
#[local] Hint Resolve low_descends low_mild : gentle.

Lemma gentle_newer_than_latest m : gentle (newer_than_latest (E:=E) m).
Proof.
  apply gentle_read. intros d. unfold newer_than_latest, bind, get, lift. destruct (d_latestBallot d); [|done].
  simpl. split; [done|apply returns_isNewerBallot].
Qed.

Lemma sendBallot_halts d : inv d → low d → halts (λ n, sendBallot_ (recv n)) d.
Proof.
  intros Hi Hlow. unfold sendBallot_. apply halts_bind; [|intros; by apply halts_ret]. apply halts_try. unfold sendBallot.
  apply halts_then; [by apply gentle_check|]. intros d1 [] Hc _ _. injection Hc as <- _. apply halts_get.
  apply halts_lift; [done|apply returns_ballot_statement|]. intros m Hm.
  case_decide; [by apply halts_ret|]. case_decide; [by apply halts_ret|].
  apply halts_bind; [by apply halts_wrap, recv_halts|]. intros d1 [] Hi1 _. apply halts_get.
  case_decide; [by apply halts_ret|]. apply halts_then; [by apply gentle_newer_than_latest|]. intros d2 b _ Hi2 _.
  destruct b; [|by apply halts_ret]. apply halts_gentle. apply gentle_at_bind; [by apply gentle_modify|].
  intros. by apply gentle_modify.
Qed.

(** ** Accepting and confirming *)

Lemma accept_candidate_halts l d :
  inv d → low d → (l < d_next d)%positive → ¬ held d l → halts (λ n, accept_candidate (recv n) l) d.
Proof.
  intros Hi Hlow Hl Hh. unfold accept_candidate. apply halts_then; [by apply setAcceptPrepared_gentle|].
  intros d1 u _ Hi1 Hm1. apply halts_get. apply halts_then.
  - case_match eqn:Hv; [|by apply gentle_ret]. apply gentle_at_bind; [|intros; by apply gentle_ret].
    destruct (d_cBallot d1) as [c|] eqn:Hc; [|by apply gentle_panic]. apply reset_gentle; [done|by right].
  - intros d2 u2 _ Hi2 Hm2. apply halts_bind; [|intros; by apply halts_ret].
    destruct u2; [|by apply halts_ret]. apply sendBallot_halts; eauto with gentle.
Qed.

Lemma accept_loop_halts ls d :
  inv d → low d → (∀ l, l ∈ ls → (l < d_next d)%positive ∧ ¬ held d l) → halts (λ n, accept_loop (recv n) ls) d.
Proof.
  intros Hi Hlow. induction ls as [|l ls IH]; intros Hl; [by apply halts_ret|]. simpl.
  specialize (IH ltac:(set_solver)). destruct (Hl l ltac:(set_solver)). apply halts_get.
  case_match; [done|]. case_match; [by apply halts_panic|]. case_match; [done|]. case_match; [done|].
  apply halts_then. { apply gentle_accept; [intros; apply returns_prepareVoteFilter|intros; apply returns_prepareAcceptFilter|done]. }
  intros d1 b Ha _ _. injection Ha as <- _. destruct b; [by apply accept_candidate_halts|done].
Qed.

Lemma acceptPrepared_halts m d : inv d → low d → within C V (ms_val m) → halts (λ n, acceptPrepared (recv n) m) d.
Proof.
  intros Hi Hlow Hw. unfold acceptPrepared. apply halts_get. case_match; [|by apply halts_ret].
  destruct (prepared_candidates_gentle m d Hi Hw) as [Hg Hu]. apply halts_then; [done|]. intros d1 ls Hls Hi1 Hm1.
  apply accept_loop_halts; eauto with gentle. intros l Hl. by destruct (Hu d1 ls Hls l Hl) as (? & _ & ?).
Qed.

Lemma deref_bal d o hv : inv d → rd d o = Some hv → bal C V hv.
Proof. intros Hi Hv. by eapply rd_bal. Qed.

(** The high and the commit ballot, each set or not. *)
Lemma hold_if_gentle (setH setC : bool) h c d :
  inv d → unused d h → (∀ l, c = Some l → unused d l) →
  gentle_at (do! (if setH then modify (set_hBallot (Some h)) else ret tt) in
             do! (if setC then modify (set_cBallot c) else ret tt) in ret (setH || setC)) d.
Proof.
  intros Hi (Hh1 & Hh2 & _) Hc. apply gentle_at_bind.
  { destruct setH; [by apply set_hBallot_gentle|by apply gentle_ret]. }
  intros d1 [] Hd1 Hi1 Hm1. apply gentle_at_bind; [|intros; by apply gentle_ret].
  destruct setC; [|by apply gentle_ret]. apply set_cBallot_gentle; [done|]. intros l Hl. destruct (Hc l Hl) as (H1 & H2 & _).
  destruct setH; injection Hd1 as <-; done.
Qed.

Lemma setConfirmPrepared_halts c h d :
  inv d → low d → unused d h → (∀ l, c = Some l → unused d l) → halts (λ n, setConfirmPrepared (recv n) c h) d.
Proof.
  intros Hi Hlow Hh Hc. unfold setConfirmPrepared. apply halts_get. apply halts_lift; [done|apply returns_deref|].
  intros hv Hhv. destruct (rd d (Some h)) as [hv'|] eqn:Hrd; [|done]. injection Hhv as ->.
  pose proof (deref_bal d _ hv Hi Hrd) as Hbal. apply halts_then; [apply gentle_nextValue; [apply Hbal|done]|].
  intros d1 [] Hd1 Hi1 Hm1. injection Hd1 as Hd1. assert (∀ l, unused d l → unused d1 l) as Hun by (by rewrite <-Hd1).
  apply halts_then.
  { case_match; [apply hold_if_gentle|apply gentle_ret]; auto. }
  intros d2 u _ Hi2 Hm2. apply halts_then.
  { apply updateBallotIfNeeded_gentle; [done|]. by intros b [= <-]. }
  intros d3 needed _ Hi3 Hm3. apply halts_bind; [|intros; by apply halts_ret].
  destruct (needed || u); [|by apply halts_ret]. apply sendBallot_halts; eauto with gentle.
Qed.

Lemma confirmPrepared_halts m d : inv d → low d → within C V (ms_val m) → halts (λ n, confirmPrepared (recv n) m) d.
Proof.
  intros Hi Hlow Hw. unfold confirmPrepared. apply halts_get. case_match; [by apply halts_ret|].
  destruct (prepared_candidates_gentle m d Hi Hw) as [Hg Hu]. apply halts_then; [done|]. intros d1 ls Hls Hi1 Hm1.
  specialize (Hu d1 ls Hls). destruct (h_loop_read ls d1) as (He & Hr & Hh).
  apply halts_then. { split_and!; [done|by rewrite He|by rewrite He]. }
  intros d2 [[h rest]|] Ho _ _; rewrite Ho in *; simpl in He; subst d2; [|by apply halts_ret].
  destruct (Hh h rest eq_refl) as [Hin Hsub]. apply halts_get.
  match goal with |- context [if ?t then c_loop ?cu ?hv rest None else ret None] =>
    destruct (commit_read t cu hv rest d1) as (He2 & Hr2 & Hc2) end.
  apply halts_then. { split_and!; [done|by rewrite He2|by rewrite He2]. }
  intros d2 c Hc _ _. rewrite Hc in *. simpl in He2. subst d2. apply setConfirmPrepared_halts; eauto with gentle.
Qed.

(** A state that is reached without sending. *)
Definition fine {A} d (dr : Decree E * res A) : Prop := returns dr.2 ∧ inv dr.1 ∧ descends d dr.1.

(** The step to the second phase. *)
Lemma confirm_phase (t : bool) hv d :
  inv d → d_currentPhase d = BallotPhasePrepare → bal C V hv →
  fine d ((do! modify (set_currentPhase BallotPhaseConfirm) in
           do! (if t then updateBallot (Some hv) false else ret tt) in
           let! d := get in
           do! (if decide (is_Some (qb d)) then reset (d_qBallot d) else ret tt) in
           ret true) d).
Proof.
  intros Hi Hph Hb. set (d1 := set_currentPhase BallotPhaseConfirm d).
  assert (inv d1) as Hi1.
  { apply (inv_shape d); try done; [|apply Hi..]. apply shaped_phase; [by rewrite Hph|apply Hi]. }
  assert (∃ d2 r, (if t then updateBallot (Some hv) false else ret tt) d1 = (d2, r) ∧ returns r ∧ inv d2 ∧
    d_ballots d2 = d_ballots d ∧ d_currentPhase d2 = BallotPhaseConfirm) as (d2 & r & He & Hr & Hi2 & Hb2 & Hp2).
  { destruct t; [|exists d1, (Ok tt); by split_and!].
    destruct (updateBallot_inv hv false d1 Hi1 Hb) as (? & ? & ? & ? & _). destruct (updateBallot _ _ _) as [d2 r]. by exists d2, r. }
  unfold bind at 1, modify. lazy beta iota. fold d1. unfold bind at 1. lazy beta. rewrite He.
  assert (descends d d2) as Hd by (apply rise_descends; [done|done|by rewrite Hph, Hp2]).
  destruct r as [[]| | |]; try done. unfold bind, get. case_decide as Hq; [|done].
  unfold qb, rd in Hq. destruct (d_qBallot d2) as [l|] eqn:Hl; [|by destruct Hq]. simpl. split; [done|].
  assert (inv (set_heap (<[l := mkBallot 0 ""]> (d_heap d2)) d2)) as Hi3.
  { apply (inv_shape d2); try done; [| |apply Hi2].
    - apply shaped_write; [|apply Hi2]. apply (shown_ok d2); [done|]. right. right. by left.
    - simpl. intros l' b' [[_ <-]|[_ H]]%lookup_insert_Some; [apply bal_empty|by eapply i_heap]. }
  split; [done|]. apply rise_descends; [done|done|]. simpl. by rewrite Hph, Hp2.
Qed.

Lemma halts_run {A B} (m : M (Decree E) A) (f : nat → A → M (Decree E) B) d :
  fine d (m d) →
  (∀ d1 a, m d = (d1, Ok a) → inv d1 → descends d d1 → halts (λ n, f n a) d1) → halts (λ n, bind m (f n)) d.
Proof.
  intros (Hr & Hi & Hd) Hf. apply settles_run; [done|]. destruct (m d) as [d1 [a|e|w|]]; simpl in *; try done.
  apply halts_descends; [done|]. by apply Hf.
Qed.

Lemma setAcceptCommit_halts c h d :
  inv d → low d → unused d c → unused d h → halts (λ n, setAcceptCommit (recv n) c h) d.
Proof.
  intros Hi Hlow (Hc1 & Hc2 & _) (Hh1 & Hh2 & _). unfold setAcceptCommit. apply halts_get. apply halts_lift; [done|apply returns_deref|].
  intros hv Hhv. destruct (rd d (Some h)) as [hv'|] eqn:Hrd; [|done]. injection Hhv as ->.
  pose proof (deref_bal d _ hv Hi Hrd) as Hbal. apply halts_then; [apply gentle_nextValue; [apply Hbal|done]|].
  intros d1 [] Hd1 Hi1 Hm1. injection Hd1 as Hd1.
  apply halts_then.
  { case_match; [|by apply gentle_ret]. rewrite <-Hd1 in *. apply gentle_at_bind; [by apply set_hBallot_gentle|].
    intros d2 [] Hd2 Hi2 _. injection Hd2 as <-. apply set_cBallot_gentle; [done|]. by intros l [= <-]. }
  intros d2 [] _ Hi2 Hm2. assert (d_currentPhase d2 = d_currentPhase d) as Hp2 by (destruct Hm1 as (_&?&_), Hm2 as (_&?&_); congruence).
  apply halts_run.
  { case_decide as Hph; [apply confirm_phase; [done|congruence|done]|]. split_and!; [done..|reflexivity]. }
  intros d3 u _ Hi3 Hd3. apply halts_bind; [|intros; by apply halts_ret].
  destruct u; [|by apply halts_ret]. apply halts_get.
  apply halts_then; [apply updateBallotIfNeeded_gentle; [done|by eapply rd_bal]|]. intros d4 n _ Hi4 Hm4.
  apply sendBallot_halts; eauto with gentle.
Qed.

(** Two new ballots. *)
Lemma commit_pair_halts {A} (f : nat → loc → loc → M (Decree E) A) lb rb v d :
  inv d → bal C V (mkBallot lb v) → bal C V (mkBallot rb v) →
  (∀ c h d2, inv d2 → mild d d2 → d_currentPhase d2 = d_currentPhase d → unused d2 c → unused d2 h → halts (λ n, f n c h) d2) →
  halts (λ n, let! c := alloc (mkBallot lb v) in let! h := alloc (mkBallot rb v) in f n c h) d.
Proof.
  intros Hi Hl Hr Hf. destruct (alloc_gentle _ d Hi Hl) as [Hg1 Hu1]. apply halts_then; [done|].
  intros d1 c [= <- <-] Hi1 Hm1. destruct (alloc_gentle _ _ Hi1 Hr) as [Hg2 Hu2]. apply halts_then; [done|].
  intros d2 h [= <- <-] Hi2 Hm2. apply Hf; [done|by etrans|done| |done].
  destruct Hu1 as (H1 & H2 & H3). split_and!; [simpl in *; lia|done|done].
Qed.

Lemma interval_in d b cs F lb rb :
  inv d → getCommitCounters b (view d) = Ok cs → findCommitInterval cs F = Ok (lb, rb) → lb ∈ C ∧ rb ∈ C.
Proof.
  intros Hi Hcs. apply find_interval_in; try done. intros c. eapply commit_counters_in; [done| |done].
  intros. by eapply view_within.
Qed.

Lemma acceptCommit_halts m d : inv d → low d → within C V (ms_val m) → halts (λ n, acceptCommit (recv n) m) d.
Proof.
  intros Hi Hlow Hw. unfold acceptCommit. apply halts_get. case_match; [by apply halts_ret|].
  apply halts_lift; [done|apply returns_commit_ballot|]. intros [b|] Hb; [|by apply halts_ret].
  apply (commit_ballot_in C V) in Hb as Hv; [|eapply within_resolve; [apply Hi|done]].
  case_match; [by apply halts_ret|]. apply halts_lift; [done|apply returns_accept_interval|]. intros [lb rb] Hiv.
  assert (lb ∈ C ∧ rb ∈ C) as [Hlb Hrb].
  { unfold accept_interval in Hiv. destruct (getCommitCounters b (view d)) as [cs| | |] eqn:Hcs; try done. by eapply interval_in. }
  destruct (decide (lb = 0)); [by apply halts_ret|]. apply halts_then.
  { destruct (decide (d_currentPhase d ≠ _)); [by apply gentle_ret|].
    apply gentle_bind; [apply gentle_lift, returns_deref|intros; apply gentle_ret|done]. }
  intros d1 better _ Hi1 Hm1. destruct better; [|by apply halts_ret]. apply commit_pair_halts; [done|by split..|].
  intros c h d2 Hi2 Hm2 _ Hc Hh. apply setAcceptCommit_halts; eauto with gentle.
Qed.

Lemma setConfirmCommit_halts c h d :
  inv d → low d → active (d_currentPhase d) = true → unused d c → unused d h → halts (λ n, setConfirmCommit (recv n) c h) d.
Proof.
  intros Hi Hlow Ha (Hc1 & Hc2 & _) (Hh1 & Hh2 & _). unfold setConfirmCommit.
  apply halts_then; [apply set_cBallot_gentle; [done|by intros l [= <-]]|]. intros d1 [] Hd1 Hi1 Hm1. injection Hd1 as Hd1.
  apply halts_then; [rewrite <-Hd1 in *; by apply set_hBallot_gentle|]. intros d2 [] Hd2 Hi2 Hm2. apply halts_get.
  apply halts_then; [apply updateBallotIfNeeded_gentle; [done|by eapply rd_bal]|]. intros d3 n _ Hi3 Hm3.
  assert (active (d_currentPhase d3) = true) as Ha3.
  { destruct Hm1 as (_&E1&_), Hm2 as (_&E2&_), Hm3 as (_&E3&_). by rewrite E3, E2, E1. }
  apply halts_run.
  { split_and!; [done|apply (inv_shape d3); try done; [|apply Hi3..]|apply rise_descends; try done].
    - apply shaped_phase; [by destruct (d_currentPhase d3)|apply Hi3].
    - simpl. by destruct (d_currentPhase d3). }
  intros d4 [] _ Hi4 Hd4. apply halts_bind; [apply sendBallot_halts; eauto 6 with gentle|]. intros d5 [] Hi5 _.
  apply halts_then; [by apply gentle_modify|]. intros d6 [] _ Hi6 _. apply halts_get.
  apply halts_lift; [done|apply returns_deref|]. intros cv _. apply halts_gentle. apply gentle_at_bind; [by apply gentle_modify|].
  intros. by apply gentle_ret.
Qed.

Lemma confirmCommit_halts m d : inv d → low d → within C V (ms_val m) → halts (λ n, confirmCommit (recv n) m) d.
Proof.
  intros Hi Hlow Hw. unfold confirmCommit. apply halts_get. case_match eqn:Hg; [by apply halts_ret|].
  apply orb_false_iff in Hg as [[Hph%bool_decide_eq_false _]%orb_false_iff _]. apply dec_stable in Hph.
  case_decide; [by apply halts_ret|]. apply halts_lift; [done|apply returns_commit_ballot|]. intros [b|] Hb; [|by apply halts_ret].
  apply (commit_ballot_in C V) in Hb as Hv; [|eapply within_resolve; [apply Hi|done]].
  case_match; [by apply halts_ret|]. apply halts_lift; [done|apply returns_ratify_interval|]. intros [lb rb] Hiv.
  assert (lb ∈ C ∧ rb ∈ C) as [Hlb Hrb].
  { unfold ratify_interval in Hiv. destruct (getCommitCounters b (view d)) as [cs| | |] eqn:Hcs; try done. by eapply interval_in. }
  case_decide; [by apply halts_ret|]. apply commit_pair_halts; [done|by split..|].
  intros c h d2 Hi2 Hm2 Hp2 Hc Hh. apply setConfirmCommit_halts; eauto with gentle. by rewrite Hp2, Hph.
Qed.

(** ** Following the counters of the others *)

Lemma updateBallotValue_gentle b d :
  inv d → bal C V b → gentle_at (updateBallotValue b) d ∧
  ∀ d', updateBallotValue b d = (d', Ok true) → cur d' = Some b ∧ d_currentPhase d' = d_currentPhase d.
Proof.
  intros Hi Hb. destruct (updateBallot_inv b true d Hi Hb) as (Hr & Hi1 & _ & Hp1 & Hc1 & Hm1). specialize (Hm1 eq_refl).
  set (P := λ m : M (Decree E) bool, gentle_at m d ∧
    ∀ d', m d = (d', Ok true) → cur d' = Some b ∧ d_currentPhase d' = d_currentPhase d).
  assert (P (do! updateBallot (Some b) true in do! checkInvariants in ret true)) as Hset.
  { split.
    - apply gentle_at_bind; [by split_and!|]. intros d1 [] _ Hi2 _. apply gentle_at_bind; [by apply gentle_check|].
      intros. by apply gentle_ret.
    - intros d'. unfold bind, checkInvariants, ret. destruct (updateBallot (Some b) true d) as [d1 [[]|?|?|]]; try done.
      simpl in *. destruct (checkBallotInvariants d1); try done. intros [= <-]. auto. }
  assert (P (ret false)) as Hret by (by split; [apply gentle_ret|]).
  assert (P (do! checkInvariants in ret false)) as Hchk.
  { split; [apply gentle_bind; [apply gentle_check|intros; apply gentle_ret|done]|]. intros d'. unfold bind, checkInvariants, ret.
    by destruct (checkBallotInvariants d). }
  change (P (λ d, updateBallotValue b d)). unfold updateBallotValue.
  assert (∀ k : Decree E → M (Decree E) bool, P (k d) → P (λ d, bind get k d)) as Hget by done. apply Hget.
  repeat case_match; done.
Qed.

Lemma phaseWithCounter_settles val c d :
  inv d → low d → val ∈ V → c ∈ C → (∀ b, cur d = Some b → b_Counter b < c) →
  settles (λ n, updateBallotPhaseWithCounter (recv n) val c) d (λ d' r, is_Panic r = false →
    inv d' ∧ descends d d' ∧ (r = Ok true → (ballots_left C V d' < ballots_left C V d)%nat)).
Proof.
  intros Hi Hlow Hval Hc Hcur. unfold updateBallotPhaseWithCounter. apply settles_run; [done|]. simpl.
  destruct (negb _); [by apply settles_const|].
  set (b := mkBallot c _). assert (bal C V b) as Hb.
  { split; [done|]. simpl. case_decide; [apply Hi|done]. }
  destruct (updateBallotValue_gentle b d Hi Hb) as [(Hr & Hi1 & Hm1) Hup]. apply settles_run; [done|].
  destruct (updateBallotValue b d) as [d1 [u|e|w|]]; simpl in *; try done.
  - assert (u = true → ballots_left C V d1 < ballots_left C V d)%nat as Hlt.
    { intros ->. destruct (Hup d1 eq_refl) as [Hc1 Hp1]. apply climb_strict; [done| |rewrite Hc1; by intros ? [= <-]].
      rewrite Hc1. destruct (cur d) as [x|]; [|done]. specialize (Hcur x eq_refl). unfold compareBallots. simpl.
      by rewrite decide_True. }
    apply (mild_descends C V me idx qh) in Hm1 as Hd1. apply settles_bind.
    apply (settles_mono _ _ (λ d' r, is_Panic r = false → inv d' ∧ descends d1 d')).
    { destruct u; [|by apply halts_ret]. apply sendBallot_halts; eauto with gentle. }
    intros d2 [[]|e|w|] _ H; simpl in *; try done; destruct (H eq_refl) as [Hi2 Hd2].
    + apply settles_const; [done|]. simpl. intros _. split_and!; [done|by etrans|]. intros [= ->]. destruct Hd2. specialize (Hlt eq_refl). lia.
    + intros _. split_and!; [done|by etrans|done].
  - intros _. split_and!; [done|by apply mild_descends|done].
Qed.

Lemma find_counter_some q stmts t cs nodes c :
  find_counter q stmts t cs nodes = Ok (Some c) → c ∈ cs ∧ t < c.
Proof.
  revert nodes. induction cs as [|x cs IH]; intros nodes H; simpl in H; [done|].
  case_decide; [done|]. destruct (nodes_ahead x stmts); try done. cbn [res_bind] in H.
  case_match; [apply IH in H; set_solver|]. case_decide; [done|]. injection H as ->. split; [by left|lia].
Qed.

Lemma update_settles d :
  inv d → low d →
  settles (λ n, update (recv n)) d (λ d' r, is_Panic r = false →
    inv d' ∧ descends d d' ∧ (r = Ok true → (ballots_left C V d' < ballots_left C V d)%nat)).
Proof.
  intros Hi Hlow. assert (descends d d) as Hself by reflexivity. unfold update. apply settles_run; [done|]. simpl.
  destruct (negb _); [by apply settles_const|].
  apply settles_run; [apply returns_collect, returns_stmt_counters|]. simpl.
  destruct (collect stmt_counters (view d)) as [cs|?|?|] eqn:Hcs; try done. simpl.
  apply settles_run; [apply returns_find_counter|]. simpl.
  destruct (find_counter _ _ _ _ _) as [[c|]|?|?|] eqn:Hf; try done; simpl; [|by apply settles_const].
  apply find_counter_some in Hf as [Hin Hlt]. rewrite go_sort_perm, elem_of_elements in Hin.
  assert (∀ b, cur d = Some b → bal C V b) as Hcur by (intros b Hb; by eapply deref_bal).
  assert (c ∈ C) as Hc.
  { apply elem_of_union in Hin as [->%elem_of_singleton|Hin]; [|eapply stmt_counters_in; [done| |done|done]; by intros; eapply view_within].
    destruct (cur d) as [b|]; [apply Hcur; done|done]. }
  assert (c ≠ 0) as Hne.
  { destruct (cur d) as [b|]; [|lia]. destruct (Hcur b eq_refl) as [Hbc _]. specialize (C_uint _ Hbc). lia. }
  unfold abandonBallot. apply settles_run; [done|]. simpl.
  set (cv := if decide (d_latestComposite d ≠ "") then _ else _).
  assert (cv ∈ V) as Hcv.
  { subst cv. case_decide; [apply Hi|]. destruct (cur d) as [b|]; [by apply Hcur|done]. }
  destruct (decide (cv ≠ "")); [|by apply settles_const]. destruct (decide (c = 0)); [done|].
  apply phaseWithCounter_settles; try done. intros b Hb. by rewrite Hb in Hlt.
Qed.

(** The loop ends because every round that goes on raises the current ballot. *)
Lemma update_loop_halts f u d :
  inv d → low d → unbounded f → halts (λ n, update_loop (recv n) (f n) u) d.
Proof.
  remember (ballots_left C V d) as x eqn:Hx. revert f u d Hx.
  induction (lt_wf x) as [x _ IH]. intros f u d -> Hi Hlow Hf. destruct (Hf 1%nat) as [N HN].
  apply (settles_eventually _ (λ n, let! c := update (recv n) in if c : bool then update_loop (recv n) (pred (f n)) true else ret u) _ _ N).
  { intros n Hn. specialize (HN n Hn). by destruct (f n); [lia|]. }
  apply settles_bind. eapply settles_mono; [by apply update_settles|]. intros d1 [b|e|w|] _ H; simpl in *; try done;
    destruct (H eq_refl) as (Hi1 & Hd1 & Hlt); [|done]. apply halts_descends; [done|].
  destruct b; [|by apply halts_ret]. eapply IH; [by apply Hlt|done|done|by eapply low_descends|by apply unbounded_pred].
Qed.

(** ** Receiving *)

Lemma step_halts f m d :
  inv d → low d → within C V (ms_val m) → unbounded f →
  halts (λ n, step (recv n) (f n) m) d.
Proof.
  intros Hi Hlow Hw Hf. unfold step. apply halts_then; [by apply gentle_modify|]. intros d0 [] _ Hi0 Hm0. apply halts_get.
  case_decide; [by apply halts_fail|].
  apply halts_bind; [apply acceptPrepared_halts; eauto with gentle|]. intros d1 u1 Hi1 Hd1.
  apply halts_bind; [apply confirmPrepared_halts; eauto with gentle|]. intros d2 u2 Hi2 Hd2.
  apply halts_bind; [apply acceptCommit_halts; eauto 6 with gentle|]. intros d3 u3 Hi3 Hd3.
  apply halts_bind; [apply confirmCommit_halts; eauto 7 with gentle|]. intros d4 u4 Hi4 Hd4. apply halts_get.
  apply halts_bind; [case_decide; [apply update_loop_halts; eauto 8 with gentle|by apply halts_ret]|]. intros d5 u5 Hi5 Hd5.
  apply halts_then; [by apply gentle_modify|]. intros d6 [] _ Hi6 _. apply halts_get.
  destruct (d_latestBallot d6); [|by apply halts_ret]. destruct u5; [|by apply halts_ret]. by apply halts_gentle, gentle_modify.
Qed.

Lemma store_inv m d :
  inv d → within C V (ms_val m) →
  (is_Some (ms_refs m) → stmt_type_num (s_Type (ms_val m)) <= phase_num (d_currentPhase d) + 1) →
  (∀ l, refers m l → shown d l) → inv (store m d).1.
Proof.
  intros [Hids Hsh Hh Hst Hv] Hw Ht Hr. split; try done.
  - by apply shaped_store.
  - simpl. intros x m' [[_ <-]|[_ Hx]]%lookup_insert_Some; [done|by eapply Hst].
Qed.

(** A message that is stored: what follows is below the state in which it is. *)
Lemma recv_body_settles m d :
  inv d → within C V (ms_val m) →
  (is_newer_ballot d m = Ok true → inv (store m d).1 ∧ low (store m d).1) →
  settles (λ n, recv_body (recv n) n m) d
    (λ d' r, is_Panic r = false → inv d' ∧ (d' = d ∨ is_newer_ballot d m = Ok true ∧ descends (store m d).1 d')).
Proof.
  intros Hi Hw Hst. unfold recv_body. apply settles_run; [done|]. simpl. case_decide; [apply settles_const; [done|]; simpl; auto|].
  apply settles_run; [apply returns_is_newer_ballot|]. simpl. destruct (is_newer_ballot d m) as [newer|?|?|] eqn:Hn; try done; simpl; [|auto].
  destruct newer; [|apply settles_const; [done|]; simpl; auto]. simpl. destruct (Hst eq_refl) as [Hi1 Hlow1].
  pose proof (returns_validateBallot d (resolve (d_heap d) m)) as Hv. apply settles_run; [by apply returns_wrap|]. simpl.
  destruct (validateBallot _ _) as [[]|?|?|]; try done; simpl; [|auto].
  destruct (active (d_currentPhase d)).
  - apply settles_run; [done|]. apply settles_wrap. eapply settles_mono.
    + apply (step_halts (λ n, n) m); [done..|apply unbounded_id].
    + intros d' r _ Hq Hp. destruct Hq as [? ?]; [by destruct r|]. auto.
  - assert (descends (store m d).1 (store m d).1) by reflexivity.
    apply settles_run; [apply returns_getWorkingBallot|]. simpl. destruct (getWorkingBallot _) as [wb|?|?|]; try done; simpl; [|auto].
    apply settles_run; [apply returns_deref|]. simpl. destruct (cb d); simpl; [|done].
    apply settles_run; [apply returns_deref|]. simpl. destruct wb; simpl; [|done].
    case_decide; (apply settles_const; [done|]); simpl; auto.
Qed.

End with_recv.

(** ** The recursion *)

Lemma newer_own d m :
  inv d → ballot_statement d = Ok m → is_newer_ballot d m = Ok true → newer_than (own me d) (ms_val m) = true.
Proof.
  intros Hi Hm. destruct (own_statement C V me idx qh C_zero d m Hi Hm) as (Hr & _ & _ & Hid & _).
  unfold is_newer_ballot, own, newer_than. rewrite Hid. destruct (d_ballots d !! me) as [s|]; [|done]. simpl. rewrite Hr.
  by intros ->.
Qed.

Lemma recvBallot_own k d m :
  inv d → low k d → ballot_statement d = Ok m → halts (λ n, recvBallot n m) d.
Proof.
  revert d m. induction k as [|k IH]; intros d m Hi Hlow Hm; [unfold low in Hlow; lia|].
  destruct (own_statement C V me idx qh C_zero d m Hi Hm) as (Hr & _ & Hw & Hid & _ & Ht & Hsh).
  assert (is_newer_ballot d m = Ok true → inv (store m d).1 ∧ low k (store m d).1 ∧ descends d (store m d).1) as Hst.
  { intros Hn. pose proof (store_own_strict C V me idx qh C_zero d m Hi Hm (newer_own d m Hi Hm Hn)) as Hlt.
    rewrite <-Hid in Hlt. change (set_ballots _ d) with (store m d).1 in Hlt. rewrite Hid in Hlt.
    split_and!; [apply store_inv; try done; intros _; lia|unfold low in *; lia|]. split; [lia|done]. }
  apply settles_S. eapply settles_mono; [apply (recv_body_settles recvBallot k IH m); [done..|naive_solver]|].
  intros d' r _ H Hp. destruct (H Hp) as [Hi' [->|[Hn Hd]]]; [split; [done|reflexivity]|]. split; [done|].
  destruct (Hst Hn) as (_ & _ & ?). by etrans.
Qed.

(** A message from outside. *)
Lemma recvBallot_outside m d :
  inv d → within C V (ms_val m) → ms_refs m = None →
  settles (λ n, recvBallot n m) d (λ d' r, is_Panic r = false → inv d').
Proof.
  intros Hi Hw Hr. assert (inv (store m d).1) as Hi1.
  { apply store_inv; try done; rewrite ?Hr; [by intros []|]. intros l. unfold refers. by rewrite Hr. }
  apply settles_S. eapply settles_mono.
  - apply (recv_body_settles recvBallot (S (statements_left (store m d).1)) (recvBallot_own _)); [done..|].
    intros _. split; [done|]. unfold low. lia.
  - intros d' r _ H Hp. by destruct (H Hp).
Qed.
End handlers.

(** * The counter that should limit the recursion

    [step] counts the calls that are under way and refuses the tenth.  It then returns without counting back, so that the
    counter never comes back to where it was: the termination above does not rest on it. *)

Section counter.
Context {E : Type} {Env : DecreeEnv E} {Crypto : CryptoLib} {Pbc : PbCodec} {GoRt : GoRuntime}.
Implicit Types d : Decree E.

Definition counts d d' : Prop := d_ballotMsgCount d <= d_ballotMsgCount d'.
#[global] Instance counts_preorder : PreOrder counts.
Proof. split; [by intros d; unfold counts|]. intros a b c. unfold counts. lia. Qed.

Lemma counts_modify (f : Decree E → Decree E) : (∀ d, d_ballotMsgCount (f d) = d_ballotMsgCount d) → preserves counts (modify f).
Proof. intros Hf d. unfold counts. simpl. by rewrite Hf. Qed.
Lemma counts_alloc b : preserves counts (alloc (E:=E) b).
Proof. intros d. by unfold counts. Qed.
Lemma counts_reset o : preserves counts (reset (E:=E) o).
Proof. intros d. destruct o; by unfold counts. Qed.
Lemma counts_check : preserves counts (checkInvariants (E:=E)).
Proof. intros d. by unfold counts. Qed.
Lemma counts_ratify f : preserves counts (ballot_ratify (E:=E) f).
Proof. intros d. by unfold counts. Qed.
Lemma counts_accept f g : preserves counts (ballot_accept (E:=E) f g).
Proof. intros d. by unfold counts. Qed.
#[local] Hint Resolve counts_alloc counts_reset counts_check counts_ratify counts_accept : go_preserves.
#[local] Hint Extern 1 (preserves counts (modify _)) => apply counts_modify; intros ?; reflexivity : go_preserves.

Lemma counts_alloc_all bs : preserves counts (alloc_all (E:=E) bs).
Proof. induction bs; simpl; pres (@counts). Qed.
Lemma counts_updateBallot b c : preserves counts (updateBallot (E:=E) b c).
Proof. unfold updateBallot. pres (@counts). Qed.
#[local] Hint Resolve counts_alloc_all counts_updateBallot : go_preserves.
Lemma counts_prepared_candidates m : preserves counts (prepared_candidates (E:=E) m).
Proof. unfold prepared_candidates. pres (@counts). Qed.
Lemma counts_h_loop ls : preserves counts (h_loop (E:=E) ls).
Proof. induction ls; simpl; pres (@counts). Qed.
Lemma counts_c_loop cu h ls c : preserves counts (c_loop (E:=E) cu h ls c).
Proof. revert c. induction ls; simpl; pres (@counts). Qed.
#[local] Hint Resolve counts_prepared_candidates counts_h_loop counts_c_loop : go_preserves.

Section with_recv.
Variable recv : MStatement → M (Decree E) unit.
Hypothesis recv_counts : ∀ m, preserves counts (recv m).
#[local] Hint Resolve recv_counts : go_preserves.

Lemma counts_sendBallot : preserves counts (sendBallot_ recv).
Proof. unfold sendBallot_, sendBallot, newer_than_latest, broadcast. pres (@counts). Qed.
#[local] Hint Resolve counts_sendBallot : go_preserves.
Lemma counts_acceptPrepared m : preserves counts (acceptPrepared recv m).
Proof.
  unfold acceptPrepared. pres (@counts). match goal with |- preserves _ (accept_loop _ ?ls) => induction ls end; simpl;
    unfold accept_candidate, setAcceptPrepared; pres (@counts).
Qed.
Lemma counts_confirmPrepared m : preserves counts (confirmPrepared recv m).
Proof. unfold confirmPrepared, setConfirmPrepared, updateBallotIfNeeded. pres (@counts). Qed.
Lemma counts_acceptCommit m : preserves counts (acceptCommit recv m).
Proof. unfold acceptCommit, setAcceptCommit, updateBallotIfNeeded. pres (@counts). Qed.
Lemma counts_confirmCommit m : preserves counts (confirmCommit recv m).
Proof. unfold confirmCommit, setConfirmCommit, updateBallotIfNeeded. pres (@counts). Qed.
Lemma counts_update_loop n u : preserves counts (update_loop recv n u).
Proof.
  revert u. induction n; intros u; simpl; [intros d; by unfold counts|].
  unfold update, abandonBallot, updateBallotPhase, updateBallotPhaseWithCounter, updateBallotValue. pres (@counts).
Qed.
#[local] Hint Resolve counts_acceptPrepared counts_confirmPrepared counts_acceptCommit counts_confirmCommit counts_update_loop : go_preserves.

Lemma counts_step n m : preserves counts (step recv n m).
Proof.
  intros d. unfold step. set (d0 := set_ballotMsgCount (d_ballotMsgCount d + 1) d). unfold bind at 1, modify. lazy beta iota.
  change (set_ballotMsgCount _ d) with d0. unfold bind at 1, get. lazy beta iota.
  assert (counts d d0) as H0 by (unfold counts; simpl; lia). case_decide; [done|].
  assert (preserves counts (let! u1 := acceptPrepared recv m in let! u2 := confirmPrepared recv m in
    let! u3 := acceptCommit recv m in let! u4 := confirmCommit recv m in let! d := get in
    (if decide (d_ballotMsgCount d = 1) then update_loop recv n (u4 || u3 || u2 || u1) else ret (u4 || u3 || u2 || u1)))) as Hbody
    by pres (@counts).
  specialize (Hbody d0). unfold bind, get, modify, broadcast in *. repeat (case_match; simplify_eq/=); unfold counts in *; simpl in *; lia.
Qed.
#[local] Hint Resolve counts_step : go_preserves.
Lemma counts_recv_body n m : preserves counts (recv_body recv n m).
Proof. unfold recv_body, store. pres (@counts). Qed.
End with_recv.

Lemma counts_recvBallot n m : preserves counts (recvBallot n m).
Proof. revert m. induction n as [|n IH]; intros m; simpl; [intros d; by unfold counts|]. by apply counts_recv_body. Qed.
End counter.

(** The limit works once.  The call that it refuses leaves the counter at the limit, no message lowers it again, and a
    counter at or above the limit is never equal to it after the increment: no later call is refused. *)
Theorem recursion_limit_leaks {E : Type} {Env : DecreeEnv E} {Crypto : CryptoLib} {Pbc : PbCodec} {GoRt : GoRuntime}
    (recv : MStatement → M (Decree E) unit) (n : nat) (m : MStatement) (d : Decree E) (ms : list (nat * MStatement)) :
  d_ballotMsgCount d = maxRecursions - 1 →
  (step recv n m d).2 = Err "max number of invoking reached in step" ∧
  maxRecursions <= d_ballotMsgCount (foldl (λ d '(n, m), (recvBallot n m d).1) (step recv n m d).1 ms).
Proof.
  intros Hd. assert (step recv n m d = (set_ballotMsgCount maxRecursions d, Err "max number of invoking reached in step")) as ->.
  { unfold step, bind at 1, modify, bind at 1, get. lazy beta iota. rewrite Hd, decide_True by done. done. }
  split; [done|]. simpl. assert (maxRecursions <= d_ballotMsgCount (set_ballotMsgCount maxRecursions d)) as H by (simpl; lia).
  revert H. generalize (set_ballotMsgCount maxRecursions d). induction ms as [|[k x] ms IH]; intros d1 H; simpl; [done|].
  apply IH. pose proof (counts_recvBallot k x d1) as Hc. unfold counts in Hc. lia.
Qed.
