(* ===== verification/Returns.v ===== *)
(** Every call on a decree returns.

    A statement as it comes from the wire has counters of type uint32 ([wire]); a decree is [sound] if its objects are shared as
    [Space] says and its counters are of that type.  From a sound state a space for [Termination] can be chosen, so every call on
    a decree settles and leaves a sound state.  The recursion of nomination ends because each level accepts a value more.
    [Validator_EnvReturns] is the interface of the managers for the modelled validator and ledger over either database. *)

From Stdlib Require Import SpecFloat.
From S2P Require Import Prelude Lru Converge Pb Db Crypto Account TxManager Ledger Managers Quorum Ballot Federated Decree Nomination Validator Space Termination.

(** * Statements as the wire has them *)

(** All the counters and all the values of a ballot statement. *)
Definition ballot_counter (o : option Ballot) : list Z := b_Counter <$> opt_list o.
Definition ballot_value (o : option Ballot) : list string := b_Value <$> opt_list o.
Definition all_counters (s : Statement) : list Z :=
  match s_Stmt s with
  | Some (Stmt_Prepare p) =>
      ballot_counter (prep_B p) ++ ballot_counter (prep_P p) ++ ballot_counter (prep_Q p) ++ [prep_HC p; prep_LC p]
  | Some (Stmt_Confirm c) => ballot_counter (conf_B c) ++ [conf_PC c; conf_LC c; conf_HC c]
  | Some (Stmt_Externalize e) => ballot_counter (ext_B e) ++ [ext_HC e]
  | _ => []
  end.
Definition all_values (s : Statement) : list string :=
  match s_Stmt s with
  | Some (Stmt_Prepare p) => ballot_value (prep_B p) ++ ballot_value (prep_P p) ++ ballot_value (prep_Q p)
  | Some (Stmt_Confirm c) => ballot_value (conf_B c)
  | Some (Stmt_Externalize e) => ballot_value (ext_B e)
  | _ => []
  end.
(** The counters are of type uint32. *)
Definition wire (s : Statement) : Prop := Forall uint32 (all_counters s).

Lemma obal_space C V o : ballot_counter o ⊆ C → ballot_value o ⊆ V → obal C V o.
Proof. intros Hc Hv b ->. unfold ballot_counter, ballot_value in *. simpl in *. split; set_solver. Qed.
Lemma within_space C V s : all_counters s ⊆ C → all_values s ⊆ V → within C V s.
Proof.
  unfold within, all_counters, all_values. intros Hc Hv. destruct (s_Stmt s) as [[|p|c|e]|]; try done;
    split_and!; try (apply obal_space; set_solver); set_solver.
Qed.
Lemma ballot_counter_in C V o c : obal C V o → c ∈ ballot_counter o → c ∈ C.
Proof.
  intros Ho Hc. destruct o as [b|]; [|by apply not_elem_of_nil in Hc]. apply list_elem_of_singleton in Hc as ->.
  by destruct (Ho b eq_refl).
Qed.
Lemma within_wire C V s : (∀ c, c ∈ C → uint32 c) → within C V s → wire s.
Proof.
  intros HC Hw. apply Forall_forall. intros c Hc. apply HC. unfold within, all_counters in *.
  destruct (s_Stmt s) as [[|p|x|e]|]; try (by apply not_elem_of_nil in Hc);
    rewrite ?elem_of_app, ?elem_of_cons, ?elem_of_nil in Hc; naive_solver eauto using ballot_counter_in.
Qed.

(** * Sound states *)

Section sound.
Context {E : Type}.
Implicit Types d : Decree E.

(** The objects are kept apart as [shaped] says, and every counter is a uint32. *)
Record sound d : Prop := {
  so_shaped : shaped d;
  so_heap : ∀ l b, d_heap d !! l = Some b → uint32 (b_Counter b);
  so_stored : ∀ x m, d_ballots d !! x = Some m → wire (ms_val m);
}.

Lemma sound_form d d' : form d' = form d → sound d → sound d'.
Proof.
  intros Hf [Hs Hh Hst]. split; [by eapply shaped_form|..]; unfold form in Hf; injection Hf as H1 H2 H3 _ _ _ _ _ _; by rewrite ?H1, ?H3.
Qed.

Lemma sound_inv C V me idx qh d : (∀ c, c ∈ C → uint32 c) → inv C V me idx qh d → sound d.
Proof.
  intros HC [_ Hs Hh Hst _]. split; [done|..].
  - intros l b Hl. apply HC. by destruct (Hh l b Hl).
  - intros x m Hm. eapply within_wire; [done|by eapply Hst].
Qed.

Lemma NewDecree_sound (env : E) index nodeID quorum qh d : NewDecree env index nodeID quorum qh = Ok d → sound d.
Proof.
  unfold NewDecree. repeat case_decide; intros; simplify_eq. split; [split|..]; simpl; try (intros ? ?; by rewrite lookup_empty).
  - intros l [?|[?|[?|(? & ? & ? & _)]]]; done.
  - by intros l [?|?].
Qed.

(** The space of a sound state, with room for more counters and values. *)
Lemma space_of d (cs : list Z) (vs : list string) :
  sound d → Forall uint32 cs →
  ∃ C V, (∀ c, c ∈ C → uint32 c) ∧ 0 ∈ C ∧ MaxUint32 ∈ C ∧ "" ∈ V ∧ cs ⊆ C ∧ vs ⊆ V ∧
    inv C V (d_nodeID d) (d_index d) (d_quorumHash d) d.
Proof.
  intros [Hs Hh Hst] Hcs.
  set (bs := (map_to_list (d_heap d)).*2). set (ms := ms_val <$> (map_to_list (d_ballots d)).*2).
  assert (∀ l b, d_heap d !! l = Some b → b ∈ bs) as Hbs.
  { intros l b Hl. apply list_elem_of_fmap. exists (l, b). split; [done|by apply elem_of_map_to_list]. }
  assert (∀ b, b ∈ bs → ∃ l, d_heap d !! l = Some b) as Hbs'.
  { intros b ([l b'] & -> & Hl%elem_of_map_to_list)%list_elem_of_fmap. by exists l. }
  assert (∀ x m, d_ballots d !! x = Some m → ms_val m ∈ ms) as Hms.
  { intros x m Hm. apply list_elem_of_fmap. exists m. split; [done|]. apply list_elem_of_fmap. exists (x, m).
    split; [done|by apply elem_of_map_to_list]. }
  assert (∀ s, s ∈ ms → wire s) as Hms'.
  { intros s (m & -> & ([x m'] & -> & Hm%elem_of_map_to_list)%list_elem_of_fmap)%list_elem_of_fmap. by eapply Hst. }
  exists (0 :: MaxUint32 :: (b_Counter <$> bs) ++ (ms ≫= all_counters) ++ cs),
    ("" :: d_nextValue d :: d_latestComposite d :: (b_Value <$> bs) ++ (ms ≫= all_values) ++ vs).
  split_and!; [|set_solver..|].
  - rewrite Forall_forall in Hcs. intros c. rewrite !elem_of_cons, !elem_of_app, list_elem_of_fmap, list_elem_of_bind.
    intros [->|[->|[(b & -> & [l Hl]%Hbs')|[(s & Hc & Hs'%Hms')|Hc]]]]; [done|done|by eapply Hh| |by apply Hcs].
    unfold wire in Hs'. rewrite Forall_forall in Hs'. by apply Hs'.
  - split; try done; [| |set_solver].
    + intros l b Hl%Hbs. split; rewrite !elem_of_cons, !elem_of_app, !list_elem_of_fmap; eauto 8.
    + intros x m Hm%Hms. apply within_space; intros y Hy; rewrite !elem_of_cons, !elem_of_app, !list_elem_of_bind; eauto 9.
Qed.
End sound.

(** * Ballots *)

Section calls.
Context {E : Type} {Env : DecreeEnv E} {Ret : EnvReturns E} {Crypto : CryptoLib} {Pbc : PbCodec} {GoRt : GoRuntime}.
Implicit Types d : Decree E.

(** A call that ends leaves a sound state, unless the process dies. *)
Definition sound_after {A} (d' : Decree E) (r : res A) : Prop := is_Panic r = false → sound d'.

Lemma recvBallot_settles s d : sound d → wire s → settles (λ n, recvBallot n (mkMStatement s None)) d sound_after.
Proof.
  intros Hd Hw. destruct (space_of d (all_counters s) (all_values s) Hd Hw) as (C & V & HC & H0 & Hm & He & Hcs & Hvs & Hi).
  eapply settles_mono; [apply (recvBallot_outside C V (d_nodeID d) (d_index d) (d_quorumHash d))|]; try done.
  - intros c Hc. by apply HC.
  - by apply within_space.
  - intros d' r _ H Hp. eapply sound_inv; [exact HC|auto].
Qed.

Lemma updateBallotPhase_settles val d :
  sound d → settles (λ n, updateBallotPhase (recvBallot n) val false) d sound_after.
Proof.
  intros Hd. unfold updateBallotPhase. apply settles_run; [done|]. simpl. destruct (cur d) eqn:Hcur; [by apply settles_const; [|intros _]|].
  destruct (space_of d [1] [val] Hd) as (C & V & HC & H0 & Hm & He & Hcs & Hvs & Hi); [apply Forall_singleton; mlia|].
  eapply settles_mono; [apply (phaseWithCounter_settles C V (d_nodeID d) (d_index d) (d_quorumHash d) H0 He recvBallot
    (S (statements_left C V (d_nodeID d) (d_index d) (d_quorumHash d) d)))|]; try done.
  - intros d' m Hi' Hl. eapply recvBallot_own; try done. intros c Hc. by apply HC.
  - unfold low. lia.
  - set_solver.
  - set_solver.
  - by rewrite Hcur.
  - intros d' r _ H Hp. eapply sound_inv; [exact HC|]. by destruct (H Hp).
Qed.

(** * Nomination *)

(** Operations that return and keep the ballots, the votes and what is accepted. *)
Definition stance d := (form d, d_votes d, d_accepts d).
Definition level {A} (m : M (Decree E) A) : Prop := ∀ d, stance (m d).1 = stance d ∧ returns (m d).2.

Lemma level_bind {A B} (m : M (Decree E) A) (k : A → M (Decree E) B) : level m → (∀ a, level (k a)) → level (bind m k).
Proof.
  intros Hm Hk d. destruct (Hm d) as [Hs Hr]. unfold bind. destruct (m d) as [d1 [a|?|?|]]; simpl in *; try done.
  destruct (Hk a d1) as [? ?]. split; [congruence|done].
Qed.
Lemma level_read {A} (m : M (Decree E) A) : (∀ d, (m d).1 = d ∧ returns (m d).2) → level m.
Proof. intros Hm d. destruct (Hm d) as [-> ?]. done. Qed.
Lemma level_ret {A} (a : A) : level (ret a).
Proof. by apply level_read. Qed.
Lemma level_fail {A} e : level (fail (A:=A) e).
Proof. by apply level_read. Qed.
Lemma level_lift {A} (r : res A) : returns r → level (lift r).
Proof. intros. by apply level_read. Qed.
Lemma level_get : level get.
Proof. by apply level_read. Qed.
Lemma level_wrap {A} p (m : M (Decree E) A) : level m → level (wrap p m).
Proof. intros Hm d. destruct (Hm d). unfold wrap. destruct (m d) as [d1 r]. split; [done|by apply returns_wrap]. Qed.
Lemma level_modify (f : Decree E → Decree E) : (∀ d, stance (f d) = stance d) → level (modify f).
Proof. intros Hf d. by split; [apply Hf|]. Qed.
Lemma level_on_env {A} (m : M E A) : (∀ e, returns (m e).2) → level (on_env m).
Proof. intros Hm d. unfold on_env. specialize (Hm (d_env d)). by destruct (m (d_env d)). Qed.

Lemma returns_xor_bytes a b : returns (xor_bytes a b).
Proof. revert b. induction a; intros [|]; simpl; rets. Qed.
#[local] Hint Resolve returns_xor_bytes : go_returns.
Lemma returns_bytesOr a b : returns (bytesOr a b).
Proof. unfold bytesOr. rets. Qed.
Lemma returns_compareTxSet a x b y f h : returns (compareTxSet a x b y f h).
Proof. unfold compareTxSet, lessBytesOr. rets. Qed.
#[local] Hint Resolve returns_bytesOr returns_compareTxSet : go_returns.

Lemma returns_candidate_values cands : returns (candidate_values cands).
Proof. apply returns_foldl; [done|]. rets. Qed.
Lemma returns_choose_txset d hh h vals : returns (choose_txset d hh h vals).
Proof.
  apply returns_foldl; [done|]. intros cv acc Hacc. apply returns_bind; [done|]. intros [o th] _.
  pose proof (returns_env_GetTxSet (d_env d) (cv_TxSetHash cv)) as H.
  destruct (env_GetTxSet _ _) as [[ts|]| | |]; try done. case_decide; [done|]. rets.
Qed.
#[local] Hint Resolve returns_candidate_values returns_choose_txset : go_returns.

Lemma level_combineCandidates : level (combineCandidates (E:=E)).
Proof.
  unfold combineCandidates. apply level_bind; [apply level_get|]. intros d.
  apply level_bind; [apply level_lift, returns_CurrLedgerHeaderHash|]. intros hh.
  apply level_bind; [apply level_lift, returns_candidate_values|]. intros [[h t] vals].
  apply level_bind; [apply level_lift, returns_choose_txset|]. intros [[ts|] th]; [|apply level_fail].
  apply level_bind; [apply level_wrap, level_lift, returns_GetTxSetKey|]. intros k.
  apply level_bind; [apply level_wrap, level_on_env, returns_env_RecvTxSet|]. intros _.
  apply level_bind; [apply level_wrap, level_lift, returns_encode_res|]. intros b. apply level_ret.
Qed.
Lemma level_store_nomination s nom : level (store_nomination (E:=E) s nom).
Proof.
  unfold store_nomination. apply level_bind; [apply level_get|]. intros d.
  destruct (d_nominations d !! s_NodeID s); [|by apply level_modify].
  apply level_bind; [apply level_lift, returns_isNewerNomination|]. intros []; [by apply level_modify|apply level_ret].
Qed.
Lemma returns_nom_accept v d : returns (nom_accept v d).
Proof. apply returns_federatedAccept; intros; [apply returns_voteFilter|apply returns_acceptFilter]. Qed.
Lemma returns_nom_ratify v d : returns (nom_ratify v d).
Proof. apply returns_federatedRatify; intros. apply returns_acceptFilter. Qed.
#[local] Hint Resolve returns_nom_accept returns_nom_ratify : go_returns.

Lemma promote_accepts_spec votes u d :
  let '(d', r) := promote_accepts votes u d in
  form d' = form d ∧ returns r ∧ d_votes d' ⊆ d_votes d ∪ list_to_set votes ∧ d_accepts d ⊆ d_accepts d' ∧
  (r = Ok true → u = true ∨ ∃ x, x ∈ votes ∧ x ∉ d_accepts d ∧ x ∈ d_accepts d').
Proof.
  revert u d. induction votes as [|v votes IH]; intros u d; simpl; [split_and!; try done; [set_solver|intros [= ->]; auto]|].
  assert (let '(d', r) := promote_accepts votes u d in
    form d' = form d ∧ returns r ∧ d_votes d' ⊆ d_votes d ∪ list_to_set (v :: votes) ∧ d_accepts d ⊆ d_accepts d' ∧
    (r = Ok true → u = true ∨ ∃ x, x ∈ v :: votes ∧ x ∉ d_accepts d ∧ x ∈ d_accepts d')) as Hskip.
  { specialize (IH u d). destruct (promote_accepts votes u d) as [d' r]. destruct IH as (? & ? & ? & ? & Hx).
    split_and!; try done; [set_solver|]. intros [?|(x & ? & ? & ?)]%Hx; [by left|right]. exists x. set_solver. }
  assert (∀ r : res bool, returns r → is_Ok r = false →
    form d = form d ∧ returns r ∧ d_votes d ⊆ d_votes d ∪ list_to_set (v :: votes) ∧ d_accepts d ⊆ d_accepts d ∧
    (r = Ok true → u = true ∨ ∃ x, x ∈ v :: votes ∧ x ∉ d_accepts d ∧ x ∈ d_accepts d)) as Hstop.
  { intros r ? ?. split_and!; try done; [set_solver|by intros ->]. }
  unfold bind at 1, get at 1. destruct (decide (v ∈ d_accepts d)) as [|Hv]; [exact Hskip|].
  unfold bind at 1, lift at 1. pose proof (returns_nom_accept v d) as Hr.
  destruct (nom_accept v d) as [[]|?|?|]; try first [done | exact Hskip | by apply Hstop].
  unfold bind at 1, try at 1, lift. pose proof (returns_validateConsensusValue d v) as Hr'.
  destruct (validateConsensusValue d v) as [[]|?|?|]; try first [done | exact Hskip | by apply Hstop].
  set (d1 := set_accepts ({[v]} ∪ d_accepts d) (set_votes ({[v]} ∪ d_votes d) d)).
  unfold bind, modify. lazy beta iota delta [negb].
  change (set_accepts ({[v]} ∪ d_accepts (set_votes ({[v]} ∪ d_votes d) d)) (set_votes ({[v]} ∪ d_votes d) d)) with d1.
  specialize (IH true d1).
  destruct (promote_accepts votes true d1) as [d' r]. destruct IH as (Hf & ? & Hvs & Has & _). clear Hskip Hstop Hr Hr'.
  change (d_votes d1) with ({[v]} ∪ d_votes d) in Hvs. change (d_accepts d1) with ({[v]} ∪ d_accepts d) in Has.
  split_and!; try done; [clear Has; set_solver|clear Hvs; set_solver|]. intros _. right. exists v. clear Hvs. set_solver.
Qed.

Lemma level_promote_candidates accepts u : level (promote_candidates (E:=E) accepts u).
Proof.
  revert u. induction accepts as [|a accepts IH]; intros u; simpl; [apply level_ret|].
  apply level_bind; [apply level_get|]. intros d. destruct (decide _); [done|].
  apply level_bind; [apply level_lift, returns_nom_ratify|]. intros []; simpl; [|done].
  apply level_bind; [by apply level_modify|]. intros _. apply IH.
Qed.

Lemma stance_form d d' : stance d' = stance d → form d' = form d ∧ d_votes d' = d_votes d ∧ d_accepts d' = d_accepts d.
Proof. unfold stance. intros H. split_and!; congruence. Qed.

Lemma promoteVotes_spec nom d :
  let '(d', r) := promoteVotes nom d in
  form d' = form d ∧ returns r ∧ d_votes d' ⊆ d_votes d ∪ list_to_set (nom_VoteList nom) ∧ d_accepts d ⊆ d_accepts d' ∧
  ∀ c, r = Ok (true, c) → ∃ x, x ∈ nom_VoteList nom ∧ x ∉ d_accepts d ∧ x ∈ d_accepts d'.
Proof.
  unfold promoteVotes, bind. pose proof (promote_accepts_spec (nom_VoteList nom) false d) as Hp.
  destruct (promote_accepts _ _ d) as [d1 r1]. destruct Hp as (Hf & Hr & Hv & Ha & Hx).
  destruct r1 as [a|?|?|]; try (by split_and!).
  destruct (level_promote_candidates (nom_AcceptList nom) false d1) as [Hs Hr2].
  destruct (promote_candidates _ _ d1) as [d2 r2]. apply stance_form in Hs as (Hf2 & Hv2 & Ha2). simpl in *.
  destruct r2 as [c|?|?|]; try done; (split_and!; [congruence|done|by rewrite Hv2|by rewrite Ha2|]); try done.
  intros c' [= -> _]. rewrite Ha2. by destruct (Hx eq_refl).
Qed.
Lemma level_sound {A} (m : M (Decree E) A) d : level m → sound d → sound (m d).1.
Proof. intros Hm Hd. destruct (Hm d) as [Hs _]. eapply sound_form, Hd. by apply stance_form. Qed.

(** A first part that is level. *)
Lemma settles_level {A B} (m : M (Decree E) A) (k : nat → A → M (Decree E) B) d :
  level m → sound d →
  (∀ d1 a, sound d1 → d_votes d1 = d_votes d → d_accepts d1 = d_accepts d → settles (λ n, k n a) d1 sound_after) →
  settles (λ n, bind m (k n)) d sound_after.
Proof.
  intros Hm Hd Hk. pose proof (level_sound m d Hm Hd) as Hd1. destruct (Hm d) as [Hs Hr]. apply settles_run; [done|].
  apply stance_form in Hs as (_ & Hv & Ha). destruct (m d) as [d1 [a|?|?|]]; simpl in *; try done; [by apply Hk|by intros _].
Qed.
Lemma settles_ret {A} (a : A) d : sound d → settles (λ _, ret a) d sound_after.
Proof. intros Hd. by apply settles_const; [|intros _]. Qed.

(** The values that a nomination may still lead the node to accept. *)
Definition nom_votes (s : Statement) : gset string := match GetNominate s with Ok n => list_to_set (nom_VoteList n) | _ => ∅ end.
Definition acceptable (s : Statement) d : nat := size ((nom_votes s ∪ d_votes d) ∖ d_accepts d).

Lemma go_iter_elem (X : gset string) x : x ∈ go_iter X ↔ x ∈ X.
Proof.
  unfold go_iter. rewrite go_range_perm, list_elem_of_fmap. split.
  - intros ([y []] & -> & Hy%elem_of_map_to_list). by apply lookup_gset_to_gmap_Some in Hy as [? _].
  - intros Hx. exists (x, tt). split; [done|]. apply elem_of_map_to_list. by apply lookup_gset_to_gmap_Some.
Qed.
Lemma nom_votes_own d : nom_votes (nomination_statement d) = d_votes d.
Proof.
  unfold nom_votes. simpl. apply set_eq. intros x. rewrite elem_of_list_to_set. apply go_iter_elem.
Qed.

Section with_recvN.
Variable recvN : nat → Statement → M (Decree E) unit.

Lemma sendNomination_settles d :
  sound d → settles (λ n, recvN n (nomination_statement d)) d sound_after →
  settles (λ n, sendNomination (recvN n)) d sound_after.
Proof.
  intros Hd Hr. unfold sendNomination. apply settles_run; [done|]. simpl. apply settles_run; [done|]. simpl.
  apply settles_bind, settles_wrap. eapply settles_mono; [exact Hr|].
  intros d1 [[]|?|?|] _ H; simpl; try done.
  specialize (H eq_refl). apply settles_level; [apply level_get|done|]. intros d2 d2' Hd2 _ _.
  apply settles_level; [apply level_lift, returns_isNewerNomination|done|]. intros d3 [] Hd3 _ _; [|by apply settles_ret].
  apply settles_level; [by apply level_modify|done|]. intros d4 [] Hd4 _ _. apply settles_const; [done|].
  intros _. by eapply sound_form, Hd4.
Qed.
End with_recvN.

(** What a level of the recursion hands on has less to accept. *)
Lemma acceptable_shrinks s nom d d' :
  GetNominate s = Ok nom → d_votes d' ⊆ d_votes d ∪ list_to_set (nom_VoteList nom) → d_accepts d ⊆ d_accepts d' →
  (∃ x, x ∈ nom_VoteList nom ∧ x ∉ d_accepts d ∧ x ∈ d_accepts d') →
  (acceptable (nomination_statement d') d' < acceptable s d)%nat.
Proof.
  intros Hn Hv Ha (x & Hx & Hx1 & Hx2). unfold acceptable. rewrite nom_votes_own. unfold nom_votes. rewrite Hn.
  apply subset_size. set_solver.
Qed.

Lemma recvNomination_settles k s f g d :
  sound d → (acceptable s d < k)%nat → unbounded f → unbounded g →
  settles (λ n, recvNomination (recvBallot (f n)) (g n) s) d sound_after.
Proof.
  revert s f g d. induction k as [|k IH]; intros s f g d Hd Hk Hf Hg; [lia|].
  destruct (Hg 1%nat) as [N HN].
  apply (settles_eventually _ (λ n, recvNomination_body (recvBallot (f n)) (recvNomination (recvBallot (f n)) (pred (g n))) s) _ _ N).
  { intros n Hn. specialize (HN n Hn). by destruct (g n); [lia|]. }
  unfold recvNomination_body. pose proof (returns_GetNominate s) as Hrn.
  apply settles_run; [done|]. simpl. destruct (GetNominate s) as [nom| | |] eqn:Hnom; simpl; try done; [|by intros ?..]. case_decide; [by apply settles_const; [|intros _]|].
  apply settles_level; [apply level_store_nomination|done|]. intros d1 [] Hd1 Hv1 Ha1.
  apply settles_run; [done|]. simpl. destruct (negb _); [by apply settles_ret|].
  pose proof (promoteVotes_spec nom d1) as Hp. destruct (promoteVotes nom d1) as [d2 r2] eqn:He.
  destruct Hp as (Hf2 & Hr2 & Hv2 & Ha2 & Hx2).
  assert (wrap "promote votes failed: " (promoteVotes nom) d1 = (d2, res_wrap "promote votes failed: " r2)) as Hw
    by (unfold wrap; by rewrite He).
  apply settles_run; [rewrite Hw; by apply returns_wrap|]. rewrite Hw.
  pose proof (sound_form _ _ Hf2 Hd1) as Hd2. destruct r2 as [[a c]|?|?|]; simpl; try done; [|by intros _].
  apply (settles_bind (λ n, if a : bool then do! try (sendNomination (recvNomination (recvBallot (f n)) (pred (g n)))) in ret tt else ret tt)).
  eapply (settles_mono _ _ sound_after).
  { destruct a; [|by apply settles_ret]. apply settles_bind, settles_try. eapply (settles_mono _ _ sound_after).
    - apply sendNomination_settles; [done|]. apply IH; [done| |done|by apply unbounded_pred].
      pose proof (acceptable_shrinks s nom d d2 Hnom) as Hlt. rewrite Hv1, Ha1 in *. specialize (Hlt Hv2 Ha2 (Hx2 c eq_refl)). lia.
    - intros d3 [[]|?|?|] _ Hd3; simpl; try done; apply settles_ret, Hd3; done. }
  intros d3 [[]|?|?|] _ Hd3; simpl; try done. specialize (Hd3 eq_refl).
  destruct c; [|by apply settles_ret].
  apply settles_level; [apply level_wrap, level_combineCandidates|done|]. intros d4 v Hd4 _ _.
  apply settles_run; [done|]. simpl. assert (sound (set_latestComposite v d4)) as Hd5 by (by eapply sound_form, Hd4).
  apply settles_bind. eapply settles_mono.
  - apply (settles_reindex (λ n, updateBallotPhase (recvBallot n) v false)); [done|by apply updateBallotPhase_settles].
  - intros d6 [b|?|?|] _ Hd6; simpl; try done. apply settles_ret. by apply Hd6.
Qed.

(** * The calls on a decree *)

Lemma returns_getConsensusValue d s : returns (getConsensusValue d s).
Proof.
  unfold getConsensusValue. apply returns_bind; [apply returns_GetNominate|]. intros nom _.
  apply returns_bind; [|done]. apply returns_foldl; [done|]. intros v acc Hacc. apply returns_bind; [done|]. intros [h x] _.
  pose proof (returns_validateConsensusValue d v) as Hv. destruct (validateConsensusValue d v); try done. by case_decide.
Qed.

Definition formal {A} d (dr : Decree E * res A) : Prop := form dr.1 = form d ∧ returns dr.2.
Lemma adopt_votes_spec v leaders u d : formal d (adopt_votes v leaders u d).
Proof.
  revert u d. induction leaders as [|l leaders IH]; intros u d; simpl; [done|]. unfold bind at 1, get.
  case_decide; [case_decide; [apply IH|]|].
  - unfold bind, modify. apply (IH true (set_votes ({[v]} ∪ d_votes d) d)).
  - destruct (d_nominations d !! l) as [s|]; [|apply IH]. unfold bind at 1, wrap, lift.
    pose proof (returns_getConsensusValue d s) as Hr. destruct (getConsensusValue d s) as [x|?|?|]; simpl; try done.
    case_decide; [|apply IH]. unfold bind, modify. apply (IH true (set_votes ({[x]} ∪ d_votes d) d)).
Qed.

Lemma Nominate_settles prevHash currHash isRenominate d :
  sound d → settles (λ n, Nominate_ n prevHash currHash isRenominate) d sound_after.
Proof.
  intros Hd. unfold Nominate_. apply settles_run; [done|]. simpl. destruct (_ && _); [by apply settles_ret|].
  apply settles_level; [by apply level_modify|done|]. intros d1 [] Hd1 _ _.
  apply settles_level; [by apply level_modify|done|]. intros d2 [] Hd2 _ _. apply settles_run; [done|]. simpl.
  destruct (adopt_votes_spec currHash (go_iter (d_nominationLeaders d2)) false d2) as [Hf Hr]. apply settles_run; [done|].
  pose proof (sound_form _ _ Hf Hd2) as Hd3. destruct (adopt_votes _ _ _ d2) as [d3 [u|?|?|]]; simpl in *; try done; [|by intros _].
  apply settles_level.
  { unfold renominate. apply level_bind; [apply level_get|]. intros x. destruct (negb _); [apply level_ret|].
    case_decide; [apply level_ret|by apply level_modify]. }
  { done. }
  intros d4 [] Hd4 _ _. destruct u; [|by apply settles_ret]. apply settles_wrap. eapply settles_mono.
  - apply (sendNomination_settles (λ n, recvNomination (recvBallot n) n)); [done|].
    apply (recvNomination_settles (S (acceptable (nomination_statement d4) d4))); [done|lia|apply unbounded_id..].
  - intros d5 [] _ H; done.
Qed.

Lemma Recv_settles s d : sound d → wire s → settles (λ n, Recv n (Some s)) d sound_after.
Proof.
  intros Hd Hw. unfold Recv. destruct (s_Type s); [|apply settles_wrap..|by apply settles_ret].
  { apply settles_wrap. eapply settles_mono; [apply (recvNomination_settles (S (acceptable s d))); [done|lia|apply unbounded_id..]|].
    intros d' [] _ H; done. }
  all: eapply settles_mono; [by apply recvBallot_settles|]; intros d' [] _ H; done.
Qed.
End calls.

(** ** Lives *)

(** A call on a decree; between two of them the ledger and the validator may change. *)
Inductive decree_call (E : Type) :=
| CallNominate (prevHash currHash : string) (isRenominate : bool)
| CallRecv (stmt : option Statement)
| CallStopNomination
| CallEnv (env : E).
Arguments CallNominate {E}.
Arguments CallRecv {E}.
Arguments CallStopNomination {E}.
Arguments CallEnv {E}.

Section lives.
Context {E : Type} {Env : DecreeEnv E} {Crypto : CryptoLib} {Pbc : PbCodec} {GoRt : GoRuntime}.

Definition run_call (fuel : nat) (c : decree_call E) : M (Decree E) unit :=
  match c with
  | CallNominate prevHash currHash isRenominate => Nominate_ fuel prevHash currHash isRenominate
  | CallRecv stmt => Recv fuel stmt
  | CallStopNomination => StopNomination
  | CallEnv env => modify (set_env env)
  end.

(** The caller logs an error and goes on. *)
Fixpoint run_calls (fuel : nat) (cs : list (decree_call E)) : M (Decree E) unit :=
  match cs with
  | [] => ret tt
  | c :: cs => do! try (run_call fuel c) in run_calls fuel cs
  end.

Definition wire_call (c : decree_call E) : Prop := match c with CallRecv (Some s) => wire s | _ => True end.

Context {Ret : EnvReturns E}.

Lemma run_call_settles c d : sound d → wire_call c → settles (λ n, run_call n c) d sound_after.
Proof.
  intros Hd Hw. destruct c as [x y r|[s|]| |e]; simpl.
  - by apply Nominate_settles.
  - by apply Recv_settles.
  - by apply settles_const; [|intros _].
  - apply settles_const; [done|]. intros _. by eapply sound_form, Hd.
  - apply settles_const; [done|]. intros _. by eapply sound_form, Hd.
Qed.

Lemma run_calls_settles cs d : sound d → Forall wire_call cs → settles (λ n, run_calls n cs) d sound_after.
Proof.
  revert d. induction cs as [|c cs IH]; intros d Hd Hw; simpl; [by apply settles_ret|]. apply Forall_cons in Hw as [Hc Hw].
  apply settles_bind, settles_try. eapply settles_mono; [by apply run_call_settles|].
  intros d1 [[]|?|?|] _ H; simpl; try done; apply IH; try done; by apply H.
Qed.
End lives.

(** * The validator *)

Section validator.
Context {D : Type} {StoreD : Store D} {RetD : StoreReturns D}.
Context {Pbc : PbCodec} {GoRt : GoRuntime} {Crypto : CryptoLib}.
Context {QuorumCodec : Codec Quorum} {StatementCodec : Codec Statement}.

Lemma always_on_lm {A} (m : M (LedgerManager D) A) : always m → always (on_lm m).
Proof. intros Hm v. specialize (Hm (v_lm v)). unfold on_lm. by destruct (m (v_lm v)). Qed.

(** The validator and the ledger manager, as a decree sees them. *)
#[global] Instance Validator_EnvReturns : EnvReturns (Validator D).
Proof.
  split; simpl.
  - intros v. apply returns_CurrHeader.
  - intros v. apply returns_CurrHash.
  - intros v h. apply always_GetTxSet.
  - intros v h. apply always_on_lm, always_GetTxSet.
  - intros h ts v. apply always_on_lm, always_AddTxSet.
Qed.

#[local] Hint Resolve always_on_lm always_ledger_db always_GetTxSet always_AddTxSet : go_always.
#[local] Hint Resolve returns_GetPrepare returns_GetConfirm returns_GetExternalize returns_GetNominate returns_getWorkingBallot
  returns_ValidateQuorum : go_returns.

Lemma always_RecvQuorum h q : always (RecvQuorum (D:=D) h q).
Proof. unfold RecvQuorum. alw. Qed.
Lemma always_GetQuorum h : always (GetQuorum (D:=D) h).
Proof. unfold GetQuorum. alw. Qed.
Lemma always_RecvTxSet h ts : always (RecvTxSet (D:=D) h ts).
Proof. unfold RecvTxSet. alw. Qed.
Lemma always_Validator_GetTxSet h : always (Validator_GetTxSet (D:=D) h).
Proof. unfold Validator_GetTxSet. alw. Qed.
#[local] Hint Resolve always_GetQuorum : go_always.
Lemma returns_extractQuorumHash s : returns (extractQuorumHash s).
Proof. unfold extractQuorumHash. rets. Qed.
Lemma returns_extractTxSetHash s : returns (extractTxSetHash s).
Proof. unfold extractTxSetHash, value_txset. rets. apply returns_res_map. rets. Qed.
#[local] Hint Resolve returns_extractQuorumHash returns_extractTxSetHash : go_returns.
Lemma always_have_txsets hs : always (have_txsets (D:=D) hs).
Proof. induction hs; simpl; alw. Qed.
#[local] Hint Resolve always_have_txsets : go_always.
Lemma always_validate s : always (validate (D:=D) s).
Proof. unfold validate. alw. Qed.
#[local] Hint Resolve always_validate : go_always.
Lemma always_Validator_Recv s : always (Validator_Recv (D:=D) s).
Proof. unfold Validator_Recv. alw. Qed.
Lemma always_monitor : always (monitor_tick (D:=D)).
Proof. unfold monitor_tick. alw. Qed.
Lemma always_dispatch_stmt : always (dispatch_stmt (D:=D)).
Proof. unfold dispatch_stmt. alw. Qed.
Lemma always_download_stmt : always (download_stmt (D:=D)).
Proof. unfold download_stmt. alw. Qed.

(** ** The loop of the tick *)

#[local] Arguments remove_old : simpl never.

Lemma release_from_settles x : x < MaxUint64 → ∀ k i v, 0 <= i → x < i + Z.of_nat k →
  settles (λ n, release_from (D:=D) n i x) v (λ _ r, r = Ok tt).
Proof.
  intros Hx. induction k as [|k IH]; intros i v Hi Hk; apply settles_S; simpl; case_decide; try (by apply settles_const); [lia|].
  apply settles_run; [done|]. simpl. apply IH; rewrite uwrap64_id; unfold_int; unfold MaxUint64 in *; lia.
Qed.
Lemma release_from_endless n : ∀ i v, uint64 i → (release_from (D:=D) n i MaxUint64 v).2 = NoFuel.
Proof.
  induction n as [|n IH]; intros i v Hi; [done|]. simpl. rewrite decide_False by (destruct Hi; lia).
  unfold bind, release at 1, modify at 1. apply IH. apply uwrap64_range.
Qed.
Lemma next_uint64 (lm : LedgerManager D) : uint64 (NextLedgerHeaderSeq lm).
Proof. unfold NextLedgerHeaderSeq. destruct (lm_currLedgerHeader lm); [apply uwrap64_range|done]. Qed.

Lemma dispatch_tick_settles (v : Validator D) :
  v_maxSeqNum v < MaxUint64 → settles (λ n, dispatch_tick n) v (λ _ r, r = Ok tt).
Proof.
  intros Hv. unfold dispatch_tick. apply settles_run; [done|]. simpl. pose proof (next_uint64 (v_lm v)) as [Hn _].
  apply settles_bind. eapply settles_mono.
  - apply (release_from_settles _ Hv (Z.to_nat (v_maxSeqNum v + 1 - NextLedgerHeaderSeq (v_lm v)))); lia.
  - intros v1 r _ ->. simpl. apply settles_run; [done|]. simpl. apply settles_run; [by rewrite remove_old_run|].
    unfold lift. rewrite remove_old_run. simpl. by apply settles_const.
Qed.
End validator.

(** * Properties *)

(** C5: every call on a decree comes to an end.  [recvBallot] and [recvNomination] call themselves through the messages that
    a node sends to itself, without a bound that holds (the counter that should stop them leaks); yet for every sequence of
    calls on a new decree, with messages from anybody, there is an amount of fuel from which on the outcome is always the
    same and is not a lack of fuel: each call returns, or the process dies. *)
Theorem decree_life_returns {E : Type} {Env : DecreeEnv E} {Ret : EnvReturns E} {Crypto : CryptoLib} {Pbc : PbCodec} {GoRt : GoRuntime}
    (env : E) (index : Z) (nodeID quorumHash : string) (quorum : Quorum) (d0 : Decree E) (cs : list (decree_call E)) :
  NewDecree env index nodeID quorum quorumHash = Ok d0 → Forall wire_call cs →
  ∃ N d r, (∀ n, (N ≤ n)%nat → run_calls n cs d0 = (d, r)) ∧ r ≠ NoFuel.
Proof.
  intros H0 Hcs. destruct (run_calls_settles cs d0 (NewDecree_sound _ _ _ _ _ _ H0) Hcs) as (N & d & r & Hr & Hret & _).
  exists N, d, r. split; [done|]. by apply returns_spec.
Qed.

(** The tick of the dispatcher ends exactly when no statement for the last index has been received.  The code counts
    upwards to the largest index that it has seen with an integer of 64 bits; when that is the largest integer of the type the counter
    wraps around and the goroutine never comes back to its select, and no peer is kept from sending such a statement. *)
Theorem tick_ends_iff {D : Type} {StoreD : Store D} {Pbc : PbCodec} (v : Validator D) :
  uint64 (v_maxSeqNum v) → (∃ n, (dispatch_tick n v).2 ≠ NoFuel) ↔ v_maxSeqNum v ≠ MaxUint64.
Proof.
  intros [_ Hv]. split.
  - intros [n Hn] He. apply Hn. pose proof (release_from_endless n (NextLedgerHeaderSeq (v_lm v)) v (next_uint64 (v_lm v))) as H.
    unfold dispatch_tick, bind, get. rewrite He. destruct (release_from _ _ _ v) as [v1 r]. simpl in H. by subst r.
  - intros Hne. destruct (dispatch_tick_settles v ltac:(lia)) as (N & v' & r & Hr & _ & ->). exists N. by rewrite Hr.
Qed.

Module returning.
Import Decree.states Nomination.runs.

#[export] Instance quorum_env_returns : EnvReturns Quorum.
Proof. by split. Qed.

(** A node alone nominates a value, decides, and then hears of another decision. *)
Definition life : list (decree_call Quorum) := [CallNominate "head" (value "x") false; CallRecv (Some late); CallStopNomination].

Lemma decree_life_returns_witness : ∃ N d r, (∀ n, (N ≤ n)%nat → run_calls n life (fresh alone) = (d, r)) ∧ r ≠ NoFuel.
Proof.
  apply (decree_life_returns alone 5 "me" "qh" alone (fresh alone) life); [reflexivity|].
  apply Forall_cons; split; [exact I|]. apply Forall_cons; split; [|by apply Forall_singleton].
  apply Forall_cons; split; [unfold_int; simpl; lia|]. apply Forall_singleton. unfold_int. simpl. lia.
Defined.

(** The tenth message to itself is refused, and the decision that the decree hears of later is handled at the limit. *)
Lemma recursion_limit_leaks_witness :
  (step (recvBallot 0) 0 (mkMStatement late None) (set_ballotMsgCount 9 (fresh alone))).2 = Err "max number of invoking reached in step" ∧
  maxRecursions <= d_ballotMsgCount (foldl (λ d '(n, m), (recvBallot n m d).1)
    (step (recvBallot 0) 0 (mkMStatement late None) (set_ballotMsgCount 9 (fresh alone))).1 [(9%nat, mkMStatement late None)]).
Proof. apply recursion_limit_leaks. reflexivity. Defined.
End returning.
