(* ===== verification/Engine.v ===== *)
(** The consensus engine, [consensus/engine.go]: it owns the decrees, hands them the statements the validator
    releases, sends what they say, closes the ledger with what they externalize, and proposes the next value.

    The engine, the validator, the decrees and the ledger manager share one database, so the state of the engine
    contains the validator, which contains the ledger manager.  A decree is a Go object that timers and messages
    on channels keep alive after the engine has forgotten it: the objects are a list, and the map of the engine
    holds their positions.  A decree runs on the validator as it is at that time.

    The goroutines of [Start] are one definition per case of their selects.  A channel is the list of what is on
    it.  What peers answer, the random order in which they are asked, and the clock, in nanoseconds, are
    arguments. *)

From stdpp Require Import relations.
From S2P Require Import Prelude Lru Pb Db Crypto Keypair Account TxManager Ledger Quorum Ballot Rpc Peer Federated Decree Nomination Validator.

(** * Context *)

Record EngineContext {D C : Type} := mkEngineContext {
  ec_NetworkID : string;
  ec_Seed : string;
  ec_NodeID : string;
  ec_Role : string;
  ec_MaxDecrees : Z;
  ec_PM : option (PeerManager C);
  ec_AM : option unit;
  ec_LM : option (LedgerManager D);
  ec_TM : option unit;
  ec_Quorum : option Quorum;
  ec_ProposeInterval : Z;
}.
Arguments EngineContext D C : clear implicits.

(** The managers of accounts and transactions are reached through the ledger manager; here they are nil or not. *)
Definition ValidateEngineContext {D C} (ec : option (EngineContext D C)) : res unit :=
  match ec with
  | None => Err "engine context is nil"
  | Some ec =>
      if decide (ec_NetworkID ec = "") then Err "network id is empty"
      else if decide (ec_Seed ec = "") then Err "empty node seed"
      else if decide (ec_NodeID ec = "") then Err "empty node ID"
      else if decide (ec_Role ec = "") then Err "empty node role"
      else if decide (ec_MaxDecrees ec = 0) then Err "max decrees is zero"
      else if negb (bool_decide (is_Some (ec_PM ec))) then Err "peer manager is nil"
      else if negb (bool_decide (is_Some (ec_AM ec))) then Err "account manager is nil"
      else if negb (bool_decide (is_Some (ec_LM ec))) then Err "ledger manager is nil"
      else if negb (bool_decide (is_Some (ec_TM ec))) then Err "tx manager is nil"
      else if negb (bool_decide (is_Some (ec_Quorum ec))) then Err "initial quorum is nil"
      else if decide (ec_ProposeInterval ec <= 0) then Err "propose interval is invalid"
      else Ok tt
  end.

(** * State *)

Record Engine {D C : Type} := mkEngine {
  e_networkID : string;
  e_seed : string;
  e_nodeID : string;
  e_role : string;
  e_quorum : Quorum;
  e_quorumHash : string;
  e_maxDecrees : Z;
  e_proposeInterval : Z;
  e_pm : PeerManager C;
  e_validator : Validator D;
  (** The decrees by index, and the objects. *)
  e_decrees : gmap Z nat;
  e_objects : list (Decree (Validator D));
  e_statementChan : list (nat * MStatement);
  e_externalizeChan : list (Z * string);
  e_lastExtTime : Z;
  e_lastProposeTime : Z;
  (** The goroutines that wait to propose: their delays in seconds. *)
  e_timers : list Z;
  (** The broadcasts that were started: the clients and the request. *)
  e_broadcasts : list (list C * NotifyRequest);
}.
Arguments Engine D C : clear implicits.

Section setters.
Context {D C : Type}.
Implicit Types e : Engine D C.

Definition set_world (pm : PeerManager C) (v : Validator D) e : Engine D C :=
  mkEngine D C (e_networkID e) (e_seed e) (e_nodeID e) (e_role e) (e_quorum e) (e_quorumHash e) (e_maxDecrees e) (e_proposeInterval e)
    pm v (e_decrees e) (e_objects e) (e_statementChan e) (e_externalizeChan e) (e_lastExtTime e) (e_lastProposeTime e)
    (e_timers e) (e_broadcasts e).
Definition set_validator (v : Validator D) e : Engine D C := set_world (e_pm e) v e.
Definition set_decrees (m : gmap Z nat) (objs : list (Decree (Validator D))) e : Engine D C :=
  mkEngine D C (e_networkID e) (e_seed e) (e_nodeID e) (e_role e) (e_quorum e) (e_quorumHash e) (e_maxDecrees e) (e_proposeInterval e)
    (e_pm e) (e_validator e) m objs (e_statementChan e) (e_externalizeChan e) (e_lastExtTime e) (e_lastProposeTime e)
    (e_timers e) (e_broadcasts e).
Definition set_chans (stmts : list (nat * MStatement)) (exts : list (Z * string)) e : Engine D C :=
  mkEngine D C (e_networkID e) (e_seed e) (e_nodeID e) (e_role e) (e_quorum e) (e_quorumHash e) (e_maxDecrees e) (e_proposeInterval e)
    (e_pm e) (e_validator e) (e_decrees e) (e_objects e) stmts exts (e_lastExtTime e) (e_lastProposeTime e)
    (e_timers e) (e_broadcasts e).
Definition set_times (ext prop : Z) (timers : list Z) e : Engine D C :=
  mkEngine D C (e_networkID e) (e_seed e) (e_nodeID e) (e_role e) (e_quorum e) (e_quorumHash e) (e_maxDecrees e) (e_proposeInterval e)
    (e_pm e) (e_validator e) (e_decrees e) (e_objects e) (e_statementChan e) (e_externalizeChan e) ext prop
    timers (e_broadcasts e).
Definition set_broadcasts (l : list (list C * NotifyRequest)) e : Engine D C :=
  mkEngine D C (e_networkID e) (e_seed e) (e_nodeID e) (e_role e) (e_quorum e) (e_quorumHash e) (e_maxDecrees e) (e_proposeInterval e)
    (e_pm e) (e_validator e) (e_decrees e) (e_objects e) (e_statementChan e) (e_externalizeChan e) (e_lastExtTime e) (e_lastProposeTime e)
    (e_timers e) l.

Definition e_lm e : LedgerManager D := v_lm (e_validator e).

Definition on_validator {A} (m : M (Validator D) A) : M (Engine D C) A := λ e,
  let '(v, r) := m (e_validator e) in (set_validator v e, r).
Definition on_ledger {A} (m : M (LedgerManager D) A) : M (Engine D C) A := on_validator (on_lm m).

(** Run a call on a decree: it sees the validator as it is, and what it sends goes to the channels of the engine. *)
Definition run_decree (o : nat) (d d' : Decree (Validator D)) e : Engine D C :=
  set_chans (e_statementChan e ++ ((λ m, (o, m)) <$> drop (length (d_statementChan d)) (d_statementChan d')))
    (e_externalizeChan e ++ drop (length (d_externalizeChan d)) (d_externalizeChan d'))
    (set_decrees (e_decrees e) (<[o := d']> (e_objects e)) (set_validator (d_env d') e)).
Definition on_decree {A} (o : nat) (m : M (Decree (Validator D)) A) : M (Engine D C) A := λ e,
  match e_objects e !! o with
  | None => (e, Panic "nil pointer dereference")
  | Some d => let '(d', r) := m (set_env (e_validator e) d) in (run_decree o d d' e, r)
  end.

End setters.

(** The difference of two times, [time.Time.Sub] and [Duration.Seconds] cut to an integer. *)
Definition time_Sub (t u : Z) : Z := Z.max MinInt64 (Z.min MaxInt64 (t - u)).
Definition seconds (d : Z) : Z := Z.quot d 1000000000.
(** The zero time is January 1 of the year 1. *)
Definition zero_time : Z := -62135596800000000000.

Section engine.
Context {D T C : Type} {StoreD : Store D} {StoreT : Store T} {TxDb : TxDatabase D T}.
Context {Pbc : PbCodec} {GoRt : GoRuntime} {Crypto : CryptoLib} {Ed : Ed25519}.
Context {QuorumCodec : Codec Quorum} {StatementCodec : Codec Statement}.
(** The base reserve, and the depth of the recursion of a decree. *)
Variables (baseReserve : Z) (fuel : nat).
Implicit Types e : Engine D C.

(** [ultpb.SHA256Hash(quorum)] *)
Definition quorum_hash (q : Quorum) : res string := let? b := encode_res q in Ok (SHA256Hash b).

(** The buckets are made before. *)
Definition NewEngine (now : Z) (ctx : option (EngineContext D C)) : res (Engine D C) :=
  match ValidateEngineContext ctx with
  | Ok _ =>
      let? ctx := deref ctx in
      let? pm := deref (ec_PM ctx) in
      let? lm := deref (ec_LM ctx) in
      let? q := deref (ec_Quorum ctx) in
      match quorum_hash q with
      | Ok h =>
          Ok (mkEngine D C (ec_NetworkID ctx) (ec_Seed ctx) (ec_NodeID ctx) (ec_Role ctx) q h (ec_MaxDecrees ctx)
                (ec_ProposeInterval ctx) pm (NewValidator lm (ec_MaxDecrees ctx)) ∅ [] [] [] now zero_time [] [])
      | r => Panic "compute quorum hash failed"
      end
  | r => Panic "engine context is invalid"
  end.

(** * Lookups and messages from peers *)

Definition Engine_GetQuorum (quorumHash : string) : M (Engine D C) (option Quorum) :=
  wrap "query quorum failed: " (on_validator (GetQuorum quorumHash)).
Definition Engine_GetTxSet (txsetHash : string) : M (Engine D C) (option TxSet) :=
  wrap "query txset failed: " (on_validator (Validator_GetTxSet txsetHash)).
Definition Engine_RecvTxSet (txsetHash : string) (txset : TxSet) : M (Engine D C) unit :=
  wrap "recv txset failed: " (on_validator (RecvTxSet txsetHash txset)).

Definition RecvStatement (stmt : Statement) : M (Engine D C) unit :=
  let! e := get in
  if decide (s_NodeID stmt = e_nodeID e) then ret tt
  else wrap "send statement to validator failed: " (on_validator (Validator_Recv (Some stmt))).

(** * Talking to peers *)

Definition broadcastStatement (stmt : option Statement) : M (Engine D C) unit :=
  match stmt with
  | None => fail "broadcast statement is nil"
  | Some stmt =>
      let! e := get in
      let clients := GetLiveClients (e_pm e) in
      if decide (length clients = 0%nat) then fail "there are no live clients"
      else
        let! payload := wrap "encode statement failed: " (lift (encode_res stmt)) in
        let! sign := wrap "sign statement failed: " (lift (Sign (e_seed e) payload)) in
        let! req := wrap "rpc broadcast failed: " (lift (BroadcastStatement payload sign (e_networkID e))) in
        modify (λ e, set_broadcasts (e_broadcasts e ++ [(clients, req)]) e)
  end.

(** The loop of [rebroadcast]; an error is logged. *)
Fixpoint rebroadcast_loop (n : nat) (seq lowerLedgerSeq : Z) : M (Engine D C) unit :=
  match n with
  | O => lift NoFuel
  | S n =>
      if decide (seq < lowerLedgerSeq) then ret tt
      else
        let! e := get in
        match e_decrees e !! seq ≫= λ o, e_objects e !! o with
        | None => ret tt
        | Some decree =>
            match GetLatestStatements decree with
            | [] => ret tt
            | stmts =>
                do! mfor stmts (λ stmt, do! try (broadcastStatement (Some stmt)) in ret tt) in
                rebroadcast_loop n (uwrap64 (seq - 1)) lowerLedgerSeq
            end
        end
  end.

(** The indexes visited are different and have a decree, so the size of the map bounds the rounds. *)
Definition rebroadcast : M (Engine D C) unit :=
  let! e := get in
  let nextLedgerSeq := NextLedgerHeaderSeq (e_lm e) in
  let lowerLedgerSeq := if decide (e_maxDecrees e < nextLedgerSeq) then nextLedgerSeq - e_maxDecrees e else 0 in
  rebroadcast_loop (S (size (e_decrees e))) nextLedgerSeq lowerLedgerSeq.

Section peers.
Variables (call : C → QueryRequest → Status + string) (indices : list nat).

Definition queryQuorum e (quorumHash : string) : res Quorum :=
  let? sign := res_wrap "sign statement failed: " (Sign (e_seed e) quorumHash) in
  let? quorum := res_wrap "rpc query failed: "
    (QueryQuorum call indices (GetLiveClients (e_pm e)) quorumHash sign (e_networkID e)) in
  let? hash := res_wrap "compute quorum hash failed: " (quorum_hash quorum) in
  if decide (hash ≠ quorumHash) then Err "hash of quorum is incompatible to quorumhash" else Ok quorum.

Definition queryTxSet e (txsetHash : string) : res TxSet :=
  let? sign := res_wrap "sign statement failed: " (Sign (e_seed e) txsetHash) in
  let? txset := res_wrap "rpc query failed: "
    (QueryTxSet call indices (GetLiveClients (e_pm e)) txsetHash sign (e_networkID e)) in
  let? hash := res_wrap "compute txset hash failed: " (GetTxSetKey txset) in
  if decide (hash ≠ txsetHash) then Err "hash of txset is incompatible" else Ok txset.
End peers.

(** * Decrees *)

Definition getDecree (idx : Z) (create : bool) : M (Engine D C) nat :=
  let! e := get in
  match e_decrees e !! idx with
  | Some o => ret o
  | None =>
      if negb create then fail "decree not exist"
      else
        let! d := lift (NewDecree (e_validator e) idx (e_nodeID e) (e_quorum e) (e_quorumHash e)) in
        let o := length (e_objects e) in
        do! put (set_decrees (<[idx := o]> (e_decrees e)) (e_objects e ++ [d]) e) in
        ret o
  end.

(** The error of [Nominate] is dropped. *)
Definition nominate (idx : Z) (prevValue currValue : string) : M (Engine D C) unit :=
  let! o := wrap "get decree failed: " (getDecree idx true) in
  do! try (on_decree o (Nominate_ fuel prevValue currValue false)) in
  ret tt.

(** * Proposing *)

(** [time.Now] is read twice, for the time of the proposal and for the value. *)
Definition Propose (now unix : Z) : M (Engine D C) unit :=
  do! modify (λ e, set_times (e_lastExtTime e) now (e_timers e) e) in
  let! e := get in
  if decide (e_role e ≠ "validator") then fail "the node is not a validator"
  else if negb (LedgerSynced (e_lm e)) then ret tt
  else
    let! prev := lift (CurrLedgerHeaderHash (e_lm e)) in
    let! txList := on_ledger (on_tm GetTxList) in
    let txSet := mkTxSet prev txList in
    let! hash := wrap "get tx set hash failed: " (lift (GetTxSetKey txSet)) in
    do! wrap "sync txset with validator failed: " (on_validator (RecvTxSet hash txSet)) in
    do! wrap "sync quorum with validator failed: " (on_validator (RecvQuorum (e_quorumHash e) (Some (e_quorum e)))) in
    let! cvb := wrap "encode consensus value failed: " (lift (encode_res (mkConsensusValue hash unix))) in
    let cvStr := b58_Encode cvb in
    let! e := get in
    let decreeIdx := NextLedgerHeaderSeq (e_lm e) in
    let! currHeader := lift (CurrLedgerHeader (e_lm e)) in
    wrap "nominate value failed: " (nominate decreeIdx (lh_ConsensusValue currHeader) cvStr).

(** * Externalizing *)

(** Remove decrees that are too old. *)
Definition remove_decrees (idx : Z) e : Engine D C :=
  if decide (e_maxDecrees e < idx)
  then set_decrees (filter (λ kv, ¬ kv.1 <= idx - e_maxDecrees e) (e_decrees e)) (e_objects e) e
  else e.

Definition Externalize (now idx : Z) (value : string) : M (Engine D C) unit :=
  let! e := get in
  if decide (idx < NextLedgerHeaderSeq (e_lm e)) then ret tt
  else
    match b58_Decode value with
    | None => fail "hex decode consensus value failed: "
    | Some b =>
        let! cv := wrap "decode consensus value failed: " (lift (decode_res b)) in
        let! txset := wrap "get txset failed: " (on_validator (Validator_GetTxSet (cv_TxSetHash cv))) in
        match txset with
        | None => fail "txset not exist"
        | Some txset =>
            do! wrap "externalize value in ledger manager failed: " (on_ledger (RecvExtVal baseReserve now idx value (Some txset))) in
            let! o := wrap "get decree failed: " (getDecree idx false) in
            do! on_decree o StopNomination in
            do! on_ledger (on_tm (DeleteTxList (ts_TxList txset))) in
            modify (remove_decrees idx)
        end
    end.

(** * The goroutines of [Start] *)

(** A statement of a decree is sent as it reads now. *)
Definition send_statement : M (Engine D C) unit :=
  let! e := get in
  match e_statementChan e with
  | [] => ret tt
  | (o, m) :: rest =>
      do! modify (set_chans rest (e_externalizeChan e)) in
      let! decree := lift (deref (e_objects e !! o)) in
      do! try (broadcastStatement (Some (resolve (d_heap decree) m))) in
      ret tt
  end.

Definition download_txset call indices : M (Engine D C) unit :=
  let! e := get in
  match v_txsetDownloadChan (e_validator e) with
  | [] => ret tt
  | txsetHash :: rest =>
      do! on_validator (modify (set_requests (v_quorumDownloadChan (e_validator e)) rest)) in
      let! txset := try (lift (queryTxSet call indices e txsetHash)) in
      match txset with
      | inl _ => ret tt
      | inr txset => do! try (on_validator (RecvTxSet txsetHash txset)) in ret tt
      end
  end.

Definition download_quorum call indices : M (Engine D C) unit :=
  let! e := get in
  match v_quorumDownloadChan (e_validator e) with
  | [] => ret tt
  | quorumHash :: rest =>
      do! on_validator (modify (set_requests rest (v_txsetDownloadChan (e_validator e)))) in
      let! quorum := try (lift (queryQuorum call indices e quorumHash)) in
      match quorum with
      | inl _ => ret tt
      | inr quorum => do! try (on_validator (RecvQuorum quorumHash (Some quorum))) in ret tt
      end
  end.

(** A statement that the validator released.  The sum of the test wraps around. *)
Definition recv_ready : M (Engine D C) unit :=
  let! e := get in
  match v_readyChan (e_validator e) with
  | [] => ret tt
  | stmt :: rest =>
      do! on_validator (modify (λ v, set_waiting (v_decreeStmts v) (v_maxSeqNum v) rest v)) in
      if decide (uwrap64 (s_Index stmt + e_maxDecrees e) < NextLedgerHeaderSeq (e_lm e)) then ret tt
      else
        let! o := getDecree (s_Index stmt) true in
        do! try (on_decree o (Recv fuel (Some stmt))) in
        ret tt
  end.

(** An externalized value.  The next value is proposed now or by a timer. *)
Definition recv_externalized (now now' unix : Z) : M (Engine D C) unit :=
  let! e := get in
  match e_externalizeChan e with
  | [] => ret tt
  | (idx, value) :: rest =>
      do! modify (set_chans (e_statementChan e) rest) in
      let! r := try (Externalize now idx value) in
      match r with
      | inl _ => ret tt
      | inr _ =>
          let! e := get in
          let duration := seconds (time_Sub now' (e_lastProposeTime e)) in
          if decide (duration < e_proposeInterval e) then
            modify (λ e, set_times now' (e_lastProposeTime e) (e_timers e ++ [e_proposeInterval e - duration]) e)
          else
            do! modify (λ e, set_times now' (e_lastProposeTime e) (e_timers e) e) in
            do! try (Propose now' unix) in
            ret tt
      end
  end.

(** One of the timers for the next proposal fires. *)
Definition fire_timer (i : nat) (now unix : Z) : M (Engine D C) unit :=
  let! e := get in
  match e_timers e !! i with
  | None => ret tt
  | Some _ =>
      do! modify (λ e, set_times (e_lastExtTime e) (e_lastProposeTime e) (delete i (e_timers e)) e) in
      do! try (Propose now unix) in
      ret tt
  end.

(** The timer of a re-nomination of a decree fires: a goroutine of [renominate]. *)
Definition take_timer {E} (i : nat) (d : Decree E) : Decree E :=
  upd_nom (d_env d) (d_prevConsensusValue d) (d_votes d) (d_accepts d) (d_candidates d) (d_nominationLeaders d)
    (d_nominations d) (d_nominationRound d) (d_nominationStart d) (d_latestNomination d) (d_latestComposite d)
    (d_renomCount d) (delete i (d_timers d)) (d_statementChan d) d.
Definition fire_renomination (o i : nat) : M (Engine D C) unit :=
  let! e := get in
  match e_objects e !! o ≫= λ d, d_timers d !! i with
  | None => ret tt
  | Some (prevHash, currHash) =>
      do! try (on_decree o (do! modify (take_timer i) in Nominate_ fuel prevHash currHash true)) in
      ret tt
  end.

(** * The life of an engine

    The goroutines of the engine, of its validator and its decrees in any order; the values that are proposed at
    the start; statements, transactions and ledgers that arrive; and the peer manager, which may do anything. *)
Inductive engine_step : Engine D C → Engine D C → Prop :=
| es_send e : engine_step e (send_statement e).1
| es_txset call indices e : engine_step e (download_txset call indices e).1
| es_quorum call indices e : engine_step e (download_quorum call indices e).1
| es_ready e : engine_step e (recv_ready e).1
| es_ext now now' unix e : engine_step e (recv_externalized now now' unix e).1
| es_rebroadcast e : engine_step e (rebroadcast e).1
| es_timer i now unix e : engine_step e (fire_timer i now unix e).1
| es_renominate o i e : engine_step e (fire_renomination o i e).1
| es_Propose now unix e : engine_step e (Propose now unix e).1
| es_RecvStatement s e : engine_step e (RecvStatement s e).1
| es_GetQuorum h e : engine_step e (Engine_GetQuorum h e).1
| es_GetTxSet h e : engine_step e (Engine_GetTxSet h e).1
| es_monitor e : engine_step e (on_validator monitor_tick e).1
| es_dispatch e : engine_step e (on_validator dispatch_stmt e).1
| es_tick e : engine_step e (on_validator (dispatch_tick fuel) e).1
| es_download e : engine_step e (on_validator download_stmt e).1
| es_downloaded now info e : engine_step e (on_ledger (recv_downloaded baseReserve now info) e).1
| es_downloader f e : engine_step e (on_ledger (modify (λ lm,
    set_sync (f (lm_downloader lm)) (lm_buffer lm) (lm_ledgerState lm) (lm_largestConsensusIndex lm) lm)) e).1
| es_AddTx k tx e : engine_step e (on_ledger (on_tm (AddTx baseReserve k tx)) e).1
| es_take_tx e : engine_step e (on_ledger (on_tm take_tx) e).1
| es_GetTxStatus k e : engine_step e (on_ledger (on_tm (GetTxStatus k)) e).1
| es_GetLedger k e : engine_step e (on_ledger (GetLedger k) e).1
| es_GetAccount id e : engine_step e (on_ledger (ledger_db (GetAccount id)) e).1
| es_peers pm e : engine_step e (set_world pm (e_validator e) e).

End engine.

(** * Lemmas *)

Section rebroadcast.
Context {D C : Type} {StoreD : Store D} {Pbc : PbCodec} {GoRt : GoRuntime} {Crypto : CryptoLib} {Ed : Ed25519}.
Context {StatementCodec : Codec Statement}.
Implicit Types e : Engine D C.

(** The broadcast of a statement: one request to all live clients, if there are any and the statement can be
    encoded and signed. *)
Definition notices e (stmt : Statement) : list (list C * NotifyRequest) :=
  let clients := GetLiveClients (e_pm e) in
  let req := let? payload := encode_res stmt in
             let? sign := Sign (e_seed e) payload in
             BroadcastStatement payload sign (e_networkID e) in
  match clients, req with _ :: _, Ok r => [(clients, r)] | _, _ => [] end.

Lemma Sign_result seed x : match Sign seed x with Ok _ | Err _ => True | _ => False end.
Proof. unfold Sign, getPrivateKey. case_decide; [done|]. pose proof (DecodeKey_no_panic seed). by destruct (DecodeKey seed). Qed.

Lemma set_broadcasts_app e l1 l2 :
  set_broadcasts (e_broadcasts (set_broadcasts (e_broadcasts e ++ l1) e) ++ l2) (set_broadcasts (e_broadcasts e ++ l1) e) =
  set_broadcasts (e_broadcasts e ++ l1 ++ l2) e.
Proof. unfold set_broadcasts. simpl. by rewrite app_assoc. Qed.
Lemma set_broadcasts_nil e : set_broadcasts (e_broadcasts e ++ []) e = e.
Proof. rewrite app_nil_r. by destruct e. Qed.

Lemma say_run stmt e :
  (do! try (broadcastStatement (D:=D) (C:=C) (Some stmt)) in ret tt) e = (set_broadcasts (e_broadcasts e ++ notices e stmt) e, Ok tt).
Proof.
  unfold broadcastStatement, notices, bind, try, get, wrap, lift. simpl.
  destruct (GetLiveClients (e_pm e)) as [|c cs]; simpl; [by rewrite set_broadcasts_nil|].
  unfold encode_res. destruct (Encode stmt) as [p|]; simpl; [|by rewrite set_broadcasts_nil].
  pose proof (Sign_result (e_seed e) p). destruct (Sign (e_seed e) p) as [sg|?|?|]; simpl; [|by rewrite set_broadcasts_nil|done..].
  unfold BroadcastStatement, notify_request, check_request. repeat case_decide; simpl; by rewrite ?set_broadcasts_nil.
Qed.

Lemma say_all_run stmts e :
  mfor stmts (λ stmt, do! try (broadcastStatement (D:=D) (C:=C) (Some stmt)) in ret tt) e =
  (set_broadcasts (e_broadcasts e ++ (stmts ≫= notices e)) e, Ok tt).
Proof.
  revert e. induction stmts as [|s stmts IH]; intros e; simpl; [by rewrite set_broadcasts_nil|].
  rewrite (bind_eq_Ok _ _ _ _ _ (say_run s e)), IH, set_broadcasts_app. done.
Qed.

(** The decrees that a round-trip visits: from the index of the next ledger downwards, as long as there is a
    decree with something to say, and not below the lowest index. *)
Definition decree_at e (seq : Z) : option (Decree (Validator D)) := e_decrees e !! seq ≫= λ o, e_objects e !! o.
Fixpoint visits e (lower seq : Z) (ds : list (Decree (Validator D))) : Prop :=
  match ds with
  | [] => seq < lower ∨ ∀ d, decree_at e seq = Some d → GetLatestStatements d = []
  | d :: ds => lower <= seq ∧ decree_at e seq = Some d ∧ GetLatestStatements d ≠ [] ∧ visits e lower (uwrap64 (seq - 1)) ds
  end.

Lemma visits_broadcasts e l lower ds seq : visits (set_broadcasts l e) lower seq ds ↔ visits e lower seq ds.
Proof. revert seq. induction ds as [|d ds IH]; intros seq; simpl; [done|]. by rewrite IH. Qed.

(** The indexes below [seq], with wrap-around, are different as long as there are fewer than the type has. *)
Lemma wrapped_indexes_size {A} (m : gmap Z A) seq (n : nat) :
  Z.of_nat n <= 18446744073709551616 → (∀ j, (j < n)%nat → is_Some (m !! uwrap64 (seq - Z.of_nat j))) → (n <= size m)%nat.
Proof.
  intros Hn Hm. set (l := (λ j, uwrap64 (seq - Z.of_nat j)) <$> List.seq 0 n).
  assert (NoDup l) as Hl.
  { apply NoDup_fmap_2_strong; [|apply NoDup_seq]. intros i j Hi%elem_of_seq Hj%elem_of_seq. mlia. }
  assert (list_to_set l ⊆ dom m) as Hsub.
  { intros k (j & -> & Hj%elem_of_seq)%elem_of_list_to_set%list_elem_of_fmap. apply elem_of_dom, Hm. lia. }
  apply subseteq_size in Hsub. rewrite size_dom, size_list_to_set in Hsub by done.
  unfold l in Hsub. by rewrite length_fmap, length_seq in Hsub.
Qed.

Lemma rebroadcast_loop_run n e lower seq (j : nat) :
  Z.of_nat (j + n) <= 18446744073709551616 → (size (e_decrees e) < j + n)%nat →
  (∀ i, (i < j)%nat → is_Some (e_decrees e !! uwrap64 (seq - Z.of_nat i))) →
  ∃ ds, visits e lower (uwrap64 (seq - Z.of_nat j)) ds ∧
    rebroadcast_loop n (uwrap64 (seq - Z.of_nat j)) lower e =
      (set_broadcasts (e_broadcasts e ++ ((ds ≫= GetLatestStatements) ≫= notices e)) e, Ok tt).
Proof.
  revert e j. induction n as [|n IH]; intros e j Hb Hs Hpre.
  { pose proof (wrapped_indexes_size (e_decrees e) seq j ltac:(lia) Hpre). lia. }
  set (i := uwrap64 (seq - Z.of_nat j)). simpl.
  case_decide as Hlow; [exists []; simpl; rewrite set_broadcasts_nil; split; [by left|done]|].
  rewrite (bind_eq_Ok _ _ _ e e) by done. fold (decree_at e i).
  destruct (decree_at e i) as [d|] eqn:Hd; [|exists []; simpl; rewrite set_broadcasts_nil, Hd; split; [by right|done]].
  destruct (GetLatestStatements d) as [|s l] eqn:Hl; [exists []; simpl; rewrite set_broadcasts_nil; split; [right; congruence|done]|].
  rewrite (bind_eq_Ok _ _ _ _ _ (say_all_run (s :: l) e)).
  set (e1 := set_broadcasts _ e).
  assert (uwrap64 (i - 1) = uwrap64 (seq - Z.of_nat (S j))) as Hi by (subst i; mlia).
  destruct (IH e1 (S j)) as (ds & Hv & Hr).
  - lia.
  - simpl. lia.
  - intros i' Hi'. simpl. destruct (decide (i' = j)) as [->|]; [|apply Hpre; lia].
    apply bind_Some in Hd as (o & Ho & _). by exists o.
  - exists (d :: ds). simpl. rewrite Hi, Hr, Hd, Hl. split.
    + split_and!; [lia|done|congruence|]. by apply visits_broadcasts in Hv.
    + f_equal. unfold e1. rewrite set_broadcasts_app. by rewrite bind_app.
Qed.

End rebroadcast.

Section externalize.
Context {D T C : Type} {StoreD : Store D} {StoreT : Store T} {TxDb : TxDatabase D T}.
Context {Pbc : PbCodec} {GoRt : GoRuntime} {Crypto : CryptoLib}.
Variable baseReserve : Z.
Implicit Types e : Engine D C.

(** A value for the next ledger, when the node does not wait for a download. *)
Lemma RecvExtVal_next now idx value txset h (lm lm' : LedgerManager D) :
  lm_currLedgerHeader lm = Some h → lm_ledgerState lm ≠ LedgerStateSyncing → NextLedgerHeaderSeq lm = idx →
  RecvExtVal (T:=T) baseReserve now idx value (Some txset) lm = (lm', Ok tt) →
  ∃ vb cv, b58_Decode value = Some vb ∧ Decode vb = Some cv ∧ GetTxSetKey txset = Ok (cv_TxSetHash cv) ∧
    lm_currLedgerHeader lm' = Some (new_header idx (lm_currLedgerHeaderHash lm) (cv_TxSetHash cv) value).
Proof.
  intros Hh Hst Hn H. unfold RecvExtVal in H. apply bind_Ok in H as (s1 & t1 & [= <- <-] & H).
  apply bind_Ok in H as (s2 & lm2 & [= <- <-] & H).
  destruct (lm_ledgerState lm); [|done|]; rewrite decide_True in H by done;
    apply bind_Ok in H as (s3 & hash & [= <- Hc] & H); (case_decide as Hp; [|done]);
    apply bind_Ok in H as (s4 & [] & Hcl%wrap_Ok & [= <-]);
    destruct (closeLedger_run _ _ _ _ _ _ _ _ _ Hh Hcl) as [(_ & _ & Hpr & k & vb & cv & Hk & Hvb & Hcv & <- & Hcur & _)|[(? & ? & _)|[?|?]]]; try done;
    exists vb, cv; split_and!; try done; simpl; by rewrite Hcur, Hpr.
Qed.

(** A lookup does not touch the state of the ledger either. *)
Definition same_state (lm lm' : LedgerManager D) : Prop := chain_part lm' = chain_part lm ∧ lm_ledgerState lm' = lm_ledgerState lm.
#[global] Instance same_state_preorder : PreOrder same_state.
Proof. split; [done|]. intros a b c [] []. split; congruence. Qed.
Lemma GetTxSet_state k : preserves same_state (GetTxSet (D:=D) k).
Proof.
  unfold GetTxSet. apply preserves_bind_get. intros lm. destruct (lru_Get k (lm_txsetCache lm)) as [c o].
  apply (bind_at same_state); [done|]. intros _ lm1 _. at_all same_state. pres same_state.
  intros lm2. unfold ledger_db, on_tm, on_db. by destruct (db_Get _ _ _).
Qed.

Lemma remove_decrees_lookup idx e i :
  e_decrees (remove_decrees idx e) !! i = if decide (e_maxDecrees e < idx ∧ i <= idx - e_maxDecrees e) then None else e_decrees e !! i.
Proof.
  unfold remove_decrees. destruct (decide (e_maxDecrees e < idx)) as [Hlt|Hge]; [|by rewrite decide_False by tauto].
  simpl. rewrite map_lookup_filter. destruct (e_decrees e !! i); simpl; repeat case_decide; try done; repeat case_guard; naive_solver.
Qed.

(** What comes before the old decrees are removed leaves the map alone, and what comes after the close the chain. *)
Lemma Externalize_run now idx value e e' :
  ¬ idx < NextLedgerHeaderSeq (e_lm e) → Externalize (T:=T) baseReserve now idx value e = (e', Ok tt) →
  ∃ txset v lm1 e1, e' = remove_decrees idx e1 ∧ e_decrees e1 = e_decrees e ∧ e_maxDecrees e1 = e_maxDecrees e ∧
    (∃ h, Validator_GetTxSet h (e_validator e) = (v, Ok (Some txset))) ∧
    RecvExtVal (T:=T) baseReserve now idx value (Some txset) (v_lm v) = (lm1, Ok tt) ∧ chain_part (e_lm e1) = chain_part lm1.
Proof.
  intros Hidx H. unfold Externalize in H. apply bind_Ok in H as (s1 & e1 & [= <- <-] & H). rewrite decide_False in H by done.
  destruct (b58_Decode value) as [b|]; [|done]. apply bind_Ok in H as (s2 & cv & Hcv%wrap_Ok & H). injection Hcv as <- _.
  apply bind_Ok in H as (s3 & txset & Ht%wrap_Ok & H). destruct txset as [txset|]; [|done].
  apply bind_Ok in H as (s4 & [] & Hx%wrap_Ok & H). apply bind_Ok in H as (s5 & o & Ho%wrap_Ok & H).
  apply bind_Ok in H as (s6 & [] & Hs & H). apply bind_Ok in H as (s7 & [] & Hd & [= <-]).
  unfold on_validator in Ht. destruct (Validator_GetTxSet (cv_TxSetHash cv) (e_validator e)) as [v r] eqn:Hv. simplify_eq/=.
  unfold on_ledger, on_validator, on_lm in Hx. simpl in Hx.
  destruct (RecvExtVal baseReserve now idx value (Some txset) (v_lm v)) as [lm1 r1] eqn:Hr. simplify_eq/=.
  unfold getDecree in Ho. apply bind_Ok in Ho as (s8 & e8 & [= <- <-] & Ho). simpl in Ho.
  destruct (e_decrees e !! idx) as [o'|]; [|done]. injection Ho as <- <-. unfold on_decree in Hs. simpl in Hs.
  destruct (e_objects e !! o') as [d|]; simplify_eq/=.
  unfold on_ledger, on_validator, on_lm, on_tm in Hd. simpl in Hd. destruct (DeleteTxList (ts_TxList txset) (lm_tm lm1)) as [tm r2].
  simplify_eq/=. eexists txset, v, lm1, _. split; [reflexivity|]. simpl. split_and!; eauto.
Qed.

End externalize.

(** * Properties *)

(** C35: rebroadcasting ends and sends what is due.  Although the lower bound of its loop can be 0, which no unsigned index is below, the loop ends: it
    sends the latest statements of the decrees from the next ledger downwards, without a gap, to all live clients,
    stops at the first index without a decree or without statements, and changes nothing else. *)
Theorem rebroadcast_sends {D C : Type} {StoreD : Store D} {Pbc : PbCodec} {GoRt : GoRuntime} {Crypto : CryptoLib}
    {Ed : Ed25519} {StatementCodec : Codec Statement} (e : Engine D C) :
  Z.of_nat (size (e_decrees e)) < 18446744073709551616 → uint64 (NextLedgerHeaderSeq (e_lm e)) →
  ∃ ds, visits e (Z.max 0 (NextLedgerHeaderSeq (e_lm e) - e_maxDecrees e)) (NextLedgerHeaderSeq (e_lm e)) ds ∧
    rebroadcast e = (set_broadcasts (e_broadcasts e ++ ((ds ≫= GetLatestStatements) ≫= notices e)) e, Ok tt).
Proof.
  intros Hs Hu. unfold rebroadcast. rewrite (bind_eq_Ok _ _ _ e e) by done.
  replace (if decide _ then _ else 0) with (Z.max 0 (NextLedgerHeaderSeq (e_lm e) - e_maxDecrees e)) by (case_decide; lia).
  destruct (rebroadcast_loop_run (S (size (e_decrees e))) e (Z.max 0 (NextLedgerHeaderSeq (e_lm e) - e_maxDecrees e))
              (NextLedgerHeaderSeq (e_lm e)) 0) as (ds & Hv & Hr); [lia|lia|lia|].
  rewrite Z.sub_0_r, uwrap64_id in Hv, Hr by done. eauto.
Qed.

(** A statement that is too old is taken off its channel, and nothing else happens. *)
Lemma recv_ready_old {D C : Type} {StoreD : Store D} {Pbc : PbCodec} {GoRt : GoRuntime} {Crypto : CryptoLib} {QuorumCodec : Codec Quorum}
    n (e : Engine D C) stmt rest :
  v_readyChan (e_validator e) = stmt :: rest → uwrap64 (s_Index stmt + e_maxDecrees e) < NextLedgerHeaderSeq (e_lm e) →
  (recv_ready n e).2 = Ok tt ∧ e_decrees (recv_ready n e).1 = e_decrees e ∧ e_objects (recv_ready n e).1 = e_objects e ∧
  v_readyChan (e_validator (recv_ready n e).1) = rest.
Proof. intros Hv Hold. unfold recv_ready. rewrite (bind_eq_Ok _ _ _ e e) by done. rewrite Hv. unfold bind. simpl. by rewrite decide_True. Qed.

(** C19: a decided value closes the ledger, and old decrees stay forgotten.  When [Externalize] succeeds for the next
    ledger and the ledger manager is not catching up (when it is, the value is only buffered), the new header carries the value, follows the one before and names the transaction set of the value;
    exactly the decrees up to [maxDecrees] behind are dropped from the map, and no statement brings a dropped one back: the engine, with this ledger or a
    later one, takes the statement off its channel and does nothing else. *)
Theorem Externalize_closes {D T C : Type} {StoreD : Store D} {StoreT : Store T} {TxDb : TxDatabase D T}
    {Pbc : PbCodec} {GoRt : GoRuntime} {Crypto : CryptoLib} {QuorumCodec : Codec Quorum} (baseReserve now idx : Z) (value : string)
    (e e' : Engine D C) (h : LedgerHeader) :
  lm_currLedgerHeader (e_lm e) = Some h → lm_ledgerState (e_lm e) ≠ LedgerStateSyncing →
  NextLedgerHeaderSeq (e_lm e) = idx → idx < MaxUint64 → 0 <= e_maxDecrees e →
  Externalize (T:=T) baseReserve now idx value e = (e', Ok tt) →
  (∃ vb cv, b58_Decode value = Some vb ∧ Decode vb = Some cv ∧
    lm_currLedgerHeader (e_lm e') = Some (new_header idx (lm_currLedgerHeaderHash (e_lm e)) (cv_TxSetHash cv) value)) ∧
  NextLedgerHeaderSeq (e_lm e') = idx + 1 ∧
  (∀ i, e_decrees e' !! i = if decide (e_maxDecrees e < idx ∧ i <= idx - e_maxDecrees e) then None else e_decrees e !! i) ∧
  (∀ i n (e2 : Engine D C) stmt rest, 0 <= i → is_Some (e_decrees e !! i) → e_decrees e' !! i = None →
    e_maxDecrees e2 = e_maxDecrees e' → NextLedgerHeaderSeq (e_lm e') <= NextLedgerHeaderSeq (e_lm e2) →
    v_readyChan (e_validator e2) = stmt :: rest → s_Index stmt = i →
    (recv_ready n e2).2 = Ok tt ∧ e_decrees (recv_ready n e2).1 = e_decrees e2 ∧ e_objects (recv_ready n e2).1 = e_objects e2 ∧
    v_readyChan (e_validator (recv_ready n e2).1) = rest).
Proof.
  intros Hh Hst Hn Hmax Hdec H.
  destruct (Externalize_run baseReserve now idx value e e' ltac:(lia) H)
    as (txset & v & lm1 & e1 & -> & Hm & Hmd & (k & Hv) & Hr & Hc).
  assert (chain_part (v_lm v) = chain_part (e_lm e) ∧ lm_ledgerState (v_lm v) = lm_ledgerState (e_lm e)) as [Hcv Hsv].
  { pose proof (GetTxSet_state k (v_lm (e_validator e))) as [H1 H2]. unfold Validator_GetTxSet, on_lm in Hv.
    destruct (GetTxSet k (v_lm (e_validator e))) as [lm r]. injection Hv as <- _. by split. }
  assert (lm_currLedgerHeader (v_lm v) = Some h ∧ lm_currLedgerHeaderHash (v_lm v) = lm_currLedgerHeaderHash (e_lm e)) as [Hvh Hvs]
    by (unfold chain_part in Hcv; split; congruence).
  destruct (RecvExtVal_next baseReserve now idx value txset h (v_lm v) lm1) as (vb & cv & Hvb & Hdv & _ & Hcur);
    [done|congruence|by unfold NextLedgerHeaderSeq in *; rewrite Hvh, Hh in *|done|]. rewrite Hvs in Hcur.
  assert (e_lm (remove_decrees idx e1) = e_lm e1) as Hlm by (unfold remove_decrees; by case_decide).
  assert (lm_currLedgerHeader (e_lm e1) = Some (new_header idx (lm_currLedgerHeaderHash (e_lm e)) (cv_TxSetHash cv) value)) as Hcur1
    by (unfold chain_part in Hc; congruence).
  assert (e_maxDecrees (remove_decrees idx e1) = e_maxDecrees e) as Hmd' by (unfold remove_decrees; by case_decide).
  assert (0 <= idx) as Hpos by (unfold NextLedgerHeaderSeq in Hn; rewrite Hh in Hn; mlia).
  assert (NextLedgerHeaderSeq (e_lm (remove_decrees idx e1)) = idx + 1) as Hnext.
  { rewrite Hlm. unfold NextLedgerHeaderSeq. rewrite Hcur1. simpl. apply uwrap64_id. unfold_int. lia. }
  pose proof (remove_decrees_lookup idx e1) as Hmap. rewrite Hmd, Hm in Hmap.
  rewrite Hnext, Hmd', Hlm. split_and!; [by exists vb, cv|done|done|].
  intros i n e2 stmt rest Hi Hsome Hnone Hmax2 Hseq2 Hready <-. rewrite Hmap in Hnone.
  case_decide as Hd; [|by rewrite Hnone in Hsome; destruct Hsome].
  apply (recv_ready_old n e2 stmt rest); [done|]. rewrite Hmax2, uwrap64_id; [lia|]. unfold_int. lia.
Qed.

(** A node that is behind forgets its own decrees.  When a value is externalized for an index that is ahead of the ledger, the
    ledger only starts to catch up, yet [Externalize] drops the decrees up to [maxDecrees] below that index as if it had been
    closed.  Among them are decrees whose statements are not refused: the next statement for such an index gets a new decree, which
    knows nothing of what the node has voted for, accepted or announced before. *)
Theorem ahead_forgets {D T C : Type} {StoreD : Store D} {StoreT : Store T} {TxDb : TxDatabase D T}
    {Pbc : PbCodec} {GoRt : GoRuntime} {Crypto : CryptoLib} (baseReserve now idx : Z) (value : string)
    (e e' : Engine D C) (i : Z) :
  NextLedgerHeaderSeq (e_lm e) < idx → e_maxDecrees e < idx → Externalize (T:=T) baseReserve now idx value e = (e', Ok tt) →
  i <= idx - e_maxDecrees e → NextLedgerHeaderSeq (e_lm e) <= i + e_maxDecrees e → uint64 (i + e_maxDecrees e) →
  e_decrees e' !! i = None ∧ ¬ uwrap64 (i + e_maxDecrees e') < NextLedgerHeaderSeq (e_lm e').
Proof.
  intros Hn Hmax H Hi Hnext Hu.
  destruct (Externalize_run baseReserve now idx value e e' ltac:(lia) H) as (txset & v & lm1 & e1 & -> & Hm & Hmd & (k & Hv) & Hr & Hc).
  assert (chain_part (v_lm v) = chain_part (e_lm e)) as Hcv.
  { pose proof (GetTxSet_state k (v_lm (e_validator e))) as [H1 _]. unfold Validator_GetTxSet, on_lm in Hv.
    destruct (GetTxSet k (v_lm (e_validator e))) as [lm r]. by injection Hv as <- _. }
  assert (∀ a b : LedgerManager D, chain_part a = chain_part b → NextLedgerHeaderSeq a = NextLedgerHeaderSeq b) as Hseq.
  { intros a b. unfold chain_part, NextLedgerHeaderSeq. intros Hab. by assert (lm_currLedgerHeader a = lm_currLedgerHeader b) as -> by congruence. }
  assert (chain_part lm1 = chain_part (v_lm v)) as Hlm1.
  { pose proof (Hseq _ _ Hcv) as Hsv. unfold RecvExtVal, AddTask, bind, get, lift, modify, wrap, ret in Hr. simpl in Hr.
    destruct (lm_ledgerState (v_lm v)); repeat (simplify_eq/=; try done; try lia; case_decide). }
  rewrite remove_decrees_lookup, Hmd, Hm, decide_True by lia. split; [done|].
  assert (e_maxDecrees (remove_decrees idx e1) = e_maxDecrees e ∧ e_lm (remove_decrees idx e1) = e_lm e1) as [-> ->]
    by (unfold remove_decrees; by case_decide).
  rewrite (Hseq _ _ Hc), (Hseq _ _ Hlm1), (Hseq _ _ Hcv), uwrap64_id by done. lia.
Qed.

(** * A node on its own

    A quorum of the node itself, the genesis ledger on BoltDB, one peer that listens. *)
Module solo.
Import states.

#[export] Existing Instance ref_ed25519.
#[export] Instance node_codec : Codec Quorum := arrivals.one_node_codec.

Definition seed : string := EncodeKey (mkULTKey KeyTypeSeed "0123456789abcdef0123456789abcdef").
Definition buckets : list string :=
  [ledger_bucket; txset_bucket; validator_bucket; "ACCOUNT"; "EXCHANGE"; "OFFER"; "TXSTATUS"; "TX"].
Definition db : boltdb := list_to_map ((λ b, (b, ∅)) <$> buckets).
Definition ledger : LedgerManager boltdb := (CreateGenesisLedger 10 (NewLedgerManager (TxManager.NewManager db))).1.
Definition peers : PeerManager string :=
  mkPeerManager string "net" ∅ 5 [] {[ "addr" := mkPeer string "addr" "id" 0 ∅ "peer" ]} ∅ ∅ false [].
Definition quorum : Quorum := mkQuorum f64_one ["me"] [].
Definition ctx : EngineContext boltdb string :=
  mkEngineContext boltdb string "net" seed "me" "validator" 20 (Some peers) (Some tt) (Some ledger) (Some tt) (Some quorum) 5.

(** The value that the node proposes at time 7, and its last word on it, the one statement of the codec. *)
Definition txkey : string :=
  match GetTxSetKey (mkTxSet (lm_currLedgerHeaderHash ledger) []) with Ok k => k | _ => "" end.
Definition value : string := match encode_res (mkConsensusValue txkey 7) with Ok b => b58_Encode b | _ => "" end.
Definition qhash : string := match quorum_hash quorum with Ok h => h | _ => "" end.
Definition last_word : Statement :=
  mkStatement StatementType_EXTERNALIZE "me" 2 (Some (Stmt_Externalize (mkExternalize (Some (mkBallot 1 value)) 1 qhash))).
#[export] Instance word_codec : Codec Statement := codec_single last_word "word".

Definition e0 : Engine boltdb string :=
  mkEngine boltdb string "net" seed "me" "validator" quorum qhash 20 5 peers (NewValidator ledger 20) ∅ [] [] [] 0 zero_time [] [].
Lemma e0_new : NewEngine 0 (Some ctx) = Ok e0.
Proof.
  assert (ValidateEngineContext (Some ctx) = Ok tt) as Hv by (vm_compute; reflexivity).
  assert (quorum_hash quorum = Ok qhash) as Hq by (vm_compute; reflexivity).
  unfold NewEngine. rewrite Hv. cbn [deref res_bind ctx ec_PM ec_LM ec_Quorum]. by rewrite Hq.
Qed.

(** It proposes, agrees with itself, says so, and closes the second ledger. *)
Definition proposed : Engine boltdb string := (Propose 40 1 7 e0).1.
Definition said : Engine boltdb string := (send_statement proposed).1.
Definition closed : Engine boltdb string := (recv_externalized GenesisBaseReserve 40 20 30 9 said).1.


Example solo_agrees : e_externalizeChan proposed = [(2, value)] ∧ length (e_broadcasts said) = 1%nat ∧
  lm_ledgerHeaderCount (e_lm closed) = 2 ∧ NextLedgerHeaderSeq (e_lm closed) = 3 ∧ e_timers closed = [5].
Proof. vm_compute. repeat split; reflexivity. Qed.
Lemma proposed_facts :
  lm_currLedgerHeader (e_lm proposed) = Some (new_header 1 "" "" "") ∧ lm_ledgerState (e_lm proposed) ≠ LedgerStateSyncing ∧
  NextLedgerHeaderSeq (e_lm proposed) = 2 ∧ e_maxDecrees proposed = 20 ∧
  Z.of_nat (size (e_decrees proposed)) < 18446744073709551616 ∧
  (Externalize (T:=boltdb) GenesisBaseReserve 20 2 value proposed).2 = Ok tt.
Proof. vm_compute. repeat split; congruence. Qed.

Lemma rebroadcast_sends_witness : ∃ ds, visits proposed 0 2 ds ∧
  rebroadcast proposed = (set_broadcasts (e_broadcasts proposed ++ ((ds ≫= GetLatestStatements) ≫= notices proposed)) proposed, Ok tt).
Proof.
  destruct proposed_facts as (_ & _ & H1 & H2 & H3 & _).
  pose proof (rebroadcast_sends proposed H3) as H. rewrite H1, H2 in H. change (Z.max 0 (2 - 20)) with 0 in H.
  apply H. unfold_int. lia.
Defined.

(** The node has announced a value for ledger 2, which is not closed yet, and hears of a decision for ledger 30. *)
Definition ahead : Engine boltdb string := (getDecree 30 true proposed).1.
Definition jumped : Engine boltdb string := (Externalize (T:=boltdb) GenesisBaseReserve 20 30 value ahead).1.
Example announced_then_forgotten :
  (e_decrees ahead !! 2 ≫= λ o, d_externalizeChan <$> e_objects ahead !! o) = Some [(2, value)] ∧
  ((getDecree 2 true jumped).1.(e_decrees) !! 2 ≫= λ o, d_externalizeChan <$> e_objects (getDecree 2 true jumped).1 !! o) = Some [].
Proof. vm_compute. split; reflexivity. Qed.
Lemma ahead_forgets_witness : e_decrees jumped !! 2 = None ∧ ¬ uwrap64 (2 + e_maxDecrees jumped) < NextLedgerHeaderSeq (e_lm jumped).
Proof.
  assert (NextLedgerHeaderSeq (e_lm ahead) = 2 ∧ e_maxDecrees ahead = 20) as [H1 H2] by (vm_compute; split; reflexivity).
  assert ((Externalize (T:=boltdb) GenesisBaseReserve 20 30 value ahead).2 = Ok tt) as H3 by (vm_compute; reflexivity).
  apply (ahead_forgets GenesisBaseReserve 20 30 value ahead jumped 2); rewrite ?H1, ?H2; try (unfold_int; lia).
  exact (run_eq (Externalize (T:=boltdb) GenesisBaseReserve 20 30 value) ahead (Ok tt) H3).
Defined.

(** A node that keeps one decree: it has one for ledger 1 too, decides on ledger 2, forgets the first, and then hears a statement for it. *)
Definition short : Engine boltdb string :=
  mkEngine boltdb string "net" seed "me" "validator" quorum qhash 1 5 peers (NewValidator ledger 1) ∅ [] [] [] 0 zero_time [] [].
Definition both : Engine boltdb string := (Propose 40 1 7 (getDecree 1 true short).1).1.
Definition next : Engine boltdb string := (Externalize (T:=boltdb) GenesisBaseReserve 20 2 value both).1.
Definition late_word : Statement := mkStatement StatementType_NOMINATE "peer" 1 None.
Definition told : Engine boltdb string :=
  (on_validator (modify (λ v, set_waiting (v_decreeStmts v) (v_maxSeqNum v) [late_word] v)) next).1.
Lemma both_facts :
  lm_currLedgerHeader (e_lm both) = Some (new_header 1 "" "" "") ∧ lm_ledgerState (e_lm both) ≠ LedgerStateSyncing ∧
  NextLedgerHeaderSeq (e_lm both) = 2 ∧ e_maxDecrees both = 1 ∧ (Externalize (T:=boltdb) GenesisBaseReserve 20 2 value both).2 = Ok tt.
Proof. vm_compute. repeat split; congruence. Qed.
Lemma told_facts : is_Some (e_decrees both !! 1) ∧ e_decrees next !! 1 = None ∧ e_maxDecrees told = e_maxDecrees next ∧
  NextLedgerHeaderSeq (e_lm told) = NextLedgerHeaderSeq (e_lm next) ∧ v_readyChan (e_validator told) = [late_word].
Proof. split; [eexists; vm_compute; reflexivity|]. vm_compute. repeat split. Qed.

Lemma Externalize_closes_witness :
  NextLedgerHeaderSeq (e_lm next) = 3 ∧ (recv_ready 40 told).2 = Ok tt ∧ e_decrees (recv_ready 40 told).1 = e_decrees told.
Proof.
  destruct both_facts as (H1 & H2 & H3 & H4 & H5). destruct told_facts as (T1 & T2 & T3 & T4 & T5).
  destruct (Externalize_closes GenesisBaseReserve 20 2 value both next (new_header 1 "" "" "") H1 H2 H3) as (_ & Hn & _ & Hold);
    [unfold_int; lia|rewrite H4; lia|exact (run_eq (Externalize (T:=boltdb) GenesisBaseReserve 20 2 value) both (Ok tt) H5)|].
  split; [exact Hn|]. destruct (Hold 1 40%nat told late_word [] ltac:(lia) T1 T2 T3 (Z.eq_le_incl _ _ (eq_sym T4)) T5 eq_refl) as (Ha & Hb & _).
  split; [exact Ha|exact Hb].
Defined.

End solo.
