(* ===== verification/EngineReturns.v ===== *)
(** The goroutines of an engine do not compute for ever in an event.

    An event is a case of a select of the engine, of its validator or of its ledger manager, or a call from outside.  Those that
    run a decree end because its recursion does ([Returns]); the others because the managers return ([Managers]).  The
    decrees of the engine stay sound, and the statements that the validator holds stay as the wire has them, so the next
    event ends too: [engine_never_loops] is about whole lives, from a new engine on. *)

From stdpp Require Import relations.
From S2P Require Import Prelude Lru Converge Pb Db Crypto Keypair Account TxManager Ledger Managers Quorum Ballot Rpc Peer Federated Decree Nomination Outgoing Validator Space Termination Returns Engine.

Section events.
Context {D T C : Type} {StoreD : Store D} {StoreT : Store T} {TxDb : TxDatabase D T}.
Context {RetD : StoreReturns D} {RetT : StoreReturns T} {RetTx : TxReturns D T}.
Context {Pbc : PbCodec} {GoRt : GoRuntime} {Crypto : CryptoLib} {Ed : Ed25519}.
Context {QuorumCodec : Codec Quorum} {StatementCodec : Codec Statement}.
Implicit Types e : Engine D C.

Definition decrees_sound e : Prop := Forall sound (e_objects e).
Definition engine_after {A} (e : Engine D C) (r : res A) : Prop := is_Panic r = false → decrees_sound e.

(** Operations that do not touch the decrees. *)
Definition aside {A} (m : M (Engine D C) A) : Prop := ∀ e, e_objects (m e).1 = e_objects e ∧ returns (m e).2.

Lemma aside_on_validator {A} (m : M (Validator D) A) : always m → aside (on_validator m).
Proof. intros Hm e. specialize (Hm (e_validator e)). unfold on_validator. by destruct (m (e_validator e)). Qed.
Lemma aside_wrap {A} p (m : M (Engine D C) A) : aside m → aside (wrap p m).
Proof. intros Hm e. destruct (Hm e). unfold wrap. destruct (m e). split; [done|by apply returns_wrap]. Qed.
Lemma aside_lift {A} (r : res A) : returns r → aside (lift r).
Proof. by intros Hr e. Qed.
Lemma aside_modify (f : Engine D C → Engine D C) : (∀ e, e_objects (f e) = e_objects e) → aside (modify f).
Proof. by intros Hf e; split; [apply Hf|]. Qed.
Lemma aside_get : aside get.
Proof. by intros e. Qed.
Lemma aside_ret {A} (a : A) : aside (ret a).
Proof. by intros e. Qed.

Lemma settles_aside {A B} (m : M (Engine D C) A) (k : nat → A → M (Engine D C) B) e :
  aside m → decrees_sound e → (∀ e1 a, m e = (e1, Ok a) → decrees_sound e1 → settles (λ n, k n a) e1 engine_after) →
  settles (λ n, bind m (k n)) e engine_after.
Proof.
  intros Hm He Hk. destruct (Hm e) as [Ho Hr]. apply settles_run; [done|].
  assert (decrees_sound (m e).1) as He1 by (unfold decrees_sound; by rewrite Ho).
  destruct (m e) as [e1 [a|?|?|]]; simpl in *; try done; [by apply Hk|by intros _].
Qed.
Lemma settles_end {A} (m : M (Engine D C) A) e : aside m → decrees_sound e → settles (λ _, m) e engine_after.
Proof. intros Hm He. destruct (Hm e) as [Ho Hr]. apply settles_const; [done|]. intros _. unfold decrees_sound. by rewrite Ho. Qed.
Lemma settles_engine_ret {A} (a : A) e : decrees_sound e → settles (λ _, ret a) e engine_after.
Proof. apply settles_end, aside_ret. Qed.

(** A call on a decree. *)
Lemma on_decree_settles {A} o (m : nat → M (Decree (Validator D)) A) e :
  decrees_sound e → (∀ d, sound d → settles m d sound_after) → settles (λ n, on_decree o (m n)) e engine_after.
Proof.
  intros He Hm. destruct (e_objects e !! o) as [d|] eqn:Ho.
  - assert (sound (set_env (e_validator e) d)) as Hd.
    { eapply (sound_form d); [done|]. by eapply Forall_lookup_1. }
    destruct (Hm _ Hd) as (N & d' & r & Hrun & Hr & Hs). exists N, (run_decree o d d' e), r. split_and!; [|done|].
    + intros n Hn. unfold on_decree. by rewrite Ho, Hrun.
    + intros Hp. apply Forall_insert; [done|by apply Hs].
  - exists 0%nat, e, (Panic "nil pointer dereference"). split_and!; [|done|done]. intros n _. unfold on_decree. by rewrite Ho.
Qed.
Lemma try_decree_settles {A B} o (m : nat → M (Decree (Validator D)) A) (b : B) e :
  decrees_sound e → (∀ d, sound d → settles m d sound_after) →
  settles (λ n, do! try (on_decree o (m n)) in ret b) e engine_after.
Proof.
  intros He Hm. apply settles_bind, settles_try. eapply settles_mono; [by apply (on_decree_settles o m)|].
  intros e1 [a|?|?|] _ H; simpl; try done; apply settles_engine_ret; by apply H.
Qed.

Definition orderly {A} (er : Engine D C * res A) : Prop := returns er.2 ∧ decrees_sound er.1.
Lemma getDecree_orderly idx create e : decrees_sound e → orderly (getDecree idx create e).
Proof.
  intros He. unfold getDecree, bind at 1, get. destruct (e_decrees e !! idx); [done|]. destruct (negb create); [done|].
  unfold bind, lift, put, ret. destruct (NewDecree _ _ _ _ _) as [d|?|?|] eqn:Hd; try done.
  - split; [done|]. apply Forall_app. split; [done|]. apply Forall_singleton. by eapply NewDecree_sound.
  - unfold NewDecree in Hd. by repeat case_decide.
Qed.
Lemma settles_orderly {A B} (m : M (Engine D C) A) (k : nat → A → M (Engine D C) B) e :
  orderly (m e) → (∀ e1 a, decrees_sound e1 → settles (λ n, k n a) e1 engine_after) →
  settles (λ n, bind m (k n)) e engine_after.
Proof.
  intros [Hr He] Hk. apply settles_run; [done|]. destruct (m e) as [e1 [a|?|?|]]; simpl in *; try done; [by apply Hk|by intros _].
Qed.

(** ** The events *)

Lemma nominate_settles idx x y e : decrees_sound e → settles (λ n, nominate n idx x y) e engine_after.
Proof.
  intros He. unfold nominate. apply settles_orderly.
  { destruct (getDecree_orderly idx true e He). unfold wrap. destruct (getDecree idx true e). split; [by apply returns_wrap|done]. }
  intros e1 o He1. apply (try_decree_settles o (λ n, Nominate_ n x y false)); [done|]. intros d Hd. by apply Nominate_settles.
Qed.

Lemma Propose_settles now unix e : decrees_sound e → settles (λ n, Propose n now unix) e engine_after.
Proof.
  intros He. unfold Propose. apply settles_aside; [by apply aside_modify|done|]. intros e1 [] _ He1.
  apply settles_aside; [apply aside_get|done|]. intros e2 e2' [= <- <-] He2.
  case_decide; [by apply settles_end|]. destruct (negb _); [by apply settles_engine_ret|].
  apply settles_aside; [apply aside_lift; unfold CurrLedgerHeaderHash; by case_decide|done|]. intros e3 prev _ He3.
  apply settles_aside; [apply aside_on_validator, always_on_lm, always_on_tm, always_GetTxList|done|]. intros e4 txs _ He4.
  apply settles_aside; [apply aside_wrap, aside_lift, returns_GetTxSetKey|done|]. intros e5 h _ He5.
  apply settles_aside; [apply aside_wrap, aside_on_validator, always_on_lm, always_AddTxSet|done|]. intros e6 [] _ He6.
  apply settles_aside; [apply aside_wrap, aside_on_validator, always_RecvQuorum|done|]. intros e7 [] _ He7.
  apply settles_aside; [apply aside_wrap, aside_lift, returns_encode_res|done|]. intros e8 b _ He8.
  apply settles_aside; [apply aside_get|done|]. intros e9 e9' [= <- <-] _.
  apply settles_aside; [apply aside_lift; unfold CurrLedgerHeader; by case_match|done|]. intros e10 hd _ He10.
  apply settles_wrap. eapply settles_mono; [by apply nominate_settles|]. intros e' [] _ ?; done.
Qed.

Lemma fire_timer_settles i now unix e : decrees_sound e → settles (λ n, fire_timer n i now unix) e engine_after.
Proof.
  intros He. unfold fire_timer. apply settles_aside; [apply aside_get|done|]. intros e1 e1' [= <- <-] _.
  destruct (e_timers e !! i); [|by apply settles_engine_ret].
  apply settles_aside; [by apply aside_modify|done|]. intros e2 [] _ He2. apply settles_bind, settles_try.
  eapply settles_mono; [by apply Propose_settles|]. intros e3 [[]|?|?|] _ H; simpl; try done; apply settles_engine_ret; by apply H.
Qed.

Lemma fire_renomination_settles o i e : decrees_sound e → settles (λ n, fire_renomination n o i) e engine_after.
Proof.
  intros He. unfold fire_renomination. apply settles_aside; [apply aside_get|done|]. intros e1 e1' [= <- <-] _.
  destruct (e_objects e !! o ≫= _) as [[x y]|]; [|by apply settles_engine_ret].
  apply (try_decree_settles o (λ n, do! modify (take_timer i) in Nominate_ n x y true)); [done|]. intros d Hd.
  apply settles_run; [done|]. apply Nominate_settles. by eapply (sound_form d).
Qed.

Lemma recv_ready_settles e :
  decrees_sound e → Forall wire (v_readyChan (e_validator e)) → settles (λ n, recv_ready n) e engine_after.
Proof.
  intros He Hw. unfold recv_ready. apply settles_aside; [apply aside_get|done|]. intros e1 e1' [= <- <-] _.
  destruct (v_readyChan (e_validator e)) as [|s rest]; [by apply settles_engine_ret|]. apply Forall_cons in Hw as [Hs _].
  apply settles_aside; [by apply aside_on_validator|done|]. intros e2 [] _ He2.
  case_decide; [by apply settles_engine_ret|]. apply settles_orderly; [by apply getDecree_orderly|]. intros e3 o He3.
  apply (try_decree_settles o (λ n, Recv n (Some s))); [done|]. intros d Hd. by apply Recv_settles.
Qed.
End events.

