(* ===== verification/EngineLife.v ===== *)
(** The life of an engine: no event of a goroutine computes for ever.

    [engine_event] names the steps of [engine_step], and [run_event] runs one with an amount of fuel for the loops that are not
    structural: the recursion of a decree and the tick of the dispatcher.  [calm] is the invariant: the decrees are sound
    ([EngineReturns]), and what the validator holds is [fit]: its counters have the width of their type, and its index is not the
    last one of its type, with which the tick has no end ([tick_ends_iff]).

    A send leaves its message in the channel and does not wait; the waits of the engine are in [Channels]. *)

From stdpp Require Import relations.
From S2P Require Import Prelude Lru Converge Pb Db Crypto Keypair Account TxManager Ledger Managers Quorum Ballot Rpc Peer Federated Decree Nomination Outgoing Validator Space Termination Returns Engine EngineReturns.

(** * Events *)

Section events.
Context {D T C : Type} {StoreD : Store D} {StoreT : Store T} {TxDb : TxDatabase D T}.
Context {Pbc : PbCodec} {GoRt : GoRuntime} {Crypto : CryptoLib} {Ed : Ed25519}.
Context {QuorumCodec : Codec Quorum} {StatementCodec : Codec Statement}.
Variable baseReserve : Z.

Inductive engine_event :=
| ev_send
| ev_txset (call : C → QueryRequest → Status + string) (indices : list nat)
| ev_quorum (call : C → QueryRequest → Status + string) (indices : list nat)
| ev_ready
| ev_ext (now now' unix : Z)
| ev_rebroadcast
| ev_timer (i : nat) (now unix : Z)
| ev_renominate (o i : nat)
| ev_Propose (now unix : Z)
| ev_RecvStatement (s : Statement)
| ev_GetQuorum (h : string)
| ev_GetTxSet (h : string)
| ev_monitor
| ev_dispatch
| ev_tick
| ev_download
| ev_downloaded (now : Z) (info : CloseInfo)
| ev_downloader (f : Downloader → Downloader)
| ev_AddTx (k : string) (tx : Tx)
| ev_take_tx
| ev_GetTxStatus (k : string)
| ev_GetLedger (k : string)
| ev_GetAccount (id : string)
| ev_peers (pm : PeerManager C).

(** The result of a lookup goes to its caller. *)
Definition run_event (n : nat) (ev : engine_event) : M (Engine D C) unit :=
  match ev with
  | ev_send => send_statement
  | ev_txset call indices => download_txset call indices
  | ev_quorum call indices => download_quorum call indices
  | ev_ready => recv_ready n
  | ev_ext now now' unix => recv_externalized (T:=T) baseReserve n now now' unix
  | ev_rebroadcast => rebroadcast
  | ev_timer i now unix => fire_timer n i now unix
  | ev_renominate o i => fire_renomination n o i
  | ev_Propose now unix => Propose n now unix
  | ev_RecvStatement s => RecvStatement s
  | ev_GetQuorum h => do! Engine_GetQuorum h in ret tt
  | ev_GetTxSet h => do! Engine_GetTxSet h in ret tt
  | ev_monitor => on_validator monitor_tick
  | ev_dispatch => on_validator dispatch_stmt
  | ev_tick => on_validator (dispatch_tick n)
  | ev_download => on_validator download_stmt
  | ev_downloaded now info => on_ledger (recv_downloaded (T:=T) baseReserve now info)
  | ev_downloader f => on_ledger (modify (λ lm,
      set_sync (f (lm_downloader lm)) (lm_buffer lm) (lm_ledgerState lm) (lm_largestConsensusIndex lm) lm))
  | ev_AddTx k tx => on_ledger (on_tm (AddTx baseReserve k tx))
  | ev_take_tx => do! on_ledger (on_tm take_tx) in ret tt
  | ev_GetTxStatus k => do! on_ledger (on_tm (GetTxStatus k)) in ret tt
  | ev_GetLedger k => do! on_ledger (GetLedger k) in ret tt
  | ev_GetAccount id => do! on_ledger (ledger_db (GetAccount id)) in ret tt
  | ev_peers pm => modify (λ e, set_world pm (e_validator e) e)
  end.

(** The goroutines go on after an error. *)
Fixpoint run_events (n : nat) (evs : list engine_event) : M (Engine D C) unit :=
  match evs with
  | [] => ret tt
  | ev :: evs => do! try (run_event n ev) in run_events n evs
  end.

Lemma ignore_state {S A} (m : M S A) s : ((do! m in ret tt) s).1 = (m s).1.
Proof. unfold bind. by destruct (m s) as [s' [a| | |]]. Qed.

(** The events are the steps of an engine. *)
Lemma engine_step_event n e e' : engine_step (T:=T) baseReserve n e e' ↔ ∃ ev, e' = (run_event n ev e).1.
Proof.
  split.
  - destruct 1; [exists ev_send|exists (ev_txset call indices)|exists (ev_quorum call indices)|exists ev_ready|exists (ev_ext now now' unix)|
      exists ev_rebroadcast|exists (ev_timer i now unix)|exists (ev_renominate o i)|exists (ev_Propose now unix)|
      exists (ev_RecvStatement s)|exists (ev_GetQuorum h)|exists (ev_GetTxSet h)|exists ev_monitor|exists ev_dispatch|exists ev_tick|
      exists ev_download|exists (ev_downloaded now info)|exists (ev_downloader f)|exists (ev_AddTx k tx)|exists ev_take_tx|
      exists (ev_GetTxStatus k)|exists (ev_GetLedger k)|exists (ev_GetAccount id)|exists (ev_peers pm)];
      unfold run_event; by rewrite ?ignore_state.
  - intros [ev ->]. destruct ev; unfold run_event; rewrite ?ignore_state; constructor.
Qed.
End events.
Arguments engine_event C : clear implicits.

(** * No event computes for ever *)

Section ends.
Context {D T C : Type} {StoreD : Store D} {StoreT : Store T} {TxDb : TxDatabase D T}.
Context {RetD : StoreReturns D} {RetT : StoreReturns T} {RetTx : TxReturns D T}.
Context {Pbc : PbCodec} {GoRt : GoRuntime} {Crypto : CryptoLib} {Ed : Ed25519}.
Context {QuorumCodec : Codec Quorum} {StatementCodec : Codec Statement}.
Variable baseReserve : Z.
Implicit Types e : Engine D C.

(** ** What goes past the decrees *)

Lemma aside_bind {A B} (m : M (Engine D C) A) (k : A → M (Engine D C) B) : aside m → (∀ a, aside (k a)) → aside (bind m k).
Proof.
  intros Hm Hk e. destruct (Hm e) as [Ho Hr]. unfold bind. destruct (m e) as [e1 [a| | |]]; try done.
  destruct (Hk a e1) as [Ho1 Hr1]. simpl in Ho. by rewrite Ho1, Ho.
Qed.
Lemma aside_try {A} (m : M (Engine D C) A) : aside m → aside (try m).
Proof. intros Hm e. destruct (Hm e). unfold try. by destruct (m e) as [e1 [a| | |]]. Qed.
Lemma aside_on_ledger {A} (m : M (LedgerManager D) A) : always m → aside (C:=C) (on_ledger m).
Proof. intros Hm. by apply aside_on_validator, always_on_lm. Qed.
Lemma aside_ignore {A} (m : M (Engine D C) A) : aside m → aside (do! m in ret tt).
Proof. intros Hm. apply aside_bind; [done|]. intros _. apply aside_ret. Qed.

Lemma aside_say s : aside (do! try (broadcastStatement (D:=D) (C:=C) (Some s)) in ret tt).
Proof. intros e. by rewrite say_run. Qed.
Lemma aside_send : aside (send_statement (D:=D) (C:=C)).
Proof.
  apply aside_bind; [apply aside_get|]. intros e. destruct (e_statementChan e) as [|[o m] rest]; [apply aside_ret|].
  apply aside_bind; [by apply aside_modify|]. intros _. apply aside_bind; [apply aside_lift, returns_deref|]. intros d. apply aside_say.
Qed.

Lemma returns_Sign seed x : returns (Sign seed x).
Proof. pose proof (Sign_result seed x). by destruct (Sign seed x). Qed.
Lemma returns_check_request a b c : returns (check_request a b c).
Proof. unfold check_request. rets. Qed.
Lemma returns_query_loop call req clients : returns (query_loop (C:=C) call req clients).
Proof. induction clients; simpl; rets. Qed.
#[local] Hint Resolve returns_Sign returns_check_request returns_query_loop : go_returns.
Lemma returns_query call indices clients req : returns (query (C:=C) call indices clients req).
Proof. unfold query. rets. Qed.
#[local] Hint Resolve returns_query : go_returns.
Lemma returns_queryTxSet call indices e h : returns (queryTxSet call indices e h).
Proof. unfold queryTxSet, QueryTxSet. rets. Qed.
Lemma returns_queryQuorum call indices e h : returns (queryQuorum call indices e h).
Proof. unfold queryQuorum, QueryQuorum, quorum_hash. rets. Qed.

Lemma aside_download_txset call indices : aside (download_txset (D:=D) (C:=C) call indices).
Proof.
  apply aside_bind; [apply aside_get|]. intros e. destruct (v_txsetDownloadChan _) as [|h rest]; [apply aside_ret|].
  apply aside_bind; [by apply aside_on_validator|]. intros _.
  apply aside_bind; [apply aside_try, aside_lift, returns_queryTxSet|]. intros [?|t]; [apply aside_ret|].
  apply aside_ignore, aside_try, aside_on_validator, always_RecvTxSet.
Qed.
Lemma aside_download_quorum call indices : aside (download_quorum (D:=D) (C:=C) call indices).
Proof.
  apply aside_bind; [apply aside_get|]. intros e. destruct (v_quorumDownloadChan _) as [|h rest]; [apply aside_ret|].
  apply aside_bind; [by apply aside_on_validator|]. intros _.
  apply aside_bind; [apply aside_try, aside_lift, returns_queryQuorum|]. intros [?|t]; [apply aside_ret|].
  apply aside_ignore, aside_try, aside_on_validator, always_RecvQuorum.
Qed.

(** Rebroadcasting ends as long as there are fewer decrees than indexes. *)
Definition few e : Prop := Z.of_nat (size (e_decrees e)) < 18446744073709551616.
Lemma rebroadcast_returns e : few e → e_objects (rebroadcast e).1 = e_objects e ∧ returns (rebroadcast e).2.
Proof.
  intros Hs. unfold rebroadcast. rewrite (bind_eq_Ok _ _ _ e e) by done. set (lower := if decide _ then _ else 0).
  destruct (rebroadcast_loop_run (S (size (e_decrees e))) e lower (NextLedgerHeaderSeq (e_lm e)) 0) as (ds & Hv & Hr);
    [unfold few in Hs; lia|lia|lia|].
  rewrite Z.sub_0_r, uwrap64_id in Hr by apply next_uint64. by rewrite Hr.
Qed.

(** ** What runs decrees *)

Lemma Externalize_settles now idx x e : decrees_sound e →
  settles (λ _, Externalize (T:=T) (C:=C) baseReserve now idx x) e engine_after.
Proof.
  intros He. unfold Externalize. apply settles_aside; [apply aside_get|done|]. intros e1 e1' [= <- <-] _.
  case_decide; [by apply settles_engine_ret|]. destruct (b58_Decode x) as [b|]; [|by apply settles_end].
  apply settles_aside; [apply aside_wrap, aside_lift, returns_decode_res|done|]. intros e2 cv _ He2.
  apply settles_aside; [apply aside_wrap, aside_on_validator, always_Validator_GetTxSet|done|]. intros e3 [ts|] _ He3; [|by apply settles_end].
  apply settles_aside; [apply aside_wrap, aside_on_ledger, always_RecvExtVal; apply _|done|]. intros e4 [] _ He4.
  apply settles_orderly.
  { destruct (getDecree_orderly idx false e4 He4). unfold wrap. destruct (getDecree idx false e4). split; [by apply returns_wrap|done]. }
  intros e5 o He5. apply settles_bind. eapply settles_mono; [apply (on_decree_settles o (λ _, StopNomination)); [done|]|].
  { intros d Hd. apply settles_const; [done|]. intros _. by eapply sound_form, Hd. }
  intros e6 [[]|?|?|] _ H6; simpl; try done. specialize (H6 eq_refl).
  apply settles_aside; [apply aside_on_ledger, always_on_tm, always_DeleteTxList|done|]. intros e7 [] _ He7.
  apply settles_end; [|done]. apply aside_modify. intros e'. unfold remove_decrees. by case_decide.
Qed.

Lemma recv_externalized_settles now now' unix e : decrees_sound e →
  settles (λ n, recv_externalized (T:=T) (C:=C) baseReserve n now now' unix) e engine_after.
Proof.
  intros He. unfold recv_externalized. apply settles_aside; [apply aside_get|done|]. intros e1 e1' [= <- <-] _.
  destruct (e_externalizeChan e) as [|[idx x] rest]; [by apply settles_engine_ret|].
  apply settles_aside; [by apply aside_modify|done|]. intros e2 [] _ He2. apply settles_bind, settles_try.
  eapply settles_mono; [by apply (Externalize_settles now idx x)|].
  intros e3 [[]|?|?|] _ H; simpl; try done; specialize (H eq_refl); [|by apply settles_engine_ret].
  apply settles_aside; [apply aside_get|done|]. intros e4 e4' [= <- <-] _. case_decide; [by apply settles_end|].
  apply settles_aside; [by apply aside_modify|done|]. intros e5 [] _ He5. apply settles_bind, settles_try.
  eapply settles_mono; [by apply Propose_settles|]. intros e6 [[]|?|?|] _ H1; simpl; try done; apply settles_engine_ret; by apply H1.
Qed.

Lemma on_validator_settles (m : nat → M (Validator D) unit) e : decrees_sound e →
  settles m (e_validator e) (λ _ _, True) → settles (λ n, on_validator (m n)) e engine_after.
Proof.
  intros He (N & v & r & Hm & Hr & _). exists N, (set_validator v e), r. split_and!; [|done|by intros _].
  intros n Hn. unfold on_validator. by rewrite Hm.
Qed.

(** ** What the validator holds *)

Definition held (v : Validator D) (s : Statement) : Prop :=
  (∃ h, v_downloads v !! h = Some s) ∨ s ∈ v_dispatchChan v ∨ s ∈ v_readyChan v ∨ (∃ i l, v_decreeStmts v !! i = Some l ∧ s ∈ l).
(** All of them are of a kind, and the largest index is that of one of the kind. *)
Definition wired (P : Statement → Prop) (v : Validator D) : Prop :=
  (∀ s, held v s → P s) ∧ (v_maxSeqNum v = 0 ∨ ∃ s, P s ∧ v_maxSeqNum v = s_Index s).
Definition says (P : Statement → Prop) (ev : engine_event C) : Prop := match ev with ev_RecvStatement s => P s | _ => True end.

Definition fit (s : Statement) : Prop := wire s ∧ s_Index s < MaxUint64.
Definition calm e : Prop := decrees_sound e ∧ wired fit (e_validator e) ∧ few e.

Lemma run_event_settles ev e : calm e → settles (λ n, run_event (T:=T) baseReserve n ev) e engine_after.
Proof.
  intros (He & [Hh Hm'] & Hf). assert (v_maxSeqNum (e_validator e) < MaxUint64) as Hm.
  { destruct Hm' as [->|(s & [_ Hs] & ->)]; [done|exact Hs]. }
  destruct ev; simpl.
  - by apply settles_end, He; apply aside_send.
  - by apply settles_end, He; apply aside_download_txset.
  - by apply settles_end, He; apply aside_download_quorum.
  - apply recv_ready_settles; [done|]. apply Forall_forall. intros s Hs. apply Hh. right; right; by left.
  - by apply recv_externalized_settles.
  - destruct (rebroadcast_returns e Hf) as [Ho Hr]. apply settles_const; [done|]. intros _. unfold decrees_sound. by rewrite Ho.
  - by apply fire_timer_settles.
  - by apply fire_renomination_settles.
  - by apply Propose_settles.
  - apply settles_end; [|done]. apply aside_bind; [apply aside_get|]. intros e1. case_decide; [apply aside_ret|].
    apply aside_wrap, aside_on_validator, always_Validator_Recv.
  - apply settles_end; [|done]. apply aside_ignore, aside_wrap, aside_on_validator, always_GetQuorum.
  - apply settles_end; [|done]. apply aside_ignore, aside_wrap, aside_on_validator, always_Validator_GetTxSet.
  - apply settles_end; [|done]. apply aside_on_validator, always_monitor.
  - apply settles_end; [|done]. apply aside_on_validator, always_dispatch_stmt.
  - apply on_validator_settles; [done|]. eapply settles_mono; [by apply dispatch_tick_settles|done].
  - apply settles_end; [|done]. apply aside_on_validator, always_download_stmt.
  - apply settles_end; [|done]. apply aside_on_ledger, always_recv_downloaded; apply _.
  - apply settles_end; [|done]. by apply aside_on_ledger.
  - apply settles_end; [|done]. apply aside_on_ledger, always_on_tm, always_AddTx; apply _.
  - apply settles_end; [|done]. apply aside_ignore, aside_on_ledger, always_on_tm, always_take_tx.
  - apply settles_end; [|done]. apply aside_ignore, aside_on_ledger, always_on_tm, always_GetTxStatus; apply _.
  - apply settles_end; [|done]. apply aside_ignore, aside_on_ledger, always_GetLedger; apply _.
  - apply settles_end; [|done]. apply aside_ignore, aside_on_ledger, always_ledger_db, always_GetAccount; apply _.
  - by apply settles_end, He; apply aside_modify.
Qed.
End ends.

(** * What is kept *)

Section kept.
Context {D T C : Type} {StoreD : Store D} {StoreT : Store T} {TxDb : TxDatabase D T}.
Context {Pbc : PbCodec} {GoRt : GoRuntime} {Crypto : CryptoLib} {Ed : Ed25519}.
Context {QuorumCodec : Codec Quorum} {StatementCodec : Codec Statement}.
Variables (baseReserve : Z) (P : Statement → Prop).
Implicit Types e : Engine D C.
Implicit Types v : Validator D.

(** ** The statements of the validator *)

Definition same_held v v' : Prop :=
  (v_downloads v', v_dispatchChan v', v_readyChan v', v_decreeStmts v', v_maxSeqNum v') =
  (v_downloads v, v_dispatchChan v, v_readyChan v, v_decreeStmts v, v_maxSeqNum v).
#[local] Instance same_held_preorder : PreOrder same_held.
Proof. split; [by intros v|]. intros a b c. unfold same_held. congruence. Qed.
Definition keepsw v v' : Prop := wired P v → wired P v'.
#[local] Instance keepsw_preorder : PreOrder keepsw.
Proof. split; [by intros v H|]. intros a b c H1 H2 H. by apply H2, H1. Qed.

Lemma same_held_keeps v v' : same_held v v' → keepsw v v'.
Proof. unfold same_held, keepsw, wired, held. intros [= -> -> -> -> ->] [Hh Hm]. by split. Qed.
Lemma keepsw_same {A} (m : M (Validator D) A) : preserves same_held m → preserves keepsw m.
Proof. intros Hm v. apply same_held_keeps, Hm. Qed.
Lemma keepsw_modify (f : Validator D → Validator D) :
  (∀ v s, held (f v) s → wired P v → P s) → (∀ v, v_maxSeqNum (f v) = v_maxSeqNum v) → preserves keepsw (modify f).
Proof. intros Hf Hm v Hv. split; [intros s Hs; by apply (Hf v s)|]. unfold modify. simpl. rewrite Hm. apply Hv. Qed.

Lemma same_on_lm {A} (m : M (LedgerManager D) A) : preserves same_held (on_lm m).
Proof. intros v. unfold on_lm. by destruct (m (v_lm v)). Qed.
Lemma same_modify (f : Validator D → Validator D) : (∀ v, same_held v (f v)) → preserves same_held (modify f).
Proof. by intros Hf v. Qed.
#[local] Hint Resolve same_on_lm : go_preserves.
#[local] Hint Extern 1 (preserves same_held (modify _)) => apply same_modify; reflexivity : go_preserves.
Lemma same_GetQuorum h : preserves same_held (GetQuorum h).
Proof.
  unfold GetQuorum. apply preserves_bind_get. intros v. destruct (lru_Get h (v_quorumCache v)) as [c o].
  apply (bind_at same_held); [done|]. intros _ v1 _. at_all same_held. pres same_held.
Qed.
#[local] Hint Resolve same_GetQuorum : go_preserves.
Lemma same_have_txsets hs : preserves same_held (have_txsets hs).
Proof. induction hs; simpl; pres same_held. Qed.
#[local] Hint Resolve same_have_txsets : go_preserves.
Lemma same_validate s : preserves same_held (validate s).
Proof. unfold validate. pres same_held. Qed.
#[local] Hint Resolve keepsw_same same_validate : go_preserves.
Lemma same_RecvQuorum h q : preserves same_held (RecvQuorum h q).
Proof. unfold RecvQuorum. pres same_held. Qed.

Lemma keepsw_push s f g : P s →
  (∀ v h x, f v !! h = Some x → (∃ h, v_downloads v !! h = Some x) ∨ x = s) →
  (∀ v x, x ∈ g v → x ∈ v_dispatchChan v ∨ x = s) →
  ∀ p q, preserves keepsw (modify (λ v, set_queues (f v) (p v) (g v) (q v) v)).
Proof.
  intros Hs Hf Hg p q. apply keepsw_modify; [|done]. intros v x Hx [Hh _]. unfold held in *. simpl in Hx.
  destruct Hx as [[h Hx]|[Hx|Hx]].
  - destruct (Hf v h x Hx) as [?| ->]; [|done]. apply Hh. by left.
  - destruct (Hg v x Hx) as [?| ->]; [|done]. apply Hh. by right; left.
  - apply Hh. by right; right.
Qed.
Lemma keepsw_dispatched s p q : P s →
  preserves keepsw (modify (λ v, set_queues (v_downloads v) (p v) (v_dispatchChan v ++ [s]) (q v) v)).
Proof.
  intros Hs. apply (keepsw_push s v_downloads (λ v, v_dispatchChan v ++ [s])); [done|naive_solver|].
  intros v x. rewrite elem_of_app, list_elem_of_singleton. tauto.
Qed.

Lemma keepsw_Recv s : P s → preserves keepsw (Validator_Recv (Some s)).
Proof.
  intros Hs. unfold Validator_Recv. pres keepsw.
  - by apply keepsw_dispatched.
  - eapply (keepsw_push s (λ v, <[SHA256Hash a := s]> (v_downloads v)) v_dispatchChan); [done| |naive_solver].
    intros v h x. rewrite lookup_insert_Some. naive_solver.
Qed.

(** The body of the loop of [monitor_tick]. *)
Lemma keepsw_monitor_each h s : P s → preserves keepsw (let! valid := try (validate s) in
  match valid with
  | inr true =>
      modify (λ v, set_queues (delete h (v_downloads v)) (v_statements v) (v_dispatchChan v ++ [s]) (v_downloadChan v) v)
  | _ => ret tt
  end).
Proof.
  intros Hs. apply (preserves_bind keepsw); [apply (preserves_try keepsw), keepsw_same, same_validate|].
  intros [?|[]]; try apply (preserves_ret keepsw).
  apply (keepsw_push s (λ v, delete h (v_downloads v)) (λ v, v_dispatchChan v ++ [s])); [done| |].
  - intros v h' x. rewrite lookup_delete_Some. naive_solver.
  - intros v x. rewrite elem_of_app, list_elem_of_singleton. tauto.
Qed.
Lemma keepsw_mfor {A} (l : list A) (body : A → M (Validator D) unit) :
  (∀ a, a ∈ l → preserves keepsw (body a)) → preserves keepsw (mfor l body).
Proof.
  intros Hb. induction l as [|a l IH]; simpl; [apply (preserves_ret keepsw)|].
  apply (preserves_bind keepsw); [apply Hb; by left|]. intros _. apply IH. intros x Hx. apply Hb. by right.
Qed.
Lemma keepsw_monitor : preserves keepsw monitor_tick.
Proof.
  unfold monitor_tick. apply preserves_bind_get. intros v Hv. revert Hv. refine ((λ H : wired P v → keepsw v _, λ Hv, H Hv Hv) _).
  intros Hv. apply keepsw_mfor. intros [h s] Hs. apply keepsw_monitor_each. apply Hv. left. exists h.
  rewrite go_range_perm in Hs. by apply elem_of_map_to_list in Hs.
Qed.

Lemma keepsw_dispatch : preserves keepsw dispatch_stmt.
Proof.
  unfold dispatch_stmt. apply preserves_bind_get. intros v. destruct (v_dispatchChan v) as [|s rest] eqn:Hd; [done|].
  intros [Hh Hm]. assert (P s) as Hs by (apply Hh; right; left; rewrite Hd; by left).
  assert (∀ x, x ∈ rest → P x) as Hrest by (intros x Hx; apply Hh; right; left; rewrite Hd; by right).
  unfold bind, modify. case_decide; simpl.
  - split; [|done]. intros x [Hx|[Hx|[Hx|Hx]]]; simpl in Hx; [apply Hh; by left|by apply Hrest| |apply Hh; by right; right; right].
    apply elem_of_app in Hx as [Hx| ->%list_elem_of_singleton]; [|done]. apply Hh. right; right; by left.
  - split.
    2:{ simpl. destruct (Z.max_spec (v_maxSeqNum v) (s_Index s)) as [[_ ->]|[_ ->]]; [right; eauto|done]. }
    intros x [Hx|[Hx|[Hx|(i & l & Hl & Hx)]]]; simpl in *;
      [apply Hh; by left|by apply Hrest|apply Hh; right; right; by left|].
    apply lookup_insert_Some in Hl as [[<- <-]|[_ Hl]]; [|apply Hh; right; right; right; eauto].
    apply elem_of_app in Hx as [Hx| ->%list_elem_of_singleton]; [|done].
    destruct (v_decreeStmts v !! s_Index s) as [l|] eqn:Hl; [|by apply not_elem_of_nil in Hx]. apply Hh. right; right; right; eauto.
Qed.

Lemma keepsw_waiting v m ready : wired P v →
  (∀ x, x ∈ ready → P x) → (∀ i l x, m !! i = Some l → x ∈ l → P x) → wired P (set_waiting m (v_maxSeqNum v) ready v).
Proof.
  intros [Hh Hm] Hr Hl. split; [|done]. intros x [Hx|[Hx|[Hx|(i & l & Hi & Hx)]]]; simpl in *; eauto; apply Hh; [by left|by right; left].
Qed.
Lemma wired_ready v x : wired P v → x ∈ v_readyChan v → P x.
Proof. intros [Hh _] Hx. apply Hh. right; right; by left. Qed.
Lemma wired_waiting v i l x : wired P v → v_decreeStmts v !! i = Some l → x ∈ l → P x.
Proof. intros [Hh _] Hl Hx. apply Hh. right; right; right; eauto. Qed.
Lemma keepsw_release i : preserves keepsw (release i).
Proof.
  intros v Hv. unfold release, modify. simpl. destruct (v_decreeStmts v !! i) as [[|s l]|] eqn:Hi; try done.
  apply keepsw_waiting; [done| |].
  - intros x [Hx|Hx]%elem_of_app; [by eapply wired_ready|by eapply wired_waiting].
  - intros j l' x [[<- <-]|[_ Hl]]%lookup_insert_Some Hx; [by apply not_elem_of_nil in Hx|by eapply wired_waiting].
Qed.
Lemma keepsw_tick n : preserves keepsw (dispatch_tick n).
Proof.
  unfold dispatch_tick. apply (preserves_bind keepsw); [apply (preserves_get keepsw)|intros v0]. cbv zeta.
  apply (preserves_bind keepsw); [apply preserves_release_from, keepsw_release; apply _|intros _].
  intros v Hv. rewrite (bind_eq_Ok _ _ _ v v) by done. unfold bind, lift. rewrite remove_old_run. unfold modify. cbn [fst].
  apply keepsw_waiting; [done|by intros x; apply wired_ready|]. intros i l x Hl Hx. case_decide; [by eapply wired_waiting|].
  apply lookup_delete_Some in Hl as [_ ?]. by eapply wired_waiting.
Qed.
Lemma same_download : preserves same_held download_stmt.
Proof.
  unfold download_stmt. apply preserves_bind_get. intros v. destruct (v_downloadChan v) as [|s rest]; [done|].
  apply (bind_at same_held); [done|]. intros _ v1 _. at_all same_held. pres same_held. apply (preserves_mfor same_held). intros h. pres same_held.
Qed.

(** ** The engine *)

Definition keepswe e e' : Prop := keepsw (e_validator e) (e_validator e').
#[local] Instance keepswe_preorder : PreOrder keepswe.
Proof. split; [by intros e H|]. intros a b c H1 H2 H. by apply H2, H1. Qed.

Lemma keepswe_validator {A} (m : M (Validator D) A) : preserves keepsw m → preserves keepswe (on_validator m).
Proof. intros Hm e. specialize (Hm (e_validator e)). unfold on_validator. by destruct (m (e_validator e)). Qed.
Lemma keepswe_ledger {A} (m : M (LedgerManager D) A) : preserves keepswe (on_ledger m).
Proof. apply keepswe_validator, keepsw_same, same_on_lm. Qed.
Lemma keepswe_modify (f : Engine D C → Engine D C) : (∀ e, e_validator (f e) = e_validator e) → preserves keepswe (modify f).
Proof. intros Hf e. unfold keepswe, modify. simpl. by rewrite Hf. Qed.
Lemma keepswe_decree {A} o (m : M (Decree (Validator D)) A) : preserves (moves same_held) m → preserves keepswe (on_decree o m).
Proof.
  intros Hm e. unfold on_decree. destruct (e_objects e !! o) as [d|]; [|done]. specialize (Hm (set_env (e_validator e) d)).
  destruct (m (set_env (e_validator e) d)) as [d' r]. exact (same_held_keeps _ _ (proj1 Hm)).
Qed.
Lemma env_RecvTxSet_same h t : GetTxSetKey t = Ok h → preserves same_held (env_RecvTxSet (E:=Validator D) h t).
Proof. intros _. apply same_on_lm. Qed.
Lemma keepswe_Nominate n o x y r : preserves keepswe (on_decree o (Nominate_ n x y r)).
Proof. apply keepswe_decree, (moves_Nominate same_held env_RecvTxSet_same). Qed.
Lemma keepswe_renominate n o i x y : preserves keepswe (on_decree o (do! modify (take_timer i) in Nominate_ n x y true)).
Proof.
  apply keepswe_decree, (preserves_bind (moves same_held)); [intros d; by apply (moves_same same_held)|].
  intros _. apply (moves_Nominate same_held env_RecvTxSet_same).
Qed.
Lemma keepswe_decree_Recv n o s : preserves keepswe (on_decree o (Recv n s)).
Proof. apply keepswe_decree, (moves_Recv same_held env_RecvTxSet_same). Qed.
Lemma keepswe_Stop o : preserves keepswe (on_decree o StopNomination).
Proof. apply keepswe_decree, (moves_StopNomination same_held). Qed.
Lemma keepswe_getDecree idx create : preserves keepswe (getDecree (C:=C) idx create).
Proof.
  unfold getDecree. apply preserves_bind_get. intros e. destruct (e_decrees e !! idx); [done|]. destruct create; [|done].
  intros Hv. unfold bind, lift, put, ret. simpl.
  destruct (NewDecree (e_validator e) idx (e_nodeID e) (e_quorum e) (e_quorumHash e)); exact Hv.
Qed.
#[local] Hint Resolve keepswe_ledger keepswe_Nominate keepswe_renominate keepswe_decree_Recv keepswe_Stop keepswe_getDecree : go_preserves.
#[local] Hint Extern 1 (preserves keepswe (modify _)) => apply keepswe_modify; reflexivity : go_preserves.
Lemma keepswe_RecvQuorum h q : preserves keepswe (on_validator (C:=C) (RecvQuorum h q)).
Proof. apply keepswe_validator, keepsw_same, same_RecvQuorum. Qed.
Lemma keepswe_GetTxSet h : preserves keepswe (on_validator (C:=C) (Validator_GetTxSet h)).
Proof. apply keepswe_ledger. Qed.
Lemma keepswe_RecvTxSet h t : preserves keepswe (on_validator (C:=C) (RecvTxSet h t)).
Proof. apply keepswe_ledger. Qed.
#[local] Hint Resolve keepswe_GetTxSet keepswe_RecvTxSet keepswe_RecvQuorum : go_preserves.

Lemma keepswe_Propose n now unix : preserves keepswe (Propose (C:=C) n now unix).
Proof. unfold Propose, nominate. pres keepswe. Qed.
Lemma keepswe_remove idx : preserves keepswe (modify (remove_decrees (D:=D) (C:=C) idx)).
Proof. apply keepswe_modify. intros e. unfold remove_decrees. by case_decide. Qed.
#[local] Hint Resolve keepswe_Propose keepswe_remove : go_preserves.
Lemma keepswe_Externalize now idx x : preserves keepswe (Externalize (T:=T) (C:=C) baseReserve now idx x).
Proof. unfold Externalize. pres keepswe. Qed.
#[local] Hint Resolve keepswe_Externalize : go_preserves.
Lemma keepswe_say s : preserves keepswe (do! try (broadcastStatement (C:=C) (Some s)) in ret tt).
Proof. intros e Hv. by rewrite say_run. Qed.
#[local] Hint Resolve keepswe_say : go_preserves.
Lemma keepswe_rebroadcast_loop n : ∀ seq lower, preserves keepswe (rebroadcast_loop (C:=C) n seq lower).
Proof. induction n as [|n IH]; intros; simpl; pres keepswe. apply (preserves_mfor keepswe). intros s'. apply keepswe_say. Qed.
Lemma keepswe_rebroadcast : preserves keepswe (rebroadcast (C:=C)).
Proof. unfold rebroadcast. apply preserves_bind_get. intros e. apply keepswe_rebroadcast_loop. Qed.
Lemma keepswe_ready n : preserves keepswe (recv_ready (C:=C) n).
Proof.
  unfold recv_ready. apply preserves_bind_get. intros e. destruct (v_readyChan (e_validator e)) as [|s rest] eqn:Hr; [done|].
  apply (bind_at keepswe); [|intros _ e1 _; at_all keepswe; pres keepswe].
  intros Hv. apply keepsw_waiting; [done| |intros i l x; by apply wired_waiting].
  intros x Hx. apply (wired_ready (e_validator e)); [done|]. rewrite Hr. by right.
Qed.

Lemma keepswe_event n ev : says P ev → preserves keepswe (run_event (T:=T) baseReserve n ev).
Proof.
  intros Hev. destruct ev; simpl in *.
  - unfold send_statement. pres keepswe.
  - unfold download_txset. pres keepswe.
  - unfold download_quorum. pres keepswe.
  - apply keepswe_ready.
  - unfold recv_externalized. pres keepswe.
  - apply keepswe_rebroadcast.
  - unfold fire_timer. pres keepswe.
  - unfold fire_renomination. pres keepswe.
  - apply keepswe_Propose.
  - unfold RecvStatement. pres keepswe. by apply keepswe_validator, keepsw_Recv.
  - unfold Engine_GetQuorum. pres keepswe. apply keepswe_validator, keepsw_same, same_GetQuorum.
  - unfold Engine_GetTxSet. pres keepswe.
  - apply keepswe_validator, keepsw_monitor.
  - apply keepswe_validator, keepsw_dispatch.
  - apply keepswe_validator, keepsw_tick.
  - apply keepswe_validator, keepsw_same, same_download.
  - apply keepswe_ledger.
  - apply keepswe_ledger.
  - apply keepswe_ledger.
  - pres keepswe.
  - pres keepswe.
  - pres keepswe.
  - pres keepswe.
  - by apply keepswe_modify.
Qed.

(** ** The number of decrees *)

Definition count e : nat := size (e_decrees e).
Definition fewer e e' : Prop := (count e' ≤ count e)%nat.
#[local] Instance fewer_preorder : PreOrder fewer.
Proof. split; [by intros e; unfold fewer|]. intros a b c. unfold fewer. lia. Qed.
Definition one_more {A} (m : M (Engine D C) A) : Prop := ∀ e, (count (m e).1 ≤ S (count e))%nat.

Lemma fewer_same e e' : e_decrees e' = e_decrees e → fewer e e'.
Proof. unfold fewer, count. by intros ->. Qed.
Lemma fewer_modify (f : Engine D C → Engine D C) : (∀ e, e_decrees (f e) = e_decrees e) → preserves fewer (modify f).
Proof. intros Hf e. by apply fewer_same, Hf. Qed.
Lemma fewer_validator {A} (m : M (Validator D) A) : preserves fewer (on_validator (C:=C) m).
Proof. intros e. apply fewer_same. unfold on_validator. by destruct (m (e_validator e)). Qed.
Lemma fewer_decree {A} o (m : M (Decree (Validator D)) A) : preserves fewer (on_decree (C:=C) o m).
Proof.
  intros e. apply fewer_same. unfold on_decree. destruct (e_objects e !! o) as [d|]; [|done].
  by destruct (m (set_env (e_validator e) d)).
Qed.
Lemma fewer_ledger {A} (m : M (LedgerManager D) A) : preserves fewer (on_ledger (C:=C) m).
Proof. apply fewer_validator. Qed.
Lemma fewer_say s : preserves fewer (do! try (broadcastStatement (C:=C) (Some s)) in ret tt).
Proof. intros e. apply fewer_same. by rewrite say_run. Qed.
Lemma fewer_rebroadcast n : ∀ seq lower, preserves fewer (rebroadcast_loop (D:=D) (C:=C) n seq lower).
Proof. induction n as [|n IH]; intros; simpl; [by intros e; apply fewer_same|]. case_decide; pres fewer. apply (preserves_mfor fewer), fewer_say. Qed.
Lemma fewer_remove idx : preserves fewer (modify (remove_decrees (D:=D) (C:=C) idx)).
Proof.
  intros e. unfold fewer, count, modify, remove_decrees. simpl. case_decide; [|done]. simpl. apply map_subseteq_size, map_filter_subseteq.
Qed.
Lemma fewer_existing idx : preserves fewer (getDecree (D:=D) (C:=C) idx false).
Proof. unfold getDecree. apply preserves_bind_get. intros e. by destruct (e_decrees e !! idx). Qed.
#[local] Hint Resolve fewer_validator fewer_decree fewer_ledger fewer_say fewer_remove fewer_existing : go_preserves.
#[local] Hint Extern 1 (preserves fewer (modify _)) => apply fewer_modify; reflexivity : go_preserves.

Lemma more_fewer {A} (m : M (Engine D C) A) : preserves fewer m → one_more m.
Proof. intros Hm e. specialize (Hm e). unfold fewer in Hm. lia. Qed.
Lemma more_after {A B} (m : M (Engine D C) A) (k : A → M (Engine D C) B) : preserves fewer m → (∀ a, one_more (k a)) → one_more (bind m k).
Proof.
  intros Hm Hk e. specialize (Hm e). unfold fewer, bind in *. destruct (m e) as [e1 [a| | |]]; simpl in *; try lia.
  specialize (Hk a e1). lia.
Qed.
Lemma more_before {A B} (m : M (Engine D C) A) (k : A → M (Engine D C) B) : one_more m → (∀ a, preserves fewer (k a)) → one_more (bind m k).
Proof.
  intros Hm Hk e. specialize (Hm e). unfold bind. destruct (m e) as [e1 [a| | |]]; simpl in *; try lia.
  specialize (Hk a e1). unfold fewer in Hk. lia.
Qed.
Lemma more_wrap {A} p (m : M (Engine D C) A) : one_more m → one_more (wrap p m).
Proof. intros Hm e. specialize (Hm e). unfold wrap. by destruct (m e). Qed.
Lemma more_try {A} (m : M (Engine D C) A) : one_more m → one_more (try m).
Proof. intros Hm e. specialize (Hm e). unfold try. by destruct (m e) as [e1 [a| | |]]. Qed.

Lemma more_getDecree idx create : one_more (getDecree (D:=D) (C:=C) idx create).
Proof.
  intros e. unfold getDecree, bind, get. destruct (e_decrees e !! idx) eqn:Hi; [by simpl; lia|]. destruct create; [|by simpl; lia].
  simpl. unfold lift. destruct (NewDecree _ _ _ _ _); simpl; unfold count; simpl; try lia. rewrite map_size_insert_None; [lia|done].
Qed.
Lemma more_Propose n now unix : one_more (Propose (D:=D) (C:=C) n now unix).
Proof.
  unfold Propose. repeat first [apply more_after; [solve [pres fewer]|intros ?]|case_decide|case_match];
    try (by apply more_fewer; pres fewer).
  apply more_wrap, more_before; [apply more_wrap, more_getDecree|]. intros o. pres fewer.
Qed.
Lemma more_event n ev : one_more (run_event (D:=D) (T:=T) (C:=C) baseReserve n ev).
Proof.
  destruct ev; simpl.
  - apply more_fewer. unfold send_statement. pres fewer.
  - apply more_fewer. unfold download_txset. pres fewer.
  - apply more_fewer. unfold download_quorum. pres fewer.
  - unfold recv_ready. apply more_after; [pres fewer|]. intros e. destruct (v_readyChan _); [apply more_fewer; pres fewer|].
    apply more_after; [pres fewer|]. intros _. case_decide; [apply more_fewer; pres fewer|].
    apply more_before; [apply more_getDecree|]. intros o. pres fewer.
  - unfold recv_externalized. apply more_after; [pres fewer|]. intros e. destruct (e_externalizeChan _) as [|[idx x] rest]; [apply more_fewer; pres fewer|].
    apply more_after; [pres fewer|]. intros _. apply more_after; [unfold Externalize; pres fewer|]. intros [?|[]]; [apply more_fewer; pres fewer|].
    apply more_after; [pres fewer|]. intros e1. case_decide; [apply more_fewer; pres fewer|].
    apply more_after; [pres fewer|]. intros _. apply more_before; [apply more_try, more_Propose|]. intros ?. pres fewer.
  - apply more_fewer. unfold rebroadcast. apply preserves_bind_get. intros e. apply fewer_rebroadcast.
  - unfold fire_timer. apply more_after; [pres fewer|]. intros e. destruct (e_timers e !! i); [|apply more_fewer; pres fewer].
    apply more_after; [pres fewer|]. intros _. apply more_before; [apply more_try, more_Propose|]. intros ?. pres fewer.
  - apply more_fewer. unfold fire_renomination. pres fewer.
  - apply more_Propose.
  - apply more_fewer. unfold RecvStatement. pres fewer.
  - apply more_fewer. unfold Engine_GetQuorum. pres fewer.
  - apply more_fewer. unfold Engine_GetTxSet. pres fewer.
  - apply more_fewer, fewer_validator.
  - apply more_fewer, fewer_validator.
  - apply more_fewer, fewer_validator.
  - apply more_fewer, fewer_validator.
  - apply more_fewer, fewer_ledger.
  - apply more_fewer, fewer_ledger.
  - apply more_fewer, fewer_ledger.
  - apply more_fewer. pres fewer.
  - apply more_fewer. pres fewer.
  - apply more_fewer. pres fewer.
  - apply more_fewer. pres fewer.
  - by apply more_fewer, fewer_modify.
Qed.
End kept.

(** * Lives *)

Section lives.
Context {D T C : Type} {StoreD : Store D} {StoreT : Store T} {TxDb : TxDatabase D T}.
Context {RetD : StoreReturns D} {RetT : StoreReturns T} {RetTx : TxReturns D T}.
Context {Pbc : PbCodec} {GoRt : GoRuntime} {Crypto : CryptoLib} {Ed : Ed25519}.
Context {QuorumCodec : Codec Quorum} {StatementCodec : Codec Statement}.
Variable baseReserve : Z.

(** A new engine. *)
Lemma NewEngine_empty now (ctx : EngineContext D C) e : NewEngine now (Some ctx) = Ok e →
  e_nodeID e = ec_NodeID ctx ∧ e_objects e = [] ∧ e_decrees e = ∅ ∧ e_statementChan e = [] ∧ e_broadcasts e = [] ∧
  ∃ lm, e_validator e = NewValidator lm (ec_MaxDecrees ctx).
Proof.
  intros He. unfold NewEngine in He. destruct (ValidateEngineContext (Some ctx)); try done. simpl in He.
  destruct (ec_PM ctx), (ec_LM ctx) as [lm|], (ec_Quorum ctx) as [q|]; simpl in He; try done. destruct (quorum_hash q); try done.
  injection He as <-. split_and!; eauto.
Qed.
Lemma new_wired P (lm : LedgerManager D) n : wired P (NewValidator lm n).
Proof.
  split; [|by left]. intros s [[h Hs]|[Hs|[Hs|(i & l & Hs & _)]]]; simpl in Hs; rewrite ?lookup_empty in Hs; try done; by apply not_elem_of_nil in Hs.
Qed.

(** One event, with what the next one needs. *)
Lemma run_event_calm ev (e : Engine D C) : calm e → says fit ev →
  settles (λ n, run_event (T:=T) baseReserve n ev) e (λ e' r,
    is_Panic r = false → decrees_sound e' ∧ wired fit (e_validator e') ∧ (count e' ≤ S (count e))%nat).
Proof.
  intros He Hev. pose proof (run_event_settles (T:=T) baseReserve ev e He) as (N & e' & r & Hr & Hret & Hs).
  exists N, e', r. split_and!; [done..|]. intros Hp. specialize (Hs Hp).
  pose proof (keepswe_event (T:=T) baseReserve fit N ev Hev e) as Hw. pose proof (more_event (T:=T) baseReserve N ev e) as Hc.
  rewrite (Hr N) in Hw, Hc by done. destruct He as (_ & Hv & _). split_and!; [done|by apply Hw|done].
Qed.

Lemma run_events_settles evs (e : Engine D C) : decrees_sound e → wired fit (e_validator e) →
  Z.of_nat (count e + length evs) < 18446744073709551616 → Forall (says fit) evs →
  settles (λ n, run_events (T:=T) baseReserve n evs) e (λ _ _, True).
Proof.
  revert e. induction evs as [|ev evs IH]; intros e He Hw Hc Hev; simpl; [by apply settles_const|].
  apply Forall_cons in Hev as [Hev Hevs]. simpl in Hc. apply settles_bind, settles_try.
  eapply settles_mono; [apply run_event_calm; [split_and!; [done..|unfold few; fold (count e); lia]|done]|].
  intros e1 [[]|?|?|] _ H1; simpl; try done; destruct (H1 eq_refl) as (He1 & Hw1 & Hc1); (apply IH; [done|done|lia|done]).
Qed.
End lives.

(** C26: no event of an engine computes for ever.  From a new engine on, with any peers, any ledger behind it and over
    either database, take any sequence of the events of the engine, of its validator, its decrees and its ledger manager: statements
    from anybody, answers of peers, values to propose or to close ledgers with, timers and ticks.  If the counters of the
    statements are of their type, no statement is for the very last index and there are fewer than 2^64 events, then no event is caught in a loop or a recursion: from
    some amount of fuel on the outcome of the sequence is the same, and it is not a lack of fuel.  What an event sends to another goroutine is
    left in the channel, as if the channels had room: whether a send on an unbuffered channel finds its receiver is not part of this, and one of
    them can wait for ever ([Channels.engine_waits]). *)
Theorem engine_never_loops {D T C : Type} {StoreD : Store D} {StoreT : Store T} {TxDb : TxDatabase D T}
    {RetD : StoreReturns D} {RetT : StoreReturns T} {RetTx : TxReturns D T}
    {Pbc : PbCodec} {GoRt : GoRuntime} {Crypto : CryptoLib} {Ed : Ed25519} {QuorumCodec : Codec Quorum} {StatementCodec : Codec Statement}
    (baseReserve now : Z) (ctx : EngineContext D C) (e0 : Engine D C) (evs : list (engine_event C)) :
  NewEngine now (Some ctx) = Ok e0 → Forall (says fit) evs → Z.of_nat (length evs) < 18446744073709551616 →
  ∃ N e r, (∀ n, (N ≤ n)%nat → run_events (T:=T) baseReserve n evs e0 = (e, r)) ∧ r ≠ NoFuel.
Proof.
  intros He Hev Hlen. destruct (NewEngine_empty now ctx e0 He) as (_ & Ho & Hd & _ & _ & lm & Hv).
  destruct (run_events_settles (T:=T) baseReserve evs e0) as (N & e & r & Hr & Hret & _).
  - unfold decrees_sound. rewrite Ho. apply Forall_nil_2.
  - rewrite Hv. apply new_wired.
  - unfold count. rewrite Hd, map_size_empty. lia.
  - done.
  - exists N, e, r. split; [done|]. by apply returns_spec.
Qed.

Module solo_life.
Import Decree.states Engine.solo.

(** A node alone proposes, says so, closes its ledger, and hears of its own decision. *)
Definition life : list (engine_event string) :=
  [ev_Propose 1 7; ev_send; ev_ext 20 30 9; ev_RecvStatement last_word; ev_monitor; ev_dispatch; ev_tick; ev_ready; ev_rebroadcast].

Lemma engine_never_loops_witness :
  ∃ N e r, (∀ n, (N ≤ n)%nat → run_events (T:=boltdb) GenesisBaseReserve n life e0 = (e, r)) ∧ r ≠ NoFuel.
Proof.
  apply (engine_never_loops GenesisBaseReserve 0 ctx e0 life); [exact e0_new| |simpl; lia].
  repeat (apply Forall_cons; split; [first [exact I|idtac]|]); [|apply Forall_nil_2].
  split; [|simpl; unfold MaxUint64; lia]. unfold wire, last_word. simpl.
  repeat (apply Forall_cons; split; [unfold_int; simpl; lia|]). apply Forall_nil_2.
Defined.
End solo_life.

Module last_index.
Import Decree.states Engine.solo.

(** One statement of a peer for the last index, complete as it is: it names no value. *)
Definition far : Statement :=
  mkStatement StatementType_NOMINATE "peer" MaxUint64 (Some (Stmt_Nominate (mkNominate [] [] qhash))).
#[local] Instance far_codec : Codec Statement := codec_single far "far".
Definition dispatched : Validator boltdb :=
  ((do! RecvQuorum qhash (Some quorum) in do! Validator_Recv (Some far) in dispatch_stmt) (NewValidator ledger 20)).1.

Lemma tick_ends_iff_witness : v_maxSeqNum dispatched = MaxUint64 ∧ ∀ n, (dispatch_tick n dispatched).2 = NoFuel.
Proof.
  assert (v_maxSeqNum dispatched = MaxUint64) as He by (vm_compute; reflexivity). split; [done|]. intros n.
  pose proof (tick_ends_iff dispatched) as H. rewrite He in H. specialize (H ltac:(unfold_int; unfold MaxUint64; lia)).
  destruct (dispatch_tick n dispatched).2 eqn:Hn; [exfalso..|done]; apply H; try done; exists n; by rewrite Hn.
Defined.
End last_index.
