(* ===== verification/Federation.v ===== *)
(** A network of engines: the honest nodes announce at most one value for an index.

    [Agreement] is about decrees that are called; here whole engines call them.  The statements of an honest node reach the others as the
    payloads of its broadcasts, through the validators of the receivers, with all the goroutines of [EngineLife] in
    between; a statement in the name of a node outside of the network is arbitrary.  The invariant [stands] ties an engine to the
    pledge of its node for one index: its decree for the index is pledged to it ([Pledge]), and what it has broadcast
    for the index commits to nothing else.  An engine can forget a decree ([ahead_forgets]) and make a second one for the
    index; the theorem is about runs in which no engine has done so for the index. *)

From stdpp Require Import relations.
From S2P Require Import Prelude Lru Pb Db Crypto Keypair Account TxManager Ledger Quorum Ballot Rpc Peer Federated Decree Nomination Outgoing Pledge Agreement Validator Engine EngineLife.

Section engine.
Context {D T C : Type} {StoreD : Store D} {StoreT : Store T} {TxDb : TxDatabase D T}.
Context {Pbc : PbCodec} {GoRt : GoRuntime} {Crypto : CryptoLib} {Ed : Ed25519}.
Context {QuorumCodec : Codec Quorum} {StatementCodec : Codec Statement}.
(** The index, the node, the honest nodes and what the others of them have pledged. *)
Context (baseReserve idx : Z) (me : string) (honest : gset string) (claims : string → string → Prop).
Context (me_honest : me ∈ honest).
Implicit Types (e : Engine D C) (d : Decree (Validator D)) (v : option string).

(** * The invariant of an engine *)

(** At most one decree for the index was made. *)
Definition unique e : Prop := ∀ o o' d d',
  e_objects e !! o = Some d → e_objects e !! o' = Some d' → d_index d = idx → d_index d' = idx → o = o'.

Definition founded e d : Prop :=
  own d ∧ d_nodeID d = me ∧ d_quorum d = e_quorum e ∧
  ∃ env d0, NewDecree env (d_index d) me (e_quorum e) (e_quorumHash e) = Ok d0 ∧ progress d0 d.

(** What the node has said, whether its process runs or not. *)
Record speaks v e : Prop := {
  sp_node : e_nodeID e = me;
  sp_objects : ∀ o d, e_objects e !! o = Some d → founded e d ∧ (d_index d = idx → spoken honest claims v d);
  sp_chan : ∀ o m, (o, m) ∈ e_statementChan e → ∃ d, e_objects e !! o = Some d ∧ m ∈ d_statementChan d;
  sp_broadcasts : ∀ b s u, b ∈ e_broadcasts e → Decode (nr_Data b.2) = Some s → s_Index s = idx → commit_value s = Some u → v = Some u;
  sp_decrees : ∀ i o, e_decrees e !! i = Some o → ∃ d, e_objects e !! o = Some d ∧ d_index d = i;
}.
Definition stands v e : Prop :=
  speaks v e ∧ (∀ o d, e_objects e !! o = Some d → d_index d = idx → pledged honest claims v d) ∧
  ((∀ o d, e_objects e !! o = Some d → d_index d ≠ idx) → v = None).

(** ** Computations *)

Definition fixed e := (e_nodeID e, e_quorum e, e_quorumHash e).
Definition grows e e' : Prop :=
  fixed e' = fixed e ∧ ∀ o d, e_objects e !! o = Some d → ∃ d', e_objects e' !! o = Some d' ∧ d_index d' = d_index d.
#[local] Instance grows_preorder : PreOrder grows.
Proof.
  split; [by intros e; split; [|eauto]|]. intros a b c [H1 H2] [H3 H4]. split; [congruence|]. intros o d Ho.
  destruct (H2 o d Ho) as (d1 & Ho1 & <-). by apply H4.
Qed.
Lemma unique_grows e e' : grows e e' → unique e' → unique e.
Proof.
  intros [_ H] Hu o o' d d' Ho Ho' Hd Hd'. destruct (H o d Ho) as (d1 & H1 & E1), (H o' d' Ho') as (d2 & H2 & E2).
  apply (Hu o o' d1 d2); congruence.
Qed.

(** The pledge may be made on the way; a process that dies leaves what it has said. *)
Definition result {A} v (er : Engine D C * res A) : Prop :=
  ∃ v', (∀ u, v = Some u → v' = Some u) ∧ speaks v' er.1 ∧ (survives er.2 = true → stands v' er.1).
Definition solid_at {A} (m : M (Engine D C) A) e : Prop :=
  grows e (m e).1 ∧ ∀ v, unique (m e).1 → stands v e → result v (m e).
Definition solid {A} (m : M (Engine D C) A) : Prop := ∀ e, solid_at m e.

Lemma result_stands {A} v e (r : res A) : stands v e → result v (e, r).
Proof. intros H. exists v. split_and!; [done|apply H|done]. Qed.

Lemma solid_at_bind {A B} (m : M (Engine D C) A) (k : A → M (Engine D C) B) e :
  solid_at m e → (∀ a e1, m e = (e1, Ok a) → solid_at (k a) e1) → solid_at (bind m k) e.
Proof.
  intros [Hg Hm] Hk. unfold solid_at, bind. destruct (m e) as [e1 [a|?|?|]] eqn:He; simpl in *; [|done..].
  destruct (Hk a e1 eq_refl) as [Hg1 Hm1]. split; [by etrans|]. intros v Hu Hs.
  destruct (Hm v) as (v1 & Hv1 & _ & Hs1); [by eapply unique_grows|done|].
  destruct (Hm1 v1 Hu (Hs1 eq_refl)) as (v2 & Hv2 & H2). exists v2. split; [auto|done].
Qed.
Lemma solid_bind {A B} (m : M (Engine D C) A) (k : A → M (Engine D C) B) : solid m → (∀ a, solid (k a)) → solid (bind m k).
Proof. intros Hm Hk e. apply solid_at_bind; [apply Hm|]. intros a e1 _. apply Hk. Qed.
Lemma solid_wrap {A} p (m : M (Engine D C) A) : solid m → solid (wrap p m).
Proof. intros Hm e. destruct (Hm e) as [Hg Hv]. unfold solid_at, wrap. destruct (m e) as [e1 [a|?|?|]]; done. Qed.
Lemma solid_at_try {A} (m : M (Engine D C) A) e : solid_at m e → solid_at (try m) e.
Proof. intros [Hg Hv]. unfold solid_at, try. destruct (m e) as [e1 [a|?|?|]]; done. Qed.
Lemma solid_try {A} (m : M (Engine D C) A) : solid m → solid (try m).
Proof. intros Hm e. apply solid_at_try, Hm. Qed.
Lemma solid_lift {A} (r : res A) : solid (lift r).
Proof. intros e. split; [reflexivity|]. intros v _ Hs. by apply result_stands. Qed.
Lemma solid_ret {A} (a : A) : solid (ret a).
Proof. apply (solid_lift (Ok a)). Qed.
Lemma solid_fail {A} x : solid (fail (A:=A) x).
Proof. apply (solid_lift (Err x)). Qed.
Lemma solid_get : solid get.
Proof. intros e. split; [reflexivity|]. intros v _ Hs. by apply result_stands. Qed.

(** What the invariant does not mention, or may get less of. *)
Definition framed e e' : Prop :=
  fixed e' = fixed e ∧ e_objects e' = e_objects e ∧ e_statementChan e' ⊆ e_statementChan e ∧
  e_broadcasts e' = e_broadcasts e ∧ e_decrees e' ⊆ e_decrees e.
Lemma framed_speaks v e e' : framed e e' → speaks v e → speaks v e'.
Proof.
  intros ([= H1 H2 H3] & Ho & Hc & Hb & Hd) [S1 S2 S3 S4 S5]. split; unfold founded; rewrite ?Ho, ?Hb, ?H1, ?H2, ?H3; try done.
  - intros o m ?. by apply S3, Hc.
  - intros i o Hi. apply S5. by eapply lookup_weaken.
Qed.
Lemma framed_stands v e e' : framed e e' → stands v e → stands v e'.
Proof. intros Hf (H1 & H2). split; [by eapply framed_speaks|]. destruct Hf as (_ & -> & _). done. Qed.
Lemma solid_at_framed {A} (m : M (Engine D C) A) e : framed e (m e).1 → solid_at m e.
Proof.
  intros Hm. split.
  - destruct Hm as (Hf & Ho & _). split; [done|]. rewrite Ho. eauto.
  - intros v _ Hs. destruct (m e) as [e1 r]. by eapply result_stands, framed_stands.
Qed.
Lemma solid_framed {A} (m : M (Engine D C) A) : (∀ e, framed e (m e).1) → solid m.
Proof. intros Hm e. apply solid_at_framed, Hm. Qed.
Lemma solid_validator {A} (m : M (Validator D) A) : solid (on_validator m).
Proof. apply solid_framed. intros e. unfold on_validator. by destruct (m (e_validator e)). Qed.
Lemma solid_ledger {A} (m : M (LedgerManager D) A) : solid (on_ledger m).
Proof. apply solid_validator. Qed.
Lemma solid_modify f : (∀ e, framed e (f e)) → solid (modify f).
Proof. intros Hf. by apply solid_framed. Qed.

(** ** Decrees *)

(** A new decree; when the index has one already, the engine is not [unique] any more. *)
Lemma solid_getDecree i create : solid (getDecree i create).
Proof.
  intros e. unfold getDecree. apply solid_at_bind; [apply solid_get|]. intros e' e1 [= <- <-].
  destruct (e_decrees e !! i) as [o|] eqn:Hi; [apply solid_ret|]. destruct create; [|apply solid_fail].
  apply solid_at_bind; [apply solid_lift|]. intros d e1 Hd. unfold lift in Hd.
  destruct (NewDecree (e_validator e) i (e_nodeID e) (e_quorum e) (e_quorumHash e)) as [d0| | |] eqn:Hn; try done. injection Hd as <- <-.
  assert (d_index d0 = i ∧ d_nodeID d0 = e_nodeID e ∧ d_quorum d0 = e_quorum e ∧ own d0) as (Hi0 & Hid & Hq & Hown).
  { unfold NewDecree in Hn. repeat case_decide; simplify_eq/=. split_and!; [done..|by constructor|done|done]. }
  split.
  { split; [done|]. intros o d Ho. exists d. split; [|done]. simpl. by apply lookup_app_l_Some. }
  intros v Hu [[S1 S2 S3 S4 S5] [Hp Hnone]]. simpl in Hu.
  assert ((e_objects e ++ [d0]) !! length (e_objects e) = Some d0) as Hnew by by apply list_lookup_middle.
  assert (d_index d0 = idx → v = None) as Hfresh.
  { intros Hx. apply Hnone. intros o d Ho Hdx. pose proof (lookup_lt_Some _ _ _ Ho).
    assert (o = length (e_objects e)); [|lia]. apply (Hu o (length (e_objects e)) d d0); try done. simpl. by apply lookup_app_l_Some. }
  assert (d_index d0 = idx → pledged honest claims v d0) as Hpl.
  { intros Hx. rewrite (Hfresh Hx). by eapply new_pledged. }
  assert (∀ o d, (e_objects e ++ [d0]) !! o = Some d → e_objects e !! o = Some d ∨ d = d0) as Hobj.
  { intros o d [Ho|[_ Ho]]%lookup_app_Some; [by left|right]. by apply list_lookup_singleton_Some in Ho as [_ <-]. }
  apply result_stands. split; [split; simpl; [done| | |done|]|split].
  - intros o d [Ho| ->]%Hobj; [by apply (S2 o)|]. split; [|by intros Hx; apply pl_spoken, Hpl].
    split_and!; [done|congruence|done|]. exists (e_validator e), d0. rewrite Hi0. split; [rewrite <- S1; exact Hn|reflexivity].
  - intros o m Hm. destruct (S3 o m Hm) as (d & Ho & ?). exists d. split; [by apply lookup_app_l_Some|done].
  - intros j o [[<- <-]|[_ Hj]]%lookup_insert_Some; [by exists d0|].
    destruct (S5 j o Hj) as (d & Ho & ?). exists d. split; [by apply lookup_app_l_Some|done].
  - intros o d [Ho| ->]%Hobj Hx; [by eapply Hp|by apply Hpl].
  - intros Hall. apply Hnone. intros o d Ho. apply (Hall o d). simpl. by apply lookup_app_l_Some.
Qed.

(** A call on a decree. *)
Definition anything (x y : Validator D) : Prop := True.
#[local] Instance anything_preorder : PreOrder anything.
Proof. by split. Qed.

Lemma decree_speaks v v' o d d' e :
  speaks v e → e_objects e !! o = Some d → (∀ u, v = Some u → v' = Some u) →
  moves anything (set_env (e_validator e) d) d' → progress (set_env (e_validator e) d) d' →
  (∀ o1 d1, <[o := d']> (e_objects e) !! o1 = Some d1 → d_index d1 = idx → spoken honest claims v' d1) →
  speaks v' (run_decree o d d' e).
Proof.
  intros [S1 S2 S3 S4 S5] Ho Hv (_ & Hid & Hown & [ls Hls] & _) Hpr Hsp.
  assert (<[o := d']> (e_objects e) !! o = Some d') as Ho'. { apply list_lookup_insert_eq. by eapply lookup_lt_Some. }
  assert (d_index d' = d_index d ∧ d_nodeID d' = d_nodeID d ∧ d_quorum d' = d_quorum d) as (Hi & Hn & Hq)
    by (unfold ident in Hid; simpl in Hid; split_and!; congruence).
  destruct (S2 o d Ho) as [(Hd1 & Hd2 & Hd3 & env & d0 & Hnew & Hp) _].
  assert (∀ o1 d1, e_objects e !! o1 = Some d1 → ∃ d2, <[o := d']> (e_objects e) !! o1 = Some d2 ∧ d_index d2 = d_index d1 ∧
    ∀ m, m ∈ d_statementChan d1 → m ∈ d_statementChan d2) as Hstay.
  { intros o1 d1 H1. destruct (decide (o1 = o)) as [->|Hne]; [|exists d1; by rewrite list_lookup_insert_ne].
    exists d'. simplify_eq. split_and!; [done..|]. intros m Hm. rewrite Hls. apply elem_of_app. by left. }
  split; simpl; [done| | |by eauto|].
  - intros o1 d1 H1. split; [|by apply (Hsp o1)]. apply list_lookup_insert_Some in H1 as [(-> & <- & _)|[Hne H1]]; [|by apply (S2 o1)].
    split_and!; [apply Hown; by destruct Hd1 as (?&?&?)|congruence|simpl; congruence|]. exists env, d0. rewrite Hi. split; [done|].
    etrans; [done|]. etrans; [|done]. by apply silent_progress.
  - intros o1 m [Hm|(m' & [= -> ->] & Hm)%list_elem_of_fmap]%elem_of_app.
    + destruct (S3 o1 m Hm) as (d1 & H1 & ?). destruct (Hstay o1 d1 H1) as (d2 & ? & _ & ?). eauto.
    + exists d'. split; [done|]. simpl in Hls. rewrite Hls, drop_app_length in Hm. rewrite Hls. apply elem_of_app. by right.
  - intros i o1 H1. destruct (S5 i o1 H1) as (d1 & Hd & <-). destruct (Hstay o1 d1 Hd) as (d2 & ? & ? & _). eauto.
Qed.

Lemma solid_decree_at {A} o (m : M (Decree (Validator D)) A) e :
  preserves (moves anything) m → preserves progress m →
  (∀ v d, stands v e → e_objects e !! o = Some d → d_index d = idx → after honest claims v d (m (set_env (e_validator e) d))) →
  solid_at (on_decree o m) e.
Proof.
  intros Hm Hp Hk. unfold solid_at, on_decree. destruct (e_objects e !! o) as [d|] eqn:Ho.
  2:{ split; [reflexivity|]. intros v _ Hs. by apply result_stands. }
  specialize (Hm (set_env (e_validator e) d)). specialize (Hp (set_env (e_validator e) d)). specialize (λ v, Hk v d).
  destruct (m (set_env (e_validator e) d)) as [d' r]. simpl in *. pose proof Hm as (_ & Hid & _).
  assert (d_index d' = d_index d) as Hi by (unfold ident in Hid; simpl in Hid; congruence).
  assert (∀ o1 d1, <[o := d']> (e_objects e) !! o1 = Some d1 → (o1 = o ∧ d1 = d') ∨ (o1 ≠ o ∧ e_objects e !! o1 = Some d1)) as Hobj.
  { intros o1 d1 [(-> & <- & _)|[Hne H1]]%list_lookup_insert_Some; [by left|by right]. }
  assert (<[o := d']> (e_objects e) !! o = Some d') as Ho'. { apply list_lookup_insert_eq. by eapply lookup_lt_Some. }
  split.
  { split; [done|]. intros o1 d1 H1. simpl. destruct (decide (o1 = o)) as [->|Hne]; [exists d'|exists d1; by rewrite list_lookup_insert_ne].
    by simplify_eq. }
  intros v Hu Hs. pose proof Hs as (Hsp & Hpl & Hnone). destruct (decide (d_index d = idx)) as [Hx|Hx].
  - destruct (Hk v Hs eq_refl Hx) as (v' & (Hv & _) & Hh). simpl in Hh.
    assert (∀ o1 d1, <[o := d']> (e_objects e) !! o1 = Some d1 → d_index d1 = idx → d1 = d') as Honly.
    { intros o1 d1 H1 Hx1. assert (o1 = o) as -> by (apply (Hu o1 o d1 d'); [done..|congruence]). congruence. }
    assert (speaks v' (run_decree o d d' e)) as Hsp'.
    { apply (decree_speaks v); try done. intros o1 d1 H1 Hx1. rewrite (Honly o1 d1 H1 Hx1). destruct r; simpl in Hh; try done; apply Hh. }
    exists v'. split; [done|]. split; [done|]. intros Hr. split; [done|split].
    + intros o1 d1 H1 Hx1. rewrite (Honly o1 d1 H1 Hx1). by destruct r.
    + intros Hall. exfalso. apply (Hall o d'); [done|congruence].
  - apply result_stands. split; [|split].
    + apply (decree_speaks v); try done. intros o1 d1 [[-> ->]|[_ H1]]%Hobj Hx1; [congruence|by eapply (sp_objects _ _ Hsp)].
    + intros o1 d1 [[-> ->]|[_ H1]]%Hobj Hx1; [congruence|by eapply Hpl].
    + intros Hall. apply Hnone. intros o1 d1 H1. destruct (decide (o1 = o)) as [->|Hne]; [congruence|].
      apply (Hall o1). simpl. by rewrite list_lookup_insert_ne.
Qed.

Lemma after_env {A} v d x (r : Decree (Validator D) * res A) :
  pledged honest claims v d → (pledged honest claims v (set_env x d) → after honest claims v (set_env x d) r) → after honest claims v d r.
Proof. intros Hp Hr. destruct (pledged_same honest claims v d (set_env x d) eq_refl Hp) as [Hp' Hl]. eapply after_leads; [exact Hl|by apply Hr]. Qed.
Lemma solid_keeps {A} o (m : M (Decree (Validator D)) A) :
  preserves (moves anything) m → preserves progress m → keeps honest claims m → solid (on_decree o m).
Proof.
  intros Hm Hp Hk e. apply solid_decree_at; [done..|]. intros v d (_ & Hpl & _) Ho Hi.
  apply (after_env v d (e_validator e)); [by eapply Hpl|]. apply Hk.
Qed.
Lemma anything_RecvTxSet h t : GetTxSetKey t = Ok h → preserves anything (env_RecvTxSet (E:=Validator D) h t).
Proof. done. Qed.
Lemma solid_Nominate n o x y r : solid (on_decree o (Nominate_ n x y r)).
Proof. apply solid_keeps; [apply (moves_Nominate anything anything_RecvTxSet)|apply progress_Nominate|apply Nominate_keeps]. Qed.
Lemma solid_renominate n o i x y : solid (on_decree o (do! modify (take_timer i) in Nominate_ n x y true)).
Proof.
  apply solid_keeps.
  - apply (preserves_bind (moves anything)); [intros d; by apply (moves_same anything)|].
    intros _. apply (moves_Nominate anything anything_RecvTxSet).
  - apply (preserves_bind progress); [by apply progress_modify|]. intros _. apply progress_Nominate.
  - apply keeps_bind; [by apply steady_keeps, steady_modify|]. intros _. apply Nominate_keeps.
Qed.
Lemma solid_StopNomination o : solid (on_decree o StopNomination).
Proof. apply solid_keeps; [apply (moves_StopNomination anything)|apply progress_StopNomination|apply StopNomination_keeps]. Qed.

(** A statement that the validator holds: it is not the node's own, and repeats the pledge of its sender. *)
Definition honest_word (s : Statement) : Prop :=
  s_NodeID s ≠ me ∧ (s_Index s = idx → s_NodeID s ∈ honest → ∀ u, commit_value s = Some u → claims (s_NodeID s) u).
Lemma solid_Recv_at n o s e : honest_word s → e_decrees e !! s_Index s = Some o → solid_at (on_decree o (Recv n (Some s))) e.
Proof.
  intros [Hme Hs] Hi. apply solid_decree_at; [apply (moves_Recv anything anything_RecvTxSet)|apply progress_Recv|].
  intros v d ([S1 S2 S3 S4 S5] & Hpl & _) Ho Hx. destruct (S5 _ _ Hi) as (d' & Ho' & Hd'). assert (d' = d) as -> by congruence.
  apply (after_env v d (e_validator e)); [by eapply Hpl|]. intros Hp. apply Recv_keeps; [done|]. intros Hin u Hu.
  destruct (S2 o d Ho) as [(_ & Hn & _) _]. unfold said. simpl. rewrite decide_False by congruence. apply Hs; [congruence|done..].
Qed.

(** ** Broadcasts *)

Lemma sayings_own d s : own d → s ∈ sayings d → s_Index s = d_index d.
Proof.
  intros Hown. unfold sayings. rewrite elem_of_app. intros [Hs|(m & -> & Hm)%list_elem_of_fmap]; [by apply (own_latest d)|].
  destruct Hown as [Hc _]. rewrite Forall_forall in Hc. destruct (Hc m Hm) as [_ Hi]. unfold resolve. by destruct (ms_refs m) as [[[??]?]|].
Qed.

Lemma broadcasts_stand v e l : stands v e →
  (∀ b, b ∈ l → ∃ s o d, Encode s = Some (nr_Data b.2) ∧ e_objects e !! o = Some d ∧ s ∈ sayings d) →
  stands v (set_broadcasts (e_broadcasts e ++ l) e).
Proof.
  intros [[S1 S2 S3 S4 S5] H] Hl. split; [|exact H]. split; simpl; try done.
  intros b s u [Hb|Hb]%elem_of_app Hs Hi Hu; [by eapply S4|]. destruct (Hl b Hb) as (s' & o & d & He & Ho & Hsay).
  rewrite (Decode_Encode _ _ He) in Hs. injection Hs as <-. destruct (S2 o d Ho) as [(Hown & Hn & _) Hsp].
  apply (sayings_pledge honest claims v d s' u); [|congruence|done|done]. apply Hsp. by rewrite <-(sayings_own d s').
Qed.
Lemma notices_say e s b : b ∈ notices e s → Encode s = Some (nr_Data b.2).
Proof.
  unfold notices, encode_res, BroadcastStatement, notify_request. intros Hb.
  destruct (GetLiveClients (e_pm e)); [by apply not_elem_of_nil in Hb|].
  destruct (Encode s) as [p|]; simpl in Hb; [|by apply not_elem_of_nil in Hb].
  destruct (Sign (e_seed e) p); simpl in Hb; try (by apply not_elem_of_nil in Hb).
  destruct (check_request _ _ _); simpl in Hb; try (by apply not_elem_of_nil in Hb). by apply list_elem_of_singleton in Hb as ->.
Qed.
Lemma solid_say_all stmts e : (∀ s, s ∈ stmts → ∃ o d, e_objects e !! o = Some d ∧ s ∈ sayings d) →
  solid_at (mfor stmts (λ stmt, do! try (broadcastStatement (Some stmt)) in ret tt)) e.
Proof.
  intros Hs. unfold solid_at. rewrite say_all_run. split; [by split; [|eauto]|]. intros v _ Hst. apply result_stands, broadcasts_stand; [done|].
  intros b (s & Hb & Hin)%list_elem_of_bind. destruct (Hs s Hin) as (o & d & ? & ?). exists s, o, d. split_and!; [by eapply notices_say|done..].
Qed.

Lemma solid_send : solid send_statement.
Proof.
  intros e. unfold send_statement. apply solid_at_bind; [apply solid_get|]. intros e' e1 [= <- <-].
  destruct (e_statementChan e) as [|[o m] rest] eqn:Hch; [apply solid_ret|].
  split.
  { unfold bind, modify, lift. simpl. destruct (e_objects e !! o) as [d|]; simpl; [|by split; [|eauto]].
    change (grows e ((do! try (broadcastStatement (Some (resolve (d_heap d) m))) in ret tt) (set_chans rest (e_externalizeChan e) e)).1).
    rewrite say_run. split; [done|eauto]. }
  intros v _ Hst. pose proof Hst as ([_ _ S3 _ _] & _). destruct (S3 o m) as (d & Ho & Hm); [rewrite Hch; by left|].
  assert (stands v (set_chans rest (e_externalizeChan e) e)) as Hst1.
  { eapply framed_stands; [|done]. split_and!; try done. rewrite Hch. set_solver. }
  rewrite (bind_eq_Ok _ _ _ (set_chans rest (e_externalizeChan e) e) tt) by done.
  rewrite (bind_eq_Ok _ _ _ (set_chans rest (e_externalizeChan e) e) d) by (unfold lift; by rewrite Ho).
  rewrite say_run. apply result_stands, broadcasts_stand; [done|]. intros b Hb. exists (resolve (d_heap d) m), o, d.
  split_and!; [by eapply notices_say|done|]. unfold sayings. apply elem_of_app. right. apply list_elem_of_fmap. eauto.
Qed.
Lemma solid_rebroadcast_loop n : ∀ seq lower, solid (rebroadcast_loop n seq lower).
Proof.
  induction n as [|n IH]; intros seq lower e; simpl; [apply (solid_lift NoFuel)|]. case_decide; [apply solid_ret|].
  apply solid_at_bind; [apply solid_get|]. intros e' e1 [= <- <-].
  destruct (e_decrees e !! seq ≫= λ o, e_objects e !! o) as [d|] eqn:Hd; [|apply solid_ret]. apply bind_Some in Hd as (o & _ & Ho).
  destruct (GetLatestStatements d) as [|s l] eqn:Hl; [apply solid_ret|]. apply solid_at_bind; [|intros; apply IH].
  apply (solid_say_all (s :: l)). intros s' Hs'. exists o, d. split; [done|]. unfold sayings. apply elem_of_app. left. by rewrite Hl.
Qed.

(** ** Events *)

Ltac sol := repeat first
  [ progress intros
  | solve [eauto 2 using solid_validator, solid_ledger, solid_getDecree, solid_Nominate, solid_renominate, solid_StopNomination]
  | apply solid_ret | apply solid_fail | apply solid_lift | apply solid_get
  | apply solid_bind | apply solid_wrap | apply solid_try
  | match goal with
    | |- solid (match ?x with _ => _ end) => destruct x
    | |- solid (modify _) => apply solid_modify; intros ?; split_and!; reflexivity
    end ].

Lemma solid_Propose n now unix : solid (Propose n now unix).
Proof. unfold Propose, nominate. sol. Qed.
Lemma solid_Externalize now i x : solid (Externalize (T:=T) baseReserve now i x).
Proof.
  unfold Externalize. sol. apply solid_modify. intros e. unfold remove_decrees. case_decide; [|by split_and!].
  split_and!; try done. apply map_filter_subseteq.
Qed.
Lemma solid_ready_at n e : wired honest_word (e_validator e) → solid_at (recv_ready n) e.
Proof.
  intros [Hh _]. unfold recv_ready. apply solid_at_bind; [apply solid_get|]. intros e' e1 [= <- <-].
  destruct (v_readyChan (e_validator e)) as [|s rest] eqn:Hr; [apply solid_ret|].
  assert (honest_word s) as Hs by (apply Hh; right; right; left; rewrite Hr; by left).
  apply solid_at_bind; [apply solid_validator|]. intros [] e1 _. case_decide; [apply solid_ret|].
  apply solid_at_bind; [apply solid_getDecree|]. intros o e2 Ho.
  apply solid_at_bind; [|intros; apply solid_ret]. apply solid_at_try, solid_Recv_at; [done|].
  unfold getDecree, bind, get in Ho. destruct (e_decrees e1 !! s_Index s) eqn:Hi; [by injection Ho as <- <-|].
  unfold lift, put, ret in Ho. simpl in Ho. destruct (NewDecree _ _ _ _ _); try done. injection Ho as <- <-. apply lookup_insert_eq.
Qed.

Lemma solid_download_txset call indices : solid (download_txset call indices).
Proof. unfold download_txset. sol. Qed.
Lemma solid_download_quorum call indices : solid (download_quorum call indices).
Proof. unfold download_quorum. sol. Qed.
Lemma solid_fire_timer n i now unix : solid (fire_timer n i now unix).
Proof. unfold fire_timer. sol. Qed.
Lemma solid_fire_renomination n o i : solid (fire_renomination n o i).
Proof. unfold fire_renomination. sol. Qed.
Lemma solid_RecvStatement x : solid (RecvStatement x).
Proof. unfold RecvStatement. sol. Qed.
Lemma solid_ext n now now' unix : solid (recv_externalized (T:=T) baseReserve n now now' unix).
Proof.
  intros e. unfold recv_externalized. apply solid_at_bind; [apply solid_get|]. intros e' e1 [= <- <-].
  destruct (e_externalizeChan e) as [|[i x] rest]; [apply solid_ret|].
  apply solid_at_bind; [by apply solid_at_framed|]. intros [] e1 _.
  apply solid_at_bind; [apply solid_try, solid_Externalize|]. intros [?|[]] e2 _; [apply solid_ret|]. revert e2. apply solid_bind; [apply solid_get|].
  intros e2. case_decide; sol.
Qed.

Lemma solid_event n ev e : wired honest_word (e_validator e) → solid_at (run_event (T:=T) baseReserve n ev) e.
Proof.
  intros Hw. destruct ev; simpl; try (apply solid_validator || apply solid_ledger).
  - apply solid_send.
  - apply solid_download_txset.
  - apply solid_download_quorum.
  - by apply solid_ready_at.
  - apply solid_ext.
  - unfold rebroadcast. apply solid_at_bind; [apply solid_get|]. intros e' e1 [= <- <-]. apply solid_rebroadcast_loop.
  - apply solid_fire_timer.
  - apply solid_fire_renomination.
  - apply solid_Propose.
  - apply solid_RecvStatement.
  - refine ((_ : solid _) e). unfold Engine_GetQuorum. sol.
  - refine ((_ : solid _) e). unfold Engine_GetTxSet. sol.
  - refine ((_ : solid _) e). sol.
  - refine ((_ : solid _) e). sol.
  - refine ((_ : solid _) e). sol.
  - refine ((_ : solid _) e). sol.
  - by apply solid_at_framed.
Qed.

(** ** Objects stay *)

Lemma grows_same e e' : fixed e' = fixed e → e_objects e' = e_objects e → grows e e'.
Proof. intros Hf Ho. split; [done|]. rewrite Ho. eauto. Qed.
Lemma grows_modify f : (∀ e, fixed (f e) = fixed e ∧ e_objects (f e) = e_objects e) → preserves grows (modify f).
Proof. intros Hf e. by apply grows_same; apply Hf. Qed.
Lemma grows_validator {A} (m : M (Validator D) A) : preserves grows (on_validator m).
Proof. intros e. unfold on_validator. destruct (m (e_validator e)). by apply grows_same. Qed.
Lemma grows_ledger {A} (m : M (LedgerManager D) A) : preserves grows (on_ledger m).
Proof. apply grows_validator. Qed.
Lemma grows_decree {A} o (m : M (Decree (Validator D)) A) : preserves (moves anything) m → preserves grows (on_decree o m).
Proof.
  intros Hm e. unfold on_decree. destruct (e_objects e !! o) as [d|] eqn:Ho; [|done]. specialize (Hm (set_env (e_validator e) d)).
  destruct (m (set_env (e_validator e) d)) as [d' r]. destruct Hm as (_ & Hid & _). split; [done|]. intros o1 d1 H1. simpl.
  destruct (decide (o1 = o)) as [->|Hne]; [|exists d1; by rewrite list_lookup_insert_ne].
  exists d'. rewrite list_lookup_insert_eq by by eapply lookup_lt_Some. split; [done|]. unfold ident in Hid. simpl in Hid. congruence.
Qed.
Lemma grows_getDecree i create : preserves grows (getDecree i create).
Proof. intros e. apply solid_getDecree. Qed.
Lemma grows_say s : preserves grows (do! try (broadcastStatement (Some s)) in ret tt).
Proof. intros e. rewrite say_run. by apply grows_same. Qed.
#[local] Hint Resolve grows_validator grows_ledger grows_getDecree grows_say : go_preserves.
#[local] Hint Extern 1 (preserves grows (modify _)) => apply grows_modify; intros ?; split; reflexivity : go_preserves.
Lemma grows_Recv n o s : preserves grows (on_decree o (Recv n s)).
Proof. apply grows_decree, (moves_Recv anything anything_RecvTxSet). Qed.
Lemma grows_ready n : preserves grows (recv_ready n).
Proof. unfold recv_ready. pres grows. apply grows_Recv. Qed.

Lemma event_grows n ev : preserves grows (run_event (T:=T) baseReserve n ev).
Proof.
  destruct ev; simpl; try (apply grows_validator || apply grows_ledger); try (by apply grows_ready);
    try (intros e; first [apply solid_send|apply solid_download_txset|apply solid_download_quorum|apply solid_ext|apply solid_fire_timer|
      apply solid_fire_renomination|apply solid_Propose|apply solid_RecvStatement]); [..|by apply grows_modify].
  - unfold rebroadcast. apply preserves_bind_get. intros e. apply solid_rebroadcast_loop.
  - unfold Engine_GetQuorum. pres grows.
  - unfold Engine_GetTxSet. pres grows.
  - pres grows.
  - pres grows.
  - pres grows.
  - pres grows.
Qed.
End engine.

(** * The network *)

Section network.
Context {D T C : Type} {StoreD : Store D} {StoreT : Store T} {TxDb : TxDatabase D T}.
Context {Pbc : PbCodec} {GoRt : GoRuntime} {Crypto : CryptoLib} {Ed : Ed25519}.
Context {QuorumCodec : Codec Quorum} {StatementCodec : Codec Statement}.
Context (baseReserve : Z).

(** The engine of each honest node, and whether its process still runs. *)
Notation World := (gmap string (Engine D C * bool)).
Implicit Types W : gmap string (Engine D C * bool).

(** A statement in the name of a node of the network is one that the node has broadcast. *)
Definition overheard W (s : Statement) : Prop :=
  ∃ e alive b, W !! s_NodeID s = Some (e, alive) ∧ b ∈ e_broadcasts e ∧ Decode (nr_Data b.2) = Some s.
Definition genuine W (ev : engine_event C) : Prop :=
  match ev with ev_RecvStatement s => s_NodeID s ∈ dom W → overheard W s | _ => True end.

(** Some engine takes an event; it dies of a panic. *)
Inductive world_step : World → World → Prop :=
| world_event W x e n ev : W !! x = Some (e, true) → genuine W ev →
    world_step W (<[x := ((run_event (T:=T) baseReserve n ev e).1, survives (run_event (T:=T) baseReserve n ev e).2)]> W).

Definition new_engines W : Prop :=
  ∀ x p, W !! x = Some p → p.2 = true ∧ ∃ now ctx, ec_NodeID ctx = x ∧ NewEngine now (Some ctx) = Ok p.1.
(** Any two slices of honest nodes share an honest node. *)
Definition crossing W : Prop := ∀ x y p q (S S' : gset string), W !! x = Some p → W !! y = Some q →
  isQuorumSlice (e_quorum p.1) S = true → isQuorumSlice (e_quorum q.1) S' = true → ∃ z, z ∈ S ∧ z ∈ S' ∧ z ∈ dom W.
(** No engine has made a second decree for the index. *)
Definition single idx W : Prop := ∀ x p, W !! x = Some p → unique idx p.1.

(** ** More claims *)

Section claims.
Context (idx : Z) (me : string) (honest : gset string) (claims claims' : string → string → Prop).
Hypothesis more : ∀ x u, claims x u → claims' x u.

Lemma speaks_claims v (e : Engine D C) : speaks idx me honest claims v e → speaks idx me honest claims' v e.
Proof.
  intros [S1 S2 S3 S4 S5]. split; try done. intros o d Ho. destruct (S2 o d Ho) as [Hf Hs]. split; [done|]. intros Hx.
  by apply (spoken_claims honest claims), Hs.
Qed.
Lemma stands_claims v (e : Engine D C) : stands idx me honest claims v e → stands idx me honest claims' v e.
Proof.
  intros (H1 & H2 & H3). split; [by apply speaks_claims|]. split; [|done]. intros o d Ho Hx. by eapply (pledged_claims honest claims), H2.
Qed.
Lemma wired_claims (v : Validator D) : wired (honest_word idx me honest claims) v → wired (honest_word idx me honest claims') v.
Proof.
  assert (∀ s, honest_word idx me honest claims s → honest_word idx me honest claims' s) as Hw.
  { intros s [Hn Hs]. split; [done|]. intros Hx Hin u Hu. by apply more, Hs. }
  intros [H1 H2]. split; [by intros s Hs; apply Hw, H1|]. destruct H2 as [?|(s & ? & ?)]; [by left|right; eauto].
Qed.
End claims.

(** ** The invariant *)

Definition engine_fine idx (start : World) (g : string → option string) (x : string) (p : Engine D C * bool) : Prop :=
  (∃ p0, start !! x = Some p0 ∧ e_quorum p.1 = e_quorum p0.1) ∧
  speaks idx x (dom start) (claimed g) (g x) p.1 ∧
  (p.2 = true → stands idx x (dom start) (claimed g) (g x) p.1 ∧
    wired (honest_word idx x (dom start) (claimed g)) (e_validator p.1)).
Definition world_fine idx (start W : World) : Prop :=
  dom W = dom start ∧ ∃ g, map_Forall (engine_fine idx start g) W.

(** One engine has run, and may have pledged its node. *)
Lemma engine_runs idx start g x v p W :
  map_Forall (engine_fine idx start g) W → (∀ u, g x = Some u → v = Some u) →
  (∃ p0, start !! x = Some p0 ∧ e_quorum p.1 = e_quorum p0.1) → speaks idx x (dom start) (claimed g) v p.1 →
  (p.2 = true → stands idx x (dom start) (claimed g) v p.1 ∧ wired (honest_word idx x (dom start) (claimed g)) (e_validator p.1)) →
  ∃ g', map_Forall (engine_fine idx start g') (<[x := p]> W).
Proof.
  intros Hall Hv H0 Hs Hp. set (g' := λ y, if decide (y = x) then v else g y). exists g'.
  assert (∀ y u, claimed g y u → claimed g' y u) as Hg.
  { intros y u Hy. unfold claimed, g' in *. case_decide as He; [|done]. apply Hv. by rewrite <-He. }
  apply map_Forall_lookup. intros y q [[<- <-]|[Hne Hy]]%lookup_insert_Some.
  - assert (g' x = v) as Hx by (unfold g'; by rewrite decide_True). unfold engine_fine. rewrite Hx.
    split; [done|]. split; [by eapply speaks_claims|]. intros Ha. destruct (Hp Ha). split; [by eapply stands_claims|by eapply wired_claims].
  - assert (g' y = g y) as Hx by (unfold g'; by rewrite decide_False). unfold engine_fine. rewrite Hx.
    destruct (map_Forall_lookup_1 _ _ _ _ Hall Hy) as (H1 & H2 & H3). split; [done|]. split; [by eapply speaks_claims|].
    intros Ha. destruct (H3 Ha). split; [by eapply stands_claims|by eapply wired_claims].
Qed.

(** What arrives is honest. *)
Lemma genuine_says idx start g W x s : dom W = dom start → map_Forall (engine_fine idx start g) W → genuine W (ev_RecvStatement s) →
  s_NodeID s ≠ x → says (honest_word idx x (dom start) (claimed g)) (ev_RecvStatement (C:=C) s).
Proof.
  intros Hdom Hall Hg Hne. split; [done|]. intros Hi Hin u Hu. rewrite <-Hdom in Hin. destruct (Hg Hin) as (e' & alive & b & Hw & Hb & Hd).
  destruct (map_Forall_lookup_1 _ _ _ _ Hall Hw) as (_ & [_ _ _ S4 _] & _). by eapply S4.
Qed.

Lemma step_wired idx start g W x e n ev : dom W = dom start → map_Forall (engine_fine idx start g) W → genuine W ev → e_nodeID e = x →
  wired (honest_word idx x (dom start) (claimed g)) (e_validator e) →
  wired (honest_word idx x (dom start) (claimed g)) (e_validator (run_event (T:=T) baseReserve n ev e).1).
Proof.
  intros Hdom Hall Hg Hx Hw.
  assert (says (honest_word idx x (dom start) (claimed g)) ev ∨ ∃ s, ev = ev_RecvStatement s ∧ s_NodeID s = x) as [Hev|(s & -> & Hs)].
  { destruct ev as [| | | | | | | | |s| | | | | | | | | | | | | |]; try (by left).
    destruct (decide (s_NodeID s = x)); [right; eauto|left; by apply (genuine_says _ _ _ W)]. }
  - by apply (keepswe_event (T:=T) baseReserve).
  - simpl. unfold RecvStatement, bind, get. by rewrite decide_True by congruence.
Qed.

Lemma step_fine idx start W W' : world_fine idx start W → world_step W W' → single idx W' → world_fine idx start W'.
Proof.
  intros Hf Hs. revert Hf. destruct Hs as [W1 x e n ev Hx Hg]. intros [Hdom [g Hall]] Hu. destruct (map_Forall_lookup_1 _ _ _ _ Hall Hx) as ((p0 & Hp0 & Hq) & Hsp & Hlive).
  destruct (Hlive eq_refl) as [Hst Hw]. assert (x ∈ dom start) as Hin by by eapply elem_of_dom_2.
  pose proof (solid_event (T:=T) baseReserve idx x (dom start) (claimed g) Hin n ev e Hw) as [[Hfix _] Hres].
  destruct (Hres (g x)) as (v & Hv & Hsp' & Hst'); [|done|].
  { exact (Hu x _ (lookup_insert_eq W1 x _)). }
  split; [rewrite <-Hdom; apply dom_insert_lookup_L; eauto|].
  apply (engine_runs idx start g x v); try done; simpl.
  - exists p0. split; [done|]. unfold fixed in Hfix. simpl in Hq. congruence.
  - intros Ha. split; [by apply Hst'|]. apply (step_wired idx start g W1 x e n ev); try done. apply Hsp.
Qed.

Lemma step_single idx W W' : world_step W W' → single idx W' → single idx W.
Proof.
  intros [W1 x e n ev Hx Hg] Hu y p Hy. destruct (decide (y = x)) as [->|Hne].
  - simplify_eq. simpl. assert (x ∈ dom W1) as Hin by by eapply elem_of_dom_2.
    eapply unique_grows; [apply (event_grows (T:=T) baseReserve idx x (dom W1) (λ _ _, True) Hin n ev e)|].
    exact (Hu x _ (lookup_insert_eq W1 x _)).
  - apply (Hu y p). by rewrite lookup_insert_ne.
Qed.
Lemma steps_single idx W W' : rtc world_step W W' → single idx W' → single idx W.
Proof. induction 1 as [|W1 W2 W3 Hs _ IH]; [done|]. intros Hu. by eapply step_single, IH. Qed.
Lemma steps_fine idx start W W' : rtc world_step W W' → single idx W' → world_fine idx start W → world_fine idx start W'.
Proof.
  intros Hr Hu. induction Hr as [|W1 W2 W3 Hs Hr IH]; intros Hf; [done|]. apply (IH Hu).
  eapply step_fine; [done|done|]. by eapply steps_single.
Qed.

Lemma new_engines_fine idx start : new_engines start → world_fine idx start start.
Proof.
  intros Hnew. split; [done|]. exists (λ _, None). apply map_Forall_lookup. intros x [e alive] Hx.
  destruct (Hnew x _ Hx) as (Ha & now & ctx & Hid & He). destruct (NewEngine_empty now ctx e He) as (Hn & Ho & Hd & Hs & Hb & lm & Hv).
  assert (speaks idx x (dom start) (claimed (λ _, None)) None e) as Hsp.
  { split; rewrite ?Ho, ?Hd, ?Hs, ?Hb; try done; [congruence|by intros ? ? ?%not_elem_of_nil|by intros ? ? ? ?%not_elem_of_nil]. }
  split; [by exists (e, alive)|]. split; [done|]. intros _. split; [|simpl; rewrite Hv; apply new_wired].
  split; [done|]. split; [|done]. simpl. by rewrite Ho.
Qed.

(** ** Agreement *)

(** Two announcements, each backed by a slice. *)
Lemma announcements_agree idx start g x y p q d d' i j u w :
  crossing start → engine_fine idx start g x p → engine_fine idx start g y q →
  d ∈ e_objects p.1 → d' ∈ e_objects q.1 → d_index d = idx → d_index d' = idx →
  (i, u) ∈ d_externalizeChan d → (j, w) ∈ d_externalizeChan d' → u = w.
Proof.
  intros Hc ((p0 & Hp0 & Hqp) & [_ Sx _ _ _] & _) ((q0 & Hq0 & Hqq) & [_ Sy _ _ _] & _) [o Ho]%list_elem_of_lookup [o' Ho']%list_elem_of_lookup
    Hd Hd' Hu Hw.
  destruct (Sx o d Ho) as [(_ & Hnx & Hqx & _) Hsx], (Sy o' d' Ho') as [(_ & Hny & Hqy & _) Hsy].
  destruct (Hsx Hd) as (_ & _ & Hbx), (Hsy Hd') as (_ & _ & Hby).
  destruct (Hbx i u Hu) as (S & HS & HSall), (Hby j w Hw) as (S' & HS' & HSall').
  rewrite Hqx, Hqp in HS. rewrite Hqy, Hqq in HS'. destruct (Hc x y p0 q0 S S' Hp0 Hq0 HS HS') as (z & Hz & Hz' & Hin).
  specialize (HSall z Hz Hin). specialize (HSall' z Hz' Hin). unfold said, claimed in *. rewrite Hnx in HSall. rewrite Hny in HSall'.
  repeat case_decide; congruence.
Qed.

(** A decree has announced nothing, or one value for its index. *)
Lemma announced_single idx start g x p d : engine_fine idx start g x p → d ∈ e_objects p.1 →
  d_externalizeChan d = [] ∨ ∃ u, d_externalizeChan d = [(d_index d, u)].
Proof.
  intros (_ & [_ Sx _ _ _] & _) [o Ho]%list_elem_of_lookup. destruct (Sx o d Ho) as [(_ & _ & _ & env & d0 & Hn & (_ & _ & _ & Hp)) _].
  unfold NewDecree in Hn. repeat case_decide; simplify_eq/=. unfold announced in Hp. simpl in Hp.
  destruct (d_currentPhase d); naive_solver.
Qed.

Lemma world_agrees idx start W : crossing start → world_fine idx start W →
  ∃ u, ∀ x p d, W !! x = Some p → d ∈ e_objects p.1 → d_index d = idx → d_externalizeChan d = [] ∨ d_externalizeChan d = [(idx, u)].
Proof.
  intros Hc [_ [g Hall]].
  destruct (decide (map_Forall (λ _ p, Forall (λ d, d_index d = idx → d_externalizeChan d = []) (e_objects p.1)) W)) as [Hno|Hsome].
  - exists "". intros x p d Hx Hd Hi. left. pose proof (map_Forall_lookup_1 _ _ _ _ Hno Hx) as Hf. rewrite Forall_forall in Hf. by apply Hf.
  - apply map_not_Forall in Hsome as (x & p & Hx & Hne); [|apply _]. apply not_Forall_Exists in Hne; [|apply _].
    apply Exists_exists in Hne as (d & Hd & Hnot). assert (d_index d = idx) as Hi by (apply dec_stable; naive_solver).
    pose proof (map_Forall_lookup_1 _ _ _ _ Hall Hx) as Hfx.
    destruct (announced_single idx start g x p d Hfx Hd) as [?|[u Hu]]; [naive_solver|]. exists u. intros y q d' Hy Hd' Hi'.
    pose proof (map_Forall_lookup_1 _ _ _ _ Hall Hy) as Hfy.
    destruct (announced_single idx start g y q d' Hfy Hd') as [?|[w Hw]]; [by left|right]. rewrite Hw, Hi'. do 2 f_equal.
    eapply (announcements_agree idx start g y x q p d' d); try done; [rewrite Hw|rewrite Hu]; by apply list_elem_of_singleton.
Qed.

(** ** Schedules *)

Definition genuineb W (ev : engine_event C) : bool :=
  match ev with
  | ev_RecvStatement s =>
      match W !! s_NodeID s with
      | None => true
      | Some p => existsb (λ b, bool_decide (Decode (nr_Data b.2) = Some s)) (e_broadcasts p.1)
      end
  | _ => true
  end.
Lemma genuineb_genuine W ev : genuineb W ev = true → genuine W ev.
Proof.
  unfold genuineb, genuine. destruct ev as [| | | | | | | | |s| | | | | | | | | | | | | |]; try done. intros H Hin.
  apply elem_of_dom in Hin as [[e alive] He]. rewrite He in H. simpl in H. apply existsb_exists in H as (b & Hb & Hd).
  apply bool_decide_eq_true in Hd. exists e, alive, b. split_and!; [done|by apply list_elem_of_In|done].
Qed.

Fixpoint world_run (n : nat) (acts : list (string * engine_event C)) W : option World :=
  match acts with
  | [] => Some W
  | (x, ev) :: acts =>
      match W !! x with
      | Some (e, true) =>
          if genuineb W ev then
            let er := run_event (T:=T) baseReserve n ev e in world_run n acts (<[x := (er.1, survives er.2)]> W)
          else None
      | _ => None
      end
  end.
Lemma world_run_steps n acts W W' : world_run n acts W = Some W' → rtc world_step W W'.
Proof.
  revert W. induction acts as [|[x ev] acts IH]; intros W H; simpl in H; [by injection H as ->|].
  destruct (W !! x) as [[e []]|] eqn:Hx; try done. destruct (genuineb W ev) eqn:Hg; [|done].
  eapply rtc_l; [by apply (world_event W x e n ev), genuineb_genuine|]. by apply IH.
Qed.
End network.

(** * Properties *)

(** C2: engines agree.  Let honest nodes start new engines, over any ledgers and with any peers, with quorums such that any slice
    of one and any slice of another share an honest node.  Let the engines take their events in any order, with any
    statements from other nodes, and with the statements of honest nodes as they were broadcast, late, repeated or never; let
    any process die.  If no engine has made a second decree for an index, there is one value such that every decree of an honest node
    for that index has announced nothing, or that value, once. *)
Theorem engines_agree {D T C : Type} {StoreD : Store D} {StoreT : Store T} {TxDb : TxDatabase D T}
    {Pbc : PbCodec} {GoRt : GoRuntime} {Crypto : CryptoLib} {Ed : Ed25519} {QuorumCodec : Codec Quorum} {StatementCodec : Codec Statement}
    (baseReserve idx : Z) (start W : gmap string (Engine D C * bool)) :
  new_engines start → crossing start → rtc (world_step (T:=T) baseReserve) start W → single idx W →
  ∃ u, ∀ x e alive d, W !! x = Some (e, alive) → d ∈ e_objects e → d_index d = idx →
    d_externalizeChan d = [] ∨ d_externalizeChan d = [(idx, u)].
Proof.
  intros Hnew Hc Hr Hu. destruct (world_agrees idx start W Hc) as [u Hall]; [by eapply steps_fine, new_engines_fine|].
  exists u. intros x e alive d Hx. apply (Hall x _ d Hx).
Qed.

(** * Two engines

    A codec of statements, and two nodes that need each other.  A statement is written as the bits of its code, after 32 bits of a
    checksum, so that the prefix by which a key is shortened tells two statements apart. *)

Module two_engines.
Import Decree.states.

#[local] Instance Ballot_countable : Countable Ballot :=
  inj_countable' (λ b, (b_Counter b, b_Value b)) (λ '(c, v), mkBallot c v) (λ '(mkBallot _ _), eq_refl).
Definition body_tree (b : StmtBody) :=
  match b with
  | Stmt_Nominate n => inl (inl (nom_VoteList n, nom_AcceptList n, nom_QuorumHash n))
  | Stmt_Prepare p => inl (inr (prep_B p, prep_Q p, prep_P p, (prep_HC p, prep_LC p, prep_QuorumHash p)))
  | Stmt_Confirm c => inr (inl (conf_B c, conf_PC c, conf_LC c, conf_HC c, conf_QuorumHash c))
  | Stmt_Externalize e => inr (inr (ext_B e, ext_HC e, ext_QuorumHash e))
  end.
#[local] Instance StmtBody_countable : Countable StmtBody.
Proof.
  refine (inj_countable' body_tree (λ t, match t with
  | inl (inl (v, a, h)) => Stmt_Nominate (mkNominate v a h)
  | inl (inr (b, q, p, (hc, lc, h))) => Stmt_Prepare (mkPrepare b q p hc lc h)
  | inr (inl (b, pc, lc, hc, h)) => Stmt_Confirm (mkConfirm b pc lc hc h)
  | inr (inr (b, hc, h)) => Stmt_Externalize (mkExternalize b hc h)
  end) _). by intros [[]|[]|[]|[]].
Defined.
#[local] Instance StatementType_countable : Countable StatementType.
Proof.
  refine (inj_countable' (λ t, match t with StatementType_other n => inr n | _ => inl (stmt_type_num t) end)
    (λ t, match t with
          | inl 0 => StatementType_NOMINATE | inl 1 => StatementType_PREPARE | inl 2 => StatementType_CONFIRM
          | inl _ => StatementType_EXTERNALIZE | inr n => StatementType_other n end) _). by intros [].
Defined.
#[local] Instance Statement_countable : Countable Statement :=
  inj_countable' (λ s, (s_Type s, s_NodeID s, s_Index s, s_Stmt s)) (λ '(t, n, i, b), mkStatement t n i b) (λ '(mkStatement _ _ _ _), eq_refl).

Fixpoint bits (p : positive) : string :=
  match p with xH => "" | xO p => String "0" (bits p) | xI p => String "1" (bits p) end.
Fixpoint unbits (s : string) : positive :=
  match s with EmptyString => xH | String "0" s => xO (unbits s) | String _ s => xI (unbits s) end.
Definition tag (p : positive) : string := bits (Z.to_pos (4294967296 + Z.pos p mod 4294967291)).
Definition write (s : Statement) : string := let p := encode s in tag p +:+ bits p.
Definition read (b : string) : option Statement := decode (unbits (String.substring 32 (String.length b - 32) b)).
#[local] Program Instance statement_codec : Codec Statement := {|
  Encode s := if decide (read (write s) = Some s) then Some (write s) else None; Decode := read |}.
Next Obligation. intros s b. simpl. case_decide; [|done]. by intros [= <-]. Qed.

#[local] Existing Instance ref_ed25519.
Definition pair : Quorum := mkQuorum f64_one ["a"; "b"] [].
Definition pair_name (q : Quorum) : option string :=
  match q with mkQuorum t [x; y] [] => if decide (t = f64_one ∧ x = "a" ∧ y = "b") then Some "pair" else None | _ => None end.
Lemma pair_name_inv q b : pair_name q = Some b → Some pair = Some q.
Proof. destruct q as [t [|x [|y [|? ?]]] [|? ?]]; simpl; try done. case_decide as H; [|done]. by destruct H as (-> & -> & ->). Qed.
#[local] Instance pair_codec : Codec Quorum := {| Encode := pair_name; Decode b := Some pair; Decode_Encode := pair_name_inv |}.
Definition ctx (x : string) : EngineContext boltdb string :=
  mkEngineContext boltdb string "net" Engine.solo.seed x "validator" 20 (Some Engine.solo.peers) (Some tt) (Some Engine.solo.ledger) (Some tt) (Some pair) 5.
Definition engine (x : string) : Engine boltdb string := match NewEngine 0 (Some (ctx x)) with Ok e => e | _ => Engine.solo.e0 end.
Definition start : gmap string (Engine boltdb string * bool) := {[ "a" := (engine "a", true); "b" := (engine "b", true) ]}.

(** Every engine sends what it has to say, and the others receive it. *)
Definition words (e : Engine boltdb string) : list Statement := omap (λ b, Decode (nr_Data b.2)) (e_broadcasts e).
Definition sends (W : gmap string (Engine boltdb string * bool)) : list (string * engine_event string) :=
  '(x, (e, _)) ← map_to_list W; replicate (length (e_statementChan e)) (x, ev_send).
Definition hears (W : gmap string (Engine boltdb string * bool)) : list (string * engine_event string) :=
  '(x, (e, _)) ← map_to_list W; '(y, _) ← filter (λ p, p.1 ≠ x) (map_to_list W); s ← words e; [(y, ev_RecvStatement s); (y, ev_dispatch); (y, ev_ready)].
Definition opening : list (string * engine_event string) := [("a", ev_Propose 1 7); ("b", ev_Propose 1 7)].
Definition play (acts : list (string * engine_event string)) (W : gmap string (Engine boltdb string * bool)) :=
  world_run (T:=boltdb) GenesisBaseReserve 40 acts W.
Fixpoint rounds (n : nat) : option (gmap string (Engine boltdb string * bool)) :=
  match n with
  | O => play opening start
  | S n => W ← rounds n; W1 ← play (sends W) W; play (hears W1) W1
  end.
Definition finish : list (string * engine_event string) := [("a", ev_ext 20 30 9); ("b", ev_ext 20 30 9)].
Definition closed : option (gmap string (Engine boltdb string * bool)) := W ← rounds 6; play finish W.

(** The decrees of an engine with what they have announced, and its head. *)
Definition report (p : string * (Engine boltdb string * bool)) :=
  let '(x, (e, alive)) := p in
  (x, alive, (λ d, (d_index d, d_currentPhase d, d_externalizeChan d)) <$> e_objects e,
   NextLedgerHeaderSeq (e_lm e), lh_ConsensusValue <$> lm_currLedgerHeader (e_lm e)).
Definition outcome (W : gmap string (Engine boltdb string * bool)) := report <$> map_to_list W.

Definition the_end :=
  (λ x, (x, true, [(2, BallotPhaseExternalize, [(2, Engine.solo.value)])], 3, Some Engine.solo.value)) <$> ["a"; "b"].

(** Two engines close a ledger together.  Each proposes, sends what its decree says to the other and receives what the other says; after six rounds
    both decrees have announced the same value, once, and both ledger managers have closed ledger 2 with it. *)
Lemma two_engines_end : outcome <$> closed = Some the_end.
Proof. vm_compute. reflexivity. Qed.
(** ** Witnesses *)

Lemma engine_new x : x ∈ ["a"; "b"] → NewEngine 0 (Some (ctx x)) = Ok (engine x) ∧ e_quorum (engine x) = pair.
Proof.
  intros Hx. assert (ValidateEngineContext (Some (ctx x)) = Ok tt) as Hv.
  { repeat (apply elem_of_cons in Hx as [->|Hx]; [vm_compute; reflexivity|]). by apply not_elem_of_nil in Hx. }
  assert (∃ h, quorum_hash pair = Ok h) as [h Hq] by (eexists; vm_compute; reflexivity).
  unfold engine, NewEngine. rewrite Hv. cbn [deref res_bind ctx ec_PM ec_LM ec_Quorum]. by rewrite Hq.
Qed.
Lemma pair_cases x p : start !! x = Some p → x ∈ ["a"; "b"] ∧ p = (engine x, true).
Proof.
  unfold start. intros [[<- <-]|[_ H]]%lookup_insert_Some; [split; [set_solver|done]|].
  apply lookup_singleton_Some in H as [<- <-]. split; [set_solver|done].
Qed.
Lemma pair_new : new_engines start.
Proof. intros x p [Hx ->]%pair_cases. split; [done|]. exists 0, (ctx x). split; [done|]. by apply engine_new. Qed.
Lemma pair_crossing : crossing start.
Proof.
  intros x y p q S S' [Hx ->]%pair_cases [Hy ->]%pair_cases. cbn [fst].
  rewrite (proj2 (engine_new x Hx)), (proj2 (engine_new y Hy)). intros HS HS'.
  destruct (slices_intersect f64_one ["a"; "b"] {["a"; "b"]} S S') as (z & _ & Hz & ? & ?); [vm_compute; reflexivity|done..|].
  exists z. split_and!; [done..|]. unfold start. rewrite dom_insert, dom_singleton. set_solver.
Qed.

Lemma sessions_steps n W : rounds n = Some W → rtc (world_step (T:=boltdb) GenesisBaseReserve) start W.
Proof.
  revert W. induction n as [|n IH]; intros W H; cbn [rounds] in H; [by eapply world_run_steps|].
  apply bind_Some in H as (W1 & H1 & (W2 & H2 & H3)%bind_Some).
  etrans; [by apply IH|]. etrans; by eapply world_run_steps.
Qed.
Lemma closed_steps W : closed = Some W → rtc (world_step (T:=boltdb) GenesisBaseReserve) start W.
Proof. intros (W1 & H1 & H2)%bind_Some. etrans; [by eapply sessions_steps|by eapply world_run_steps]. Qed.
Lemma closed_single W : outcome W = the_end → single 2 W.
Proof.
  intros Ho x [e alive] Hx. apply elem_of_map_to_list in Hx.
  assert (length (e_objects e) = 1%nat) as Hlen.
  { apply (list_elem_of_fmap_2 report) in Hx. change (report <$> map_to_list W) with (outcome W) in Hx. rewrite Ho in Hx.
    apply list_elem_of_fmap in Hx as (y & He & _). cbn [report] in He. injection He as _ _ Hl _ _.
    by apply (f_equal length) in Hl; rewrite length_fmap in Hl. }
  intros o o' d d' H1%lookup_lt_Some H2%lookup_lt_Some _ _. cbn [fst] in *. lia.
Qed.

Lemma engines_agree_witness :
  ∃ W, outcome W = the_end ∧ ∃ u, ∀ x e alive d, W !! x = Some (e, alive) → d ∈ e_objects e → d_index d = 2 →
    d_externalizeChan d = [] ∨ d_externalizeChan d = [(2, u)].
Proof.
  pose proof two_engines_end as Hw. apply fmap_Some in Hw as (W & HW & Ho). exists W. split; [done|].
  exact (engines_agree GenesisBaseReserve 2 start W pair_new pair_crossing (closed_steps W HW) (closed_single W (eq_sym Ho))).
Defined.
End two_engines.
