(* ===== verification/EngineSafety.v ===== *)
(** The invariant of the consensus engine.

    Whatever peers send and answer, and however the goroutines of the engine, the validator, the decrees and the
    ledger manager interleave: the database is content-addressed (what is stored as the transaction set or the
    quorum of a hash has that hash), the ledger is a chain, the statements on their way are complete, and the
    decrees are those of the protocol.  The chapters: the state that the engine shares with the validator
    ([good]), the decrees ([decrees_ok]), and the steps. *)

From stdpp Require Import relations.
From S2P Require Import Prelude Lru Pb Db Crypto Keypair Account TxManager Ledger Frame Checkpoint Quorum Ballot Rpc Peer Federated Decree Nomination Outgoing Validator Engine.

(** * The shared state *)

Section shared.
Context {D T C : Type} {StoreD : Store D} {LawsD : StoreLaws D} {StoreT : Store T} {LawsT : StoreLaws T}.
Context {TxDb : TxDatabase D T} {TxLaws : TxDatabaseLaws D T}.
Context {Pbc : PbCodec} {GoRt : GoRuntime} {Crypto : CryptoLib} {Ed : Ed25519}.
Context {QuorumCodec : Codec Quorum} {StatementCodec : Codec Statement}.
Variables (baseReserve : Z) (fuel : nat).
Implicit Types v : Validator D.

(** What is stored under a hash has that hash. *)
Definition addressed v : Prop :=
  (∀ k t, txset_at v k = Some t → GetTxSetKey t = Ok k) ∧ (∀ k q, quorum_at v k = Some q → quorum_hash q = Ok k).

Definition good v : Prop :=
  vinv v ∧ live (v_lm v) ∧ kept (vdb v) ∧ addressed v.
Definition keepsg v v' : Prop := good v → good v'.
#[global] Instance keepsg_preorder : PreOrder keepsg.
Proof. split; [by intros v H|]. intros a b c H1 H2 H. by apply H2, H1. Qed.

(** ** The steps of the validator leave the database and the chain alone *)

Definition vchain v v' : Prop := same_chain (v_lm v) (v_lm v').
#[global] Instance vchain_preorder : PreOrder vchain.
Proof. split; [by intros v|]. intros a b c. unfold vchain. apply same_chain_preorder. Qed.
Lemma vchain_on_lm {A} (m : M (LedgerManager D) A) : preserves same_chain m → preserves vchain (on_lm m).
Proof. intros Hm v. specialize (Hm (v_lm v)). unfold on_lm, vchain. by destruct (m (v_lm v)). Qed.
Lemma vchain_modify (f : Validator D → Validator D) : (∀ v, v_lm (f v) = v_lm v) → preserves vchain (modify f).
Proof. intros Hf v. unfold vchain, modify. simpl. by rewrite Hf. Qed.
#[local] Hint Extern 1 (preserves _ (modify _)) => apply vchain_modify; reflexivity : go_preserves.
#[local] Hint Resolve vchain_on_lm same_ledger_db same_GetTxSet : go_preserves.

Lemma vchain_GetQuorum h : preserves vchain (GetQuorum h).
Proof.
  unfold GetQuorum. apply preserves_bind_get. intros v. destruct (lru_Get h (v_quorumCache v)) as [c o].
  apply (bind_at vchain); [by intros|]. intros _ v1 _. at_all vchain. pres vchain.
Qed.
#[local] Hint Resolve vchain_GetQuorum : go_preserves.
Lemma vchain_GetTxSet h : preserves vchain (Validator_GetTxSet h).
Proof. unfold Validator_GetTxSet. pres vchain. Qed.
Lemma vchain_have_txsets hs : preserves vchain (have_txsets hs).
Proof. induction hs; simpl; pres vchain. Qed.
#[local] Hint Resolve vchain_GetTxSet vchain_have_txsets : go_preserves.
Lemma vchain_validate s : preserves vchain (validate s).
Proof. unfold validate. pres vchain. Qed.
#[local] Hint Resolve vchain_validate : go_preserves.
Lemma vchain_Recv s : preserves vchain (Validator_Recv s).
Proof. unfold Validator_Recv. pres vchain. Qed.
Lemma vchain_monitor : preserves vchain monitor_tick.
Proof. unfold monitor_tick. pres vchain. apply (preserves_mfor vchain). intros [h s]. pres vchain. Qed.
Lemma vchain_dispatch_stmt : preserves vchain dispatch_stmt.
Proof. unfold dispatch_stmt. pres vchain. Qed.
Lemma vchain_dispatch_tick n : preserves vchain (dispatch_tick n).
Proof.
  unfold dispatch_tick. pres vchain. apply preserves_release_from; [apply _|]. intros i. apply vchain_modify. intros v.
  by destruct (v_decreeStmts v !! i) as [[]|].
Qed.
Lemma vchain_download : preserves vchain download_stmt.
Proof. unfold download_stmt. pres vchain. apply (preserves_mfor vchain). intros h. pres vchain. Qed.
Lemma vchain_RecvQuorum h q : preserves vchain (RecvQuorum h q).
Proof. unfold RecvQuorum. pres vchain. Qed.
Lemma vchain_RecvTxSet h t : preserves vchain (RecvTxSet h t).
Proof. apply vchain_on_lm. unfold AddTxSet. pres (@same_chain D). Qed.

(** The steps that keep the database. *)
Definition stays v v' : Prop := vok v → vok v' ∧ vdb v' = vdb v.
#[global] Instance stays_preorder : PreOrder stays.
Proof. split; [by intros v H|]. intros a b c H1 H2 H. destruct (H1 H) as [H' ?]. destruct (H2 H'). split; congruence. Qed.

Lemma stays_reads {A} (m : M (Validator D) A) : preserves reads m → preserves stays m.
Proof. intros Hm v Hv. destruct (Hm v Hv) as (?&?&_). done. Qed.
Lemma stays_modify (f : Validator D → Validator D) :
  (∀ v, v_lm (f v) = v_lm v ∧ v_quorumCache (f v) = v_quorumCache v) → preserves stays (modify f).
Proof.
  intros Hf v (H1 & H2 & H3 & H4 & H5). destruct (Hf v) as [Hl Hq]. unfold vok, quorum_at, txset_at, vdb, modify in *.
  simpl. by rewrite Hl, Hq.
Qed.

Lemma keepsg_stays {A} (m : M (Validator D) A) :
  preserves keepsv m → preserves vchain m → preserves stays m → preserves keepsg m.
Proof.
  intros Hk Hc Hs v (Hv & Hl & Hb & Ht & Hq). destruct (Hs v (proj1 Hv)) as [_ Hdb].
  split; [by apply Hk|]. split; [by apply (same_chain_keeps _ _ (Hc v))|].
  unfold addressed, txset_at, quorum_at. by rewrite Hdb.
Qed.

#[local] Hint Extern 2 (preserves stays (modify _)) => apply stays_modify; intros ?; split; reflexivity : go_preserves.
#[local] Hint Resolve reads_GetQuorum reads_GetTxSet reads_validate stays_reads : go_preserves.
Lemma stays_read_txset h : preserves stays (on_lm (GetTxSet h)).
Proof. apply stays_reads, (reads_GetTxSet h). Qed.
#[local] Hint Resolve stays_read_txset : go_preserves.
Lemma stays_Recv s : preserves stays (Validator_Recv s).
Proof. unfold Validator_Recv. pres stays. Qed.
Lemma stays_monitor : preserves stays monitor_tick.
Proof. unfold monitor_tick. pres stays. apply (preserves_mfor stays). intros [h s]. pres stays. Qed.
Lemma stays_dispatch_stmt : preserves stays dispatch_stmt.
Proof. unfold dispatch_stmt. pres stays. Qed.
Lemma stays_dispatch_tick n : preserves stays (dispatch_tick n).
Proof.
  unfold dispatch_tick. pres stays. apply preserves_release_from; [apply _|]. intros i. apply stays_modify. intros v.
  by destruct (v_decreeStmts v !! i) as [[]|].
Qed.
Lemma stays_download : preserves stays download_stmt.
Proof. unfold download_stmt. pres stays. apply (preserves_mfor stays). intros h. pres stays. Qed.

Lemma keepsg_GetQuorum h : preserves keepsg (GetQuorum h).
Proof. apply keepsg_stays; [apply preserves_reads|apply vchain_GetQuorum|apply stays_reads]; apply reads_GetQuorum. Qed.
Lemma keepsg_GetTxSet h : preserves keepsg (Validator_GetTxSet h).
Proof. apply keepsg_stays; [apply preserves_reads|apply vchain_GetTxSet|apply stays_reads]; apply reads_GetTxSet. Qed.
Lemma keepsg_Recv s : preserves keepsg (Validator_Recv s).
Proof. apply keepsg_stays; [apply keepsv_Recv|apply vchain_Recv|apply stays_Recv]. Qed.
Lemma keepsg_monitor : preserves keepsg monitor_tick.
Proof. apply keepsg_stays; [apply keepsv_monitor|apply vchain_monitor|apply stays_monitor]. Qed.
Lemma keepsg_dispatch_stmt : preserves keepsg dispatch_stmt.
Proof. apply keepsg_stays; [apply keepsv_dispatch_stmt|apply vchain_dispatch_stmt|apply stays_dispatch_stmt]. Qed.
Lemma keepsg_dispatch_tick n : preserves keepsg (dispatch_tick n).
Proof. apply keepsg_stays; [apply keepsv_dispatch_tick|apply vchain_dispatch_tick|apply stays_dispatch_tick]. Qed.
Lemma keepsg_download : preserves keepsg download_stmt.
Proof. apply keepsg_stays; [apply keepsv_download|apply vchain_download|apply stays_download]. Qed.
Lemma keepsg_requests f g : preserves keepsg (modify (λ v : Validator D, set_requests (f v) (g v) v)).
Proof. apply keepsg_stays; [apply preserves_reads|by apply vchain_modify|apply stays_reads]; apply reads_requests. Qed.

(** A validator that is made over a ledger in order. *)
Lemma new_validator_good (lm : LedgerManager D) n :
  books lm → db_bucket (ledger_data lm) validator_bucket → db_bucket (ledger_data lm) txset_bucket → lm_txsetCache lm = [] →
  addressed (NewValidator lm n) → good (NewValidator lm n).
Proof.
  intros [Hl Hk] Hv Ht Hc Ha. split; [split|by split_and!].
  - split_and!; [apply Hk|done..|]. intros k t. simpl. by rewrite Hc.
  - intros s [Hs|[Hs|(i & l & Hs & _)]]; [by apply not_elem_of_nil in Hs..|]. simpl in Hs. by rewrite lookup_empty in Hs.
Qed.

(** ** What is stored has its hash *)

Lemma addressed_write v v' b k x r :
  good v → db_Put b k x (vdb v) = (vdb v', r) → db_bucket (vdb v) b → b ≠ ledger_bucket →
  (b = txset_bucket → ∀ t, Decode x = Some t → GetTxSetKey t = Ok k) →
  (b = validator_bucket → ∀ q, Decode x = Some q → quorum_hash q = Ok k) →
  kept (vdb v') ∧ addressed v'.
Proof.
  intros ([(Hdb & Hbv & Hbt & _) _] & _ & Hb & Ht & Hq) Hp Hbb Hne H1 H2.
  split; [apply (kept_put _ _ _ _ _ _ Hb Hbb) in Hp; [done|congruence]|].
  destruct (Put_spec _ _ _ _ _ _ Hdb Hbb Hp) as [(_ & _ & Hb' & Hview)|(e & _ & Heq)].
  - split; intros k' y; unfold txset_at, quorum_at; rewrite Hview by done;
      unfold view_put; case_decide as Hd; [destruct Hd as [<- ->]; by apply H1|apply Ht|destruct Hd as [<- ->]; by apply H2|apply Hq].
  - unfold addressed, txset_at, quorum_at. by rewrite Heq.
Qed.

Lemma keepsg_RecvTxSet h t : GetTxSetKey t = Ok h → preserves keepsg (RecvTxSet h t).
Proof.
  intros Hh v Hg. pose proof Hg as (Hv & Hl & Hb & Ha).
  split; [by apply keepsv_RecvTxSet|]. split; [by apply (same_chain_keeps _ _ (vchain_RecvTxSet h t v))|].
  unfold RecvTxSet, on_lm, AddTxSet, bind, wrap, lift.
  destruct (encode_res t) as [tb|?|?|] eqn:He; simpl; try (split; [exact Hb|exact Ha]).
  apply encode_res_Ok in He. unfold ledger_db, on_tm, on_db. change (tm_database (lm_tm (v_lm v))) with (vdb v).
  destruct (db_Put txset_bucket h tb (vdb v)) as [d' r] eqn:Hp.
  apply (addressed_write v _ txset_bucket h tb r); [done|destruct r; exact Hp|apply Hv|done| |done].
  intros _ t'. rewrite (Decode_Encode _ _ He). by intros [= <-].
Qed.

Lemma keepsg_RecvQuorum h q : quorum_hash q = Ok h → preserves keepsg (RecvQuorum h (Some q)).
Proof.
  intros Hh v Hg. pose proof Hg as (Hv & Hl & Hb & Ha).
  split; [by apply keepsv_RecvQuorum|]. split; [by apply (same_chain_keeps _ _ (vchain_RecvQuorum h (Some q) v))|].
  unfold RecvQuorum, on_lm, bind, wrap, lift. simpl.
  destruct (ValidateQuorum false 0 q); simpl; try (split; [exact Hb|exact Ha]).
  destruct (encode_res q) as [qb|?|?|] eqn:He; simpl; try (split; [exact Hb|exact Ha]).
  apply encode_res_Ok in He. unfold ledger_db, on_tm, on_db. change (tm_database (lm_tm (v_lm v))) with (vdb v).
  destruct (db_Put validator_bucket h qb (vdb v)) as [d' r] eqn:Hp.
  apply (addressed_write v _ validator_bucket h qb r); [done|destruct r; exact Hp|apply Hv|done|done|].
  intros _ q'. rewrite (Decode_Encode _ _ He). by intros [= <-].
Qed.

(** ** The ledger manager *)

Lemma outside : txset_bucket ∉ ledger_buckets ∧ validator_bucket ∉ ledger_buckets.
Proof. by split; apply (bool_decide_unpack _). Qed.

(** Closing ledgers and executing transactions keep what the consensus knows. *)
Lemma keepsg_ledger {A} (m : M (LedgerManager D) A) :
  preserves lm_frame m → preserves keepsb m → preserves keepsg (on_lm m).
Proof.
  intros Hf Hk v ([(Hdb & Hbv & Hbt & Hqc & Htc) Hfl] & Hl & Hb & Ht & Hq).
  specialize (Hf (v_lm v)). specialize (Hk (v_lm v) (conj Hl Hb)). unfold on_lm. destruct (m (v_lm v)) as [lm r]. simpl in *.
  destruct Hf as [Hf Hc]. destruct (Hf Hdb (proj1 (proj2 Hb))) as (Hdb' & Hb' & Hview). destruct Hk as [Hl' Hkept]. destruct outside as [Ho1 Ho2].
  assert (∀ k, txset_at (set_v_lm lm v) k = txset_at v k) as Ht'.
  { intros k. unfold txset_at, vdb. simpl. by rewrite Hview. }
  assert (∀ k, quorum_at (set_v_lm lm v) k = quorum_at v k) as Hq'.
  { intros k. unfold quorum_at, vdb. simpl. by rewrite Hview. }
  split; [|split; [done|split; [done|]]].
  - apply (vinv_known v); [by split|..|by intros k; rewrite Hq'|by intros k; rewrite Ht']; [|done].
    split_and!; [done|by apply Hb'..| |]; intros k x; [rewrite Hq'; apply Hqc|rewrite Ht'; simpl; rewrite Hc; apply Htc].
  - split; intros k x; [rewrite Ht'; apply Ht|rewrite Hq'; apply Hq].
Qed.

Lemma keepsg_tm {A} (m : M (TxManager.Manager D) A) : preserves (tm_frame tx_buckets) m → preserves keepsg (on_lm (on_tm m)).
Proof.
  intros Hm. apply keepsg_ledger; [|by apply keepsb_tm]. apply frame_on_tm. intros tm.
  apply (frame_weaken tx_buckets); [apply tx_in_ledger|apply Hm].
Qed.

Lemma on_lm_bind {A B} (m : M (LedgerManager D) A) (k : A → M (LedgerManager D) B) v :
  on_lm (bind m k) v = bind (on_lm m) (λ a, on_lm (k a)) v.
Proof.
  unfold on_lm, bind. destruct (m (v_lm v)) as [lm [a|?|?|]]; done.
Qed.
Lemma keepsg_lm_bind {A B} (m : M (LedgerManager D) A) (k : A → M (LedgerManager D) B) :
  preserves keepsg (on_lm m) → (∀ a, preserves keepsg (on_lm (k a))) → preserves keepsg (on_lm (bind m k)).
Proof. intros Hm Hk v. rewrite on_lm_bind. by apply (preserves_bind keepsg). Qed.
Lemma keepsg_lm_wrap {A} p (m : M (LedgerManager D) A) : preserves keepsg (on_lm m) → preserves keepsg (on_lm (wrap p m)).
Proof. intros Hm v. specialize (Hm v). unfold on_lm, wrap in *. by destruct (m (v_lm v)). Qed.
Lemma keepsg_lm_ret {A} (r : res A) : preserves keepsg (on_lm (lift (S:=LedgerManager D) r)).
Proof. apply keepsg_ledger; [apply (preserves_lift lm_frame)|apply (preserves_lift keepsb)]. Qed.

Lemma frame_GetLedgerHeader k : preserves lm_frame (GetLedgerHeader (D:=D) k).
Proof.
  unfold GetLedgerHeader. apply preserves_bind_get. intros lm. destruct (lru_Get k (lm_headers lm)) as [c o].
  apply (bind_at lm_frame); [done|]. intros _ lm1 _. at_all (lm_frame (D:=D)). pres (lm_frame (D:=D)).
  apply frame_on_tm, frame_on_db, frame_Get. by left.
Qed.
Lemma keepsg_GetLedger k : preserves keepsg (on_lm (GetLedger k)).
Proof.
  unfold GetLedger. apply keepsg_lm_bind.
  - apply keepsg_lm_wrap, keepsg_ledger; [apply frame_GetLedgerHeader|apply keepsb_GetLedgerHeader].
  - intros [h|]; [|apply (keepsg_lm_ret (Err _))]. apply keepsg_lm_bind; [apply keepsg_lm_wrap, keepsg_GetTxSet|].
    intros t. apply (keepsg_lm_ret (Ok _)).
Qed.

Lemma keepsg_RecvExtVal now i x t : preserves keepsg (on_lm (RecvExtVal (D:=D) (T:=T) baseReserve now i x t)).
Proof. apply keepsg_ledger; [apply frame_RecvExtVal|apply RecvExtVal_books]. Qed.
Lemma keepsg_downloaded now info : preserves keepsg (on_lm (recv_downloaded (D:=D) (T:=T) baseReserve now info)).
Proof. apply keepsg_ledger; [apply frame_recv_downloaded|apply recv_downloaded_books]. Qed.
Lemma keepsg_downloader f : preserves keepsg (on_lm (modify (λ lm : LedgerManager D,
  set_sync (f (lm_downloader lm)) (lm_buffer lm) (lm_ledgerState lm) (lm_largestConsensusIndex lm) lm))).
Proof. apply keepsg_ledger; [by apply frame_same|by apply keepsb_modify]. Qed.
Lemma keepsg_AddTx k tx : preserves keepsg (on_lm (on_tm (AddTx (D:=D) baseReserve k tx))).
Proof. apply keepsg_tm, frame_AddTx; done. Qed.
Lemma keepsg_GetTxStatus k : preserves keepsg (on_lm (on_tm (GetTxStatus (D:=D) k))).
Proof. apply keepsg_tm, frame_GetTxStatus; done. Qed.
Lemma keepsg_GetAccount id : preserves keepsg (on_lm (ledger_db (GetAccount (D:=D) id))).
Proof. apply keepsg_tm, frame_on_db, frame_GetAccount; done. Qed.
Lemma keepsg_GetTxList : preserves keepsg (on_lm (on_tm (GetTxList (D:=D)))).
Proof. apply keepsg_tm, frame_GetTxList. Qed.
Lemma keepsg_DeleteTxList txs : preserves keepsg (on_lm (on_tm (DeleteTxList (D:=D) txs))).
Proof. apply keepsg_tm, frame_DeleteTxList. Qed.

End shared.

(** * The engine *)

Section invariant.
Context {D T C : Type} {StoreD : Store D} {LawsD : StoreLaws D} {StoreT : Store T} {LawsT : StoreLaws T}.
Context {TxDb : TxDatabase D T} {TxLaws : TxDatabaseLaws D T}.
Context {Pbc : PbCodec} {GoRt : GoRuntime} {Crypto : CryptoLib} {Ed : Ed25519}.
Context {QuorumCodec : Codec Quorum} {StatementCodec : Codec Statement}.
Variables (baseReserve : Z) (fuel : nat).
Implicit Types e : Engine D C.
Implicit Types d : Decree (Validator D).

(** A decree of the node that has followed the protocol since it was made, and that spoke for itself. *)
Definition decree_ok e d : Prop :=
  own d ∧ d_nodeID d = e_nodeID e ∧
  ∃ env d0, NewDecree env (d_index d) (e_nodeID e) (e_quorum e) (e_quorumHash e) = Ok d0 ∧ progress d0 d.

(** A broadcast of a statement of the node, with the node's signature. *)
Definition spoken e (b : list C * NotifyRequest) : Prop :=
  ∃ s, Encode s = Some (nr_Data b.2) ∧ s_NodeID s = e_nodeID e ∧
    Sign (e_seed e) (nr_Data b.2) = Ok (nr_Signature b.2) ∧ nr_MsgType b.2 = STATEMENT ∧ nr_NetworkID b.2 = e_networkID e.

(** The references to objects: the map of the decrees, and the messages. *)
Definition refs_ok (objs : list (Decree (Validator D))) (m : gmap Z nat) (ss : list (nat * MStatement)) (xs : list (Z * string)) : Prop :=
  (∀ i o, m !! i = Some o → ∃ d, objs !! o = Some d ∧ d_index d = i) ∧
  (∀ o s, (o, s) ∈ ss → ∃ d, objs !! o = Some d ∧ own_stmt d (ms_val s)) ∧
  (∀ i x, (i, x) ∈ xs → ∃ o d, objs !! o = Some d ∧ (i, x) ∈ d_externalizeChan d).

Definition engine_ok e : Prop :=
  good (e_validator e) ∧ quorum_hash (e_quorum e) = Ok (e_quorumHash e) ∧
  (∀ o d, e_objects e !! o = Some d → decree_ok e d) ∧
  refs_ok (e_objects e) (e_decrees e) (e_statementChan e) (e_externalizeChan e) ∧
  Forall (spoken e) (e_broadcasts e).

Definition config e := (e_networkID e, e_seed e, e_nodeID e, (e_quorum e, e_quorumHash e)).
Definition keepse e e' : Prop := engine_ok e → engine_ok e' ∧ config e' = config e.
#[global] Instance keepse_preorder : PreOrder keepse.
Proof.
  split; [by intros e H|]. intros a b c H1 H2 H. destruct (H1 H) as [H' ?]. destruct (H2 H') as [? ?]. split; congruence.
Qed.

(** ** The parts *)

Lemma decree_ok_config e e' d : config e' = config e → decree_ok e d → decree_ok e' d.
Proof. intros Hc. unfold config in Hc. injection Hc as H1 H2 H3 H4 H5. unfold decree_ok. by rewrite H3, H4, H5. Qed.
Lemma spoken_config e e' b : config e' = config e → spoken e b → spoken e' b.
Proof. intros Hc. unfold config in Hc. injection Hc as H1 H2 H3 H4 H5. unfold spoken. by rewrite H1, H2, H3. Qed.

(** A step on the validator alone. *)
Lemma keepse_validator {A} (m : M (Validator D) A) : preserves keepsg m → preserves keepse (on_validator (C:=C) m).
Proof.
  intros Hm e (Hg & H). specialize (Hm (e_validator e) Hg). unfold on_validator. destruct (m (e_validator e)) as [v r].
  simpl in *. split; [|done]. split; [done|exact H].
Qed.

(** A step on what the invariant does not mention. *)
Lemma keepse_modify (f : Engine D C → Engine D C) :
  (∀ e, config (f e) = config e ∧ e_validator (f e) = e_validator e ∧ e_objects (f e) = e_objects e ∧
        e_decrees (f e) ⊆ e_decrees e ∧ e_statementChan (f e) ⊆ e_statementChan e ∧
        e_externalizeChan (f e) ⊆ e_externalizeChan e ∧ e_broadcasts (f e) = e_broadcasts e) →
  preserves keepse (modify f).
Proof.
  intros Hf e (Hg & Hq & Ho & (Hd & Hs & Hx) & Hb). destruct (Hf e) as (Hc & Hv & Hob & Hde & Hst & Hex & Hbr).
  unfold modify. simpl. split; [|done]. unfold engine_ok, refs_ok. rewrite Hv, Hob, Hbr.
  split_and!; [done|by unfold config in Hc; congruence|..].
  - intros o d ?. eapply decree_ok_config; eauto.
  - intros i o Hi. apply Hd. by eapply lookup_weaken.
  - intros o m ?. by apply Hs, Hst.
  - intros i x ?. by apply Hx, Hex.
  - eapply Forall_impl; [done|]. intros b. by apply spoken_config.
Qed.

(** Objects stay where they are, with their identity and what they have announced. *)
Definition extends (objs objs' : list (Decree (Validator D))) : Prop :=
  ∀ o d, objs !! o = Some d → ∃ d', objs' !! o = Some d' ∧ ident d' = ident d ∧
    d_externalizeChan d `prefix_of` d_externalizeChan d'.

Lemma extends_app objs l : extends objs (objs ++ l).
Proof. intros o d Ho. exists d. by rewrite lookup_app_l by by eapply lookup_lt_Some. Qed.
Lemma extends_insert objs o d d' :
  objs !! o = Some d → ident d' = ident d → d_externalizeChan d `prefix_of` d_externalizeChan d' → extends objs (<[o := d']> objs).
Proof.
  intros Hd Hi Hx o1 d1 H1. destruct (decide (o1 = o)) as [->|Hne].
  - exists d'. rewrite list_lookup_insert_eq by by eapply lookup_lt_Some. rewrite Hd in H1. injection H1 as <-. by split_and!.
  - exists d1. by rewrite list_lookup_insert_ne.
Qed.

Lemma refs_extend objs objs' m ss xs : extends objs objs' → refs_ok objs m ss xs → refs_ok objs' m ss xs.
Proof.
  intros He (H1 & H2 & H3). split_and!.
  - intros i o Hi. destruct (H1 i o Hi) as (d & Hd & <-). destruct (He o d Hd) as (d' & ? & Hid & _).
    exists d'. split; [done|]. unfold ident in Hid. congruence.
  - intros o s Hs. destruct (H2 o s Hs) as (d & Hd & Hos). destruct (He o d Hd) as (d' & ? & Hid & _).
    exists d'. split; [done|]. by apply (own_ident d).
  - intros i x Hx. destruct (H3 i x Hx) as (o & d & Hd & Hix). destruct (He o d Hd) as (d' & ? & _ & [l Hl]).
    exists o, d'. split; [done|]. rewrite Hl. apply elem_of_app. by left.
Qed.

(** A call on a decree. *)
Lemma keepse_decree {A} o (m : M (Decree (Validator D)) A) :
  preserves (moves keepsg) m → preserves progress m → preserves keepse (on_decree (C:=C) o m).
Proof.
  intros Hm Hp e (Hg & Hq & Ho & Hrefs & Hb). unfold on_decree. destruct (e_objects e !! o) as [d|] eqn:Hod; [|done].
  specialize (Hm (set_env (e_validator e) d)). specialize (Hp (set_env (e_validator e) d)).
  destruct (m (set_env (e_validator e) d)) as [d' r]. simpl in *.
  destruct Hm as (Hg' & Hid & Hown & [ls Hls] & [lx Hlx]). destruct (Ho o d Hod) as (Hd1 & Hd2 & env & d0 & Hn & Hpr).
  assert (own d') as Hown' by (apply Hown; by destruct Hd1 as (?&?&?)).
  assert (d_index d' = d_index d ∧ d_nodeID d' = d_nodeID d) as [Hi' Hn'] by (unfold ident in Hid; simpl in Hid; split; congruence).
  assert (<[o := d']> (e_objects e) !! o = Some d') as Hod'.
  { apply list_lookup_insert_eq. by eapply lookup_lt_Some. }
  apply (refs_extend _ (<[o := d']> (e_objects e))) in Hrefs as (H1 & H2 & H3).
  2:{ apply (extends_insert _ _ d); [done|exact Hid|]. rewrite Hlx. apply prefix_app_r. reflexivity. }
  split; [|done]. simpl in Hls, Hlx. unfold engine_ok, refs_ok, run_decree. simpl. rewrite Hls, Hlx, !drop_app_length.
  split_and!; [by apply Hg'|done| |done| | |done].
  - intros o' d1 [(-> & <- & _)|[Hne Hl]]%list_lookup_insert_Some; [|by apply (Ho o')].
    split; [done|]. simpl. split; [congruence|]. exists env, d0. rewrite Hi'. split; [done|]. etrans; [done|].
    etrans; [|apply Hp]. by apply silent_progress.
  - intros o' s. rewrite elem_of_app, list_elem_of_fmap. intros [Hin|(m' & [= -> ->] & Hin)]; [by apply H2|].
    exists d'. split; [done|]. destruct Hown' as (Hf & _). rewrite Hls in Hf.
    apply Forall_app in Hf as [_ Hf]. by eapply Forall_forall in Hf.
  - intros i x [Hin|Hin]%elem_of_app; [by apply H3|]. exists o, d'. split; [done|]. rewrite Hlx. apply elem_of_app. by right.
Qed.

(** A new decree. *)
Lemma keepse_getDecree idx create : preserves keepse (getDecree (C:=C) idx create).
Proof.
  unfold getDecree. apply preserves_bind_get. intros e. destruct (e_decrees e !! idx); [done|]. destruct create; [|done].
  intros (Hg & Hq & Ho & Hrefs & Hb).
  destruct (NewDecree (e_validator e) idx (e_nodeID e) (e_quorum e) (e_quorumHash e)) as [d|?|?|] eqn:Hn; [|done..].
  assert (d_index d = idx ∧ d_nodeID d = e_nodeID e ∧ own d) as (Hi & Hid & Hown).
  { unfold NewDecree in Hn. repeat case_decide; simplify_eq/=. split_and!; [done..|by constructor|done|done]. }
  apply (refs_extend _ _ _ _ _ (extends_app _ [d])) in Hrefs as (H1 & H2 & H3).
  split; [|done]. unfold engine_ok, refs_ok. simpl. split_and!; [done|done| | |done|done|done].
  - intros o d1 [Hl|[_ Hl]]%lookup_app_Some; [by apply (Ho o)|].
    apply list_lookup_singleton_Some in Hl as [_ <-]. split; [done|]. split; [done|]. exists (e_validator e), d. simpl. by rewrite Hi.
  - intros i o [[<- <-]|[_ Hl]]%lookup_insert_Some; [|by apply H1]. exists d. split; [|done]. by rewrite lookup_app_r, Nat.sub_diag by done.
Qed.

(** ** What is broadcast *)

(** As long as the node is called [id]. *)
Definition keepse_as (id : string) e e' : Prop := e_nodeID e = id → keepse e e'.
#[global] Instance keepse_as_preorder id : PreOrder (keepse_as id).
Proof.
  split; [by intros e _|]. intros a b c H1 H2 Hid Ha. destruct (H1 Hid Ha) as [Hb Hc].
  assert (e_nodeID b = id) as Hid' by (unfold config in Hc; congruence).
  destruct (H2 Hid' Hb) as [? ?]. split; [done|congruence].
Qed.

Lemma keepse_broadcast id s : s_NodeID s = id → preserves (keepse_as id) (broadcastStatement (C:=C) (Some s)).
Proof.
  intros Hs e Hid (Hg & Hq & Ho & Hrefs & Hb). unfold broadcastStatement, bind, get, wrap, lift. simpl.
  case_decide; [done|]. destruct (encode_res s) as [p|?|?|] eqn:He; simpl; [|done..].
  apply encode_res_Ok in He. destruct (Sign (e_seed e) p) as [sg|?|?|] eqn:Hsg; simpl; [|done..].
  unfold BroadcastStatement, notify_request. destruct (check_request p sg (e_networkID e)) as [[]|?|?|]; simpl; [|done..].
  split; [|done]. unfold engine_ok. simpl. split_and!; [done..|]. apply Forall_app. split; [done|]. constructor; [|constructor].
  exists s. simpl. split_and!; first [done|congruence].
Qed.

Lemma keepse_say1 id s : s_NodeID s = id →
  preserves (keepse_as id) (do! try (broadcastStatement (C:=C) (Some s)) in ret tt).
Proof.
  intros Hs. apply (preserves_bind (keepse_as id)); [by apply preserves_try, keepse_broadcast|].
  intros ?. apply (preserves_ret (keepse_as id)).
Qed.
Lemma keepse_say id stmts : Forall (λ s, s_NodeID s = id) stmts →
  preserves (keepse_as id) (mfor stmts (λ stmt, do! try (broadcastStatement (C:=C) (Some stmt)) in ret tt)).
Proof.
  induction 1 as [|s stmts Hs _ IH]; simpl; [apply (preserves_ret (keepse_as id))|].
  apply (preserves_bind (keepse_as id)); [|done]. by apply keepse_say1.
Qed.

Lemma keepse_rebroadcast_loop n : ∀ seq lower, preserves keepse (rebroadcast_loop (C:=C) n seq lower).
Proof.
  induction n as [|n IH]; intros seq lower; simpl; [by intros e|]. case_decide; [pres keepse|].
  apply preserves_bind_get. intros e. destruct (e_decrees e !! seq ≫= λ o, e_objects e !! o) as [d|] eqn:Hd; [|done].
  apply bind_Some in Hd as (o & _ & Hd).
  destruct (GetLatestStatements d) as [|s l] eqn:Hl; [done|]. apply (bind_at keepse); [|intros; apply IH].
  intros He. pose proof He as (_ & _ & Ho & _). destruct (Ho o d Hd) as (Hown & Hid & _).
  refine (keepse_say (e_nodeID e) (s :: l) _ e eq_refl He).
  apply Forall_forall. intros s' Hs'. rewrite <- Hl in Hs'. destruct (own_latest d s' Hown Hs') as [-> _]. done.
Qed.
Lemma keepse_rebroadcast : preserves keepse (rebroadcast (C:=C)).
Proof. unfold rebroadcast. apply preserves_bind_get. intros e. apply keepse_rebroadcast_loop. Qed.

Lemma keepse_send : preserves keepse (send_statement (C:=C)).
Proof.
  unfold send_statement. apply preserves_bind_get. intros e. destruct (e_statementChan e) as [|[o m] rest] eqn:Hch; [done|].
  intros He. pose proof He as (_ & _ & Ho & (_ & Hs & _) & _).
  destruct (Hs o m) as (d & Hd & Hown); [rewrite Hch; by left|]. destruct (Ho o d Hd) as (_ & Hid & _).
  assert (engine_ok (set_chans rest (e_externalizeChan e) e)) as He1.
  { destruct He as (Hg & Hq & _ & (H1 & H2 & H3) & Hb). unfold engine_ok, refs_ok. simpl.
    split_and!; try done. intros o' m' ?. apply H2. rewrite Hch. by right. }
  assert (s_NodeID (resolve (d_heap d) m) = e_nodeID e) as Hn.
  { destruct Hown as [Hn _]. rewrite <-Hid, <-Hn. unfold resolve. by destruct (ms_refs m) as [[[??]?]|]. }
  rewrite (bind_eq_Ok _ _ _ (set_chans rest (e_externalizeChan e) e) tt) by done.
  rewrite (bind_eq_Ok _ _ _ (set_chans rest (e_externalizeChan e) e) d) by (unfold lift; by rewrite Hd).
  by apply (keepse_say1 _ _ Hn (set_chans rest (e_externalizeChan e) e)).
Qed.

(** ** The operations *)

Lemma moves_take_timer i : preserves (moves keepsg) (modify (take_timer (E:=Validator D) i)).
Proof. intros d. by apply (moves_same keepsg). Qed.
Lemma progress_take_timer i : preserves progress (modify (take_timer (E:=Validator D) i)).
Proof. by apply progress_modify. Qed.
Lemma env_RecvTxSet_keeps h t : GetTxSetKey t = Ok h → preserves keepsg (env_RecvTxSet (E:=Validator D) h t).
Proof. apply keepsg_RecvTxSet. Qed.

Lemma keepse_Nominate o x y r : preserves keepse (on_decree (C:=C) o (Nominate_ fuel x y r)).
Proof. apply keepse_decree; [apply (moves_Nominate keepsg env_RecvTxSet_keeps)|apply progress_Nominate]. Qed.
Lemma keepse_renominate o i x y : preserves keepse (on_decree (C:=C) o (do! modify (take_timer i) in Nominate_ fuel x y true)).
Proof.
  apply keepse_decree.
  - apply (preserves_bind (moves keepsg)); [apply moves_take_timer|]. intros _. apply (moves_Nominate keepsg env_RecvTxSet_keeps).
  - apply (preserves_bind progress); [apply progress_take_timer|]. intros _. apply progress_Nominate.
Qed.
Lemma keepse_decree_Recv o s : preserves keepse (on_decree (C:=C) o (Recv fuel s)).
Proof. apply keepse_decree; [apply (moves_Recv keepsg env_RecvTxSet_keeps)|apply progress_Recv]. Qed.
Lemma keepse_StopNomination o : preserves keepse (on_decree (C:=C) o StopNomination).
Proof. apply keepse_decree; [apply (moves_StopNomination keepsg)|apply progress_StopNomination]. Qed.
#[local] Hint Resolve keepse_getDecree keepse_Nominate keepse_renominate keepse_decree_Recv keepse_StopNomination : go_preserves.

Lemma keepse_nominate idx x y : preserves keepse (nominate (C:=C) fuel idx x y).
Proof. unfold nominate. pres keepse. Qed.
Lemma keepse_times f g h : preserves keepse (modify (λ e : Engine D C, set_times (f e) (g e) (h e) e)).
Proof. by apply keepse_modify. Qed.
Lemma keepse_lookup_txset h : preserves keepse (on_validator (C:=C) (Validator_GetTxSet h)).
Proof. apply keepse_validator, keepsg_GetTxSet. Qed.
Lemma keepse_RecvExtVal now i x t : preserves keepse (on_ledger (C:=C) (RecvExtVal (D:=D) (T:=T) baseReserve now i x t)).
Proof. apply keepse_validator, keepsg_RecvExtVal. Qed.
Lemma keepse_DeleteTxList txs : preserves keepse (on_ledger (C:=C) (on_tm (DeleteTxList (D:=D) txs))).
Proof. apply keepse_validator, keepsg_DeleteTxList. Qed.
Lemma keepse_GetTxList : preserves keepse (on_ledger (C:=C) (on_tm (GetTxList (D:=D)))).
Proof. apply keepse_validator, keepsg_GetTxList. Qed.
Lemma keepse_remove idx : preserves keepse (modify (remove_decrees (D:=D) (C:=C) idx)).
Proof.
  apply keepse_modify. intros e. unfold remove_decrees. case_decide; [|done].
  split_and!; try done. simpl. apply map_filter_subseteq.
Qed.
#[local] Hint Resolve keepse_nominate keepse_times keepse_lookup_txset keepse_RecvExtVal keepse_DeleteTxList keepse_GetTxList
  keepse_remove : go_preserves.

Lemma keepse_Externalize now idx value : preserves keepse (Externalize (T:=T) (C:=C) baseReserve now idx value).
Proof. unfold Externalize. pres keepse. Qed.

Lemma keepse_Propose now unix : preserves keepse (Propose (C:=C) fuel now unix).
Proof.
  unfold Propose. apply (preserves_bind keepse); [pres keepse|intros _]. apply preserves_bind_get. intros e He.
  pose proof He as (_ & Hq & _). revert He. apply (λ H : preserves keepse _, H e).
  case_decide; [pres keepse|]. destruct (negb (LedgerSynced (e_lm e))); [pres keepse|].
  apply (preserves_bind keepse); [pres keepse|intros prev]. apply (preserves_bind keepse); [pres keepse|intros txs].
  intros e1. apply (bind_at keepse); [done|]. intros h e2 Hh%wrap_Ok. injection Hh as H1 Hh. subst e2. at_all keepse.
  apply (preserves_bind keepse); [by apply preserves_wrap, keepse_validator, keepsg_RecvTxSet|intros _].
  apply (preserves_bind keepse); [by apply preserves_wrap, keepse_validator, keepsg_RecvQuorum|intros _]. pres keepse.
Qed.


#[local] Hint Resolve keepse_Externalize keepse_Propose : go_preserves.
Lemma keepse_RecvStatement s : preserves keepse (RecvStatement (C:=C) s).
Proof. unfold RecvStatement. pres keepse. apply keepse_validator, keepsg_Recv. Qed.

Lemma queryTxSet_hash call indices e h t : queryTxSet call indices e h = Ok t → GetTxSetKey t = Ok h.
Proof.
  unfold queryTxSet. destruct (Sign (e_seed e) h); simpl; try done.
  destruct (QueryTxSet _ _ _ _ _ _) as [t'|?|?|]; simpl; try done. destruct (GetTxSetKey t') eqn:Hk; simpl; try done.
  case_decide; [done|]. intros [= <-]. congruence.
Qed.
Lemma queryQuorum_hash call indices e h q : queryQuorum call indices e h = Ok q → quorum_hash q = Ok h.
Proof.
  unfold queryQuorum. destruct (Sign (e_seed e) h); simpl; try done.
  destruct (QueryQuorum _ _ _ _ _ _) as [q'|?|?|]; simpl; try done. destruct (quorum_hash q') eqn:Hk; simpl; try done.
  case_decide; [done|]. intros [= <-]. congruence.
Qed.

Lemma keepse_download_txset call indices : preserves keepse (download_txset (C:=C) call indices).
Proof.
  unfold download_txset. apply (preserves_bind keepse); [pres keepse|intros e].
  destruct (v_txsetDownloadChan (e_validator e)) as [|h rest]; [pres keepse|].
  apply (preserves_bind keepse); [apply keepse_validator, (keepsg_requests (λ _, _) (λ _, _))|intros _].
  unfold try at 1, lift. destruct (queryTxSet call indices e h) as [t|?|?|] eqn:Hq; try done.
  apply queryTxSet_hash in Hq. unfold bind at 1. pres keepse. by apply keepse_validator, keepsg_RecvTxSet.
Qed.
Lemma keepse_download_quorum call indices : preserves keepse (download_quorum (C:=C) call indices).
Proof.
  unfold download_quorum. apply (preserves_bind keepse); [pres keepse|intros e].
  destruct (v_quorumDownloadChan (e_validator e)) as [|h rest]; [pres keepse|].
  apply (preserves_bind keepse); [apply keepse_validator, (keepsg_requests (λ _, _) (λ _, _))|intros _].
  unfold try at 1, lift. destruct (queryQuorum call indices e h) as [q|?|?|] eqn:Hq; try done.
  apply queryQuorum_hash in Hq. unfold bind at 1. pres keepse. by apply keepse_validator, keepsg_RecvQuorum.
Qed.

(** Taking a statement from the validator. *)
Lemma keepsg_take (v : Validator D) s rest :
  v_readyChan v = s :: rest → keepsg v (set_waiting (v_decreeStmts v) (v_maxSeqNum v) rest v).
Proof.
  intros Hr (Hv & H). split; [|exact H]. exact (validator_step_keeps _ _ (vstep_take _ _ _ Hr) Hv).
Qed.

Lemma keepse_ready : preserves keepse (recv_ready (C:=C) fuel).
Proof.
  unfold recv_ready. apply preserves_bind_get. intros e.
  destruct (v_readyChan (e_validator e)) as [|s rest] eqn:Hr; [done|].
  apply (bind_at keepse); [|intros _ e1 _; at_all keepse; pres keepse].
  intros (Hg & H). split; [|done]. split; [exact (keepsg_take _ _ _ Hr Hg)|exact H].
Qed.

Lemma keepse_ext now now' unix : preserves keepse (recv_externalized (T:=T) (C:=C) baseReserve fuel now now' unix).
Proof.
  unfold recv_externalized. apply preserves_bind_get. intros e.
  destruct (e_externalizeChan e) as [|[idx value] rest] eqn:Hx; [done|].
  apply (bind_at keepse); [|intros _ e1 _; at_all keepse; pres keepse].
  intros (Hg & Hq & Ho & (H1 & H2 & H3) & Hb). split; [|done]. unfold engine_ok, refs_ok. simpl. split_and!; try done.
  intros i x ?. apply H3. rewrite Hx. by right.
Qed.

Lemma keepse_fire_timer i now unix : preserves keepse (fire_timer (C:=C) fuel i now unix).
Proof. unfold fire_timer. pres keepse. Qed.
Lemma keepse_fire_renomination o i : preserves keepse (fire_renomination (C:=C) fuel o i).
Proof. unfold fire_renomination. pres keepse. Qed.

Lemma engine_step_keeps e e' : engine_step (T:=T) baseReserve fuel e e' → keepse e e'.
Proof.
  destruct 1.
  - apply keepse_send.
  - apply keepse_download_txset.
  - apply keepse_download_quorum.
  - apply keepse_ready.
  - apply keepse_ext.
  - apply keepse_rebroadcast.
  - apply keepse_fire_timer.
  - apply keepse_fire_renomination.
  - apply keepse_Propose.
  - apply keepse_RecvStatement.
  - apply (preserves_wrap keepse), keepse_validator, keepsg_GetQuorum.
  - apply (preserves_wrap keepse), keepse_validator, keepsg_GetTxSet.
  - apply keepse_validator, keepsg_monitor.
  - apply keepse_validator, keepsg_dispatch_stmt.
  - apply keepse_validator, keepsg_dispatch_tick.
  - apply keepse_validator, keepsg_download.
  - apply keepse_validator, keepsg_downloaded.
  - apply keepse_validator, keepsg_downloader.
  - apply keepse_validator, keepsg_AddTx.
  - apply keepse_validator, keepsg_tm, frame_take_tx.
  - apply keepse_validator, keepsg_GetTxStatus.
  - apply keepse_validator, keepsg_GetLedger.
  - apply keepse_validator, keepsg_GetAccount.
  - by intros He.
Qed.

Lemma engine_steps_keep e e' : rtc (engine_step (T:=T) baseReserve fuel) e e' → keepse e e'.
Proof. induction 1 as [|a b c Hab _ IH]; [reflexivity|]. etrans; [by apply engine_step_keeps|done]. Qed.

(** A new engine. *)
Lemma NewEngine_run now ctx lm e : ec_LM ctx = Some lm → NewEngine now (Some ctx) = Ok e →
  ∃ pm q h, quorum_hash q = Ok h ∧
    e = mkEngine D C (ec_NetworkID ctx) (ec_Seed ctx) (ec_NodeID ctx) (ec_Role ctx) q h (ec_MaxDecrees ctx)
          (ec_ProposeInterval ctx) pm (NewValidator lm (ec_MaxDecrees ctx)) ∅ [] [] [] now zero_time [] [].
Proof.
  intros Hlm. unfold NewEngine. destruct (ValidateEngineContext (Some ctx)); try done. simpl.
  destruct (ec_PM ctx) as [pm|]; simpl; [|done]. rewrite Hlm. simpl. destruct (ec_Quorum ctx) as [q|]; simpl; [|done].
  destruct (quorum_hash q) as [h|?|?|] eqn:Hq; try done. intros [= <-]. by exists pm, q, h.
Qed.
Lemma new_engine_ok e : good (e_validator e) → quorum_hash (e_quorum e) = Ok (e_quorumHash e) →
  e_objects e = [] → e_decrees e = ∅ → e_statementChan e = [] → e_externalizeChan e = [] → e_broadcasts e = [] → engine_ok e.
Proof.
  intros Hg Hq Ho Hd Hs Hx Hb. unfold engine_ok, refs_ok. rewrite Ho, Hd, Hs, Hx, Hb. split_and!; try done.
  - intros o s Hin. by apply not_elem_of_nil in Hin.
  - intros i x Hin. by apply not_elem_of_nil in Hin.
Qed.
(** Over a ledger in order. *)
Lemma NewEngine_ok now ctx lm e :
  ec_LM ctx = Some lm → good (NewValidator lm (ec_MaxDecrees ctx)) → NewEngine now (Some ctx) = Ok e → engine_ok e.
Proof. intros Hlm Hg He. destruct (NewEngine_run now ctx lm e Hlm He) as (pm & q & h & Hq & ->). by apply new_engine_ok. Qed.

End invariant.

(** * Properties *)

(** The engine keeps its house in order.  Start a node over a ledger in order and let its peers send and answer
    whatever they like; let the goroutines of the engine, the validator, the decrees and the managers interleave
    in any way.  Then the ledger is still a chain; every transaction set and every quorum in the database is
    stored under its own hash, so no peer can pass off one for another; and every statement that is handed to a
    decree has its quorum and its transaction sets there. *)
Theorem engine_invariant {D T C : Type} {StoreD : Store D} {LawsD : StoreLaws D} {StoreT : Store T} {LawsT : StoreLaws T}
    {TxDb : TxDatabase D T} {TxLaws : TxDatabaseLaws D T} {Pbc : PbCodec} {GoRt : GoRuntime} {Crypto : CryptoLib}
    {Ed : Ed25519} {QuorumCodec : Codec Quorum} {StatementCodec : Codec Statement} (baseReserve : Z) (fuel : nat)
    (now : Z) (ctx : EngineContext D C) (lm : LedgerManager D) (e0 e : Engine D C) :
  ec_LM ctx = Some lm → good (NewValidator lm (ec_MaxDecrees ctx)) → NewEngine now (Some ctx) = Ok e0 →
  rtc (engine_step (T:=T) baseReserve fuel) e0 e →
  chain_ok (e_lm e) ∧
  (∀ k t, txset_at (e_validator e) k = Some t → GetTxSetKey t = Ok k) ∧
  (∀ k q, quorum_at (e_validator e) k = Some q → quorum_hash q = Ok k) ∧
  (∀ s, s ∈ v_readyChan (e_validator e) → complete (e_validator e) s).
Proof.
  intros Hlm Hg He0 Hr. apply (NewEngine_ok now ctx lm e0 Hlm Hg) in He0.
  destruct (engine_steps_keep baseReserve fuel _ _ Hr He0) as [((Hv & Hl & _ & Ht & Hq) & _) _].
  split_and!; [apply Hl|done|done|]. intros s Hs. apply Hv. by right; left.
Qed.

(** C17: a node speaks for itself.  Everything a node ever broadcasts is a statement in its own name, for its own
    network, with a signature made with its own seed; and every decree it has made announces at most one value,
    the one its ballot protocol has committed to. *)
Theorem node_speaks_for_itself {D T C : Type} {StoreD : Store D} {LawsD : StoreLaws D} {StoreT : Store T} {LawsT : StoreLaws T}
    {TxDb : TxDatabase D T} {TxLaws : TxDatabaseLaws D T} {Pbc : PbCodec} {GoRt : GoRuntime} {Crypto : CryptoLib}
    {Ed : Ed25519} {QuorumCodec : Codec Quorum} {StatementCodec : Codec Statement} (baseReserve : Z) (fuel : nat)
    (now : Z) (ctx : EngineContext D C) (lm : LedgerManager D) (e0 e : Engine D C) :
  ec_LM ctx = Some lm → good (NewValidator lm (ec_MaxDecrees ctx)) → NewEngine now (Some ctx) = Ok e0 →
  rtc (engine_step (T:=T) baseReserve fuel) e0 e →
  (∀ cs req, (cs, req) ∈ e_broadcasts e → ∃ s, Decode (nr_Data req) = Some s ∧ s_NodeID s = ec_NodeID ctx ∧
    Sign (ec_Seed ctx) (nr_Data req) = Ok (nr_Signature req) ∧ nr_MsgType req = STATEMENT ∧ nr_NetworkID req = ec_NetworkID ctx) ∧
  (∀ o d, e_objects e !! o = Some d → d_nodeID d = ec_NodeID ctx ∧
    (d_externalizeChan d = [] ∨ ∃ c, cb d = Some c ∧ d_externalizeChan d = [(d_index d, b_Value c)])).
Proof.
  intros Hlm Hg He0 Hr. pose proof (NewEngine_ok now ctx lm e0 Hlm Hg He0) as Hok.
  assert (e_nodeID e0 = ec_NodeID ctx ∧ e_seed e0 = ec_Seed ctx ∧ e_networkID e0 = ec_NetworkID ctx) as (H1 & H2 & H3).
  { destruct (NewEngine_run now ctx lm e0 Hlm He0) as (pm & q & h & _ & ->). done. }
  destruct (engine_steps_keep baseReserve fuel _ _ Hr Hok) as [(_ & _ & Ho & _ & Hb) Hc].
  unfold config in Hc. injection Hc as C1 C2 C3 C4 C5. rewrite <-H1, <-H2, <-H3, <-C1, <-C2, <-C3. split.
  - intros cs req Hin. rewrite Forall_forall in Hb. destruct (Hb _ Hin) as (s & Hs & ?). exists s. split; [|done].
    by apply Decode_Encode.
  - intros o d Hd. destruct (Ho o d Hd) as (_ & Hid & env & d0 & Hn & Hp). split; [done|].
    destruct Hp as (_ & _ & _ & Hp). unfold NewDecree in Hn. repeat case_decide; simplify_eq/=. unfold announced in Hp. simpl in Hp.
    destruct (d_currentPhase d); naive_solver.
Qed.

(** * The run of a node on its own *)

Module solo_safe.
Import states solo.

Lemma buckets_there b : b ∈ ledger_buckets → is_Some (db !! b).
Proof.
  intros Hb. assert (forallb (λ b, bool_decide (is_Some (db !! b))) ledger_buckets = true) as H by (vm_compute; reflexivity).
  rewrite forallb_forall in H. apply (bool_decide_eq_true_1 _ (H b (proj1 (list_elem_of_In _ _) Hb))).
Qed.
(** Nothing is stored yet. *)
Lemma nothing_stored : vdb (NewValidator ledger 20) !! txset_bucket = Some ∅ ∧ vdb (NewValidator ledger 20) !! validator_bucket = Some ∅.
Proof. split; vm_compute; reflexivity. Qed.
Lemma genesis_ok : (CreateGenesisLedger 10 (NewLedgerManager (TxManager.NewManager db))).2 = Ok tt.
Proof. vm_compute. reflexivity. Qed.
Lemma ledger_books : books ledger.
Proof. exact (genesis_books 10 db ledger I buckets_there (run_eq _ _ _ genesis_ok)). Qed.

Lemma empty_view (d : boltdb) b k : d !! b = Some ∅ → db_view d b k = None.
Proof. intros H. unfold db_view, boltdb_StoreLaws. rewrite H. apply lookup_empty. Qed.
Lemma start_good : good (NewValidator ledger 20).
Proof.
  destruct nothing_stored as [Ht Hq]. apply new_validator_good; [apply ledger_books|by exists ∅|by exists ∅|vm_compute; reflexivity|].
  split; intros k x; [unfold txset_at; rewrite (empty_view _ _ k Ht)|unfold quorum_at; rewrite (empty_view _ _ k Hq)]; done.
Qed.

Lemma closed_reached : rtc (engine_step (T:=boltdb) GenesisBaseReserve 40) e0 closed.
Proof.
  refine (rtc_l _ e0 proposed closed (es_Propose _ _ 1 7 e0) _). refine (rtc_l _ proposed said closed (es_send _ _ proposed) _).
  exact (rtc_once said closed (es_ext _ _ 20 30 9 said)).
Qed.

Lemma engine_invariant_witness : chain_ok (e_lm closed) ∧ ∀ t, txset_at (e_validator closed) txkey = Some t → GetTxSetKey t = Ok txkey.
Proof.
  destruct (engine_invariant GenesisBaseReserve 40 0 ctx ledger e0 closed eq_refl start_good e0_new closed_reached) as (H1 & H2 & _).
  split; [exact H1|exact (H2 txkey)].
Defined.

Lemma node_speaks_for_itself_witness : ∃ cs req, e_broadcasts closed = [(cs, req)] ∧
  ∃ s, Decode (nr_Data req) = Some s ∧ s_NodeID s = "me" ∧ Sign seed (nr_Data req) = Ok (nr_Signature req).
Proof.
  destruct (node_speaks_for_itself GenesisBaseReserve 40 0 ctx ledger e0 closed eq_refl start_good e0_new closed_reached) as [H _].
  assert (∃ b, e_broadcasts closed = [b]) as [[cs req] Hb] by (eexists; vm_compute; reflexivity).
  exists cs, req. split; [exact Hb|]. destruct (H cs req ltac:(rewrite Hb; by left)) as (s & H1 & H2 & H3 & _).
  exists s. split; [exact H1|]. split; [exact H2|exact H3].
Defined.

End solo_safe.
