(* ===== verification/Server.v ===== *)
(** The RPC server of a node, [rpc/server.go].

    The server has no component of its own: it hands a future to the node and waits for the answer.  The node is
    reached through the interface [NodeBackend], one operation for each kind of future: it takes the future
    and gives it back, answered.  A future that comes back without an answer would block the handler for ever
    ([await] stops there).  Here the way to the loop of the node and back is one call; [Requests] has the channels and loops on it.  A handler returns a response or a status of gRPC. *)

From S2P Require Import Prelude Pb Crypto Keypair Account TxOps TxManager Ledger Build Quorum Ballot Rpc Future.

(** * Interface of the node *)

Class NodeBackend (N : Type) := {
  serve_peer : future.Peer → M N future.Peer;
  serve_tx : future.Tx → M N future.Tx;
  serve_stmt : future.Statement → M N future.Statement;
  serve_ledger : future.Ledger → M N future.Ledger;
  serve_quorum : future.Quorum → M N future.Quorum;
  serve_txset : future.TxSet → M N future.TxSet;
  serve_txstatus : future.TxStatus → M N future.TxStatus;
  serve_account : future.Account → M N future.Account;
  (** [am.Master], nil or not *)
  node_Master : N → option Account;
}.

(** [f.Error()] after the node has given the future back. *)
Definition await (d : deferError) : res (option string) :=
  match Error d with
  | Some (Ok (_, e)) => Ok e
  | Some (Panic w) => Panic w
  | Some _ => Panic "unexpected"
  | None => Panic "blocked for ever"
  end.

Definition new_future : deferError := Init zero_deferError.

(** * Requests *)

Record SubmitTxRequest := mkSubmitTxRequest {
  sr_NetworkID : string; sr_Data : string; sr_TxKey : string; sr_Signature : string;
}.
Record QueryTxRequest := mkQueryTxRequest { qt_NetworkID : string; qt_TxKey : string }.
Record GetAccountRequest := mkGetAccountRequest { ga_NetworkID : string; ga_AccountID : string }.
Record CreateTestAccountRequest := mkCreateTestAccountRequest { ct_NetworkID : string; ct_AccountID : string }.

Record NodeServer {N : Type} := mkNodeServer {
  srv_networkID : string;
  srv_addr : string;
  srv_nodeID : string;
  srv_nodeKey : gmap string ULTKey;
  srv_node : N;
}.
Arguments NodeServer N : clear implicits.

Definition status {A} (c : Code) (msg : string) : Status + A := inl (mkStatus c msg).

Section server.
Context {N : Type} {Node : NodeBackend N}.
Context {Crypto : CryptoLib} {Ed : Ed25519} {Pbc : PbCodec} {QuorumCodec : Codec Quorum} {StatementCodec : Codec Statement}.
Implicit Types s : NodeServer N.

Definition set_node (n : N) s : NodeServer N := mkNodeServer N (srv_networkID s) (srv_addr s) (srv_nodeID s) (srv_nodeKey s) n.
Definition set_nodeKey (m : gmap string ULTKey) s : NodeServer N :=
  mkNodeServer N (srv_networkID s) (srv_addr s) (srv_nodeID s) m (srv_node s).

(** [NewNodeServer], with the checks of [ValidateServerContext]: a nil manager or channel does not typecheck. *)
Definition NewNodeServer (networkID addr nodeID seed : string) (n : N) : res (NodeServer N) :=
  if decide (networkID = "") then Panic "validate server context failed: empty network ID"
  else if decide (addr = "") then Panic "validate server context failed: empty local network address"
  else if decide (nodeID = "") then Panic "validate server context failed: empty local node ID"
  else if decide (seed = "") then Panic "validate server context failed: empty local node seed"
  else Ok (mkNodeServer N networkID addr nodeID ∅ n).

(** Hand a future to the node. *)
Definition ask {F} (serve : F → M N F) (f : F) : M (NodeServer N) F := λ s,
  let '(n, r) := serve f (srv_node s) in (set_node n s, r).

(** Hand over a future, wait, and go on with the error it was answered with. *)
Definition ask_wait {F} (serve : F → M N F) (err : F → deferError) (f : F) : M (NodeServer N) (F * option string) :=
  let! f := ask serve f in
  let! e := lift (await (err f)) in
  ret (f, e).

(** ** Authentication of peers *)

Definition server_validate s (ctx : option MD) (data signature networkID : string) : res unit :=
  if decide (srv_networkID s ≠ networkID) then Err "incompatible network id."
  else match ctx with
  | None => Err "retrieve incoming context failed"
  | Some md =>
      match md_Get "addr" md, md_Get "nodeid" md with
      | addr :: _, _ :: _ =>
          match srv_nodeKey s !! addr with
          | None => Err ("unknown network address " +:+ addr +:+ ", forgot to say hello?")
          | Some key => if VerifyByKey key signature data then Ok tt else Err "signature verification failed"
          end
      | _, _ => Err "network address or nodeID is absent"
      end
  end.

(** The header sent back has the address and the ID of the node. *)
Definition server_Hello (ctx : option MD) (networkID : string) : M (NodeServer N) (Status + MD) :=
  let! s := get in
  if decide (srv_networkID s ≠ networkID) then ret (status InvalidArgument "incompatible network id.")
  else match ctx with
  | None => ret (status NotFound "retrieve incoming context failed")
  | Some md =>
      match md_Get "addr" md, md_Get "nodeid" md with
      | addr :: _, nodeid :: _ =>
          match DecodeKey nodeid with
          | Ok k =>
              if decide (key_Code k ≠ KeyTypeNodeID) then ret (status InvalidArgument "invalid nodeid key type")
              else
                do! modify (λ s, set_nodeKey (<[addr := k]> (srv_nodeKey s)) s) in
                do! ask_wait serve_peer future.f_Peer_err (future.mkPeer new_future addr) in
                ret (inr (node_metadata (srv_addr s) (srv_nodeID s)))
          | Panic w => panic w
          | _ => ret (status InvalidArgument "decode nodeid to crypto key failed")
          end
      | _, _ => ret (status NotFound "network address or nodeid is missing")
      end
  end.

(** ** Requests of clients *)

Definition SubmitTx (req : SubmitTxRequest) : M (NodeServer N) (Status + unit) :=
  let! s := get in
  if decide (srv_networkID s ≠ sr_NetworkID req) then ret (status InvalidArgument "incompatible network id.")
  else match Decode (sr_Data req) with
  | None => ret (status InvalidArgument "decode tx failed")
  | Some tx =>
      match DecodeKey (tx_AccountID tx) with
      | Ok accKey =>
          if decide (key_Code accKey ≠ KeyTypeAccountID) then ret (status InvalidArgument "invalid account key type")
          else if negb (VerifyByKey accKey (sr_Signature req) (sr_Data req)) then
            ret (status InvalidArgument "signature verification failed")
          else match DecodeKey (sr_TxKey req) with
          | Ok txKey =>
              match encode_res tx with
              | Ok b =>
                  if decide (SHA256HashBytes b ≠ key_Hash txKey) then ret (status Internal "tx key hash mismatch")
                  else
                    let! '(_, err) := ask_wait serve_tx future.f_Tx_err (future.mkTx new_future (sr_TxKey req) tx) in
                    match err with
                    | Some e => ret (status Internal ("submit tx failed: " +:+ e))
                    | None => ret (inr tt)
                    end
              | _ => ret (status Internal "compute tx hash failed")
              end
          | Panic w => panic w
          | _ => ret (status InvalidArgument "decode tx key failed")
          end
      | Panic w => panic w
      | _ => ret (status InvalidArgument "decode account key failed")
      end
  end.

Definition QueryTx (req : QueryTxRequest) : M (NodeServer N) (Status + option TxStatus) :=
  let! s := get in
  if decide (srv_networkID s ≠ qt_NetworkID req) then ret (status InvalidArgument "incompatible network id.")
  else if negb (IsValidTxKey (qt_TxKey req)) then ret (status InvalidArgument "invalid tx key")
  else
    let! '(f, err) := ask_wait serve_txstatus future.f_TxStatus_err (future.mkTxStatus new_future (qt_TxKey req) None) in
    match err with
    | Some e => ret (status Internal ("query tx status failed: " +:+ e))
    | None => ret (inr (future.f_TxStatus f))
    end.

Definition server_GetAccount (req : GetAccountRequest) : M (NodeServer N) (Status + string) :=
  let! s := get in
  if decide (srv_networkID s ≠ ga_NetworkID req) then ret (status InvalidArgument "incompatible network id.")
  else if negb (IsValidAccountKey (ga_AccountID req)) then ret (status InvalidArgument "invalid account id")
  else
    let! '(f, err) := ask_wait serve_account future.f_Account_err (future.mkAccount new_future (ga_AccountID req) None) in
    match err with
    | Some e => ret (status Internal ("get account failed: " +:+ e))
    | None =>
        match encode_ptr (future.f_Account f) with
        | Ok b => ret (inr b)
        | _ => ret (status Internal "encode account failed")
        end
    end.

(** The transaction that creates a test account. *)
Definition test_account_tx (master : Account) (accountID : string) : Tx :=
  mkTx (acc_AccountID master) 1000 "" (acc_SeqNum master)
    [mkOp OpType_CREATE_ACCOUNT (Some (Op_CreateAccount (mkCreateAccountOp accountID 100000000000)))].

Definition CreateTestAccount (req : CreateTestAccountRequest) : M (NodeServer N) (Status + string) :=
  let! s := get in
  if decide (srv_networkID s ≠ ct_NetworkID req) then ret (status InvalidArgument "incompatible network id.")
  else if negb (IsValidAccountKey (ct_AccountID req)) then ret (status InvalidArgument "invalid account id")
  else
    let! '(f, err) := ask_wait serve_account future.f_Account_err (future.mkAccount new_future (ct_AccountID req) None) in
    match err with
    | Some e => ret (status Internal ("get account failed: " +:+ e))
    | None =>
        match future.f_Account f with
        | Some _ => ret (status Internal "test account already exist")
        | None =>
            let! s := get in
            let! master := lift (deref (node_Master (srv_node s))) in
            let tx := test_account_tx master (ct_AccountID req) in
            match GetTxKey tx with
            | Ok txKey =>
                let! '(_, err) := ask_wait serve_tx future.f_Tx_err (future.mkTx new_future txKey tx) in
                match err with
                | Some e => ret (status Internal ("submit tx failed: " +:+ e))
                | None => ret (inr txKey)
                end
            | Err e => ret (status Internal ("get tx key failed: " +:+ e))
            | Panic w => panic w
            | NoFuel => lift NoFuel
            end
        end
    end.

(** ** Requests of peers *)

(** The end of the three queries: the error, a missing answer, or the encoding. *)
Definition answer_query {A} `{!Codec A} (what : string) (o : option A) (err : option string) : Status + string :=
  match err with
  | Some e => status Internal ("query " +:+ what +:+ " failed: " +:+ e)
  | None =>
      match o with
      | None => status NotFound (what +:+ " not found")
      | Some a => match encode_res a with Ok b => inr b | _ => status Internal ("encode " +:+ what +:+ " failed") end
      end
  end.

Definition server_Query (ctx : option MD) (req : QueryRequest) : M (NodeServer N) (Status + string) :=
  let! s := get in
  match server_validate s ctx (qr_Data req) (qr_Signature req) (qr_NetworkID req) with
  | Ok _ =>
      match qr_MsgType req with
      | QUORUM =>
          let! '(f, err) := ask_wait serve_quorum future.f_Quorum_err (future.mkQuorum new_future (qr_Data req) None) in
          ret (answer_query "quorum" (future.f_Quorum f) err)
      | TXSET =>
          let! '(f, err) := ask_wait serve_txset future.f_TxSet_err (future.mkTxSet new_future (qr_Data req) None) in
          ret (answer_query "txset" (future.f_TxSet f) err)
      | LEDGER =>
          let! '(f, err) := ask_wait serve_ledger future.f_Ledger_err (future.mkLedger new_future (qr_Data req) None) in
          ret (answer_query "ledger" (future.f_Ledger f) err)
      | QueryMsgType_other _ => ret (inr "")
      end
  | Err e => ret (status InvalidArgument ("input validation failed: " +:+ e))
  | Panic w => panic w
  | NoFuel => lift NoFuel
  end.

Definition Notify (ctx : option MD) (req : NotifyRequest) : M (NodeServer N) (Status + unit) :=
  let! s := get in
  match server_validate s ctx (nr_Data req) (nr_Signature req) (nr_NetworkID req) with
  | Ok _ =>
      match nr_MsgType req with
      | TX =>
          match Decode (nr_Data req) with
          | None => ret (status InvalidArgument "decode tx failed")
          | Some tx =>
              match GetTxKey tx with
              | Ok txKey =>
                  let! '(_, err) := ask_wait serve_tx future.f_Tx_err (future.mkTx new_future txKey tx) in
                  match err with
                  | Some e => ret (status Internal ("add tx failed: " +:+ e))
                  | None => ret (inr tt)
                  end
              | Err e => ret (status Internal ("get tx key failed: " +:+ e))
              | Panic w => panic w
              | NoFuel => lift NoFuel
              end
          end
      | STATEMENT =>
          match Decode (nr_Data req) with
          | None => ret (status InvalidArgument "decode statement failed")
          | Some stmt =>
              let! '(_, err) := ask_wait serve_stmt future.f_Stmt_err (future.mkStatement new_future stmt) in
              match err with
              | Some e => ret (status Internal ("add statement failed: " +:+ e))
              | None => ret (inr tt)
              end
          end
      | NotifyMsgType_other _ => ret (inr tt)
      end
  | Err e => ret (status InvalidArgument ("input validation failed: " +:+ e))
  | Panic w => panic w
  | NoFuel => lift NoFuel
  end.

End server.

(** * Lemmas *)

Section laws.
Context {N : Type} {Node : NodeBackend N}.
Context {Crypto : CryptoLib} {Ed : Ed25519} {Pbc : PbCodec} {QuorumCodec : Codec Quorum} {StatementCodec : Codec Statement}.
Implicit Types s : NodeServer N.

(** What [SubmitTx] asks of a request for the transaction [tx]. *)
Definition authentic (req : SubmitTxRequest) (tx : Tx) : Prop :=
  Decode (sr_Data req) = Some tx ∧
  (∃ k, DecodeKey (tx_AccountID tx) = Ok k ∧ key_Code k = KeyTypeAccountID ∧ VerifyByKey k (sr_Signature req) (sr_Data req) = true) ∧
  ∃ b kt, Encode tx = Some b ∧ DecodeKey (sr_TxKey req) = Ok kt ∧ key_Hash kt = sum256 b.

(** The answer of a request that was handed to the node. *)
Definition submit (req : SubmitTxRequest) (tx : Tx) : M (NodeServer N) (Status + unit) :=
  let! '(_, err) := ask_wait serve_tx future.f_Tx_err (future.mkTx new_future (sr_TxKey req) tx) in
  match err with
  | Some e => ret (status Internal ("submit tx failed: " +:+ e))
  | None => ret (inr tt)
  end.

Lemma SubmitTx_cases req s :
  (∃ tx, srv_networkID s = sr_NetworkID req ∧ authentic req tx ∧ SubmitTx req s = submit req tx s) ∨
  (∃ st, SubmitTx req s = (s, Ok (inl st))).
Proof.
  unfold SubmitTx. rewrite (bind_eq_Ok _ _ _ s s) by done. case_decide as Hnet; [right; by eexists|].
  destruct (Decode (sr_Data req)) as [tx|] eqn:Htx; [|right; by eexists].
  destruct (DecodeKey (tx_AccountID tx)) as [k|e|w|] eqn:Hk; [|right; by eexists|..];
    [|by pose proof (DecodeKey_no_panic (tx_AccountID tx)) as Hp; rewrite Hk in Hp..].
  case_decide as Hc; [right; by eexists|]. destruct (VerifyByKey k _ _) eqn:Hv; [|right; by eexists]. simpl.
  destruct (DecodeKey (sr_TxKey req)) as [kt|e|w|] eqn:Hkt; [|right; by eexists|..];
    [|by pose proof (DecodeKey_no_panic (sr_TxKey req)) as Hp; rewrite Hkt in Hp..].
  unfold encode_res. destruct (Encode tx) as [b|] eqn:Hb; [|right; by eexists].
  case_decide as Hh; [right; by eexists|]. left. exists tx.
  split; [done|]. split; [|done]. split; [done|]. split; [by exists k|]. by exists b, kt.
Qed.

(** A signed request reaches the node. *)
Lemma SubmitTx_authentic req tx s :
  srv_networkID s = sr_NetworkID req → authentic req tx → SubmitTx req s = submit req tx s.
Proof.
  intros Hnet (Htx & (k & Hk & Hc & Hv) & b & kt & Hb & Hkt & Hh). unfold SubmitTx.
  rewrite (bind_eq_Ok _ _ _ s s), decide_False by tauto. rewrite Htx, Hk, decide_False by tauto. rewrite Hv. simpl.
  rewrite Hkt. unfold encode_res. rewrite Hb, decide_False; [done|]. unfold SHA256HashBytes. by rewrite Hh; intros [].
Qed.

(** A peer is known once it said hello. *)
Lemma server_validate_Ok s addr nodeid k data signature :
  srv_nodeKey s !! addr = Some k → VerifyByKey k signature data = true →
  server_validate s (Some (node_metadata addr nodeid)) data signature (srv_networkID s) = Ok tt.
Proof.
  intros Hk Hv. unfold server_validate. rewrite decide_False by tauto.
  unfold md_Get, node_metadata. rewrite lookup_insert_eq, lookup_insert_ne, lookup_singleton_eq by done. simpl.
  by rewrite Hk, Hv.
Qed.

(** Saying hello registers the key under the address. *)
Lemma server_Hello_registers raw nodeid seed addr s s1 h :
  pair_of KeyTypeNodeID raw nodeid seed →
  server_Hello (Some (node_metadata addr nodeid)) (srv_networkID s) s = (s1, Ok (inr h)) →
  srv_networkID s1 = srv_networkID s ∧ srv_nodeKey s1 !! addr = Some (mkULTKey KeyTypeNodeID (ed_Public (ed_NewKeyFromSeed raw))).
Proof.
  intros Hp. unfold server_Hello. rewrite (bind_eq_Ok _ _ _ s s), decide_False by tauto.
  unfold md_Get at 1 2, node_metadata. rewrite lookup_insert_eq, lookup_insert_ne, lookup_singleton_eq by done. simpl.
  rewrite (pair_of_public KeyTypeNodeID raw nodeid seed) by done. rewrite decide_False by by intros [].
  unfold bind at 1, modify. unfold ask_wait, ask, bind, lift, ret. simpl.
  destruct (serve_peer _ _) as [n [f| | |]]; simpl; try done.
  destruct (await (future.f_Peer_err f)); simpl; try done. intros [= <- _]. simpl. by rewrite lookup_insert_eq.
Qed.

(** A handler that only turns the answer into a status leaves the state as the node left it. *)
Lemma ignore_answer {A B} (m : M (NodeServer N) A) (k : A → M (NodeServer N) B) s :
  (∀ a s', (k a s').1 = s') → (bind m k s).1 = (m s).1.
Proof. intros Hk. unfold bind. destruct (m s) as [s' [a| | |]]; simpl; auto. Qed.

End laws.

(** A notification of a peer that has said hello. *)
Section notified.
Context {N} {Node : NodeBackend N} {Crypto : CryptoLib} {Ed : Ed25519} {Pbc : PbCodec}.
Context {QuorumCodec : Codec Quorum} {StatementCodec : Codec Statement}.

Lemma Notify_validated raw nodeid seed addr b sg (s s1 : NodeServer N) h :
  pair_of KeyTypeNodeID raw nodeid seed → Sign seed b = Ok sg →
  server_Hello (Some (node_metadata addr nodeid)) (srv_networkID s) s = (s1, Ok (inr h)) →
  server_validate s1 (Some (node_metadata addr nodeid)) b sg (srv_networkID s) = Ok tt.
Proof.
  intros Hp Hs Hh. destruct (server_Hello_registers raw nodeid seed addr s s1 h Hp Hh) as [Hnet Hk].
  rewrite (pair_of_Sign _ _ _ _ b Hp) in Hs. injection Hs as <-. rewrite <-Hnet.
  apply (server_validate_Ok _ _ _ _ _ _ Hk). by eapply pair_of_verified.
Qed.
Lemma Notify_tx_taken raw nodeid seed addr (tx : Tx) b sg (s s1 : NodeServer N) h :
  pair_of KeyTypeNodeID raw nodeid seed → Encode tx = Some b → Sign seed b = Ok sg →
  server_Hello (Some (node_metadata addr nodeid)) (srv_networkID s) s = (s1, Ok (inr h)) →
  ∃ key, GetTxKey tx = Ok key ∧
    (Notify (Some (node_metadata addr nodeid)) (mkNotifyRequest (srv_networkID s) TX b sg) s1).1 =
    (ask_wait serve_tx future.f_Tx_err (future.mkTx new_future key tx) s1).1.
Proof.
  intros Hp Hb Hs Hh. unfold Notify. rewrite (bind_eq_Ok get _ s1 s1 s1) by done. cbn [nr_Data nr_Signature nr_NetworkID nr_MsgType].
  rewrite (Notify_validated raw nodeid seed addr b sg s s1 h Hp Hs Hh), (Decode_Encode tx b Hb).
  eexists. split; [unfold GetTxKey, msg_key, encode_res; by rewrite Hb|].
  unfold GetTxKey at 1, msg_key, encode_res. rewrite Hb. simpl. apply ignore_answer. by intros [? []].
Qed.
Lemma Notify_stmt_taken raw nodeid seed addr (stmt : Statement) b sg (s s1 : NodeServer N) h :
  pair_of KeyTypeNodeID raw nodeid seed → Encode stmt = Some b → Sign seed b = Ok sg →
  server_Hello (Some (node_metadata addr nodeid)) (srv_networkID s) s = (s1, Ok (inr h)) →
  (Notify (Some (node_metadata addr nodeid)) (mkNotifyRequest (srv_networkID s) STATEMENT b sg) s1).1 =
    (ask_wait serve_stmt future.f_Stmt_err (future.mkStatement new_future stmt) s1).1.
Proof.
  intros Hp Hb Hs Hh. unfold Notify. rewrite (bind_eq_Ok get _ s1 s1 s1) by done. cbn [nr_Data nr_Signature nr_NetworkID nr_MsgType].
  rewrite (Notify_validated raw nodeid seed addr b sg s s1 h Hp Hs Hh), (Decode_Encode stmt b Hb).
  apply ignore_answer. by intros [? []].
Qed.
End notified.

(** A request that was signed by its account. *)
Lemma signed_submit {N} {Node : NodeBackend N} {Crypto : CryptoLib} {Ed : Ed25519} {Pbc : PbCodec}
    (raw pub seed : string) (tx : Tx) (payload signature txKey : string) (s : NodeServer N) :
  pair_of KeyTypeAccountID raw pub seed → tx_AccountID tx = pub →
  build.Tx_Sign seed (Some tx) = Ok (payload, signature) → build.Tx_GetTxKey (Some tx) = Ok txKey →
  GetTxKey tx = Ok txKey ∧
  SubmitTx (mkSubmitTxRequest (srv_networkID s) payload txKey signature) s =
    submit (mkSubmitTxRequest (srv_networkID s) payload txKey signature) tx s.
Proof.
  intros Hp Hid Hs Hkey.
  assert (Encode tx = Some payload ∧ signature = b58_Encode (ed_Sign (ed_NewKeyFromSeed raw) payload)) as [Hb Hsg].
  { unfold build.Tx_Sign, encode_res in Hs. destruct (DecodeKey seed); simpl in Hs; try done. case_decide; [done|].
    destruct (Encode tx) as [b|]; simpl in Hs; [|done]. rewrite (pair_of_Sign _ _ _ _ b Hp) in Hs. simpl in Hs. by simplify_eq. }
  assert (txKey = EncodeKey (mkULTKey KeyTypeTx (sum256 payload))) as ->.
  { unfold build.Tx_GetTxKey, encode_res in Hkey. rewrite Hb in Hkey. by injection Hkey. }
  split; [unfold GetTxKey, msg_key, encode_res; by rewrite Hb|]. apply SubmitTx_authentic; [done|].
  split; [by apply Decode_Encode|]. split.
  - eexists. rewrite Hid. split; [by apply (pair_of_public KeyTypeAccountID raw pub seed)|]. split; [done|]. simpl.
    rewrite Hsg. by eapply pair_of_verified.
  - exists payload, (mkULTKey KeyTypeTx (sum256 payload)). split; [done|]. split; [|done]. simpl.
    rewrite DecodeKey_EncodeKey; [done|by vm_compute|apply sum256_length].
Qed.

(** * Properties *)

(** C20: clients cannot submit for others.  A request of a client changes the node only if it is for the node's network
    and its data is a transaction whose account key accepts the signature of the data, with the key of the transaction;
    every other request is refused with a status and changes nothing. *)
Theorem SubmitTx_authenticated {N} {Node : NodeBackend N} {Crypto : CryptoLib} {Ed : Ed25519} {Pbc : PbCodec}
    (req : SubmitTxRequest) (s : NodeServer N) :
  (∃ tx, srv_networkID s = sr_NetworkID req ∧ authentic req tx) ∨ ∃ st, SubmitTx req s = (s, Ok (inl st)).
Proof. destruct (SubmitTx_cases req s) as [(tx & ? & ? & _)|H]; eauto. Qed.

(** What a client builds and signs, a node takes.  A transaction of an account that was signed with the seed of the
    account's key pair and sent with the key that the builder computes reaches the transaction manager of the node
    unchanged, under its own key, and the client gets the answer of the manager. *)
Theorem signed_tx_reaches_node {N} {Node : NodeBackend N} {Crypto : CryptoLib} {Ed : Ed25519} {Pbc : PbCodec}
    (raw pub seed : string) (tx : Tx) (payload signature txKey : string) (s : NodeServer N) :
  pair_of KeyTypeAccountID raw pub seed → tx_AccountID tx = pub →
  build.Tx_Sign seed (Some tx) = Ok (payload, signature) → build.Tx_GetTxKey (Some tx) = Ok txKey →
  GetTxKey tx = Ok txKey ∧
  SubmitTx (mkSubmitTxRequest (srv_networkID s) payload txKey signature) s =
    (let! '(_, err) := ask_wait serve_tx future.f_Tx_err (future.mkTx new_future txKey tx) in
     match err with
     | Some e => ret (status Internal ("submit tx failed: " +:+ e))
     | None => ret (inr tt)
     end) s.
Proof. exact (signed_submit raw pub seed tx payload signature txKey s). Qed.

(** Peers are trusted with everything.  Whoever says hello with any address and a node key of its own is registered,
    and a notification signed with that key is then taken: a transaction of any account goes to the transaction
    manager without a signature of the account, and a statement goes to the engine whatever node it claims to come from. *)
Theorem Notify_trusts_any_peer {N} {Node : NodeBackend N} {Crypto : CryptoLib} {Ed : Ed25519} {Pbc : PbCodec}
    {QuorumCodec : Codec Quorum} {StatementCodec : Codec Statement}
    (raw nodeid seed addr : string) (tx : Tx) (stmt : Statement) (bt bs sigt sigs : string) (s s1 : NodeServer N) h :
  pair_of KeyTypeNodeID raw nodeid seed → Encode tx = Some bt → Encode stmt = Some bs →
  Sign seed bt = Ok sigt → Sign seed bs = Ok sigs →
  server_Hello (Some (node_metadata addr nodeid)) (srv_networkID s) s = (s1, Ok (inr h)) →
  (∃ key, GetTxKey tx = Ok key ∧
    (Notify (Some (node_metadata addr nodeid)) (mkNotifyRequest (srv_networkID s) TX bt sigt) s1).1 =
    (ask_wait serve_tx future.f_Tx_err (future.mkTx new_future key tx) s1).1) ∧
  (Notify (Some (node_metadata addr nodeid)) (mkNotifyRequest (srv_networkID s) STATEMENT bs sigs) s1).1 =
    (ask_wait serve_stmt future.f_Stmt_err (future.mkStatement new_future stmt) s1).1.
Proof.
  intros Hp Hbt Hbs Hst Hss Hh. split; [by eapply Notify_tx_taken|by eapply Notify_stmt_taken].
Qed.

(** * A node that takes everything *)

Module desk.

#[local] Existing Instance ref_crypto.
#[local] Existing Instance ref_codec.
#[local] Existing Instance ref_ed25519.

(** What was handed over. *)
Record node := mkNode { got_peers : list string; got_txs : list (string * Tx); got_stmts : list Statement }.

Definition answered (d : deferError) : deferError := match Respond None d with Some (Ok d) => d | _ => d end.

#[local] Instance desk_backend : NodeBackend node := {|
  serve_peer f := λ n, (mkNode (got_peers n ++ [future.f_Addr f]) (got_txs n) (got_stmts n),
                        Ok (future.mkPeer (answered (future.f_Peer_err f)) (future.f_Addr f)));
  serve_tx f := λ n, (mkNode (got_peers n) (got_txs n ++ [(future.f_TxKey f, future.f_Tx f)]) (got_stmts n),
                      Ok (future.mkTx (answered (future.f_Tx_err f)) (future.f_TxKey f) (future.f_Tx f)));
  serve_stmt f := λ n, (mkNode (got_peers n) (got_txs n) (got_stmts n ++ [future.f_Stmt f]),
                        Ok (future.mkStatement (answered (future.f_Stmt_err f)) (future.f_Stmt f)));
  serve_ledger f := ret f;
  serve_quorum f := ret f;
  serve_txset f := ret f;
  serve_txstatus f := ret f;
  serve_account f := ret f;
  node_Master _ := None;
|}.

Definition server : NodeServer node := mkNodeServer node "net" "here:1" "me" ∅ (mkNode [] [] []).

Definition stmt : Statement := mkStatement StatementType_NOMINATE "somebody else" 7 (Some (Stmt_Nominate (mkNominate [] [] "q"))).
#[local] Instance stmt_codec : Codec Statement := codec_single stmt "s".
#[local] Instance quorum_codec : Codec Quorum := codec_none.

(** A peer with a node key, and a payment out of an account that did not sign anything. *)
Definition peer_seed : string := EncodeKey (mkULTKey KeyTypeSeed (pad32 "mallory")).
Definition peer_id : string := EncodeKey (mkULTKey KeyTypeNodeID (pad32 "mallory")).
Definition victim : string := EncodeKey (mkULTKey KeyTypeAccountID (pad32 "alice")).
Definition theft : Tx :=
  mkTx victim 1000 "" 1 [mkOp OpType_PAYMENT (Some (Op_Payment (mkPaymentOp "mallory" (Some (mkAsset NATIVE "" "")) 1000000)))].
Definition enc {A} `{!Codec A} (a : A) : string := default "" (Encode a).
Definition sig (data : string) : string := match Sign peer_seed data with Ok x => x | _ => "" end.
Definition met : NodeServer node := (server_Hello (Some (node_metadata "there:1" peer_id)) "net" server).1.

Lemma peer_pair : pair_of KeyTypeNodeID (pad32 "mallory") peer_id peer_seed.
Proof. split; [by vm_compute|]. split; by vm_compute. Qed.

Lemma Notify_trusts_any_peer_witness :
  ∃ key, GetTxKey theft = Ok key ∧
    (Notify (Some (node_metadata "there:1" peer_id)) (mkNotifyRequest "net" TX (enc theft) (sig (enc theft))) met).1 =
    (ask_wait serve_tx future.f_Tx_err (future.mkTx new_future key theft) met).1.
Proof.
  assert (server_Hello (Some (node_metadata "there:1" peer_id)) (srv_networkID server) server =
          (met, Ok (inr (node_metadata "here:1" "me")))) as Hh by by vm_compute.
  exact (proj1 (Notify_trusts_any_peer (pad32 "mallory") peer_id peer_seed "there:1" theft stmt (enc theft) (enc stmt)
    (sig (enc theft)) (sig (enc stmt)) server met _ peer_pair eq_refl eq_refl eq_refl eq_refl Hh)).
Defined.

(** Alice pays with her own seed. *)
Definition alice_seed : string := EncodeKey (mkULTKey KeyTypeSeed (pad32 "alice")).
Definition signed : res (string * string) := build.Tx_Sign alice_seed (Some theft).
Definition key : string := match GetTxKey theft with Ok k => k | _ => "" end.

Lemma alice_pair : pair_of KeyTypeAccountID (pad32 "alice") victim alice_seed.
Proof. split; [by vm_compute|]. split; by vm_compute. Qed.

Lemma signed_tx_reaches_node_witness :
  GetTxKey theft = Ok key ∧
  SubmitTx (mkSubmitTxRequest "net" (enc theft) key (match signed with Ok (_, sn) => sn | _ => "" end)) server =
    (let! '(_, err) := ask_wait serve_tx future.f_Tx_err (future.mkTx new_future key theft) in
     match err with
     | Some e => ret (status Internal ("submit tx failed: " +:+ e))
     | None => ret (inr tt)
     end) server.
Proof.
  apply (signed_tx_reaches_node (pad32 "alice") victim alice_seed theft (enc theft) _ key server alice_pair eq_refl);
    by vm_compute.
Defined.

End desk.
