(* ===== verification/Config.v ===== *)
(** The configuration of a node, [node/config.go].

    The configuration file is read by viper, which is not modelled: a [viper] is what its getters answer.  The quorum
    comes as a tree of dynamic values, and [parseQuorum] turns it into a quorum with type assertions, which panic
    when a value has another type.  A Go map is the list of its entries, in the order in which a range visits them. *)

From S2P Require Import Prelude Crypto Quorum.

(** * Dynamic values *)

(** An [interface{}] as the decoder of the configuration file makes it. *)
Inductive value :=
| v_nil
| v_bool (b : bool)
| v_int (n : Z)
| v_float64 (x : f64)
| v_string (s : string)
| v_slice (l : list value)
| v_map (m : list (value * value)).

(** The type assertions. *)
Definition as_float64 (v : value) : res f64 :=
  match v with v_float64 x => Ok x | _ => Panic "interface conversion: interface {} is not float64" end.
Definition as_string (v : value) : res string :=
  match v with v_string s => Ok s | _ => Panic "interface conversion: interface {} is not string" end.
Definition as_slice (v : value) : res (list value) :=
  match v with v_slice l => Ok l | _ => Panic "interface conversion: interface {} is not []interface {}" end.
Definition as_map (v : value) : res (list (value * value)) :=
  match v with v_map m => Ok m | _ => Panic "interface conversion: interface {} is not map[interface {}]interface {}" end.

(** A [map[string]interface{}]. *)
Abbreviation string_map := (list (string * value)).
Definition lookup_key (k : string) (m : string_map) : option value := snd <$> List.find (λ e, bool_decide (e.1 = k)) m.

(** A loop that stops at the first error. *)
Fixpoint each {A B} (f : A → res B) (l : list A) : res (list B) :=
  match l with
  | [] => Ok []
  | a :: l => let? b := f a in let? bs := each f l in Ok (b :: bs)
  end.

(** * The quorum *)

(** The keys of a nested quorum become strings. *)
Definition string_keys (m : list (value * value)) : res string_map :=
  each (λ '(k, v), let? k := as_string k in Ok (k, v)) m.

Fixpoint parseQuorum (fuel : nat) (qmap : string_map) : res Quorum :=
  match fuel with
  | O => NoFuel
  | S fuel =>
      match lookup_key "threshold" qmap with
      | None => Err "quorum threshold is missing"
      | Some th =>
          let? threshold := as_float64 th in
          if f64_le threshold f64_zero && f64_lt f64_one threshold then Err "quorum threshold is invalid"
          else match lookup_key "validators" qmap with
          | None => Err "quorum validators are missing"
          | Some validators =>
              let? l := as_slice validators in
              let? vs := each as_string l in
              let? nestQuorums :=
                match lookup_key "nest_quorums" qmap with
                | None => Ok []
                | Some nestqs =>
                    let? qs := as_slice nestqs in
                    each (λ nq,
                      let? nqa := as_map nq in
                      let? nestq := string_keys nqa in
                      res_wrap "parse nest quorum failed: " (parseQuorum fuel nestq)) qs
                end in
              let quorum := mkQuorum threshold vs nestQuorums in
              let? _ := ValidateQuorum true 0 quorum in
              Ok quorum
          end
      end
  end.

(** * The configuration *)

Record viper := mkViper {
  v_GetString : string → string;
  v_GetInt : string → Z;
  v_GetStringSlice : string → list string;
  v_GetStringMap : string → option string_map;
}.

Record Config := mkConfig {
  nc_Role : string; nc_NetworkID : string; nc_NetworkAddr : string; nc_Peers : list string; nc_MaxPeers : Z;
  nc_NodeID : string; nc_Seed : string; nc_LogFile : string; nc_DBBackend : string; nc_DBPath : string;
  nc_Quorum : option Quorum; nc_ProposeInterval : Z;
}.

(** The values that must not be empty, in the order of the checks before and after that of max_peers. *)
Definition required (l : list (string * string)) (v : viper) : res unit :=
  let? _ := each (λ '(key, msg), if decide (v_GetString v key = "") then Err msg else Ok tt) l in Ok tt.

Definition NewConfig {Crypto : CryptoLib} (fuel : nat) (v : viper) : res Config :=
  let? _ := required [("role", "role is missing"); ("network_id", "network ID is missing");
    ("network_addr", "network address is missing"); ("node_id", "node ID is empty"); ("seed", "node seed is empty");
    ("log_file", "log file path is empty")] v in
  if decide (v_GetInt v "max_peers" = 0) then Err "max peers is zero"
  else
    let? _ := required [("db_backend", "db backend is empty"); ("db_path", "db path is empty")] v in
    match v_GetStringMap v "quorum" with
    | None => Err "quorum is nil"
    | Some quorumMap =>
        if decide (v_GetInt v "propose_interval" <= 0) then Err "propose interval is not positive"
        else
          let? quorum := res_wrap "parse quorum failed: " (parseQuorum fuel quorumMap) in
          Ok (mkConfig (v_GetString v "role") (SHA256Hash (v_GetString v "network_id")) (v_GetString v "network_addr")
                (v_GetStringSlice v "peers") (v_GetInt v "max_peers") (v_GetString v "node_id") (v_GetString v "seed")
                (v_GetString v "log_file") (v_GetString v "db_backend") (v_GetString v "db_path") (Some quorum)
                (v_GetInt v "propose_interval"))
    end.

(** * The quorum, written down

    What the file of a quorum decodes to. *)
Fixpoint quorum_entries (q : Quorum) : list (string * value) :=
  let 'mkQuorum t vs nqs := q in
  [("threshold", v_float64 t); ("validators", v_slice (v_string <$> vs));
   ("nest_quorums", v_slice ((λ nq, v_map ((λ '(k, v), (v_string k, v)) <$> quorum_entries nq)) <$> nqs))].

(** How deep the slices and maps of a value are nested. *)
Fixpoint depth (v : value) : nat :=
  match v with
  | v_slice l => S ((fix go l := match l with [] => O | v :: l => Nat.max (depth v) (go l) end) l)
  | v_map m => S ((fix go m := match m with [] => O | (_, v) :: m => Nat.max (depth v) (go m) end) m)
  | _ => O
  end.
Fixpoint map_depth (m : string_map) : nat := match m with [] => O | (_, v) :: m => Nat.max (depth v) (map_depth m) end.

(** * Lemmas *)

Lemma each_Ok {A B} (f : A → res B) l bs : each f l = Ok bs ↔ Forall2 (λ a b, f a = Ok b) l bs.
Proof.
  revert bs. induction l as [|a l IH]; intros bs; simpl.
  - split; [intros [= <-]; constructor|by inversion 1].
  - split.
    + destruct (f a) eqn:Ha; simpl; try done. destruct (each f l) eqn:Hl; simpl; try done. intros [= <-].
      constructor; [done|]. by apply IH.
    + intros H. inversion H as [|? b ? bs' Ha Hl]; subst. apply IH in Hl. by rewrite Ha, Hl.
Qed.
Lemma each_fmap {A B C} (g : A → B) (f : B → res C) (h : A → C) l :
  Forall (λ a, f (g a) = Ok (h a)) l → each f (g <$> l) = Ok (h <$> l).
Proof. intros H. apply each_Ok. induction H; simpl; constructor; done. Qed.
Lemma each_fuel {A B} (f : A → res B) l : Forall (λ a, f a ≠ NoFuel) l → each f l ≠ NoFuel.
Proof. induction 1 as [|a l Ha _ IH]; simpl; [done|]. destruct (f a); simpl; try done. by destruct (each f l). Qed.

(** A quorum that is valid at some depth is valid on its own. *)
Lemma ValidateQuorum_shallow extra q : ∀ d d', d' <= d → ValidateQuorum extra d q = Ok tt → ValidateQuorum extra d' q = Ok tt.
Proof.
  induction q as [t vs nqs IH] using Quorum_nest_ind. intros d d' Hd. cbn [ValidateQuorum].
  case_decide; [done|]. rewrite decide_False by lia.
  destruct (f64_le _ _ || _); [done|]. destruct (extra && _); [done|]. destruct (has_dup _ _); [done|].
  clear -IH Hd. induction IH as [|nq nqs Hq _ IHn]; [done|].
  destruct (ValidateQuorum extra (d + 1) nq) as [[]| | |] eqn:E; simpl; try done.
  rewrite (Hq (d + 1) (d' + 1)) by (done || lia). done.
Qed.
Lemma ValidateQuorum_nested extra d t vs nqs :
  ValidateQuorum extra d (mkQuorum t vs nqs) = Ok tt →
  f64_le t f64_zero = false ∧ d <= 2 ∧ Forall (λ nq, ValidateQuorum extra (d + 1) nq = Ok tt) nqs.
Proof.
  cbn [ValidateQuorum]. case_decide; [done|]. destruct (f64_le t f64_zero); [done|]. cbn [orb].
  destruct (f64_lt _ _); [done|]. destruct (extra && _); [done|]. destruct (has_dup _ _); [done|].
  intros Hgo. split; [done|]. split; [lia|]. induction nqs as [|nq nqs IH]; [constructor|].
  destruct (ValidateQuorum extra (d + 1) nq) as [[]| | |] eqn:E; simpl in Hgo; try done.
  constructor; [done|]. by apply IH.
Qed.

Lemma string_keys_entries (m : string_map) : string_keys ((λ '(k, v), (v_string k, v)) <$> m) = Ok m.
Proof. unfold string_keys. rewrite <- (list_fmap_id m) at 2. apply each_fmap, Forall_true. by intros []. Qed.
Lemma string_keys_map m m' : string_keys m = Ok m' → m = (λ '(k, v), (v_string k, v)) <$> m'.
Proof.
  intros H%each_Ok. induction H as [|[k v] [k' v'] m m' Hk _ IH]; [done|]. destruct k; simplify_eq/=. by f_equal.
Qed.

Lemma each_strings vs : each as_string (v_string <$> vs) = Ok vs.
Proof. rewrite <- (list_fmap_id vs) at 2. by apply each_fmap, Forall_true. Qed.

Definition nested_value (nqs : list Quorum) : value :=
  v_slice ((λ nq, v_map ((λ '(k, v), (v_string k, v)) <$> quorum_entries nq)) <$> nqs).
Lemma lookup_entries t vs nqs : let m := quorum_entries (mkQuorum t vs nqs) in
  lookup_key "threshold" m = Some (v_float64 t) ∧ lookup_key "validators" m = Some (v_slice (v_string <$> vs)) ∧
  lookup_key "nest_quorums" m = Some (nested_value nqs).
Proof. done. Qed.

Lemma parse_entries n : ∀ q, (n <= 2)%nat → ValidateQuorum true (2 - Z.of_nat n) q = Ok tt →
  parseQuorum (S n) (quorum_entries q) = Ok q.
Proof.
  induction n as [|n IH]; intros [t vs nqs] Hle Hv; pose proof (ValidateQuorum_nested _ _ _ _ _ Hv) as (Ht & _ & Hn);
    (apply (ValidateQuorum_shallow _ _ _ 0) in Hv; [|lia]);
    destruct (lookup_entries t vs nqs) as (H1 & H2 & H3); cbn [parseQuorum]; rewrite H1, H2, H3;
    cbn [as_float64 as_slice res_bind]; rewrite Ht, each_strings; cbn [andb res_bind as_slice nested_value].
  - destruct nqs as [|[t' vs' nqs'] nqs]; [|by inversion Hn]. cbn [fmap list_fmap each res_bind]. by rewrite Hv.
  - rewrite (each_fmap _ _ id), list_fmap_id; cbn [res_bind]; [by rewrite Hv|].
    eapply Forall_impl; [exact Hn|]. intros nq Hq. cbn [as_map res_bind]. rewrite string_keys_entries. cbn [res_bind].
    pose proof (IH nq ltac:(lia)) as E. replace (2 - Z.of_nat n) with (2 - Z.of_nat (S n) + 1) in E by lia.
    specialize (E Hq). cbn [parseQuorum] in E. by rewrite E.
Qed.

Lemma depth_slice v l : v ∈ l → (depth v < depth (v_slice l))%nat.
Proof. induction 1 as [v l|v v' l _ IH]; simpl in *; lia. Qed.
Lemma depth_map m : depth (v_map ((λ '(k, v), (v_string k, v)) <$> m)) = S (map_depth m).
Proof. simpl. f_equal. induction m as [|[k v] m IH]; [done|]. exact (f_equal (Nat.max (depth v)) IH). Qed.
Lemma depth_lookup k m v : lookup_key k m = Some v → (depth v <= map_depth m)%nat.
Proof.
  unfold lookup_key. induction m as [|[k' v'] m IH]; simpl; [done|]. case_bool_decide; simpl.
  - intros [= ->]. lia.
  - intros Hv%IH. lia.
Qed.
Lemma res_bind_fuel {A B} (m : res A) (k : A → res B) : m ≠ NoFuel → (∀ a, m = Ok a → k a ≠ NoFuel) → res_bind m k ≠ NoFuel.
Proof. destruct m; simpl; auto. Qed.
Lemma ValidateQuorum_fuel extra q : ∀ d, ValidateQuorum extra d q ≠ NoFuel.
Proof.
  induction q as [t vs nqs IH] using Quorum_nest_ind. intros d. cbn [ValidateQuorum].
  case_decide; [done|]. destruct (f64_le _ _ || _); [done|]. destruct (extra && _); [done|]. destruct (has_dup _ _); [done|].
  induction IH as [|nq nqs Hq _ IHn]; [done|]. apply res_bind_fuel; [done|]. by intros _ _.
Qed.

(** Every nested quorum is two levels down: the slice, and the map in it. *)
Lemma parseQuorum_fuel fuel : ∀ m, (map_depth m < 2 * fuel)%nat → parseQuorum fuel m ≠ NoFuel.
Proof.
  induction fuel as [|fuel IH]; intros m Hm; [lia|]. cbn [parseQuorum].
  destruct (lookup_key "threshold" m) as [th|]; [|done]. apply res_bind_fuel; [by destruct th|]. intros t _.
  destruct (_ && _); [done|]. destruct (lookup_key "validators" m) as [vs|]; [|done].
  apply res_bind_fuel; [by destruct vs|]. intros l _. apply res_bind_fuel; [apply each_fuel, Forall_true; by intros []|].
  intros vs' _. apply res_bind_fuel; [|intros nqs _; apply res_bind_fuel; [apply ValidateQuorum_fuel|done]].
  destruct (lookup_key "nest_quorums" m) as [[]|] eqn:Hn; try done. apply depth_lookup in Hn. cbn [as_slice res_bind].
  apply each_fuel, Forall_forall. intros nq Hnq%depth_slice. apply res_bind_fuel; [by destruct nq|]. intros nqa Ha.
  apply res_bind_fuel; [apply each_fuel, Forall_true; intros [[] ?]; done|]. intros nestq Hk%string_keys_map.
  assert (parseQuorum fuel nestq ≠ NoFuel) as Hf; [|by destruct (parseQuorum fuel nestq)].
  apply IH. destruct nq; try done. injection Ha as ->. rewrite Hk, depth_map in Hnq. lia.
Qed.

Lemma required_Ok l v : required l v = Ok tt → Forall (λ e, v_GetString v e.1 ≠ "") l.
Proof.
  unfold required. destruct (each _ l) as [us| | |] eqn:H; simpl; try done. intros _. apply each_Ok in H.
  induction H as [|[k msg] u l us Hk _ IH]; constructor; [by case_decide|done].
Qed.

(** What is known of a configuration. *)
Lemma NewConfig_Ok {Crypto : CryptoLib} fuel v conf : NewConfig fuel v = Ok conf →
  nc_Role conf ≠ "" ∧ nc_NetworkAddr conf ≠ "" ∧ nc_NodeID conf ≠ "" ∧ nc_Seed conf ≠ "" ∧ 0 < nc_ProposeInterval conf ∧
  nc_NetworkID conf = SHA256Hash (v_GetString v "network_id") ∧
  ∃ q m, v_GetStringMap v "quorum" = Some m ∧ parseQuorum fuel m = Ok q ∧ nc_Quorum conf = Some q.
Proof.
  unfold NewConfig. destruct (required [_; _; _; _; _; _] v) as [[]| | |] eqn:H1; try done. cbn [res_bind]. case_decide; [done|].
  destruct (required [_; _] v) as [[]| | |] eqn:H2; try done. cbn [res_bind]. destruct (v_GetStringMap v "quorum") as [m|]; [|done].
  case_decide as Hp; [done|]. destruct (parseQuorum fuel m) as [q| | |] eqn:Hq; try done. intros [= <-].
  apply required_Ok in H1. rewrite !Forall_cons in H1. simpl in *. split_and!; try tauto; [lia|]. by exists q, m.
Qed.
Lemma parseQuorum_valid fuel m q : parseQuorum fuel m = Ok q → ValidateQuorum true 0 q = Ok tt.
Proof.
  destruct fuel as [|fuel]; [done|]. cbn [parseQuorum]. destruct (lookup_key "threshold" m) as [th|]; [|done].
  destruct (as_float64 th) as [t| | |]; try done. cbn [res_bind]. destruct (_ && _); [done|].
  destruct (lookup_key "validators" m) as [vs|]; [|done]. destruct (as_slice vs) as [l| | |]; try done. cbn [res_bind].
  destruct (each as_string l) as [vs'| | |]; try done. cbn [res_bind].
  match goal with |- res_bind ?x _ = _ → _ => destruct x as [nqs| | |]; try done end. cbn [res_bind].
  destruct (ValidateQuorum true 0 _) as [[]| | |] eqn:Hv; try done. by intros [= <-].
Qed.

(** * Properties *)

(** C37: reading a quorum back.  Whatever quorum passes the validation, its entry in the configuration file is parsed to the same
    quorum; and parsing ends on every tree of values, with an answer, an error or the panic of a type assertion: half the depth of
    the tree bounds the recursion. *)
Theorem parseQuorum_roundtrip (q : Quorum) :
  (ValidateQuorum true 0 q = Ok tt → parseQuorum 3 (quorum_entries q) = Ok q) ∧
  ∀ fuel m, (map_depth m < 2 * fuel)%nat → parseQuorum fuel m ≠ NoFuel.
Proof. split; [apply (parse_entries 2); lia|]. apply parseQuorum_fuel. Qed.

(** Three nodes and a group of two, of which three quarters and one half are needed; a file that says [threshold: 1] instead of 1.0. *)
Module quorums.
Definition q : Quorum := mkQuorum (f64_frac 3 2) ["a"; "b"; "c"] [mkQuorum (f64_frac 1 1) ["d"; "e"] []].
Lemma parseQuorum_roundtrip_witness : parseQuorum 3 (quorum_entries q) = Ok q.
Proof. apply (proj1 (parseQuorum_roundtrip q)). vm_compute. reflexivity. Defined.
Example integer_threshold :
  parseQuorum 3 [("threshold", v_int 1); ("validators", v_slice [v_string "a"])] = Panic "interface conversion: interface {} is not float64".
Proof. vm_compute. reflexivity. Qed.
End quorums.
