(* ===== verification/Node.v ===== *)
(** A node, [node/node.go]: it puts the managers, the engine and the RPC server together, starts them, and answers
    the futures of the server in its event loop.

    The state of the node is its engine, with everything the engine reaches, and the master account.  Each case
    of the selects of [eventLoop] and [serveNode] is an operation that takes a future and gives it back with its
    answer; together they are the [NodeBackend] that the server of [Server] is written against. *)

From stdpp Require Import relations.
From S2P Require Import Prelude Lru Pb Db Crypto Keypair Account TxManager Ledger Frame Checkpoint Quorum Ballot Rpc Peer Federated Decree Nomination Outgoing Future Validator Engine EngineSafety Server Config.

Record Node {D C : Type} := mkNode {
  nd_engine : Engine D C;
  nd_Master : option Account;
  nd_txNotices : list (list C * NotifyRequest);  (** the transactions that were broadcast *)
}.
Arguments Node D C : clear implicits.

Definition MaxDecrees : Z := 20.

(** [f.Respond(err)]: a send that blocks would stop the event loop. *)
Definition respond (err : option string) (d : deferError) : res deferError :=
  match Respond err d with
  | Some r => r
  | None => Panic "blocked for ever"
  end.
(** The error of a call, nil or not, and its result. *)
Definition err_of {A} (r : string + A) : option string := match r with inl e => Some e | inr _ => None end.
Definition val_of {A} (r : string + A) : option A := match r with inl _ => None | inr a => Some a end.

Section node.
Context {D T C : Type} {StoreD : Store D} {StoreT : Store T} {TxDb : TxDatabase D T}.
Context {Pbc : PbCodec} {GoRt : GoRuntime} {Crypto : CryptoLib} {Ed : Ed25519}.
Context {QuorumCodec : Codec Quorum} {StatementCodec : Codec Statement}.
Implicit Types n : Node D C.

Definition set_engine (e : Engine D C) n : Node D C := mkNode D C e (nd_Master n) (nd_txNotices n).
Definition on_engine {A} (m : M (Engine D C) A) : M (Node D C) A := λ n,
  let '(e, r) := m (nd_engine n) in (set_engine e n, r).
Definition on_pm {A} (m : M (PeerManager C) A) : M (Engine D C) A := λ e,
  let '(pm, r) := m (e_pm e) in (set_world pm (e_validator e) e, r).

(** * Creation *)

(** The managers over one database, whose buckets are made; then the engine, and the server in front of the node. *)
Definition NewNode (now : Z) (conf : Config) (d : D) : res (NodeServer (Node D C)) :=
  let pm := Peer.NewManager (nc_Peers conf) (nc_NetworkID conf) (nc_NetworkAddr conf) (nc_NodeID conf) (nc_MaxPeers conf) in
  let lm := NewLedgerManager (TxManager.NewManager d) in
  let ctx := mkEngineContext D C (nc_NetworkID conf) (nc_Seed conf) (nc_NodeID conf) (nc_Role conf) MaxDecrees
               (Some pm) (Some tt) (Some lm) (Some tt) (nc_Quorum conf) (nc_ProposeInterval conf) in
  let? engine := NewEngine now (Some ctx) in
  NewNodeServer (nc_NetworkID conf) (nc_NetworkAddr conf) (nc_NodeID conf) (nc_Seed conf) (mkNode D C engine None []).

(** * Start

    A new network begins with the genesis ledger and the master account, whose key pair is made from the hash of
    the network's name; a node that comes back recovers its ledger. *)
Definition create_master (networkID : string) : M (Node D C) unit :=
  let! master := on_engine (on_ledger (ledger_db
    (CreateMasterAccount GetAccountKeypairFromSeed GenesisBaseReserve networkID GenesisTotalTokens 1))) in
  modify (λ n, mkNode D C (nd_engine n) master (nd_txNotices n)).

Definition Start (fuel : nat) (now unix : Z) (networkID : string) (newnode : bool) : M (Node D C) unit :=
  if newnode then
    do! or_fatal "create genesis ledger failed: " (on_engine (on_ledger (CreateGenesisLedger now))) in
    match b58_Decode networkID with
    | None => panic "decode network id failed"
    | Some netID =>
        do! or_fatal "create master account failed: " (create_master netID) in
        or_fatal "propose new value failed: " (on_engine (Propose fuel now unix))
    end
  else or_fatal "recover ledger from checkpoint failed: " (on_engine (on_ledger (RecoverFromCheckpoint now))).

(** * The event loop *)

Definition answer_peer (f : future.Peer) : M (Node D C) future.Peer :=
  do! on_engine (on_pm (AddPeerAddr (future.f_Addr f))) in
  let! d := lift (respond None (future.f_Peer_err f)) in
  ret (future.mkPeer d (future.f_Addr f)).

Definition answer_stmt (f : future.Statement) : M (Node D C) future.Statement :=
  let! r := try (on_engine (RecvStatement (future.f_Stmt f))) in
  let! d := lift (respond (err_of r) (future.f_Stmt_err f)) in
  ret (future.mkStatement d (future.f_Stmt f)).

Definition answer_ledger (f : future.Ledger) : M (Node D C) future.Ledger :=
  let! r := try (on_engine (on_ledger (GetLedger (future.f_LedgerSeq f)))) in
  let! d := lift (respond (err_of r) (future.f_Ledger_err f)) in
  ret (future.mkLedger d (future.f_LedgerSeq f) ((λ l, mkLedger (Some l.1) l.2) <$> val_of r)).

Definition answer_quorum (f : future.Quorum) : M (Node D C) future.Quorum :=
  let! r := try (on_engine (Engine_GetQuorum (future.f_QuorumHash f))) in
  let! d := lift (respond (err_of r) (future.f_Quorum_err f)) in
  ret (future.mkQuorum d (future.f_QuorumHash f) (val_of r ≫= id)).

Definition answer_txset (f : future.TxSet) : M (Node D C) future.TxSet :=
  let! r := try (on_engine (Engine_GetTxSet (future.f_TxSetHash f))) in
  let! d := lift (respond (err_of r) (future.f_TxSet_err f)) in
  ret (future.mkTxSet d (future.f_TxSetHash f) (val_of r ≫= id)).

(** ** The requests of clients, in [serveNode] *)

Definition answer_tx (f : future.Tx) : M (Node D C) future.Tx :=
  let! r := try (on_engine (on_ledger (on_tm (AddTx GenesisBaseReserve (future.f_TxKey f) (future.f_Tx f))))) in
  let! d := lift (respond (err_of r) (future.f_Tx_err f)) in
  ret (future.mkTx d (future.f_TxKey f) (future.f_Tx f)).

Definition answer_txstatus (f : future.TxStatus) : M (Node D C) future.TxStatus :=
  let! r := try (on_engine (on_ledger (on_tm (GetTxStatus (future.f_TxStatusKey f))))) in
  let! d := lift (respond (err_of r) (future.f_TxStatus_err f)) in
  ret (future.mkTxStatus d (future.f_TxStatusKey f) (val_of r)).

Definition answer_account (f : future.Account) : M (Node D C) future.Account :=
  let! r := try (on_engine (on_ledger (ledger_db (GetAccount (future.f_AccountID f))))) in
  let! d := lift (respond (err_of r) (future.f_Account_err f)) in
  ret (future.mkAccount d (future.f_AccountID f) (val_of r ≫= id)).

(** ** Passing transactions on

    [broadcastTx] and the event loop of [tx/manager.go]: the manager has the peer manager, the seed and the network ID of the node.
    Without live clients the broadcast has nobody to notify. *)
Definition broadcastTx (tx : Tx) : M (Node D C) unit :=
  let! n := get in
  let e := nd_engine n in
  let! payload := wrap "encode tx failed: " (lift (encode_res tx)) in
  let! sign := wrap "sign tx failed: " (lift (Sign (e_seed e) payload)) in
  let! req := wrap "rpc broadcas failed: " (lift (BroadcastTx payload sign (e_networkID e))) in
  modify (λ n, mkNode D C (nd_engine n) (nd_Master n) (nd_txNotices n ++ [(GetLiveClients (e_pm e), req)])).

Definition relay_tx : M (Node D C) unit :=
  let! tx := on_engine (on_ledger (on_tm take_tx)) in
  match tx with
  | None => ret tt
  | Some tx => do! try (broadcastTx tx) in ret tt
  end.

#[global] Instance Node_NodeBackend : NodeBackend (Node D C) := {|
  serve_peer := answer_peer;
  serve_tx := answer_tx;
  serve_stmt := answer_stmt;
  serve_ledger := answer_ledger;
  serve_quorum := answer_quorum;
  serve_txset := answer_txset;
  serve_txstatus := answer_txstatus;
  serve_account := answer_account;
  node_Master := nd_Master;
|}.

End node.

(** * Lemmas *)

Section answers.
Context {D T C : Type} {StoreD : Store D} {StoreT : Store T} {TxDb : TxDatabase D T}.
Context {Pbc : PbCodec} {GoRt : GoRuntime} {Crypto : CryptoLib} {Ed : Ed25519}.
Context {QuorumCodec : Codec Quorum} {StatementCodec : Codec Statement}.

(** A new future with an answer. *)
Definition answered (e : option string) : deferError := mkDeferError None (Some (mkErrChan [e] true)) true.
Lemma respond_new e : respond e new_future = Ok (answered e).
Proof. done. Qed.
Lemma await_answered e : await (answered e) = Ok e.
Proof. done. Qed.

(** What the server sees of a request that the node handles with [m]: the result of [m], with a future that is answered
    with the error of [m]; a crash of [m] is a crash of the node. *)
Definition outcome {A F : Type} (m : M (Node D C) A) (s : NodeServer (Node D C)) (out : NodeServer (Node D C) * res (F * option string)) : Prop :=
  srv_node out.1 = (m (srv_node s)).1 ∧
  match (m (srv_node s)).2 with
  | Ok _ => ∃ f, out.2 = Ok (f, None)
  | Err e => ∃ f, out.2 = Ok (f, Some e)
  | Panic w => out.2 = Panic w
  | NoFuel => out.2 = NoFuel
  end.

Lemma answer_outcome {A F : Type} (m : M (Node D C) A) (mk : deferError → string + A → F) (err : F → deferError)
    (serve : F → M (Node D C) F) (f : F) (s : NodeServer (Node D C)) :
  (∀ d r, err (mk d r) = d) →
  serve f = (let! r := try m in let! d := lift (respond (err_of r) new_future) in ret (mk d r)) →
  outcome m s (ask_wait serve err f s).
Proof.
  intros Herr Hs. unfold outcome, ask_wait, ask, bind, lift, ret. rewrite Hs. unfold try, bind, lift, ret.
  destruct (m (srv_node s)) as [n [a|e|w|]]; simpl; rewrite ?Herr; eauto.
Qed.

Lemma answer_peer_outcome addr (s : NodeServer (Node D C)) :
  outcome (on_engine (on_pm (AddPeerAddr addr))) s (ask_wait answer_peer future.f_Peer_err (future.mkPeer new_future addr) s).
Proof.
  unfold outcome, ask_wait, ask, answer_peer, bind, lift, ret. simpl.
  assert (∀ n, match (on_engine (D:=D) (C:=C) (on_pm (AddPeerAddr addr)) n).2 with Err _ => False | _ => True end) as Hn.
  { intros n. unfold on_engine, on_pm, AddPeerAddr, bind, get. simpl. repeat case_decide; simpl; try done. by destruct (pm_stopped _). }
  specialize (Hn (srv_node s)). destruct (on_engine (on_pm (AddPeerAddr addr)) (srv_node s)) as [n [a|e|w|]]; simpl in *; try done; eauto.
Qed.

End answers.

(** A request that the loop takes.  When nobody interferes, the operation of the right manager is run once and the future is answered with its error, nil
    if there is none; a crash of the operation is a crash of the node.  The handlers and the loops as goroutines are in [Requests]. *)
Theorem taken_request_answered {D C : Type} {StoreD : Store D} {Pbc : PbCodec}
    {GoRt : GoRuntime} {Crypto : CryptoLib} {QuorumCodec : Codec Quorum} {StatementCodec : Codec Statement}
    (s : NodeServer (Node D C)) (x : string) (tx : Tx) (stmt : Statement) :
  outcome (on_engine (on_pm (AddPeerAddr x))) s (ask_wait serve_peer future.f_Peer_err (future.mkPeer new_future x) s) ∧
  outcome (on_engine (RecvStatement stmt)) s (ask_wait serve_stmt future.f_Stmt_err (future.mkStatement new_future stmt) s) ∧
  outcome (on_engine (on_ledger (GetLedger x))) s (ask_wait serve_ledger future.f_Ledger_err (future.mkLedger new_future x None) s) ∧
  outcome (on_engine (Engine_GetQuorum x)) s (ask_wait serve_quorum future.f_Quorum_err (future.mkQuorum new_future x None) s) ∧
  outcome (on_engine (Engine_GetTxSet x)) s (ask_wait serve_txset future.f_TxSet_err (future.mkTxSet new_future x None) s) ∧
  outcome (on_engine (on_ledger (on_tm (AddTx GenesisBaseReserve x tx)))) s
    (ask_wait serve_tx future.f_Tx_err (future.mkTx new_future x tx) s) ∧
  outcome (on_engine (on_ledger (on_tm (GetTxStatus x)))) s
    (ask_wait serve_txstatus future.f_TxStatus_err (future.mkTxStatus new_future x None) s) ∧
  outcome (on_engine (on_ledger (ledger_db (GetAccount x)))) s
    (ask_wait serve_account future.f_Account_err (future.mkAccount new_future x None) s).
Proof.
  split; [apply answer_peer_outcome|].
  split_and!; (eapply answer_outcome; [|reflexivity]); done.
Qed.

(** * The life of a node *)

Section life.
Context {D T C : Type} {StoreD : Store D} {StoreT : Store T} {TxDb : TxDatabase D T}.
Context {Pbc : PbCodec} {GoRt : GoRuntime} {Crypto : CryptoLib} {Ed : Ed25519}.
Context {QuorumCodec : Codec Quorum} {StatementCodec : Codec Statement}.
Variable fuel : nat.
Implicit Types s : NodeServer (Node D C).

Definition s_engine s : Engine D C := nd_engine (srv_node s).

(** The node works by itself, or serves a request of a client or a peer. *)
Inductive node_step : NodeServer (Node D C) → NodeServer (Node D C) → Prop :=
| ns_engine e s : engine_step (T:=T) GenesisBaseReserve fuel (s_engine s) e → node_step s (set_node (set_engine e (srv_node s)) s)
| ns_relay s : node_step s (set_node (relay_tx (srv_node s)).1 s)
| ns_Hello ctx net s : node_step s (server_Hello ctx net s).1
| ns_SubmitTx req s : node_step s (SubmitTx req s).1
| ns_QueryTx req s : node_step s (QueryTx req s).1
| ns_GetAccount req s : node_step s (server_GetAccount req s).1
| ns_CreateTestAccount req s : node_step s (CreateTestAccount req s).1
| ns_Query ctx req s : node_step s (server_Query ctx req s).1
| ns_Notify ctx req s : node_step s (Notify ctx req s).1.

(** Every request is a walk of the engine. *)
Definition nwalks (n n' : Node D C) : Prop :=
  rtc (engine_step (T:=T) GenesisBaseReserve fuel) (nd_engine n) (nd_engine n') ∧ nd_txNotices n' = nd_txNotices n.
#[local] Instance nwalks_preorder : PreOrder nwalks.
Proof. split; [intros n; split; [apply rtc_refl|done]|]. intros a b c [H1 E1] [H2 E2]. split; [exact (rtc_trans _ _ _ H1 H2)|congruence]. Qed.
Definition walks s s' : Prop := nwalks (srv_node s) (srv_node s').
#[local] Instance walks_preorder : PreOrder walks.
Proof. split; [intros s; apply nwalks_preorder|]. intros a b c. apply nwalks_preorder. Qed.

Lemma nwalks_engine {A} (m : M (Engine D C) A) :
  (∀ e, engine_step (T:=T) GenesisBaseReserve fuel e (m e).1) → preserves nwalks (on_engine m).
Proof. intros Hm n. unfold on_engine, nwalks. specialize (Hm (nd_engine n)). destruct (m (nd_engine n)). split; [by apply rtc_once|done]. Qed.
Lemma nwalks_answer {A F} (m : M (Node D C) A) (k : string + A → M (Node D C) F) :
  preserves nwalks m → (∀ r n, (k r n).1 = n) → preserves nwalks (let! r := try m in k r).
Proof.
  intros Hm Hk. apply (preserves_bind nwalks); [by apply preserves_try|]. intros r n. by rewrite Hk.
Qed.
Lemma answer_state {F} err d (mk : deferError → F) (n : Node D C) : ((let! d := lift (respond err d) in ret (mk d)) n).1 = n.
Proof. unfold bind, lift. by destruct (respond err d). Qed.

Lemma walks_ask {F} (serve : F → M (Node D C) F) (err : F → deferError) f :
  preserves nwalks (serve f) → preserves walks (ask_wait serve err f).
Proof.
  intros Hs s. specialize (Hs (srv_node s)). unfold ask_wait, ask, bind, walks. destruct (serve f (srv_node s)) as [n [f'|e|w|]]; try done.
  simpl. unfold lift. by destruct (await (err f')).
Qed.

#[local] Hint Resolve nwalks_engine nwalks_answer answer_state : go_preserves.
Lemma nwalks_peer f : preserves nwalks (answer_peer f).
Proof.
  unfold answer_peer. apply (preserves_bind nwalks); [|intros ? n; by rewrite answer_state].
  apply nwalks_engine. intros e. unfold on_pm. destruct (AddPeerAddr (future.f_Addr f) (e_pm e)) as [pm r]. apply es_peers.
Qed.
Lemma nwalks_stmt f : preserves nwalks (answer_stmt f).
Proof. apply nwalks_answer; [apply nwalks_engine, es_RecvStatement|intros r n; apply answer_state]. Qed.
Lemma nwalks_ledger f : preserves nwalks (answer_ledger f).
Proof. apply nwalks_answer; [apply nwalks_engine, es_GetLedger|intros r n; apply answer_state]. Qed.
Lemma nwalks_quorum f : preserves nwalks (answer_quorum f).
Proof. apply nwalks_answer; [apply nwalks_engine, es_GetQuorum|intros r n; apply answer_state]. Qed.
Lemma nwalks_txset f : preserves nwalks (answer_txset f).
Proof. apply nwalks_answer; [apply nwalks_engine, es_GetTxSet|intros r n; apply answer_state]. Qed.
Lemma nwalks_tx f : preserves nwalks (answer_tx f).
Proof. apply nwalks_answer; [apply nwalks_engine, es_AddTx|intros r n; apply answer_state]. Qed.
Lemma nwalks_txstatus f : preserves nwalks (answer_txstatus f).
Proof. apply nwalks_answer; [apply nwalks_engine, es_GetTxStatus|intros r n; apply answer_state]. Qed.
Lemma nwalks_account f : preserves nwalks (answer_account f).
Proof. apply nwalks_answer; [apply nwalks_engine, es_GetAccount|intros r n; apply answer_state]. Qed.

Lemma walks_peer x : preserves walks (ask_wait serve_peer future.f_Peer_err x).
Proof. apply walks_ask, nwalks_peer. Qed.
Lemma walks_stmt x : preserves walks (ask_wait serve_stmt future.f_Stmt_err x).
Proof. apply walks_ask, nwalks_stmt. Qed.
Lemma walks_ledger x : preserves walks (ask_wait serve_ledger future.f_Ledger_err x).
Proof. apply walks_ask, nwalks_ledger. Qed.
Lemma walks_quorum x : preserves walks (ask_wait serve_quorum future.f_Quorum_err x).
Proof. apply walks_ask, nwalks_quorum. Qed.
Lemma walks_txset x : preserves walks (ask_wait serve_txset future.f_TxSet_err x).
Proof. apply walks_ask, nwalks_txset. Qed.
Lemma walks_tx x : preserves walks (ask_wait serve_tx future.f_Tx_err x).
Proof. apply walks_ask, nwalks_tx. Qed.
Lemma walks_txstatus x : preserves walks (ask_wait serve_txstatus future.f_TxStatus_err x).
Proof. apply walks_ask, nwalks_txstatus. Qed.
Lemma walks_account x : preserves walks (ask_wait serve_account future.f_Account_err x).
Proof. apply walks_ask, nwalks_account. Qed.
Lemma walks_nodeKey f : preserves walks (modify (λ s, set_nodeKey (f s) s)).
Proof. intros s. apply nwalks_preorder. Qed.
#[local] Hint Resolve walks_peer walks_stmt walks_ledger walks_quorum walks_txset walks_tx walks_txstatus walks_account walks_nodeKey : go_preserves.

(** A transaction notice: the transaction, signed by the node. *)
Definition tx_notice (e : Engine D C) (notice : list C * NotifyRequest) : Prop :=
  ∃ tx : Tx, Encode tx = Some (nr_Data notice.2) ∧ Sign (e_seed e) (nr_Data notice.2) = Ok (nr_Signature notice.2) ∧
    nr_MsgType notice.2 = TX ∧ nr_NetworkID notice.2 = e_networkID e.

Lemma broadcastTx_notice tx (n n' : Node D C) r : broadcastTx tx n = (n', r) →
  n' = n ∨ ∃ notice, tx_notice (nd_engine n) notice ∧ n' = mkNode D C (nd_engine n) (nd_Master n) (nd_txNotices n ++ [notice]).
Proof.
  unfold broadcastTx, encode_res. intros H. mrun; auto. right. eexists. split; [|done].
  unfold BroadcastTx, notify_request, check_request in *. mrun. by exists tx.
Qed.
Lemma take_walks n : nwalks n (on_engine (D:=D) (C:=C) (on_ledger (on_tm take_tx)) n).1.
Proof. exact (nwalks_engine _ (es_take_tx _ _) n). Qed.
Lemma relay_tx_steps n : ∃ n1, nwalks n n1 ∧ nd_engine (relay_tx n).1 = nd_engine n1 ∧
  ∃ l, nd_txNotices (relay_tx n).1 = nd_txNotices n1 ++ l ∧ Forall (tx_notice (nd_engine n1)) l.
Proof.
  pose proof (take_walks n) as Hw. destruct (on_engine (on_ledger (on_tm take_tx)) n) as [n1 r] eqn:Ht. simpl in Hw.
  exists n1. split; [done|]. unfold relay_tx, bind, try. rewrite Ht.
  assert (∃ l, nd_txNotices n1 = nd_txNotices n1 ++ l ∧ Forall (tx_notice (nd_engine n1)) l) as H0 by (exists []; by rewrite app_nil_r).
  destruct r as [[tx|]|e|w|]; [|split; [reflexivity|exact H0]..].
  destruct (broadcastTx tx n1) as [n2 r2] eqn:Hb. apply broadcastTx_notice in Hb as [->|(x & Hx & ->)].
  - destruct r2; (split; [reflexivity|exact H0]).
  - destruct r2; (split; [reflexivity|]); exists [x]; (split; [reflexivity|by repeat constructor]).
Qed.

Lemma node_step_walks s s' : node_step s s' → walks s s' ∨ s' = set_node (relay_tx (srv_node s)).1 s.
Proof.
  destruct 1; [|by right|..]; left.
  - split; [by apply rtc_once|done].
  - apply (λ H : preserves walks (server_Hello ctx net), H s). unfold server_Hello. pres walks.
  - apply (λ H : preserves walks (SubmitTx req), H s). unfold SubmitTx. pres walks.
  - apply (λ H : preserves walks (QueryTx req), H s). unfold QueryTx. pres walks.
  - apply (λ H : preserves walks (server_GetAccount req), H s). unfold server_GetAccount. pres walks.
  - apply (λ H : preserves walks (CreateTestAccount req), H s). unfold CreateTestAccount. pres walks.
  - apply (λ H : preserves walks (server_Query ctx req), H s). unfold server_Query. pres walks.
  - apply (λ H : preserves walks (Notify ctx req), H s). unfold Notify. pres walks.
Qed.

End life.

(** ** Starting a new network *)

Section start.
Context {D T C : Type} {StoreD : Store D} {LawsD : StoreLaws D} {StoreT : Store T} {LawsT : StoreLaws T}.
Context {TxDb : TxDatabase D T} {TxLaws : TxDatabaseLaws D T}.
Context {Pbc : PbCodec} {GoRt : GoRuntime} {Crypto : CryptoLib} {Ed : Ed25519}.
Context {QuorumCodec : Codec Quorum} {StatementCodec : Codec Statement}.

(** A database with its buckets, in which no transaction set and no quorum is stored yet. *)
Definition new_database (d : D) : Prop :=
  db_ok d ∧ (∀ b, b ∈ txset_bucket :: validator_bucket :: ledger_buckets → db_bucket d b) ∧
  ∀ k, db_view d txset_bucket k = None ∧ db_view d validator_bucket k = None.

Lemma frame_genesis now : preserves lm_frame (CreateGenesisLedger (D:=D) now).
Proof.
  unfold CreateGenesisLedger. apply (preserves_bind lm_frame); [by apply frame_same|]. intros _.
  apply frame_or_fatal, frame_advanceLedger.
Qed.

Lemma genesis_good now n d v :
  new_database d → on_lm (CreateGenesisLedger now) (NewValidator (NewLedgerManager (TxManager.NewManager d)) n) = (v, Ok tt) → good v.
Proof.
  intros (Hok & Hb & Hv) H. unfold on_lm in H. simpl in H.
  pose proof (frame_genesis now (NewLedgerManager (TxManager.NewManager d))) as [Hf Hc].
  destruct (CreateGenesisLedger now (NewLedgerManager (TxManager.NewManager d))) as [lm r] eqn:Hg. simplify_eq/=.
  assert (∀ b, b ∈ ledger_buckets → db_bucket d b) as Hbl by (intros b Hin; apply Hb; by do 2 right).
  apply (genesis_books now d lm Hok Hbl) in Hg. destruct (Hf Hok Hbl) as (Hok' & Hb' & Hview).
  destruct outside as [Ho1 Ho2]. simpl in *.
  apply new_validator_good; [done|apply Hb', Hb; by right; left|apply Hb', Hb; by left|exact Hc|].
  split; intros k x; unfold txset_at, quorum_at, vdb; simpl; rewrite Hview by (done || apply Hb; set_solver);
    [by rewrite (proj1 (Hv k))|by rewrite (proj2 (Hv k))].
Qed.

(** The rest of the start keeps the invariant. *)
Lemma master_keeps kp r net bal seq : preserves keepsg (on_lm (ledger_db (CreateMasterAccount (D:=D) kp r net bal seq))).
Proof.
  apply keepsg_tm, frame_on_db. unfold CreateMasterAccount.
  apply (preserves_bind (frame tx_buckets)); [apply (preserves_lift (frame tx_buckets))|intros [pub priv]].
  apply (preserves_bind (frame tx_buckets)); [by apply preserves_wrap, frame_CreateAccount|].
  intros _. by apply preserves_wrap, frame_GetAccount.
Qed.

Definition nkeeps (n n' : Node D C) : Prop := keepse (nd_engine n) (nd_engine n') ∧ nd_txNotices n' = nd_txNotices n.
#[local] Instance nkeeps_preorder : PreOrder nkeeps.
Proof.
  split; [intros n; split; [apply keepse_preorder|done]|]. intros a b c [H1 E1] [H2 E2].
  split; [by apply (transitivity (R:=keepse) H1)|congruence].
Qed.
Lemma nkeeps_engine {A} (m : M (Engine D C) A) : preserves keepse m → preserves nkeeps (on_engine m).
Proof. intros Hm n. specialize (Hm (nd_engine n)). unfold on_engine, nkeeps. by destruct (m (nd_engine n)). Qed.
Lemma nkeeps_master net : preserves nkeeps (create_master net).
Proof.
  unfold create_master. apply (preserves_bind nkeeps); [apply nkeeps_engine, keepse_validator, master_keeps|].
  intros a n. split; [apply (keepse_preorder (C:=C))|done].
Qed.
Lemma or_fatal_Ok {S A} w (m : M S A) st st' a : or_fatal w m st = (st', Ok a) → m st = (st', Ok a).
Proof. unfold or_fatal. destruct (m st) as [? []]; naive_solver. Qed.

Lemma NewNode_run now conf d s0 : NewNode now conf d = Ok s0 →
  ∃ pm q h, quorum_hash q = Ok h ∧
    s_engine s0 = mkEngine D C (nc_NetworkID conf) (nc_Seed conf) (nc_NodeID conf) (nc_Role conf) q h MaxDecrees
      (nc_ProposeInterval conf) pm (NewValidator (NewLedgerManager (TxManager.NewManager d)) MaxDecrees) ∅ [] [] [] now zero_time [] [] ∧
    nd_txNotices (srv_node s0) = [].
Proof.
  unfold NewNode, NewNodeServer. destruct (NewEngine now _) as [e0|?|?|] eqn:He0; simpl; try done.
  repeat case_decide; try done. intros [= <-]. eapply NewEngine_run in He0 as (pm & q & h & Hq & He); [|done].
  exists pm, q, h. split_and!; [exact Hq|exact He|done].
Qed.

Lemma node_genesis_ok t u1 n d (e e1 : Engine D C) :
  new_database d → e_validator e = NewValidator (NewLedgerManager (TxManager.NewManager d)) n →
  quorum_hash (e_quorum e) = Ok (e_quorumHash e) → e_objects e = [] → e_decrees e = ∅ → e_statementChan e = [] →
  e_externalizeChan e = [] → e_broadcasts e = [] →
  on_ledger (CreateGenesisLedger t) e = (e1, Ok u1) → engine_ok e1 ∧ config e1 = config e.
Proof.
  intros Hd Hv Hq Ho Hm Hs Hx Hb H. unfold on_ledger, on_validator in H. rewrite Hv in H.
  destruct (on_lm (CreateGenesisLedger t) _) as [v r] eqn:Hl. injection H as <- ->. split; [|done].
  apply new_engine_ok; try done. simpl. destruct u1. exact (genesis_good t n d v Hd Hl).
Qed.

Lemma Start_ok fuel t u now conf d s0 n1 :
  new_database d → NewNode now conf d = Ok s0 →
  Start (C:=C) fuel t u (nc_NetworkID conf) true (srv_node s0) = (n1, Ok tt) →
  engine_ok (nd_engine n1) ∧ nd_txNotices n1 = [] ∧ config (nd_engine n1) = config (s_engine s0).
Proof.
  intros Hd H0 Hs. destruct (NewNode_run now conf d s0 H0) as (pm & q & h & Hq & He & Hn). clear H0.
  unfold Start in Hs. apply bind_Ok in Hs as (n2 & u2 & Hgen%or_fatal_Ok & Hs).
  destruct (b58_Decode (nc_NetworkID conf)) as [net|]; [|done].
  apply bind_Ok in Hs as (n3 & [] & Hm%or_fatal_Ok & Hp%or_fatal_Ok).
  assert (engine_ok (nd_engine n2) ∧ config (nd_engine n2) = config (s_engine s0) ∧ nd_txNotices n2 = []) as (K2 & C2 & N2).
  { unfold on_engine in Hgen. change (nd_engine (srv_node s0)) with (s_engine s0) in Hgen.
    destruct (on_ledger (CreateGenesisLedger t) (s_engine s0)) as [e1 r] eqn:Hl. injection Hgen as <- ->.
    rewrite (assoc (∧)). split; [|exact Hn].
    apply (node_genesis_ok t u2 MaxDecrees d (s_engine s0) e1 Hd); try exact Hl; rewrite ?He; simpl; try reflexivity; try exact Hq. }
  destruct (preserves_run _ _ _ _ _ Hm (nkeeps_master net)) as [K3 N3]. destruct (K3 K2) as [K3' C3].
  destruct (preserves_run _ _ _ _ _ Hp (nkeeps_engine _ (keepse_Propose fuel t u))) as [K4 N4]. destruct (K4 K3') as [K4' C4].
  split_and!; [done|congruence|]. by rewrite C4, C3, C2.
Qed.

(** What every step of the life of a node keeps. *)
Definition node_ok (s : NodeServer (Node D C)) : Prop :=
  engine_ok (s_engine s) ∧ Forall (tx_notice (s_engine s)) (nd_txNotices (srv_node s)).
Lemma tx_notice_config (e e' : Engine D C) l : config e' = config e → Forall (tx_notice e) l → Forall (tx_notice e') l.
Proof. intros [= E1 E2 _ _ _]. intros H. eapply Forall_impl; [exact H|]. intros x. unfold tx_notice. by rewrite E1, E2. Qed.
Lemma nwalks_ok fuel (n n' : Node D C) :
  nwalks (T:=T) fuel n n' → engine_ok (nd_engine n) → Forall (tx_notice (nd_engine n)) (nd_txNotices n) →
  engine_ok (nd_engine n') ∧ config (nd_engine n') = config (nd_engine n) ∧ Forall (tx_notice (nd_engine n')) (nd_txNotices n').
Proof.
  intros [Hr ->] Ho Hn. destruct (engine_steps_keep _ _ _ _ Hr Ho) as [Ho' Hc]. split_and!; [done..|]. by eapply tx_notice_config.
Qed.
Lemma node_step_ok fuel (s s' : NodeServer (Node D C)) :
  node_step (T:=T) fuel s s' → node_ok s → node_ok s' ∧ config (s_engine s') = config (s_engine s).
Proof.
  intros H [Ho Hn]. apply node_step_walks in H as [H| ->].
  - destruct (nwalks_ok _ _ _ H Ho Hn) as (? & ? & ?). done.
  - destruct (relay_tx_steps (T:=T) fuel (srv_node s)) as (n1 & H & He & l & Hl & Hf).
    destruct (nwalks_ok _ _ _ H Ho Hn) as (Ho1 & Hc & Hn1). unfold node_ok, s_engine. simpl. rewrite He, Hl. split_and!; [done| |done].
    by apply Forall_app.
Qed.
Lemma node_steps_ok fuel (s s' : NodeServer (Node D C)) :
  rtc (node_step (T:=T) fuel) s s' → node_ok s → node_ok s' ∧ config (s_engine s') = config (s_engine s).
Proof.
  induction 1 as [|a b c Hab _ IH]; [done|]. intros Ha. destruct (node_step_ok _ _ _ Hab Ha) as [Hb Hc].
  destruct (IH Hb) as [? Hc']. split; [done|congruence].
Qed.

End start.

(** What holds at every moment of the life of a node: the ledger is a chain, what is stored is stored under its own hash, and
    what the node has said is its own. *)
Definition in_order {D C : Type} {StoreD : Store D} {LawsD : StoreLaws D} {Pbc : PbCodec} {GoRt : GoRuntime} {Crypto : CryptoLib} {Ed : Ed25519}
    {QuorumCodec : Codec Quorum} {StatementCodec : Codec Statement} (conf : Config) (s : NodeServer (Node D C)) : Prop :=
  let e := s_engine s in
  chain_ok (e_lm e) ∧
  (∀ k t, txset_at (e_validator e) k = Some t → GetTxSetKey t = Ok k) ∧
  (∀ k q, quorum_at (e_validator e) k = Some q → quorum_hash q = Ok k) ∧
  (∀ cs req, (cs, req) ∈ e_broadcasts e ++ nd_txNotices (srv_node s) → nr_NetworkID req = nc_NetworkID conf ∧
    Sign (nc_Seed conf) (nr_Data req) = Ok (nr_Signature req) ∧
    ((nr_MsgType req = TX ∧ ∃ tx : Tx, Encode tx = Some (nr_Data req)) ∨
     (nr_MsgType req = STATEMENT ∧ ∃ st : Statement, Encode st = Some (nr_Data req) ∧ s_NodeID st = nc_NodeID conf))).

Section facts.
Context {D T C : Type} {StoreD : Store D} {LawsD : StoreLaws D} {StoreT : Store T} {LawsT : StoreLaws T}.
Context {TxDb : TxDatabase D T} {TxLaws : TxDatabaseLaws D T}.
Context {Pbc : PbCodec} {GoRt : GoRuntime} {Crypto : CryptoLib} {Ed : Ed25519}.
Context {QuorumCodec : Codec Quorum} {StatementCodec : Codec Statement}.

(** The names under which a node runs. *)
Definition runs_as (conf : Config) (s : NodeServer (Node D C)) : Prop :=
  e_networkID (s_engine s) = nc_NetworkID conf ∧ e_seed (s_engine s) = nc_Seed conf ∧ e_nodeID (s_engine s) = nc_NodeID conf.
Lemma runs_as_config conf (s s' : NodeServer (Node D C)) : config (s_engine s') = config (s_engine s) → runs_as conf s → runs_as conf s'.
Proof. unfold config. intros [= E1 E2 E3 _ _]. unfold runs_as. by rewrite E1, E2, E3. Qed.

Lemma node_ok_in_order conf (s : NodeServer (Node D C)) : node_ok s → runs_as conf s → in_order conf s.
Proof.
  intros [((_ & Hl & _ & Ht & Hq) & _ & _ & _ & Hb) Hn] (E1 & E2 & E3).
  split_and!; [apply Hl|exact Ht|exact Hq|]. rewrite Forall_forall in Hb, Hn. intros cs req [Hin|Hin]%elem_of_app.
  - destruct (Hb _ Hin) as (st & Hst & Hi & Hsg & Hty & Hnet). simpl in Hst, Hsg, Hty, Hnet. split_and!; [congruence|congruence|]. right. split; [done|].
    exists st. split; [done|congruence].
  - destruct (Hn _ Hin) as (tx & Htx & Hsg & Hty & Hnet). simpl in Htx, Hsg, Hty, Hnet. split_and!; [congruence|congruence|]. left. split; [done|].
    by exists tx.
Qed.

(** From the start of a network on. *)
Lemma started_ok fuel now t u conf (d : D) (s0 : NodeServer (Node D C)) n1 :
  new_database d → NewNode now conf d = Ok s0 → Start fuel t u (nc_NetworkID conf) true (srv_node s0) = (n1, Ok tt) →
  node_ok (set_node n1 s0) ∧ runs_as conf (set_node n1 s0).
Proof.
  intros Hd H0 Hs. destruct (Start_ok fuel t u now conf d s0 n1 Hd H0 Hs) as (H1 & N1 & C1).
  destruct (NewNode_run now conf d s0 H0) as (pm & q & h & _ & He & _). split.
  - split; [exact H1|]. simpl. rewrite N1. constructor.
  - apply (runs_as_config conf s0); [exact C1|]. unfold runs_as. by rewrite He.
Qed.

Lemma node_facts fuel now t u conf (d : D) (s0 s : NodeServer (Node D C)) n1 :
  new_database d → NewNode now conf d = Ok s0 →
  Start fuel t u (nc_NetworkID conf) true (srv_node s0) = (n1, Ok tt) → rtc (node_step (T:=T) fuel) (set_node n1 s0) s →
  in_order conf s.
Proof.
  intros Hd H0 Hs Hr. destruct (started_ok fuel now t u conf d s0 n1 Hd H0 Hs) as [H1 R1].
  destruct (node_steps_ok fuel _ _ Hr H1) as [H2 C2]. apply node_ok_in_order; [done|]. by apply (runs_as_config conf _ s C2).
Qed.

End facts.

(** A node keeps its word and its books, whoever talks to it.  Start a new network on a database with empty buckets, and let the
    server take any requests of clients and peers, in any order, while the engine and its goroutines run.  Then the ledger is a
    chain, transaction sets and quorums are stored under their own hashes, and everything the node has broadcast is for its
    network, signed with its own seed, and either a transaction or a statement in its own name. *)
Theorem node_invariant {D T C : Type} {StoreD : Store D} {LawsD : StoreLaws D} {StoreT : Store T} {LawsT : StoreLaws T}
    {TxDb : TxDatabase D T} {TxLaws : TxDatabaseLaws D T} {Pbc : PbCodec} {GoRt : GoRuntime} {Crypto : CryptoLib}
    {Ed : Ed25519} {QuorumCodec : Codec Quorum} {StatementCodec : Codec Statement} (fuel : nat) (now t u : Z)
    (conf : Config) (d : D) (s0 s : NodeServer (Node D C)) (n1 : Node D C) :
  new_database d → NewNode now conf d = Ok s0 →
  Start fuel t u (nc_NetworkID conf) true (srv_node s0) = (n1, Ok tt) → rtc (node_step (T:=T) fuel) (set_node n1 s0) s →
  in_order conf s.
Proof. apply node_facts. Qed.

(** ** From the configuration to the node *)

Section configured.
Context {D T C : Type} {StoreD : Store D} {StoreT : Store T} {TxDb : TxDatabase D T}.
Context {Pbc : PbCodec} {GoRt : GoRuntime} {Crypto : CryptoLib} {Ed : Ed25519}.
Context {QuorumCodec : Codec Quorum} {StatementCodec : Codec Statement}.

Lemma hash_not_empty b : SHA256Hash b ≠ "".
Proof.
  intros H. pose proof (b58_Decode_Encode (sum256 b)) as Hd. unfold SHA256Hash in H.
  rewrite H, <- b58_Encode_empty, b58_Decode_Encode in Hd. pose proof (sum256_length b) as Hl. by injection Hd as Hd; rewrite <- Hd in Hl.
Qed.
Lemma NewNode_Ok now conf (d : D) q h :
  nc_Role conf ≠ "" → nc_NetworkAddr conf ≠ "" → nc_NodeID conf ≠ "" → nc_Seed conf ≠ "" → 0 < nc_ProposeInterval conf →
  nc_NetworkID conf ≠ "" → nc_Quorum conf = Some q → quorum_hash q = Ok h →
  ∃ s, NewNode (C:=C) now conf d = Ok s ∧ e_quorum (s_engine s) = q ∧ e_role (s_engine s) = nc_Role conf ∧
    srv_networkID s = nc_NetworkID conf.
Proof.
  intros H1 H2 H3 H4 H5 H6 Hq Hh. unfold NewNode, NewEngine, ValidateEngineContext. simpl.
  rewrite !decide_False, Hq by (done || lia). simpl. rewrite Hh. simpl. unfold NewNodeServer. rewrite !decide_False by done. by eexists.
Qed.
(** The genesis ledger and the master account leave the role alone. *)
Lemma on_engine_role {A} (m : M (Engine D C) A) n n' r :
  (∀ e, e_role (m e).1 = e_role e) → on_engine m n = (n', r) → e_role (nd_engine n') = e_role (nd_engine n).
Proof. intros Hm H. specialize (Hm (nd_engine n)). unfold on_engine in H. destruct (m (nd_engine n)). by simplify_eq/=. Qed.
Lemma on_ledger_role {A} (m : M (LedgerManager D) A) (e : Engine D C) : e_role (on_ledger m e).1 = e_role e.
Proof. unfold on_ledger, on_validator. by destruct (on_lm m (e_validator e)). Qed.
Lemma Start_role fuel t u net n n' :
  Start (D:=D) (C:=C) fuel t u net true n = (n', Ok tt) → e_role (nd_engine n) = "validator".
Proof.
  unfold Start. intros H. apply bind_Ok in H as (n2 & [] & Hg%or_fatal_Ok & H). apply on_engine_role in Hg; [|apply on_ledger_role].
  destruct (b58_Decode net) as [id|]; [|done]. apply bind_Ok in H as (n3 & [] & Hm%or_fatal_Ok & Hp%or_fatal_Ok).
  unfold create_master in Hm. apply bind_Ok in Hm as (n4 & a & Hm & [= <-]). apply on_engine_role in Hm; [|apply on_ledger_role].
  rewrite <- Hg, <- Hm. unfold on_engine, Propose, bind, modify, get in Hp. simpl in Hp.
  destruct (decide (e_role (nd_engine n4) = "validator")) as [|Hr]; [done|]. by rewrite decide_True in Hp.
Qed.

(** An accepted configuration makes a node. *)
Lemma config_makes_node fuel v conf now (d : D) :
  NewConfig fuel v = Ok conf → (∀ q, nc_Quorum conf = Some q → is_Some (Encode q)) →
  ∃ s, NewNode (C:=C) now conf d = Ok s.
Proof.
  intros Hc He. destruct (NewConfig_Ok fuel v conf Hc) as (H1 & H2 & H3 & H4 & H5 & H6 & q & m & _ & Hp & Hq). destruct (He q Hq) as [b Hb].
  destruct (NewNode_Ok now conf d q (SHA256Hash b)) as (s & Hs & _); try done; [rewrite H6; apply hash_not_empty| |by eexists].
  unfold quorum_hash, encode_res. by rewrite Hb.
Qed.

End configured.

(** A configuration that is accepted makes a node.  The checks of [NewConfig] imply those of the engine and of the server, so that
    the constructors do not exit; the node votes with the quorum of the file, which is valid at every level, and is on the
    network whose ID is the hash of the network's name.  But a node opens a new network only in the role of a validator: in any other role
    its first proposal fails and the process exits. *)
Theorem configured_node_starts {D C : Type} {StoreD : Store D} {Pbc : PbCodec} {GoRt : GoRuntime} {Crypto : CryptoLib} {Ed : Ed25519}
    {QuorumCodec : Codec Quorum} {StatementCodec : Codec Statement} (fuel : nat) (v : viper) (conf : Config) (now : Z) (d : D) :
  NewConfig fuel v = Ok conf → (∀ q, nc_Quorum conf = Some q → is_Some (Encode q)) →
  ∃ s, NewNode (C:=C) now conf d = Ok s ∧ nc_Quorum conf = Some (e_quorum (s_engine s)) ∧ valid_levels 2 (e_quorum (s_engine s)) ∧
    srv_networkID s = SHA256Hash (v_GetString v "network_id") ∧
    ∀ n fuel t u n', nd_engine n = s_engine s → Start fuel t u (nc_NetworkID conf) true n = (n', Ok tt) → nc_Role conf = "validator".
Proof.
  intros Hc He. destruct (NewConfig_Ok fuel v conf Hc) as (H1 & H2 & H3 & H4 & H5 & H6 & q & m & _ & Hp & Hq).
  destruct (He q Hq) as [b Hb].
  destruct (NewNode_Ok (C:=C) now conf d q (SHA256Hash b)) as (s & Hs & Eq & Er & En); try done.
  { rewrite H6. apply hash_not_empty. } { unfold quorum_hash, encode_res. by rewrite Hb. }
  exists s. rewrite Eq. split_and!; [done..|by apply (ValidateQuorum_levels 2 true), (parseQuorum_valid fuel m)|congruence|].
  intros n f t u n' Hn Hst. apply Start_role in Hst. congruence.
Qed.

(** ** What becomes of a transaction *)

Section accepted.
Context {D : Type} {StoreD : Store D} {Pbc : PbCodec} {GoRt : GoRuntime}.

Lemma UpdateTxStatus_found k st (tm tm' : TxManager.Manager D) :
  UpdateTxStatus k st tm = (tm', Ok tt) → lru_find k (tm_txStatus tm') = Some st ∧
  tm_txChan tm' = tm_txChan tm ∧ tm_accTxMap tm' = tm_accTxMap tm ∧ tm_rwm tm' = tm_rwm tm.
Proof.
  unfold UpdateTxStatus. intros (t1 & u1 & [= <- <-] & H)%bind_Ok. apply bind_Ok in H as (t2 & b & [= <- Hb]%wrap_Ok & H).
  apply bind_Ok in H as (t3 & [] & Hp%wrap_Ok & [= <-]). split; [apply (proj1 (lru_find_Add k st (tm_txStatus t3) k))|].
  unfold on_db in Hp. destruct (db_Put _ _ _ _) as [d r]. by injection Hp as <- _.
Qed.

(** A transaction of a history is among those that the next proposal is made from. *)
Definition proposable (tx : Tx) (tm : TxManager.Manager D) : Prop := ∃ l, GetTxList tm = (tm, Ok l) ∧ tx ∈ l.
Lemma GetTxList_in k tx a h (tm : TxManager.Manager D) :
  tm_rwm tm = false → tm_accTxMap tm !! a = Some h → h_txMap h !! k = Some tx → proposable tx tm.
Proof.
  intros Hl Ha Hk. eexists. split; [unfold GetTxList, bind, get; rewrite Hl; reflexivity|].
  apply list_elem_of_In, List.in_concat. exists (TxHistory_GetTxList h). rewrite <-!list_elem_of_In. split.
  - apply list_elem_of_fmap. exists (a, h). split; [done|]. by rewrite go_range_perm, elem_of_map_to_list.
  - unfold TxHistory_GetTxList. apply list_elem_of_fmap. exists (k, tx). split; [done|]. by rewrite go_range_perm, elem_of_map_to_list.
Qed.

Lemma TxHistory_AddTx_takes k tx h :
  h_MaxSeqNum h <= tx_SeqNum tx → ∃ h', TxHistory_AddTx k tx h = Ok h' ∧ h_txMap h' !! k = Some tx.
Proof. intros H. unfold TxHistory_AddTx. rewrite decide_False by lia. eexists. split; [done|]. simpl. apply lookup_insert_eq. Qed.

Lemma AddTx_accepts br k tx (tm tm' : TxManager.Manager D) :
  k ∉ tm_txSet tm → 0 <= tx_SeqNum tx → AddTx br k tx tm = (tm', Ok tt) →
  lru_find k (tm_txStatus tm') = Some (mkTxStatus ACCEPTED "" "") ∧ tm_txChan tm' = tm_txChan tm ++ [tx] ∧ proposable tx tm'.
Proof.
  intros Hk Hseq. unfold AddTx. intros H. unfold bind at 1, get at 1 in H. rewrite decide_False in H by done.
  unfold on_db, Lock, Unlock in H. mrun.
  all: match goal with H : UpdateTxStatus _ _ _ = (_, Ok ?u) |- _ => destruct u; destruct (UpdateTxStatus_found _ _ _ _ H) as (? & -> & Hm & Hl) end.
  all: match goal with H : deref _ = Ok ?h |- _ => assert (h_MaxSeqNum h <= tx_SeqNum tx) as Hmax
    by (first [rewrite lookup_insert_eq in H|match goal with E : tm_accTxMap _ !! _ = Some _ |- _ => rewrite E in H end]; injection H as <-; simpl; lia) end.
  all: destruct (TxHistory_AddTx_takes k tx _ Hmax) as (h' & Hh & Hin).
  all: match goal with H : TxHistory_AddTx _ _ _ = _ |- _ => rewrite Hh in H; first [discriminate H|injection H as ->] end.
  all: split_and!; [done|done|]; eapply (GetTxList_in k tx (tx_AccountID tx)); [by simpl; rewrite Hl|simpl; rewrite Hm; apply lookup_insert_eq|done].
Qed.
Lemma GetTxStatus_found k st (tm : TxManager.Manager D) :
  lru_find k (tm_txStatus tm) = Some st → ∃ tm', GetTxStatus k tm = (tm', Ok st).
Proof.
  intros H. unfold GetTxStatus, bind, get. destruct (lru_find_Get k (tm_txStatus tm) k) as [_ Hg]. rewrite H in Hg.
  destruct (lru_Get k (tm_txStatus tm)) as [c o]. simpl in Hg. subst o. by eexists.
Qed.
End accepted.

Definition s_tm {D C : Type} (s : NodeServer (Node D C)) : TxManager.Manager D := lm_tm (e_lm (s_engine s)).

(** The sequence number of what the data decodes to is not negative: it is a uint64. *)
Definition seq_fits {Pbc : PbCodec} (req : SubmitTxRequest) : Prop := ∀ tx : Tx, Decode (sr_Data req) = Some tx → 0 <= tx_SeqNum tx.

Lemma submitted_accepted {D C : Type} {StoreD : Store D} {Pbc : PbCodec} {GoRt : GoRuntime} {Crypto : CryptoLib} {Ed : Ed25519}
    {QuorumCodec : Codec Quorum} {StatementCodec : Codec Statement} (req : SubmitTxRequest) (s s' : NodeServer (Node D C)) :
  sr_TxKey req ∉ tm_txSet (s_tm s) → IsValidTxKey (sr_TxKey req) = true → seq_fits req → SubmitTx req s = (s', Ok (inr tt)) →
  (∃ tx, authentic req tx ∧ tm_txChan (s_tm s') = tm_txChan (s_tm s) ++ [tx] ∧ proposable tx (s_tm s')) ∧
  ∃ s'', QueryTx (mkQueryTxRequest (sr_NetworkID req) (sr_TxKey req)) s' = (s'', Ok (inr (Some (mkTxStatus ACCEPTED "" "")))).
Proof.
  intros Hnew Hv Hfit Hs. destruct (SubmitTx_cases req s) as [(tx & Hnet & Ha & Heq)|(st & Heq)]; [|congruence].
  assert (0 <= tx_SeqNum tx) as Hseq by (apply Hfit, Ha).
  rewrite Heq in Hs. clear Heq. unfold submit, ask_wait, ask in Hs.
  unfold serve_tx, Node_NodeBackend, answer_tx, on_engine, on_ledger, on_validator, on_lm, on_tm in Hs. simpl in Hs. mrun.
  match goal with H : AddTx _ _ _ _ = (?m, Ok ?u) |- _ => destruct u; destruct (AddTx_accepts _ _ _ _ _ Hnew Hseq H) as (Hf & Hc & Hp) end.
  split; [by exists tx|]. unfold QueryTx. unfold bind at 1, get at 1. rewrite decide_False by (simpl; congruence).
  simpl. rewrite Hv. destruct (GetTxStatus_found _ _ _ Hf) as [tm' Hq]. unfold ask_wait, ask, answer_txstatus, on_engine, on_ledger, on_validator, on_lm, on_tm.
  unfold_m. simpl. rewrite Hq. by eexists.
Qed.

(** A transaction that a node takes, it admits to.  When a client submits a transaction that is new to the node and is told that
    it went well, then the transaction is to be broadcast, is among those that the next proposal is made from, and a client who asks for it, at once, is told that it is accepted. *)
Theorem submitted_tx_is_accepted {D C : Type} {StoreD : Store D} {Pbc : PbCodec} {GoRt : GoRuntime} {Crypto : CryptoLib} {Ed : Ed25519}
    {QuorumCodec : Codec Quorum} {StatementCodec : Codec Statement} (req : SubmitTxRequest) (s s' : NodeServer (Node D C)) :
  sr_TxKey req ∉ tm_txSet (s_tm s) → IsValidTxKey (sr_TxKey req) = true → seq_fits req → SubmitTx req s = (s', Ok (inr tt)) →
  (∃ tx, authentic req tx ∧ tm_txChan (s_tm s') = tm_txChan (s_tm s) ++ [tx] ∧ proposable tx (s_tm s')) ∧
  ∃ s'', QueryTx (mkQueryTxRequest (sr_NetworkID req) (sr_TxKey req)) s' = (s'', Ok (inr (Some (mkTxStatus ACCEPTED "" "")))).
Proof. apply submitted_accepted. Qed.

(** The node of [Engine.solo], started as a network of its own: it opens the ledger, agrees with itself and closes the second one. *)
Module solo_node.
Import states solo.

Definition conf : Config :=
  mkConfig "validator" (b58_Encode "0123456789abcdef0123456789abcdef") "here:1" [] 5 "me" seed "log" "boltdb" "path" (Some quorum) 5.
Definition ctx : EngineContext boltdb string :=
  mkEngineContext boltdb string (nc_NetworkID conf) seed "me" "validator" MaxDecrees
    (Some (Peer.NewManager [] (nc_NetworkID conf) "here:1" "me" 5)) (Some tt) (Some (NewLedgerManager (TxManager.NewManager db)))
    (Some tt) (Some quorum) 5.
Definition e0 : Engine boltdb string :=
  mkEngine boltdb string (nc_NetworkID conf) seed "me" "validator" quorum qhash MaxDecrees 5
    (Peer.NewManager [] (nc_NetworkID conf) "here:1" "me" 5)
    (NewValidator (NewLedgerManager (TxManager.NewManager db)) MaxDecrees) ∅ [] [] [] 0 zero_time [] [].
Definition s0 : NodeServer (Node boltdb string) :=
  mkNodeServer (Node boltdb string) (nc_NetworkID conf) "here:1" "me" ∅ (mkNode boltdb string e0 None []).

Lemma s0_new : NewNode 0 conf db = Ok s0.
Proof.
  assert (ValidateEngineContext (Some ctx) = Ok tt) as Hv by (vm_compute; reflexivity).
  assert (quorum_hash quorum = Ok qhash) as Hq by (vm_compute; reflexivity).
  assert (NewEngine 0 (Some ctx) = Ok e0) as He.
  { unfold NewEngine. rewrite Hv. cbn [deref res_bind ctx ec_PM ec_LM ec_Quorum]. by rewrite Hq. }
  unfold NewNode. change (mkEngineContext _ _ _ _ _ _ _ _ _ _ _ _ _) with ctx. rewrite He. reflexivity.
Qed.

Definition n1 : Node boltdb string := (Start 40 10 7 (nc_NetworkID conf) true (srv_node s0)).1.
Definition said : Engine boltdb string := (send_statement (nd_engine n1)).1.
Definition closed : Engine boltdb string := (recv_externalized GenesisBaseReserve 40 20 30 9 said).1.
Definition at_engine (e : Engine boltdb string) : NodeServer (Node boltdb string) :=
  set_node (set_engine e n1) s0.

Lemma started : (Start 40 10 7 (nc_NetworkID conf) true (srv_node s0)).2 = Ok tt.
Proof. vm_compute. reflexivity. Qed.
Lemma new_db : new_database db.
Proof.
  split; [exact I|]. split.
  - assert (forallb (λ b, bool_decide (is_Some (db !! b))) (txset_bucket :: validator_bucket :: ledger_buckets) = true) as H
      by (vm_compute; reflexivity).
    rewrite forallb_forall in H. intros b Hb. exact (bool_decide_eq_true_1 _ (H b (proj1 (list_elem_of_In _ _) Hb))).
  - intros k. split; apply solo_safe.empty_view; vm_compute; reflexivity.
Qed.
Lemma engine_goes_on (e e' : Engine boltdb string) n s : engine_step (T:=boltdb) GenesisBaseReserve 40 e e' →
  node_step (T:=boltdb) 40 (set_node (set_engine e n) s) (set_node (set_engine e' n) s).
Proof. intros H. exact (ns_engine 40 e' (set_node (set_engine e n) s) H). Qed.
Lemma engine_moves (n : Node boltdb string) s e : engine_step (T:=boltdb) GenesisBaseReserve 40 (nd_engine n) e →
  node_step (T:=boltdb) 40 (set_node n s) (set_node (set_engine e n) s).
Proof. intros H. exact (ns_engine 40 e (set_node n s) H). Qed.
Lemma node_closed_reached : rtc (node_step (T:=boltdb) 40) (set_node n1 s0) (at_engine closed).
Proof.
  refine (rtc_l _ _ (at_engine said) _ _ _).
  - exact (engine_moves n1 s0 said (es_send _ _ (nd_engine n1))).
  - exact (rtc_once _ _ (engine_goes_on said closed n1 s0 (es_ext _ _ 20 30 9 said))).
Qed.

Example solo_closes : NextLedgerHeaderSeq (e_lm closed) = 3.
Proof. vm_compute. reflexivity. Qed.

Lemma node_invariant_witness : chain_ok (e_lm closed) ∧ ∀ t, txset_at (e_validator closed) txkey = Some t → GetTxSetKey t = Ok txkey.
Proof.
  destruct (node_invariant 40 0 10 7 conf db s0 (at_engine closed) n1 new_db s0_new (run_eq _ _ _ started) node_closed_reached) as (H1 & H2 & _).
  split; [exact H1|exact (H2 txkey)].
Defined.

(** The master account sends a note. *)
Definition master : string * string := match GetAccountKeypairFromSeed "0123456789abcdef0123456789abcdef" with Ok p => p | _ => ("", "") end.
Definition note : Tx := mkTx master.1 1000 "hello" 2 [].
Definition request : SubmitTxRequest :=
  mkSubmitTxRequest (nc_NetworkID conf) (default "" (Encode note)) (match GetTxKey note with Ok k => k | _ => "" end)
    (match Sign master.2 (default "" (Encode note)) with Ok x => x | _ => "" end).
Definition served : NodeServer (Node boltdb string) := (SubmitTx request (at_engine closed)).1.
Lemma request_facts : bool_decide (sr_TxKey request ∈ tm_txSet (s_tm (at_engine closed))) = false ∧ IsValidTxKey (sr_TxKey request) = true ∧
  (SubmitTx request (at_engine closed)).2 = Ok (inr tt).
Proof. vm_compute. repeat split; reflexivity. Qed.

Lemma submitted_tx_is_accepted_witness : ∃ s'',
  QueryTx (mkQueryTxRequest (sr_NetworkID request) (sr_TxKey request)) served = (s'', Ok (inr (Some (mkTxStatus ACCEPTED "" "")))).
Proof.
  destruct request_facts as (H1 & H2 & H3).
  assert (seq_fits request) as Hfit by (intros tx Htx; vm_compute in Htx; injection Htx as <-; discriminate).
  exact (proj2 (submitted_tx_is_accepted request (at_engine closed) served (bool_decide_eq_false_1 _ H1) H2 Hfit (run_eq _ _ _ H3))).
Defined.

(** Its configuration, from a file. *)
Definition file : viper := mkViper (λ k, if decide (k = "role") then "validator" else if decide (k = "node_id") then "me" else
  if decide (k = "seed") then seed else k) (λ _, 5) (λ _, []) (λ _, Some (quorum_entries quorum)).
Definition file_conf : Config :=
  mkConfig "validator" (SHA256Hash "network_id") "network_addr" [] 5 "me" seed "log_file" "db_backend" "db_path" (Some quorum) 5.
Lemma configured_node_starts_witness : ∃ s : NodeServer (Node boltdb string), NewNode 0 file_conf db = Ok s.
Proof.
  assert (NewConfig 3 file = Ok file_conf) as Hc by (vm_compute; reflexivity).
  assert (∀ q, nc_Quorum file_conf = Some q → is_Some (Encode q)) as He by (intros q [= <-]; by eexists).
  destruct (configured_node_starts (C:=string) 3 file file_conf 0 db Hc He) as (s & Hs & _). exists s. exact Hs.
Defined.

End solo_node.
