(* ===== verification/Requests.v ===== *)
(** The requests of the server as goroutines: the handlers of [rpc/server.go], the channels of futures, and the two loops of
    [node/node.go], [eventLoop] and [serveNode], that serve them.

    A handler sends its future on an unbuffered channel, so that it waits until the loop of that channel takes it, and then waits in [f.Error()];
    a loop takes a future only in its select, runs the operation, and answers; after [Stop] a loop returns from its select
    at some time and takes nothing any more.  Meanwhile the rest of the node may do anything to its state.  A panic ends the process.  [Server]
    has a request as one call ([ask_wait]): [ask_wait_runs] shows that this is the run in which nobody interferes.

    An operation under way is a state of its own ([Served]), which lasts until the operation comes back.  One of them, [RecvStatement], sends on channels of the
    validator; that it comes back is what a step [work_answer] says, not a theorem. *)

From stdpp Require Import relations.
From S2P Require Import Prelude Pipeline Lru Pb Db Crypto Keypair Account TxManager Ledger Frame Checkpoint Quorum Ballot Rpc Peer Federated Decree Nomination Outgoing Future Validator Engine EngineSafety Server Config Node.

Section requests.
Context {D C : Type} {StoreD : Store D} {Pbc : PbCodec} {GoRt : GoRuntime} {Crypto : CryptoLib}.
Context {QuorumCodec : Codec Quorum} {StatementCodec : Codec Statement}.

(** * Futures *)

Inductive fut :=
| FPeer (f : future.Peer)
| FStmt (f : future.Statement)
| FLedger (f : future.Ledger)
| FQuorum (f : future.Quorum)
| FTxSet (f : future.TxSet)
| FTx (f : future.Tx)
| FTxStatus (f : future.TxStatus)
| FAccount (f : future.Account).

Definition fut_err (f : fut) : deferError :=
  match f with
  | FPeer f => future.f_Peer_err f
  | FStmt f => future.f_Stmt_err f
  | FLedger f => future.f_Ledger_err f
  | FQuorum f => future.f_Quorum_err f
  | FTxSet f => future.f_TxSet_err f
  | FTx f => future.f_Tx_err f
  | FTxStatus f => future.f_TxStatus_err f
  | FAccount f => future.f_Account_err f
  end.

(** The cases of the two selects. *)
Inductive loop := EventLoop | ServeLoop.
#[global] Instance loop_eq_dec : EqDecision loop.
Proof. solve_decision. Defined.
Definition loop_of (f : fut) : loop := match f with FTx _ | FTxStatus _ | FAccount _ => ServeLoop | _ => EventLoop end.
Definition serve (f : fut) : M (Node D C) fut :=
  match f with
  | FPeer f => let! f := serve_peer f in ret (FPeer f)
  | FStmt f => let! f := serve_stmt f in ret (FStmt f)
  | FLedger f => let! f := serve_ledger f in ret (FLedger f)
  | FQuorum f => let! f := serve_quorum f in ret (FQuorum f)
  | FTxSet f => let! f := serve_txset f in ret (FTxSet f)
  | FTx f => let! f := serve_tx f in ret (FTx f)
  | FTxStatus f => let! f := serve_txstatus f in ret (FTxStatus f)
  | FAccount f => let! f := serve_account f in ret (FAccount f)
  end.

(** * Handlers and loops *)

(** A handler: sending its future; its future taken, the operation under way; the loop done with the future, which is now [f']; back from [f.Error()]. *)
Inductive handler :=
| Asking (f : fut)
| Served (f : fut)
| Waiting (f f' : fut)
| Finished (f : fut) (e : option string).
Definition asked (h : handler) : fut := match h with Asking f | Served f | Waiting f _ | Finished f _ => f end.

Record desk := mkDesk {
  q_node : Node D C;
  q_handlers : list handler;
  q_stopped : bool;           (** [stopChan] is closed *)
  q_returned : loop → bool;   (** the loop has returned *)
}.
Definition set_handler (i : nat) (h : handler) (n : Node D C) (q : desk) : desk :=
  mkDesk n (<[i := h]> (q_handlers q)) (q_stopped q) (q_returned q).
Definition serves (l : loop) (h : handler) : bool := match h with Served f => bool_decide (loop_of f = l) | _ => false end.
(** The loop is not in its select. *)
Definition busy (l : loop) (q : desk) : bool := existsb (serves l) (q_handlers q).

(** What handlers and loops do; [None] is the end of the process. *)
Inductive work : relation (option desk) :=
| work_take i f q : q_handlers q !! i = Some (Asking f) → busy (loop_of f) q = false → q_returned q (loop_of f) = false →
    work (Some q) (Some (set_handler i (Served f) (q_node q) q))
| work_answer i f f' n q : q_handlers q !! i = Some (Served f) → serve f (q_node q) = (n, Ok f') →
    work (Some q) (Some (set_handler i (Waiting f f') n q))
| work_die i f q : q_handlers q !! i = Some (Served f) → (∀ n f', serve f (q_node q) ≠ (n, Ok f')) → work (Some q) None
| work_wake i f f' d e q : q_handlers q !! i = Some (Waiting f f') → Error (fut_err f') = Some (Ok (d, e)) →
    work (Some q) (Some (set_handler i (Finished f e) (q_node q) q)).

(** Together with new requests, the rest of the node, and its stop. *)
Inductive desk_step : relation (option desk) :=
| desk_work o o' : work o o' → desk_step o o'
| desk_arrive f q : fut_err f = new_future →
    desk_step (Some q) (Some (mkDesk (q_node q) (q_handlers q ++ [Asking f]) (q_stopped q) (q_returned q)))
| desk_node n q : desk_step (Some q) (Some (mkDesk n (q_handlers q) (q_stopped q) (q_returned q)))
| desk_stop q : desk_step (Some q) (Some (mkDesk (q_node q) (q_handlers q) true (q_returned q)))
| desk_return l q : q_stopped q = true → busy l q = false →
    desk_step (Some q) (Some (mkDesk (q_node q) (q_handlers q) (q_stopped q) (λ l', bool_decide (l' = l) || q_returned q l'))).

Definition desk_open (n : Node D C) : desk := mkDesk n [] false (λ _, false).

(** * The operations

    What is to be done for a request, and the error that it ends with. *)
Definition operation (f : fut) : M (Node D C) (option string) :=
  match f with
  | FPeer f => do! on_engine (on_pm (AddPeerAddr (future.f_Addr f))) in ret None
  | FStmt f => let! r := try (on_engine (RecvStatement (future.f_Stmt f))) in ret (err_of r)
  | FLedger f => let! r := try (on_engine (on_ledger (GetLedger (future.f_LedgerSeq f)))) in ret (err_of r)
  | FQuorum f => let! r := try (on_engine (Engine_GetQuorum (future.f_QuorumHash f))) in ret (err_of r)
  | FTxSet f => let! r := try (on_engine (Engine_GetTxSet (future.f_TxSetHash f))) in ret (err_of r)
  | FTx f => let! r := try (on_engine (on_ledger (on_tm (AddTx GenesisBaseReserve (future.f_TxKey f) (future.f_Tx f))))) in ret (err_of r)
  | FTxStatus f => let! r := try (on_engine (on_ledger (on_tm (GetTxStatus (future.f_TxStatusKey f))))) in ret (err_of r)
  | FAccount f => let! r := try (on_engine (on_ledger (ledger_db (GetAccount (future.f_AccountID f))))) in ret (err_of r)
  end.

Ltac run_m := match goal with |- context [match ?m ?n with (_, _) => _ end] => destruct (m n) as [? [?|?|?|]]; simpl end.

Lemma serve_operation f n : fut_err f = new_future →
  match operation f n with
  | (n', Ok e) => ∃ f', serve f n = (n', Ok f') ∧ fut_err f' = answered e
  | _ => ∀ n' f', serve f n ≠ (n', Ok f')
  end.
Proof.
  destruct f as [f|f|f|f|f|f|f|f]; simpl; intros Hf; unfold answer_peer, answer_stmt, answer_ledger, answer_quorum, answer_txset, answer_tx,
    answer_txstatus, answer_account; rewrite Hf; unfold bind, try, lift, ret; run_m; try done; by eexists.
Qed.

(** * The invariant *)

Definition done_with (f : fut) (e : option string) : Prop := ∃ n n', operation f n = (n', Ok e).
Definition handler_ok (h : handler) : Prop :=
  match h with
  | Asking f | Served f => fut_err f = new_future
  | Waiting f f' => ∃ e, fut_err f' = answered e ∧ done_with f e
  | Finished f e => done_with f e
  end.
Definition desk_ok (o : option desk) : Prop :=
  match o with
  | Some q => Forall handler_ok (q_handlers q) ∧ ∀ l, q_returned q l = true → q_stopped q = true
  | None => True
  end.

Lemma set_handler_ok i h n q : handler_ok h → desk_ok (Some q) → desk_ok (Some (set_handler i h n q)).
Proof. intros Hh [Hq Hr]. split; [|done]. simpl. by apply Forall_insert. Qed.
Lemma handler_at i h q : desk_ok (Some q) → q_handlers q !! i = Some h → handler_ok h.
Proof. intros [Hq _] Hi. by eapply Forall_lookup_1. Qed.

Lemma work_ok o o' : work o o' → desk_ok o → desk_ok o'.
Proof.
  intros [i f q Hi _ _|i f f' n q Hi Hs|i f q Hi _|i f f' d e q Hi He] Hok; [..|done|]; apply set_handler_ok; try done.
  - exact (handler_at _ _ _ Hok Hi).
  - pose proof (handler_at _ _ _ Hok Hi) as Hf. pose proof (serve_operation f (q_node q) Hf) as Ho.
    destruct (operation f (q_node q)) as [n' [e|?|?|]] eqn:Hop; [|by destruct (Ho n f')..].
    destruct Ho as (f1 & Hs' & Ha). rewrite Hs' in Hs. injection Hs as <- <-. exists e. split; [done|]. by exists (q_node q), n'.
  - destruct (handler_at _ _ _ Hok Hi) as (e1 & Ha & Hd). rewrite Ha in He. simpl in He. by injection He as _ <-.
Qed.
Lemma desk_step_ok o o' : desk_step o o' → desk_ok o → desk_ok o'.
Proof.
  intros [?? Hw|f q Hf|n q|q|l q Hs _]; [by apply work_ok|..]; intros [Hq Hr]; (split; [|try done]); simpl; try done.
  apply Forall_app. split; [done|]. by constructor.
Qed.

(** The work that is left. *)
Definition handler_weight (h : handler) : nat := match h with Asking _ => 3 | Served _ => 2 | Waiting _ _ => 1 | Finished _ _ => 0 end.
Definition desk_weight (o : option desk) : nat := match o with Some q => sum_list_with handler_weight (q_handlers q) | None => 0 end.
Lemma work_weight o o' : work o o' → (desk_weight o' < desk_weight o)%nat.
Proof.
  intros [i f q Hi _ _|i f f' n q Hi _|i f q Hi _|i f f' d e q Hi _]; simpl;
    [pose proof (sum_list_with_insert handler_weight _ i _ (Served f) Hi)|pose proof (sum_list_with_insert handler_weight _ i _ (Waiting f f') Hi)
    |pose proof (sum_list_with_insert handler_weight _ i _ (Waiting f f) Hi)|pose proof (sum_list_with_insert handler_weight _ i _ (Finished f e) Hi)];
    simpl in *; lia.
Qed.
Lemma works_bounded k o o' : nsteps work k o o' → (k + desk_weight o' <= desk_weight o)%nat.
Proof. induction 1 as [|k a b c H%work_weight _ IH]; lia. Qed.
Lemma desk_weight_max q : (desk_weight (Some q) <= 3 * length (q_handlers q))%nat.
Proof. simpl. induction (q_handlers q) as [|[] l IH]; simpl in *; lia. Qed.

(** Work changes no request, and neither opens nor closes a loop. *)
Definition same_requests (o o' : option desk) : Prop :=
  match o, o' with
  | Some q, Some q' => asked <$> q_handlers q' = asked <$> q_handlers q ∧ q_stopped q' = q_stopped q
  | None, Some _ => False
  | _, None => True
  end.
Lemma work_requests o o' : work o o' → same_requests o o'.
Proof.
  intros [i f q Hi _ _|i f f' n q Hi _|i f q Hi _|i f f' d e q Hi _]; simpl; [..|done|]; (split; [|done]); rewrite list_fmap_insert;
    apply list_insert_id; by rewrite list_lookup_fmap, Hi.
Qed.
Lemma works_requests k o o' : nsteps work k o o' → same_requests o o'.
Proof.
  induction 1 as [[q|]|k a b c H%work_requests _ IH]; [done|done|]. destruct a, b, c; simpl in *; try done. destruct H, IH. split; congruence.
Qed.

(** Without a stop, someone can go on as long as a handler is not back. *)
Lemma work_goes_on q i h : desk_ok (Some q) → q_stopped q = false → q_handlers q !! i = Some h →
  (∃ f e, h = Finished f e) ∨ ∃ o, work (Some q) o.
Proof.
  intros Hok Hs Hi.
  assert (∀ j f, q_handlers q !! j = Some (Served f) → ∃ o, work (Some q) o) as Hserved.
  { intros j f Hj. pose proof (serve_operation f (q_node q) (handler_at _ _ _ Hok Hj)) as Ho.
    destruct (operation f (q_node q)) as [n' [e|?|?|]]; [destruct Ho as (f' & Hf' & _); eexists; by eapply work_answer|eexists; by eapply work_die..]. }
  pose proof (handler_at _ _ _ Hok Hi) as Hh. destruct h as [f|f|f f'|f e]; [right..|left; eauto].
  - destruct (busy (loop_of f) q) eqn:Hb.
    + apply existsb_exists in Hb as (h & Hin%list_elem_of_In & Hserves). apply list_elem_of_lookup in Hin as [j Hj].
      destruct h as [|f1| |]; try done. by eapply Hserved.
    + eexists. apply (work_take i f); [done|done|]. destruct (q_returned q (loop_of f)) eqn:Hr; [|done].
      apply (proj2 Hok) in Hr. congruence.
  - by eapply Hserved.
  - destruct Hh as (e & Ha & _). eexists. eapply (work_wake i f f'); [done|]. by rewrite Ha.
Qed.

(** After the end of its loop a request that was not taken waits for ever. *)
Lemma stranded_step i f o o' : desk_step o o' →
  (∀ q, o = Some q → q_handlers q !! i = Some (Asking f) ∧ q_returned q (loop_of f) = true) →
  ∀ q, o' = Some q → q_handlers q !! i = Some (Asking f) ∧ q_returned q (loop_of f) = true.
Proof.
  intros [?? Hw|f' q0 _|n q0|q0|l q0 _ _] H q Hq; [|simplify_eq; destruct (H _ eq_refl); split; simpl; try done..].
  - destruct Hw as [j g q0 Hj Hb Hr|j g g' n q0 Hj _|j g q0 Hj _|j g g' d e q0 Hj _]; simplify_eq; destruct (H _ eq_refl) as [Hi Ht];
      (split; [|done]); simpl; (rewrite list_lookup_insert_ne; [done|]); intros ->; rewrite Hi in Hj; simplify_eq. congruence.
  - by rewrite lookup_app_l by (by eapply lookup_lt_Some).
  - by rewrite orb_true_iff; right.
Qed.

(** A request that nobody interferes with is the call of [Server]. *)
Definition alone (n : Node D C) (h : handler) : option desk := Some (mkDesk n [h] false (λ _, false)).
Lemma ask_wait_runs f (s s' : NodeServer (Node D C)) f' e :
  ask_wait serve fut_err f s = (s', Ok (f', e)) → rtc work (alone (srv_node s) (Asking f)) (alone (srv_node s') (Finished f e)).
Proof.
  unfold ask_wait, ask, bind, lift, ret. destruct (serve f (srv_node s)) as [n [f1|?|?|]] eqn:Hf; simpl; try done.
  unfold await. destruct (Error (fut_err f1)) as [[[d e1]|?|?|]|] eqn:He; simpl; try done. intros [= <- <- <-].
  eapply rtc_l; [by apply (work_take 0 f)|]. eapply rtc_l; [by apply (work_answer 0 f f1 n)|]. apply rtc_once. by apply (work_wake 0 f f1 d e1).
Qed.

(** The process ends only of an operation that does not come back with an answer. *)
Lemma works_die k o : nsteps work k o None → o = None ∨ ∃ f n, ∀ n' f', serve f n ≠ (n', Ok f').
Proof.
  intros H. remember None as o' eqn:Ho. induction H as [|k a b c Hw _ IH]; [by left|]. destruct (IH Ho) as [Hb|?]; [|by right].
  right. rewrite Ho in Hb. revert Hb. destruct Hw as [| |i f q Hi Hs|]; [done|done| |done]. intros _. by exists f, (q_node q).
Qed.

(** A run of one request, and a desk where everyone is back. *)
Lemma serve_one i f f' d e n q :
  q_handlers q !! i = Some (Asking f) → busy (loop_of f) q = false → q_returned q (loop_of f) = false →
  serve f (q_node q) = (n, Ok f') → Error (fut_err f') = Some (Ok (d, e)) →
  nsteps work 3 (Some q) (Some (set_handler i (Finished f e) n q)).
Proof.
  intros Hi Hb Hr Hs He. pose proof (lookup_lt_Some _ _ _ Hi) as Hlt.
  eapply nsteps_l; [by apply (work_take i f)|].
  eapply nsteps_l; [apply (work_answer i f f' n); [by apply list_lookup_insert_eq|exact Hs]|].
  eapply nsteps_l; [apply (work_wake i f f' d e); [apply list_lookup_insert_eq; simpl; by rewrite length_insert|exact He]|].
  unfold set_handler. simpl. rewrite !list_insert_insert_eq. constructor.
Qed.
Lemma all_back_nf q : Forall (λ h, ∃ f e, h = Finished f e) (q_handlers q) → nf work (Some q).
Proof.
  intros Hf [o Hw]. inversion Hw as [i f q0 Hi|i f f' n q0 Hi|i f q0 Hi|i f f' d e q0 Hi]; subst;
    by destruct (Forall_lookup_1 _ _ _ _ Hf Hi) as (? & ? & ?).
Qed.

End requests.

(** * Properties *)

(** C34: requests are answered as long as the node is not stopped.  Let any requests arrive at any time, and let the handlers, the two loops and the rest of the
    node interleave in any way.  From any state that is reached without a stop, and if every operation that a loop runs comes back or ends the process, the handlers and
    loops are done after at most three steps for each request; then every request has been answered, with the error of its own operation, run on some
    state of the node, or an operation has ended the process. *)
Theorem every_request_answered {D C : Type} {StoreD : Store D} {Pbc : PbCodec} {GoRt : GoRuntime} {Crypto : CryptoLib}
    {QuorumCodec : Codec Quorum} {StatementCodec : Codec Statement} (n0 : Node D C) (q : desk) k o :
  rtc desk_step (Some (desk_open n0)) (Some q) → q_stopped q = false → nsteps work k (Some q) o →
  (k <= 3 * length (q_handlers q))%nat ∧
  (nf work o →
    (o = None ∧ ∃ f (n : Node D C), ∀ n' f', serve f n ≠ (n', Ok f')) ∨
    ∃ q', o = Some q' ∧ ∀ i h, q_handlers q !! i = Some h →
      ∃ e n n', q_handlers q' !! i = Some (Finished (asked h) e) ∧ operation (D:=D) (C:=C) (asked h) n = (n', Ok e)).
Proof.
  intros Hr Hs Hk. assert (desk_ok (Some q)) as Hok.
  { revert Hr. generalize (Some q). apply (rtc_ind_r desk_ok); [by split; [constructor|]|]. intros a b _ Hab. by apply desk_step_ok. }
  split; [pose proof (works_bounded _ _ _ Hk); pose proof (desk_weight_max q); lia|]. intros Hnf.
  destruct o as [q'|]; [right|left; split; [done|by destruct (works_die _ _ Hk)]]. exists q'. split; [done|].
  destruct (works_requests _ _ _ Hk) as [Ha Hst]. assert (desk_ok (Some q')) as Hok'.
  { clear Hnf. apply rtc_nsteps_2 in Hk. revert Hk. generalize (Some q'). apply (rtc_ind_r desk_ok); [done|]. intros a b _ Hab. by apply work_ok. }
  intros i h Hi. assert (asked <$> q_handlers q' !! i = Some (asked h)) as Hi' by by rewrite <-list_lookup_fmap, Ha, list_lookup_fmap, Hi.
  destruct (q_handlers q' !! i) as [h'|] eqn:Hh; [|done]. injection Hi' as <-.
  destruct (work_goes_on q' i h' Hok' ltac:(congruence) Hh) as [(f & e & ->)|Hw]; [|by destruct Hnf].
  destruct (handler_at _ _ _ Hok' Hh) as (n & n' & Ho). by exists e, n, n'.
Qed.

(** A request that comes too late is never answered.  When the loop of a request has returned before it took the future, the handler waits for ever, and with
    it [GracefulStop], which waits for the handlers. *)
Theorem stopped_loop_strands {D C : Type} {StoreD : Store D} {Pbc : PbCodec} {GoRt : GoRuntime} {Crypto : CryptoLib}
    {QuorumCodec : Codec Quorum} {StatementCodec : Codec Statement} (q q' : desk (D:=D) (C:=C)) i f :
  q_handlers q !! i = Some (Asking f) → q_returned q (loop_of f) = true → rtc desk_step (Some q) (Some q') →
  q_handlers q' !! i = Some (Asking f).
Proof.
  intros Hi Hr Hs.
  assert (∀ q1, Some q' = Some q1 → q_handlers q1 !! i = Some (Asking f) ∧ q_returned q1 (loop_of f) = true) as H; [|by apply H].
  revert Hs. generalize (Some q').
  apply (rtc_ind_r (λ o, ∀ q1, o = Some q1 → q_handlers q1 !! i = Some (Asking f) ∧ q_returned q1 (loop_of f) = true)).
  - by intros q1 [= <-].
  - intros a b _ Hab IH. by apply (stranded_step i f a b).
Qed.

(** * Requests to the node of [solo_node] *)

Module two_requests.
Import states solo solo_node.

Definition status_query : fut := FTxStatus (future.mkTxStatus new_future "key" None).
Definition peer : fut := FPeer (future.mkPeer new_future "there:1").
Definition start : desk := mkDesk n1 [Asking status_query; Asking peer] false (λ _, false).
Definition served_query := serve status_query n1.
Definition served_peer := serve peer served_query.1.
Definition finish : desk := set_handler 1 (Finished peer None) served_peer.1 (set_handler 0 (Finished status_query None) served_query.1 start).

Lemma start_reached : rtc desk_step (Some (desk_open n1)) (Some start).
Proof.
  eapply rtc_l; [by apply (desk_arrive status_query)|]. apply rtc_once. by apply (desk_arrive peer).
Qed.
Definition the_fut (r : res fut) : fut := match r with Ok f => f | _ => peer end.
Lemma served_eq f (n : Node boltdb string) : (serve f n).2 = Ok (the_fut (serve f n).2) → serve f n = ((serve f n).1, Ok (the_fut (serve f n).2)).
Proof. intros H. by rewrite <-H, <-surjective_pairing. Qed.
Lemma finish_served : nsteps work 6 (Some start) (Some finish).
Proof.
  assert (served_query.2 = Ok (the_fut served_query.2)) as H1 by (vm_compute; reflexivity).
  assert (served_peer.2 = Ok (the_fut served_peer.2)) as H2 by (vm_compute; reflexivity).
  assert (∃ d, Error (fut_err (the_fut served_query.2)) = Some (Ok (d, None))) as [d1 E1] by (eexists; vm_compute; reflexivity).
  assert (∃ d, Error (fut_err (the_fut served_peer.2)) = Some (Ok (d, None))) as [d2 E2] by (eexists; vm_compute; reflexivity).
  apply (nsteps_trans 3 3 _ (Some (set_handler 0 (Finished status_query None) served_query.1 start))).
  - apply (serve_one 0 status_query _ d1 None _ start eq_refl eq_refl eq_refl (served_eq status_query n1 H1) E1).
  - apply (serve_one 1 peer _ d2 None _ (set_handler 0 (Finished status_query None) served_query.1 start) eq_refl eq_refl eq_refl
      (served_eq peer served_query.1 H2) E2).
Qed.

Lemma every_request_answered_witness : ∃ e n n', q_handlers finish !! 1%nat = Some (Finished peer e) ∧ operation (D:=boltdb) (C:=string) peer n = (n', Ok e).
Proof.
  destruct (every_request_answered n1 start 6 (Some finish) start_reached eq_refl finish_served) as [_ H].
  destruct H as [[H _]|(q' & Hq & H)].
  - apply all_back_nf. repeat constructor; eauto.
  - discriminate H.
  - injection Hq as <-. exact (H 1%nat (Asking peer) eq_refl).
Defined.

(** The peer's handler is still sending when the node is stopped and its loop returns. *)
Definition stopped : desk := mkDesk n1 [Asking status_query; Asking peer] true (λ l, bool_decide (l = EventLoop) || false).
Lemma stopped_reached : rtc desk_step (Some (desk_open n1)) (Some stopped).
Proof.
  etrans; [exact start_reached|]. eapply rtc_l; [apply desk_stop|]. apply rtc_once. by apply (desk_return EventLoop).
Qed.
Lemma peer_stranded q : rtc desk_step (Some stopped) (Some q) → q_handlers q !! 1%nat = Some (Asking peer).
Proof. exact (stopped_loop_strands stopped q 1 peer eq_refl eq_refl). Qed.

End two_requests.
