(* ===== verification/Channels.v ===== *)
(** The unbuffered channels of the engine, [statementChan] and [externalizeChan] of [consensus/engine.go].

    Elsewhere a channel is a queue and the case of a select runs to its end.  Here a send waits for its receiver: a goroutine whose case has sent
    something goes on only when each statement has been taken by the goroutine of messages and each value by the goroutine of
    values, and these take something only in their selects.  The order of a goroutine's statements and values is left open, which allows more than the
    code does.  The goroutine that receives the values also proposes the next one, and a proposal can externalize at once. *)

From stdpp Require Import relations.
From S2P Require Import Prelude Lru Pb Db Crypto Keypair Account TxManager Ledger Frame Checkpoint Quorum Ballot Rpc Peer Federated Decree Nomination Future Validator Engine EngineSafety Server Config Node.

(** The three goroutines of [Engine.Start], and those of the timers, of re-nominations and of the start of the node. *)
Inductive goroutine := Messages | Statements | Values | Other (n : nat).
#[global] Instance goroutine_eq_dec : EqDecision goroutine.
Proof. solve_decision. Defined.

Section channels.
Context {D T C : Type} {StoreD : Store D} {StoreT : Store T} {TxDb : TxDatabase D T}.
Context {Pbc : PbCodec} {GoRt : GoRuntime} {Crypto : CryptoLib} {Ed : Ed25519}.
Context {QuorumCodec : Codec Quorum} {StatementCodec : Codec Statement}.
Variables (baseReserve : Z) (fuel : nat).
Implicit Types e : Engine D C.

(** What a goroutine still has to send. *)
Abbreviation sends := (list (nat * MStatement) * list (Z * string))%type.

Record system := mkSystem { y_engine : Engine D C; y_sends : goroutine → sends }.
Implicit Types y : system.
Definition idle (s : sends) : Prop := s = ([], []).
Definition set_sends (g : goroutine) (s : sends) (f : goroutine → sends) : goroutine → sends :=
  λ g', if decide (g' = g) then s else f g'.

(** Run a case on what was received: the engine, and what the case sends. *)
Definition run_case (received : sends) (m : M (Engine D C) unit) e : Engine D C * sends :=
  let e' := (m (set_chans received.1 received.2 e)).1 in (set_chans [] [] e', (e_statementChan e', e_externalizeChan e')).

(** The cases that receive from neither channel. *)
Inductive own_case : goroutine → M (Engine D C) unit → Prop :=
| case_txset call indices : own_case Messages (download_txset call indices)
| case_quorum call indices : own_case Messages (download_quorum call indices)
| case_ready : own_case Statements (recv_ready fuel)
| case_rebroadcast : own_case Values rebroadcast
| case_timer n i now unix : own_case (Other n) (fire_timer fuel i now unix)
| case_renominate n o i : own_case (Other n) (fire_renomination fuel o i)
| case_Propose n now unix : own_case (Other n) (Propose fuel now unix).

Inductive system_step : system → system → Prop :=
| y_case g m y r : own_case g m → idle (y_sends y g) → r = run_case ([], []) m (y_engine y) →
    system_step y (mkSystem r.1 (set_sends g r.2 (y_sends y)))
| y_message g x ss xs y r : y_sends y g = (x :: ss, xs) → idle (y_sends y Messages) →
    r = run_case ([x], []) send_statement (y_engine y) →
    system_step y (mkSystem r.1 (set_sends Messages r.2 (set_sends g (ss, xs) (y_sends y))))
| y_value g x ss xs now now' unix y r : y_sends y g = (ss, x :: xs) → idle (y_sends y Values) →
    r = run_case ([], [x]) (recv_externalized (T:=T) baseReserve fuel now now' unix) (y_engine y) →
    system_step y (mkSystem r.1 (set_sends Values r.2 (set_sends g (ss, xs) (y_sends y))))
| y_world pm v y : system_step y (mkSystem (set_world pm v (y_engine y)) (y_sends y)).

(** Everyone in its select. *)
Definition at_rest e : system := mkSystem (set_chans [] [] e) (λ _, ([], [])).

(** * Lemmas *)

(** The goroutine of messages sends nothing itself. *)
Definition chans_kept e e' : Prop := e_statementChan e' = e_statementChan e ∧ e_externalizeChan e' = e_externalizeChan e.
#[local] Instance chans_kept_preorder : PreOrder chans_kept.
Proof. split; [by intros e|]. intros a b c [H1 H2] [H3 H4]. split; congruence. Qed.
Lemma chans_validator {A} (m : M (Validator D) A) : preserves chans_kept (on_validator (C:=C) m).
Proof. intros e. unfold on_validator. by destruct (m (e_validator e)). Qed.
Lemma chans_modify (f : Engine D C → Engine D C) : (∀ e, chans_kept e (f e)) → preserves chans_kept (modify f).
Proof. intros Hf e. apply Hf. Qed.
#[local] Hint Resolve chans_validator : go_preserves.
#[local] Hint Extern 2 (preserves chans_kept (modify _)) => apply chans_modify; by intros ? : go_preserves.
Lemma chans_broadcast s : preserves chans_kept (broadcastStatement (D:=D) (C:=C) s).
Proof. unfold broadcastStatement. pres chans_kept. Qed.
#[local] Hint Resolve chans_broadcast : go_preserves.
Lemma chans_download_txset call indices : preserves chans_kept (download_txset (D:=D) (C:=C) call indices).
Proof. unfold download_txset, Engine_RecvTxSet. pres chans_kept. Qed.
Lemma chans_download_quorum call indices : preserves chans_kept (download_quorum (D:=D) (C:=C) call indices).
Proof. unfold download_quorum. pres chans_kept. Qed.

Lemma send_statement_quiet x e : idle (run_case ([x], []) send_statement e).2.
Proof.
  unfold run_case, send_statement. destruct x as [o m]. simpl. rewrite (bind_eq_Ok _ _ _ (set_chans [(o, m)] [] e) (set_chans [(o, m)] [] e)) by done. simpl.
  rewrite (bind_eq_Ok _ _ _ (set_chans [] [] e) tt) by done. set (k := bind _ _).
  assert (preserves chans_kept k) as Hk by (subst k; pres chans_kept). by destruct (Hk (set_chans [] [] e)) as [-> ->].
Qed.
Lemma messages_case m e : own_case Messages m → idle (run_case ([], []) m e).2.
Proof.
  intros Hm. assert (preserves chans_kept m) as Hk by (inversion Hm; subst; [apply chans_download_txset|apply chans_download_quorum]).
  unfold run_case. simpl. by destruct (Hk (set_chans [] [] e)) as [-> ->].
Qed.

Lemma set_sends_eq g s f : set_sends g s f g = s.
Proof. unfold set_sends. by rewrite decide_True. Qed.
Lemma set_sends_ne g g' s f : g' ≠ g → set_sends g s f g' = f g'.
Proof. intros H. unfold set_sends. by rewrite decide_False. Qed.

(** So it is always ready for a statement. *)
Lemma messages_idle y y' : system_step y y' → idle (y_sends y Messages) → idle (y_sends y' Messages).
Proof.
  intros Hs Hi. destruct Hs as [g m y r Hm Hg ->|g x ss xs y r Hg Hm ->|g x ss xs now now' unix y r Hg Hv _|]; cbn [y_sends]; [..|done].
  - destruct (decide (Messages = g)) as [<-|Hne]; [rewrite set_sends_eq; by apply messages_case|by rewrite set_sends_ne].
  - rewrite set_sends_eq. apply send_statement_quiet.
  - rewrite set_sends_ne by done. destruct (decide (Messages = g)) as [<-|Hne]; [by rewrite Hi in Hg|by rewrite set_sends_ne].
Qed.
Lemma messages_always_idle e y : rtc system_step (at_rest e) y → idle (y_sends y Messages).
Proof. apply (rtc_ind_r (λ y, idle (y_sends y Messages))); [done|]. intros y1 y2 _ Hs. by apply messages_idle. Qed.

(** A goroutine of values that sends a value waits for itself. *)
Definition waits_for_itself y : Prop := (y_sends y Values).2 ≠ [].
Lemma still_waits y y' : system_step y y' → waits_for_itself y → (y_sends y' Values).2 = (y_sends y Values).2.
Proof.
  unfold waits_for_itself.
  intros Hs Hw. destruct Hs as [g m y r Hm Hg _|g x ss xs y r Hg Hm _|g x ss xs now now' unix y r Hg Hv _|]; cbn [y_sends]; [..|done].
  - destruct (decide (Values = g)) as [<-|Hne]; [by rewrite Hg in Hw|by rewrite set_sends_ne].
  - rewrite set_sends_ne by done. destruct (decide (Values = g)) as [<-|Hne]; [by rewrite set_sends_eq, Hg|by rewrite set_sends_ne].
  - by rewrite Hv in Hw.
Qed.
Lemma waits_for_ever y y' : rtc system_step y y' → waits_for_itself y → (y_sends y' Values).2 = (y_sends y Values).2.
Proof.
  induction 1 as [|y1 y2 y3 H12 _ IH]; [done|]. intros Hw. pose proof (still_waits _ _ H12 Hw) as H.
  rewrite IH; [done|]. unfold waits_for_itself in *. by rewrite H.
Qed.

End channels.

(** * Properties *)

(** C25: when the engine waits, and when it waits for ever.  From the start of its goroutines on: every statement that some goroutine has to send can be taken at once; every
    value too, as long as the goroutine of values is in its select; and once that goroutine has a value to send itself, which it does when
    its own proposal externalizes, it has that value to send for ever: no externalized value is received any more, whatever the others do. *)
Theorem engine_waits {D T C : Type} {StoreD : Store D} {StoreT : Store T} {TxDb : TxDatabase D T} {Pbc : PbCodec} {GoRt : GoRuntime}
    {Crypto : CryptoLib} {Ed : Ed25519} {QuorumCodec : Codec Quorum} {StatementCodec : Codec Statement} (baseReserve : Z) (fuel : nat)
    (e : Engine D C) (y : system) :
  rtc (system_step (T:=T) baseReserve fuel) (at_rest e) y →
  (∀ g x ss xs, y_sends y g = (x :: ss, xs) → ∃ y', system_step (T:=T) baseReserve fuel y y' ∧ y_sends y' g = (ss, xs)) ∧
  (∀ g x ss xs, y_sends y g = (ss, x :: xs) → idle (y_sends y Values) →
     ∃ y', system_step (T:=T) baseReserve fuel y y' ∧ y_sends y' g = (ss, xs)) ∧
  (∀ y', waits_for_itself y → rtc (system_step (T:=T) baseReserve fuel) y y' → (y_sends y' Values).2 = (y_sends y Values).2).
Proof.
  intros Hr. pose proof (messages_always_idle baseReserve fuel e y Hr) as Hm. split_and!.
  - intros g x ss xs Hg. eexists. split; [by eapply y_message|]. cbn [y_sends]. rewrite set_sends_ne by (intros ->; by rewrite Hm in Hg).
    apply set_sends_eq.
  - intros g x ss xs Hg Hv. eexists. split; [by apply (y_value baseReserve fuel g x ss xs 0 0 0)|]. cbn [y_sends].
    rewrite set_sends_ne by (intros ->; by rewrite Hv in Hg). apply set_sends_eq.
  - intros y' Hw Hy. by apply (waits_for_ever baseReserve fuel).
Qed.

(** * A node that is its own quorum *)

Module alone.
Import states solo solo_node.

(** The node of [solo_node] when its goroutines run and its ledger has been made: the goroutine of its start proposes, its statements are taken one by one, and then
    its value, nine seconds later, when the next proposal is due. *)
Definition made : Node boltdb string :=
  ((do! on_engine (on_ledger (CreateGenesisLedger 10)) in create_master "0123456789abcdef0123456789abcdef") (srv_node s0)).1.
Definition start : system := at_rest (nd_engine made).
Definition proposed : system :=
  let r := run_case ([], []) (Propose 40 10 7) (y_engine start) in mkSystem r.1 (set_sends (Other 0) r.2 (y_sends start)).
Definition take_message (y : system (D:=boltdb) (C:=string)) : system :=
  match y_sends y (Other 0) with
  | (x :: ss, xs) =>
      let r := run_case ([x], []) send_statement (y_engine y) in
      mkSystem r.1 (set_sends Messages r.2 (set_sends (Other 0) (ss, xs) (y_sends y)))
  | _ => y
  end.
Definition told : system := Nat.iter 6 take_message proposed.
Definition late : system :=
  match y_sends told (Other 0) with
  | (ss, x :: xs) =>
      let r := run_case ([], [x]) (recv_externalized (T:=boltdb) GenesisBaseReserve 40 20 9000000000 9) (y_engine told) in
      mkSystem r.1 (set_sends Values r.2 (set_sends (Other 0) (ss, xs) (y_sends told)))
  | _ => told
  end.

Lemma take_message_step y : idle (y_sends y Messages) → rtc (system_step (T:=boltdb) GenesisBaseReserve 40) y (take_message y).
Proof.
  intros Hi. unfold take_message. destruct (y_sends y (Other 0)) as [[|x ss] xs] eqn:Hg; [done|].
  apply rtc_once. by eapply y_message.
Qed.
Lemma proposed_reached : rtc (system_step (T:=boltdb) GenesisBaseReserve 40) start proposed.
Proof. apply rtc_once. by eapply (y_case _ _ (Other 0)); [apply case_Propose|..]. Qed.
Lemma messages_taken n : rtc (system_step (T:=boltdb) GenesisBaseReserve 40) start (Nat.iter n take_message proposed).
Proof.
  induction n as [|n IH]; [exact proposed_reached|]. cbn [Nat.iter nat_rect].
  etrans; [exact IH|]. apply take_message_step. exact (messages_always_idle _ _ _ _ IH).
Qed.
Lemma told_waits : length (y_sends told (Other 0)).2 = 1%nat ∧ y_sends told Values = ([], []) ∧ length (y_sends late Values).2 = 1%nat ∧
  NextLedgerHeaderSeq (e_lm (y_engine late)) = 3.
Proof. vm_compute. repeat split; reflexivity. Qed.
Lemma one_waits (y : system (D:=boltdb) (C:=string)) : length (y_sends y Values).2 = 1%nat → waits_for_itself y.
Proof. unfold waits_for_itself. by destruct (y_sends y Values).2. Qed.
Lemma late_reached : rtc (system_step (T:=boltdb) GenesisBaseReserve 40) start late.
Proof.
  destruct told_waits as (_ & Hv & _). pose proof (messages_taken 6 : rtc _ start told) as Hr. unfold late. revert Hv Hr. generalize told. intros y Hv Hr.
  destruct (y_sends y (Other 0)) as [ss [|x xs]] eqn:Hg; [exact Hr|]. etrans; [exact Hr|]. apply rtc_once. by eapply y_value.
Qed.

(** A node that is its own quorum stops for ever at its third ledger, if closing the second took as long as the interval between proposals:
    the goroutine of values waits for itself. *)
Theorem alone_stops : ∃ y, rtc (system_step (T:=boltdb) GenesisBaseReserve 40) start y ∧ waits_for_itself y ∧
  NextLedgerHeaderSeq (e_lm (y_engine y)) = 3.
Proof.
  destruct told_waits as (_ & _ & Hl & Hn). exists late. split; [exact late_reached|]. split; [exact (one_waits late Hl)|exact Hn].
Qed.

(** Another goroutine proposes again: the value that waits is not taken. *)
Definition again : system :=
  let r := run_case ([], []) (Propose 40 9000000001 9) (y_engine late) in mkSystem r.1 (set_sends (Other 1) r.2 (y_sends late)).
Lemma again_reached : rtc (system_step (T:=boltdb) GenesisBaseReserve 40) late again.
Proof.
  assert (idle (y_sends late (Other 1))) as Hi by (vm_compute; reflexivity).
  apply rtc_once. exact (y_case _ _ (Other 1) _ late _ (case_Propose _ 1 9000000001 9) Hi eq_refl).
Qed.
Lemma engine_waits_witness : length (y_sends again Values).2 = 1%nat.
Proof.
  destruct told_waits as (_ & _ & Hl & _).
  destruct (engine_waits GenesisBaseReserve 40 (nd_engine made) late late_reached) as (_ & _ & H).
  exact (eq_trans (f_equal length (H again (one_waits late Hl) again_reached)) Hl).
Defined.

End alone.
