(* ===== verification/Boot.v ===== *)
(** Opening and closing a node: the contexts of the components and their checks, the constructors with the buckets that they
    make, the composition of all of them in [NewNode], and the [Stop] of every component.

    The other files start from managers over a database whose buckets are there ([NewNode]).  Here the database is what
    [bolt.Open] gives: a new file without any bucket, or the file of an earlier run.  [boot_is_NewNode] shows that the constructors,
    run in the order of the code, make the node of [NewNode] over that database with its buckets. *)

From S2P Require Import Prelude Lru Pb Db Crypto Keypair Account Exchange TxManager Ledger Frame Checkpoint Quorum Ballot Rpc Peer Federated Decree Nomination Future Validator Engine EngineSafety Server Config Node.

(** * Buckets *)

Class BucketDatabase (D : Type) := db_NewBucket : string → M D unit.

(** [db/memdb]: nothing to do. *)
Definition memdb_NewBucket (name : string) : M memdb unit := ret tt.
#[global] Instance memdb_BucketDatabase : BucketDatabase memdb := memdb_NewBucket.
#[global] Instance boltdb_BucketDatabase : BucketDatabase boltdb := boltdb.NewBucket.

(** A new bucket can be used and is empty; what was there stays. *)
Class BucketLaws (D : Type) `{!Store D, !StoreLaws D, !BucketDatabase D} :=
  NewBucket_spec : ∀ (d : D) b, db_ok d → b ≠ "" → no_hash b →
    ∃ d', db_NewBucket b d = (d', Ok tt) ∧ db_ok d' ∧ db_bucket d' b ∧ (∀ b', db_bucket d b' → db_bucket d' b') ∧
      (∀ b' k, db_view d' b' k = db_view d b' k) ∧ (db_bucket d b → d' = d).

#[global] Instance memdb_BucketLaws `{!GoRuntime} : BucketLaws memdb.
Proof. intros d b Hd Hb Hn. exists d. by split_and!. Qed.
#[global] Instance boltdb_BucketLaws : BucketLaws boltdb.
Proof.
  intros d b _ Hb Hn. unfold db_NewBucket, boltdb_BucketDatabase, boltdb.NewBucket. rewrite decide_False by done.
  destruct (d !! b) as [m|] eqn:Hd; (eexists; split; [done|]); split_and!; simpl; try done.
  - by rewrite lookup_insert_eq.
  - intros b' Hb'. destruct (decide (b' = b)) as [->|Hne]; [by rewrite lookup_insert_eq|by rewrite lookup_insert_ne].
  - intros b' k. destruct (decide (b' = b)) as [->|Hne]; [|by rewrite lookup_insert_ne].
    rewrite lookup_insert_eq, Hd. simpl. by rewrite lookup_empty.
  - rewrite Hd. by intros [? [=]].
Qed.

(** * Constructors *)

(** Run a constructor: the object as it is left, or the end of the process. *)
Definition make {S} (m : M S unit) (s : S) : res S :=
  match m s with
  | (s', Ok _) => Ok s'
  | (_, Err e) => Err e
  | (_, Panic w) => Panic w
  | (_, NoFuel) => NoFuel
  end.

(** [log.Fatalf] on the error of a check. *)
Definition must {A} (w : string) (r : res A) : res A :=
  match r with Err e => Panic (w +:+ e) | r => r end.

Section constructors.
Context {D C : Type} {StoreD : Store D} {Buckets : BucketDatabase D}.
Context {Pbc : PbCodec} {GoRt : GoRuntime} {Crypto : CryptoLib} {Ed : Ed25519}.
Context {QuorumCodec : Codec Quorum} {StatementCodec : Codec Statement}.

(** ** [account] *)

Record AccountManager := mkAccountManager { am_bucket : string; am_baseReserve : Z; am_Master : option Account }.
Definition account_NewManager (baseReserve : Z) : M D AccountManager :=
  let am := mkAccountManager account_bucket baseReserve None in
  do! or_fatal ("create db bucket " +:+ am_bucket am +:+ " failed: ") (db_NewBucket (am_bucket am)) in
  ret am.

(** ** [exchange] *)

Record ExchangeManager := mkExchangeManager { em_bucket : string; em_offerBucket : string; em_AM : AccountManager }.
Definition exchange_NewManager (am : AccountManager) : M D ExchangeManager :=
  let em := mkExchangeManager exchange_bucket offer_bucket am in
  do! or_fatal "create exchange bucket failed: " (db_NewBucket (em_bucket em)) in
  do! or_fatal "create exchange offer bucket failed: " (db_NewBucket (em_offerBucket em)) in
  ret em.

(** ** [tx] *)

Record TxContext := mkTxContext {
  tc_NetworkID : string; tc_Database : option D; tc_AM : option AccountManager; tc_PM : option (PeerManager C);
  tc_EM : option ExchangeManager; tc_BaseReserve : Z; tc_Seed : string;
}.
Definition ValidateTxContext (mc : option TxContext) : res unit :=
  match mc with
  | None => Err "tx context is nil"
  | Some mc =>
      if decide (tc_NetworkID mc = "") then Err "network id is empty"
      else if bool_decide (¬ is_Some (tc_Database mc)) then Err "database instance is nil"
      else if bool_decide (¬ is_Some (tc_AM mc)) then Err "account manager is nil"
      else if bool_decide (¬ is_Some (tc_PM mc)) then Err "peer manager is nil"
      else if decide (tc_Seed mc = "") then Err "seed is empty"
      else Ok tt
  end.
Definition tx_NewManager (ctx : option TxContext) : res (TxManager.Manager D) :=
  let? _ := must "tx manager context is invalid: " (ValidateTxContext ctx) in
  let? ctx := deref ctx in
  let? d := deref (tc_Database ctx) in
  make (do! or_fatal "create tx status bucket failed: " (on_db (db_NewBucket status_bucket)) in
        or_fatal "create tx bucket failed: " (on_db (db_NewBucket tx_bucket)))
    (TxManager.NewManager d).

(** ** [ledger]

    The database of the transaction manager is the one of the context. *)
Record LedgerContext := mkLedgerContext {
  lc_NetworkID : string; lc_Seed : string; lc_Database : option unit; lc_AM : option AccountManager;
  lc_TM : option (TxManager.Manager D); lc_PM : option (PeerManager C);
}.
Definition ValidateLedgerContext (mc : option LedgerContext) : res unit :=
  match mc with
  | None => Err "manager context is nil"
  | Some mc =>
      if decide (lc_NetworkID mc = "") then Err "network id is empty"
      else if decide (lc_Seed mc = "") then Err "seed is empty"
      else if bool_decide (¬ is_Some (lc_Database mc)) then Err "database instance is nil"
      else if bool_decide (¬ is_Some (lc_AM mc)) then Err "account manager is nil"
      else if bool_decide (¬ is_Some (lc_TM mc)) then Err "tx manager is nil"
      else if bool_decide (¬ is_Some (lc_PM mc)) then Err "peer manager is nil"
      else Ok tt
  end.
Definition ledger_NewManager (ctx : option LedgerContext) : res (LedgerManager D) :=
  let? _ := must "validate manager context failed: " (ValidateLedgerContext ctx) in
  let? ctx := deref ctx in
  let? tm := deref (lc_TM ctx) in
  make (do! or_fatal ("create db bucket " +:+ ledger_bucket +:+ " failed: ") (ledger_db (db_NewBucket ledger_bucket)) in
        or_fatal ("create db bucket " +:+ txset_bucket +:+ " failed: ") (ledger_db (db_NewBucket txset_bucket)))
    (NewLedgerManager tm).

(** ** [consensus] *)

Record ValidatorContext := mkValidatorContext {
  vc_Database : option unit; vc_LM : option (LedgerManager D); vc_MaxDecrees : Z;
  vc_QuorumDownloadChan : option unit; vc_TxSetDownloadChan : option unit;
}.
Definition ValidateValidatorContext (vc : option ValidatorContext) : res unit :=
  match vc with
  | None => Err "validator context is nil"
  | Some vc =>
      if bool_decide (¬ is_Some (vc_Database vc)) then Err "db instance is nil"
      else if bool_decide (¬ is_Some (vc_LM vc)) then Err "ledger manager is nil"
      else if decide (vc_MaxDecrees vc = 0) then Err "max decrees is zero"
      else if bool_decide (¬ is_Some (vc_QuorumDownloadChan vc)) then Err "quorum download chan is nil"
      else if bool_decide (¬ is_Some (vc_TxSetDownloadChan vc)) then Err "txset download chan is nil"
      else Ok tt
  end.
Definition consensus_NewValidator (ctx : option ValidatorContext) : res (Validator D) :=
  let? _ := must "validator context is invalid: " (ValidateValidatorContext ctx) in
  let? ctx := deref ctx in
  let? lm := deref (vc_LM ctx) in
  make (or_fatal "create validator bucket failed: " (on_lm (ledger_db (db_NewBucket validator_bucket))))
    (Validator.NewValidator lm (vc_MaxDecrees ctx)).

Definition engine_bucket : string := "ENGINE".
Definition consensus_NewEngine (now : Z) (ctx : option (EngineContext D C)) : res (Engine D C) :=
  let? _ := must "engine context is invalid: " (ValidateEngineContext ctx) in
  let? ctx := deref ctx in
  let? pm := deref (ec_PM ctx) in
  let? q := deref (ec_Quorum ctx) in
  let? quorumHash := must "compute quorum hash failed: " (quorum_hash q) in
  let? validator := consensus_NewValidator (Some (mkValidatorContext (Some tt) (ec_LM ctx) (ec_MaxDecrees ctx) (Some tt) (Some tt))) in
  make (or_fatal ("create db bucket " +:+ engine_bucket +:+ " failed: ") (on_validator (on_lm (ledger_db (db_NewBucket engine_bucket)))))
    (mkEngine D C (ec_NetworkID ctx) (ec_Seed ctx) (ec_NodeID ctx) (ec_Role ctx) q quorumHash (ec_MaxDecrees ctx)
       (ec_ProposeInterval ctx) pm validator ∅ [] [] [] now zero_time [] []).

(** ** [node] *)

(** [boltdb.New]; opening the file is an argument. *)
Definition db_New (open : string → string + D) (path : string) : res D :=
  match open path with inl err => Panic err | inr d => Ok d end.

Definition boot (open : string → string + D) (now : Z) (conf : Config) : res (NodeServer (Node D C)) :=
  let? d := db_New open (nc_DBPath conf) in
  let pm := Peer.NewManager (nc_Peers conf) (nc_NetworkID conf) (nc_NetworkAddr conf) (nc_NodeID conf) (nc_MaxPeers conf) in
  let '(d, am) := account_NewManager GenesisBaseReserve d in
  let? am := am in
  let '(d, em) := exchange_NewManager am d in
  let? em := em in
  let? tm := tx_NewManager (Some (mkTxContext (nc_NetworkID conf) (Some d) (Some am) (Some pm) (Some em) GenesisBaseReserve (nc_Seed conf))) in
  let? lm := ledger_NewManager (Some (mkLedgerContext (nc_NetworkID conf) (nc_Seed conf) (Some tt) (Some am) (Some tm) (Some pm))) in
  let? engine := consensus_NewEngine now (Some (mkEngineContext D C (nc_NetworkID conf) (nc_Seed conf) (nc_NodeID conf) (nc_Role conf)
                   MaxDecrees (Some pm) (Some tt) (Some lm) (Some tt) (nc_Quorum conf) (nc_ProposeInterval conf))) in
  NewNodeServer (nc_NetworkID conf) (nc_NetworkAddr conf) (nc_NodeID conf) (nc_Seed conf) (mkNode D C engine None []).

End constructors.
Arguments TxContext D C : clear implicits.
Arguments LedgerContext D C : clear implicits.
Arguments ValidatorContext D : clear implicits.

(** ** Decrees *)

Record DecreeContext {E : Type} := mkDecreeContext {
  dc_Index : Z; dc_NodeID : string; dc_Quorum : option Quorum; dc_QuorumHash : string;
  dc_StmtChan : option unit; dc_ExternalizeChan : option unit; dc_LM : option unit; dc_Validator : option E;
}.
Arguments DecreeContext E : clear implicits.
Definition ValidateDecreeContext {E} (dc : option (DecreeContext E)) : res unit :=
  match dc with
  | None => Err "decree context is nil"
  | Some dc =>
      if decide (dc_NodeID dc = "") then Err "empty node ID"
      else if bool_decide (¬ is_Some (dc_Quorum dc)) then Err "initial quorum is nil"
      else if decide (dc_QuorumHash dc = "") then Err "initial quorum hash is empty"
      else if bool_decide (¬ is_Some (dc_LM dc)) then Err "ledger manager is nil"
      else if bool_decide (¬ is_Some (dc_Validator dc)) then Err "validator is nil"
      else if bool_decide (¬ is_Some (dc_StmtChan dc)) then Err "statement chan is nil"
      else if bool_decide (¬ is_Some (dc_ExternalizeChan dc)) then Err "externalize chan is nil"
      else Ok tt
  end.
Definition consensus_NewDecree {E} (ctx : option (DecreeContext E)) : res (Decree E) :=
  let? _ := must "decree context is invalid: " (ValidateDecreeContext ctx) in
  let? ctx := deref ctx in
  let? q := deref (dc_Quorum ctx) in
  let? env := deref (dc_Validator ctx) in
  NewDecree env (dc_Index ctx) (dc_NodeID ctx) q (dc_QuorumHash ctx).

(** * Lemmas *)

(** The buckets of a node, in the order in which they are made. *)
Definition boot_buckets : list string :=
  [account_bucket; exchange_bucket; offer_bucket; status_bucket; tx_bucket; ledger_bucket; txset_bucket; validator_bucket; engine_bucket].
Lemma boot_names b : b ∈ boot_buckets → b ≠ "" ∧ no_hash b.
Proof. revert b. apply Forall_forall. apply (bool_decide_unpack _). vm_compute. exact I. Qed.

Section boot.
Context {D C : Type} {StoreD : Store D} {LawsD : StoreLaws D} {Buckets : BucketDatabase D} {LawsB : BucketLaws D}.
Context {Pbc : PbCodec} {GoRt : GoRuntime} {Crypto : CryptoLib} {Ed : Ed25519}.
Context {QuorumCodec : Codec Quorum} {StatementCodec : Codec Statement}.
Implicit Types d : D.

(** The database with more buckets and the same contents. *)
Definition adds (bs : list string) d d' : Prop :=
  db_ok d' ∧ (∀ b, b ∈ bs ∨ db_bucket d b → db_bucket d' b) ∧ (∀ b k, db_view d' b k = db_view d b k) ∧
  ((∀ b, b ∈ bs → db_bucket d b) → d' = d).

Definition new_bucket (b : string) d : D := (db_NewBucket b d).1.
Definition with_buckets d : D := foldl (λ d b, new_bucket b d) d boot_buckets.

Lemma new_bucket_ok b d : db_ok d → b ∈ boot_buckets → db_NewBucket b d = (new_bucket b d, Ok tt) ∧ db_ok (new_bucket b d).
Proof.
  intros Hd Hb. destruct (boot_names b Hb). unfold new_bucket. destruct (NewBucket_spec d b) as (d' & -> & ? & _); done.
Qed.
Lemma adds_fold bs d : db_ok d → bs ⊆ boot_buckets → adds bs d (foldl (λ d b, new_bucket b d) d bs).
Proof.
  revert d. induction bs as [|b bs IH]; intros d Hd Hbs; simpl.
  - split_and!; [done| |done..]. intros b [Hb|Hb]; [by apply not_elem_of_nil in Hb|done].
  - destruct (boot_names b) as [Hb Hn]; [apply Hbs; by left|].
    unfold new_bucket at 2. destruct (NewBucket_spec d b Hd Hb Hn) as (d1 & H1 & Hd1 & Hb1 & Hk1 & Hv1 & Hs1). rewrite H1. simpl.
    destruct (IH d1 Hd1) as (Hd2 & Hb2 & Hv2 & Hs2); [intros x Hx; apply Hbs; by right|]. split_and!; [done|..].
    + intros x [[->|Hx]%elem_of_cons|Hx]; apply Hb2; auto.
    + intros x k. by rewrite Hv2.
    + intros Hall. assert (d1 = d) as -> by (apply Hs1, Hall; by left). apply Hs2. intros x Hx. apply Hall. by right.
Qed.
Lemma with_buckets_adds d : db_ok d → adds boot_buckets d (with_buckets d).
Proof. intros Hd. by apply adds_fold. Qed.

Lemma make_ok {S} (m : M S unit) s s' : m s = (s', Ok tt) → make m s = Ok s'.
Proof. unfold make. by intros ->. Qed.
Lemma fatal_bucket w b d : db_ok d → b ∈ boot_buckets → or_fatal w (db_NewBucket b) d = (new_bucket b d, Ok tt).
Proof. intros Hd Hb. unfold or_fatal. by destruct (new_bucket_ok b d Hd Hb) as [-> _]. Qed.
Lemma fatal_tm_bucket w b d : db_ok d → b ∈ boot_buckets →
  or_fatal w (on_db (db_NewBucket b)) (TxManager.NewManager d) = (TxManager.NewManager (new_bucket b d), Ok tt).
Proof. intros Hd Hb. unfold or_fatal, on_db. simpl. by destruct (new_bucket_ok b d Hd Hb) as [-> _]. Qed.
Lemma fatal_lm_bucket w b d : db_ok d → b ∈ boot_buckets →
  or_fatal w (ledger_db (db_NewBucket b)) (NewLedgerManager (TxManager.NewManager d)) =
    (NewLedgerManager (TxManager.NewManager (new_bucket b d)), Ok tt).
Proof. intros Hd Hb. unfold or_fatal, ledger_db, on_tm, on_db. simpl. by destruct (new_bucket_ok b d Hd Hb) as [-> _]. Qed.

(** Each constructor in turn. *)
Ltac bucket := first [assumption|apply new_bucket_ok; bucket|unfold boot_buckets; set_solver].
Lemma account_made r d : db_ok d →
  account_NewManager r d = (new_bucket account_bucket d, Ok (mkAccountManager account_bucket r None)).
Proof. intros Hd. unfold account_NewManager, bind. by rewrite fatal_bucket by bucket. Qed.
Lemma exchange_made am d : db_ok d →
  exchange_NewManager am d = (new_bucket offer_bucket (new_bucket exchange_bucket d), Ok (mkExchangeManager exchange_bucket offer_bucket am)).
Proof. intros Hd. unfold exchange_NewManager, bind. simpl. by rewrite !fatal_bucket by bucket. Qed.
Lemma tx_made net am pm em r seed d : db_ok d → net ≠ "" → seed ≠ "" →
  tx_NewManager (C:=C) (Some (mkTxContext net (Some d) (Some am) (Some pm) em r seed)) =
    Ok (TxManager.NewManager (new_bucket tx_bucket (new_bucket status_bucket d))).
Proof.
  intros Hd Hn Hs. unfold tx_NewManager, ValidateTxContext. simpl. rewrite !decide_False by done. simpl. apply make_ok.
  unfold bind. by rewrite !fatal_tm_bucket by bucket.
Qed.
Lemma ledger_made net seed am pm d : db_ok d → net ≠ "" → seed ≠ "" →
  ledger_NewManager (C:=C) (Some (mkLedgerContext net seed (Some tt) (Some am) (Some (TxManager.NewManager d)) (Some pm))) =
    Ok (NewLedgerManager (TxManager.NewManager (new_bucket txset_bucket (new_bucket ledger_bucket d)))).
Proof.
  intros Hd Hn Hs. unfold ledger_NewManager, ValidateLedgerContext. simpl. rewrite !decide_False by done. simpl. apply make_ok.
  unfold bind. by rewrite !fatal_lm_bucket by bucket.
Qed.
Lemma validator_made n d : db_ok d → n ≠ 0 →
  consensus_NewValidator (Some (mkValidatorContext (Some tt) (Some (NewLedgerManager (TxManager.NewManager d))) n (Some tt) (Some tt))) =
    Ok (Validator.NewValidator (NewLedgerManager (TxManager.NewManager (new_bucket validator_bucket d))) n).
Proof.
  intros Hd Hn. unfold consensus_NewValidator, ValidateValidatorContext. simpl. rewrite decide_False by done. simpl. apply make_ok.
  pose proof (fatal_lm_bucket "create validator bucket failed: " validator_bucket d Hd ltac:(bucket)) as H.
  unfold or_fatal, on_lm in *. simpl. by destruct (ledger_db _ _) as [lm [[]|?|?|]]; simplify_eq.
Qed.

(** The engine over the last two buckets. *)
Lemma engine_made now ctx d e : db_ok d →
  ec_LM ctx = Some (NewLedgerManager (TxManager.NewManager d)) →
  let d' := new_bucket engine_bucket (new_bucket validator_bucket d) in
  consensus_NewEngine now (Some ctx) = Ok e ↔
  NewEngine now (Some (mkEngineContext D C (ec_NetworkID ctx) (ec_Seed ctx) (ec_NodeID ctx) (ec_Role ctx) (ec_MaxDecrees ctx)
    (ec_PM ctx) (ec_AM ctx) (Some (NewLedgerManager (TxManager.NewManager d'))) (ec_TM ctx) (ec_Quorum ctx) (ec_ProposeInterval ctx))) = Ok e.
Proof.
  intros Hd Hlm d'. unfold consensus_NewEngine, NewEngine, ValidateEngineContext. simpl. rewrite Hlm.
  repeat (case_decide; [done|]). simpl.
  destruct (ec_PM ctx) as [pm|]; simpl; [|done]. destruct (ec_AM ctx) as [?|]; simpl; [|done].
  destruct (ec_TM ctx) as [?|]; simpl; [|done]. destruct (ec_Quorum ctx) as [q|]; simpl; [|done].
  case_decide; [done|]. simpl. destruct (quorum_hash q) as [h|?|?|]; simpl; try done.
  rewrite validator_made by done. simpl. erewrite make_ok; [done|].
  unfold or_fatal, on_validator, on_lm. simpl. unfold ledger_db, on_tm, on_db. simpl.
  destruct (new_bucket_ok engine_bucket (new_bucket validator_bucket d)) as [-> _]; [by apply new_bucket_ok; bucket|bucket|]. done.
Qed.

Lemma boot_run open now conf d s : open (nc_DBPath conf) = inr d → db_ok d →
  boot open now conf = Ok s ↔ NewNode (C:=C) now conf (with_buckets d) = Ok s.
Proof.
  intros Ho Hd. unfold boot, db_New. rewrite Ho. simpl. rewrite account_made by done. simpl.
  rewrite exchange_made by bucket. simpl.
  destruct (decide (nc_NetworkID conf = "")) as [Hn|Hn].
  { unfold tx_NewManager, ValidateTxContext, NewNode, NewEngine. simpl. rewrite !decide_True by done. done. }
  destruct (decide (nc_Seed conf = "")) as [Hs|Hs].
  { unfold tx_NewManager, ValidateTxContext, NewNode, NewEngine. simpl. rewrite decide_False, decide_True by done. simpl.
    by rewrite decide_False, decide_True by done. }
  rewrite tx_made by (done || bucket). simpl. rewrite ledger_made by (done || bucket). simpl.
  unfold NewNode, with_buckets, boot_buckets. cbn [foldl].
  set (d5 := new_bucket tx_bucket _). set (ctx := mkEngineContext D C _ _ _ _ _ _ _ (Some (NewLedgerManager _)) _ _ _).
  pose proof (λ e, engine_made now ctx (new_bucket txset_bucket (new_bucket ledger_bucket d5)) e ltac:(bucket) eq_refl) as He.
  simpl in He.
  destruct (consensus_NewEngine now (Some ctx)) as [e1|?|?|]; simpl; [by rewrite (proj1 (He e1) eq_refl)|..];
    (split; [done|]); destruct (NewEngine now _) as [e2|?|?|]; simpl; try done; by pose proof (proj2 (He e2) eq_refl).
Qed.

End boot.

(** * Stopping *)

(** Which of the [stopChan] are closed; that of the peer manager is in its state. *)
Record Stops := mkStops { st_node : bool; st_engine : bool; st_validator : bool; st_ledger : bool; st_downloader : bool; st_tx : bool }.
Definition all_open : Stops := mkStops false false false false false false.

Section stop.
Context {D C : Type} {GoRt : GoRuntime}.

(** A node with its stop channels. *)
Abbreviation running := (Stops * Node D C)%type.

(** [close(x.stopChan)] *)
Definition close_chan (closed : Stops → bool) (set : Stops → Stops) : M running unit := λ r,
  if closed r.1 then (r, Panic "close of closed channel") else ((set r.1, r.2), Ok tt).
Definition at_node {A} (m : M (Node D C) A) : M running A := λ r, let '(n, x) := m r.2 in ((r.1, n), x).

(** [d.infoMap = nil] *)
Definition drop_infos (lm : LedgerManager D) : LedgerManager D :=
  let d := lm_downloader lm in
  set_sync (mkDownloader (dl_nextIndex d) ∅ (dl_rangeChan d) (dl_readyChan d)) (lm_buffer lm) (lm_ledgerState lm)
    (lm_largestConsensusIndex lm) lm.

Definition tx_Stop : M running unit :=
  close_chan st_tx (λ s, mkStops (st_node s) (st_engine s) (st_validator s) (st_ledger s) (st_downloader s) true).
Definition downloader_Stop : M running unit :=
  do! close_chan st_downloader (λ s, mkStops (st_node s) (st_engine s) (st_validator s) (st_ledger s) true (st_tx s)) in
  at_node (on_engine (on_ledger (modify drop_infos))).
Definition ledger_Stop : M running unit :=
  do! close_chan st_ledger (λ s, mkStops (st_node s) (st_engine s) (st_validator s) true (st_downloader s) (st_tx s)) in
  downloader_Stop.
Definition validator_Stop : M running unit :=
  close_chan st_validator (λ s, mkStops (st_node s) (st_engine s) true (st_ledger s) (st_downloader s) (st_tx s)).
Definition engine_Stop : M running unit :=
  do! close_chan st_engine (λ s, mkStops (st_node s) true (st_validator s) (st_ledger s) (st_downloader s) (st_tx s)) in
  validator_Stop.
Definition node_Stop : M running unit :=
  do! close_chan st_node (λ s, mkStops true (st_engine s) (st_validator s) (st_ledger s) (st_downloader s) (st_tx s)) in
  do! at_node (on_engine (on_pm Peer.Stop)) in
  do! engine_Stop in
  do! ledger_Stop in
  tx_Stop.

(** The loops that wait on them. *)
Inductive loop :=
| Start_wait | serveNode | eventLoop | peer_connect | engine_messages | engine_statements | engine_values
| validator_monitor | validator_dispatch | validator_download | ledger_downloaded | downloader_run | downloader_reorder | tx_relay.
Definition stop_of (l : loop) (r : running) : bool :=
  match l with
  | Start_wait | serveNode | eventLoop => st_node r.1
  | peer_connect => pm_stopped (e_pm (nd_engine r.2))
  | engine_messages | engine_statements | engine_values => st_engine r.1
  | validator_monitor | validator_dispatch | validator_download => st_validator r.1
  | ledger_downloaded => st_ledger r.1
  | downloader_run | downloader_reorder => st_downloader r.1
  | tx_relay => st_tx r.1
  end.

(** What is left of the engine. *)
Definition stopped (pm : PeerManager C) (e : Engine D C) : Engine D C :=
  set_validator (set_v_lm (drop_infos (e_lm e)) (e_validator e)) (set_world pm (e_validator e) e).
Lemma node_Stop_run (n : Node D C) pm : Peer.Stop (e_pm (nd_engine n)) = (pm, Ok tt) →
  node_Stop (all_open, n) = ((mkStops true true true true true true, set_engine (stopped pm (nd_engine n)) n), Ok tt).
Proof.
  intros Hs. unfold node_Stop. erewrite bind_eq_Ok by reflexivity.
  rewrite (bind_eq_Ok _ _ _ (mkStops true false false false false false, set_engine (set_world pm (e_validator (nd_engine n)) (nd_engine n)) n) tt)
    by (unfold at_node, on_engine, on_pm; simpl; rewrite Hs; reflexivity).
  reflexivity.
Qed.

(** A running node stops: every loop finds its channel closed and can return, every connection to a peer is closed, and the database
    and the chain are as they were.  Stopping it again is a panic, and changes nothing. *)
Theorem Stop_ends_all (n : Node D C) :
  pm_stopped (e_pm (nd_engine n)) = false →
  ∃ r, node_Stop (all_open, n) = (r, Ok tt) ∧ (∀ l, stop_of l r = true) ∧
    pm_closed (e_pm (nd_engine r.2)) = pm_closed (e_pm (nd_engine n)) ++ GetLiveClients (e_pm (nd_engine n)) ∧
    vdb (e_validator (nd_engine r.2)) = vdb (e_validator (nd_engine n)) ∧
    chain_part (e_lm (nd_engine r.2)) = chain_part (e_lm (nd_engine n)) ∧
    node_Stop r = (r, Panic "close of closed channel").
Proof.
  intros Hp. destruct (Peer.Stop_run _ Hp) as (pm & Hs & [Hst Hc] & _). eexists. split; [by apply node_Stop_run|].
  clear Hs Hp. revert Hc. generalize (nd_engine n). intros e Hc. cbn [snd fst nd_engine set_engine]. split; [intros []; first [reflexivity|exact Hst]|].
  split; [exact Hc|]. repeat split.
Qed.

End stop.
