(* ===== verification/Restart.v ===== *)
(** The life of a node over the runs of its process.

    A node is opened on a new file and starts a network; it works; its process ends at any moment between two steps, by [Stop], a
    crash or a power failure, and everything but the database is lost; it is opened again on the same file, perhaps with
    another configuration, and recovers its ledger from the checkpoint.  The invariant of a single run ([node_ok]) holds throughout, and
    the recovery cannot fail, unless the clock went back. *)

From stdpp Require Import relations.
From S2P Require Import Prelude Lru Pb Db Crypto Keypair Account TxManager Ledger Frame Checkpoint Quorum Ballot Rpc Peer Federated Decree Nomination Future Validator Engine EngineSafety Server Config Node Boot.

Section restart.
Context {D T C : Type} {StoreD : Store D} {LawsD : StoreLaws D} {StoreT : Store T} {LawsT : StoreLaws T}.
Context {TxDb : TxDatabase D T} {TxLaws : TxDatabaseLaws D T} {Buckets : BucketDatabase D} {LawsB : BucketLaws D}.
Context {Pbc : PbCodec} {GoRt : GoRuntime} {Crypto : CryptoLib} {Ed : Ed25519}.
Context {QuorumCodec : Codec Quorum} {StatementCodec : Codec Statement}.
Variable fuel : nat.
Implicit Types (s : NodeServer (Node D C)) (d : D) (conf : Config).

(** * The life of a node *)

(** The database of a node, all that is left when its process ends. *)
Definition node_data s : D := vdb (e_validator (s_engine s)).

(** A file in which no transaction set and no quorum is stored: that of a new node has no bucket at all. *)
Definition blank d : Prop := db_ok d ∧ ∀ k, db_view d txset_bucket k = None ∧ db_view d validator_bucket k = None.

Inductive life : Config → NodeServer (Node D C) → Prop :=
| life_new open now t u conf d s n :
    open (nc_DBPath conf) = inr d → blank d → boot open now conf = Ok s →
    Start fuel t u (nc_NetworkID conf) true (srv_node s) = (n, Ok tt) → life conf (set_node n s)
| life_step conf s s' : life conf s → node_step (T:=T) fuel s s' → life conf s'
| life_restart conf s open now t u conf' s' n :
    life conf s → open (nc_DBPath conf') = inr (node_data s) → boot open now conf' = Ok s' →
    Start fuel t u (nc_NetworkID conf') false (srv_node s') = (n, Ok tt) → life conf' (set_node n s').

(** * Lemmas *)

(** What the invariant says of the database alone. *)
Definition durable d : Prop :=
  kept d ∧ db_bucket d txset_bucket ∧ db_bucket d validator_bucket ∧
  (∀ k t, db_view d txset_bucket k ≫= Decode = Some t → GetTxSetKey t = Ok k) ∧
  (∀ k q, db_view d validator_bucket k ≫= Decode = Some q → quorum_hash q = Ok k).

Lemma node_ok_durable s : node_ok s → durable (node_data s).
Proof. intros [((Hv & _ & Hk & Ht & Hq) & _) _]. split_and!; [done|apply Hv|apply Hv|exact Ht|exact Hq]. Qed.

(** Opening the file changes nothing that counts. *)
Lemma durable_buckets d : durable d → durable (with_buckets d).
Proof.
  intros (Hk & Ht & Hv & At & Av). destruct (with_buckets_adds d (proj1 Hk)) as (Ho & Hb & Hview & _).
  split_and!; [|apply Hb; by right..| |].
  - apply (kept_view d); [done..| |apply Hview]. intros b ?. apply Hb. by right.
  - intros k t. rewrite Hview. apply At.
  - intros k q. rewrite Hview. apply Av.
Qed.
Lemma blank_buckets d : blank d → new_database (with_buckets d).
Proof.
  intros [Ho Hv]. destruct (with_buckets_adds d Ho) as (Ho' & Hb & Hview & _). split_and!; [done| |].
  - intros b Hin. apply Hb. left. revert b Hin. apply Forall_forall, (bool_decide_unpack _). vm_compute. exact I.
  - intros k. by rewrite !Hview.
Qed.

(** The recovery of a new node over such a database. *)
Lemma recover_good d t n v :
  durable d → on_lm (RecoverFromCheckpoint t) (NewValidator (NewLedgerManager (TxManager.NewManager d)) n) = (v, Ok tt) → good v.
Proof.
  intros (Hk & Ht & Hv & At & Av) H. pose proof Hk as (Ho & Hb & ck & Hck & Hs).
  assert (db_bucket d ledger_bucket) as Hbl by (apply Hb; by left).
  destruct (decide (current t ck)) as [Htime|Htime].
  - destruct (recover_run t d ck) as (lm & Hr & Hrec & Htm & Hc); [done..|].
    unfold on_lm in H. simpl in H. rewrite Hr in H. injection H as <-.
    assert (ledger_data lm = d) as Hd by (unfold ledger_data; by rewrite Htm).
    apply new_validator_good; [split; [by apply (recovered_live ck)|by rewrite Hd]|by rewrite Hd..|done|].
    split; intros k x; unfold txset_at, quorum_at, vdb; simpl; rewrite Htm; simpl; [apply At|apply Av].
  - exfalso. destruct (db_view d ledger_bucket checkpoint_key) as [b|] eqn:Hview; unfold checkpoint_at in Hck; rewrite Hview in Hck; [|done].
    unfold on_lm, RecoverFromCheckpoint, bind, wrap, lift, ledger_db, on_tm, on_db in H. simpl in H, Hck.
    rewrite (Get_spec d ledger_bucket checkpoint_key), Hview in H by done. simpl in H. unfold decode_res in H. rewrite Hck in H. simpl in H.
    destruct (check_checkpoint t ck) as [[]|?|?|] eqn:Hcheck; simpl in H; try done. by apply check_current in Hcheck.
Qed.

Lemma restarted_ok open now t u conf d s n :
  durable d → open (nc_DBPath conf) = inr d → boot open now conf = Ok s →
  Start fuel t u (nc_NetworkID conf) false (srv_node s) = (n, Ok tt) → node_ok (set_node n s) ∧ runs_as conf (set_node n s).
Proof.
  intros Hd Ho Hb Hs. apply (boot_run open now conf d s Ho (proj1 (proj1 Hd))) in Hb. apply durable_buckets in Hd.
  destruct (NewNode_run now conf _ s Hb) as (pm & q & h & Hq & He & Hn).
  unfold Start in Hs. apply or_fatal_Ok in Hs. unfold on_engine, on_ledger, on_validator in Hs.
  change (nd_engine (srv_node s)) with (s_engine s) in Hs. rewrite He in Hs. simpl in Hs.
  destruct (on_lm (RecoverFromCheckpoint t) _) as [v r] eqn:Hr. injection Hs as <- ->.
  apply recover_good in Hr; [|done]. split.
  - split; [by apply new_engine_ok|]. simpl. rewrite Hn. constructor.
  - by split_and!.
Qed.

Lemma life_ok conf s : life conf s → node_ok s ∧ runs_as conf s.
Proof.
  induction 1 as [open now t u conf d s n Ho Hd Hb Hs|conf s s' _ [IH1 IH2] Hstep|conf s open now t u conf' s' n _ [IH _] Ho Hb Hs].
  - apply (boot_run open now conf d s Ho (proj1 Hd)) in Hb. apply (started_ok fuel now t u conf (with_buckets d)); [by apply blank_buckets|done..].
  - destruct (node_step_ok _ _ _ Hstep IH1) as [H1 Hc]. split; [done|]. by apply (runs_as_config conf s s' Hc).
  - by apply (restarted_ok open now t u conf' (node_data s)); [apply node_ok_durable|..].
Qed.

(** The recovery comes to the chain of the checkpoint. *)
Lemma restart_recovers open now t u conf d ck s :
  durable d → checkpoint_at d = Some ck → current t ck →
  open (nc_DBPath conf) = inr d → boot open now conf = Ok s →
  ∃ n, Start fuel t u (nc_NetworkID conf) false (srv_node s) = (n, Ok tt) ∧ recovered ck (e_lm (nd_engine n)).
Proof.
  intros Hd Hck Ht Ho Hb. apply (boot_run open now conf d s Ho (proj1 (proj1 Hd))) in Hb.
  destruct (with_buckets_adds d (proj1 (proj1 Hd))) as (_ & _ & Hview & _). apply durable_buckets in Hd as (Hk & _).
  destruct (NewNode_run now conf _ s Hb) as (pm & q & h & Hq & He & Hn). destruct Hk as (Hok & Hbs & ck' & Hck' & Hs).
  assert (checkpoint_at (with_buckets d) = Some ck) as Hck2 by (unfold checkpoint_at; by rewrite Hview).
  rewrite Hck2 in Hck'. injection Hck' as <-.
  destruct (recover_run t (with_buckets d) ck) as (lm & Hr & Hrec & _); [done|apply Hbs; by left|done..|].
  eexists. split; [unfold Start, or_fatal, on_engine, on_ledger, on_validator, on_lm;
  change (nd_engine (srv_node s)) with (s_engine s); rewrite He; simpl; rewrite Hr; reflexivity|exact Hrec].
Qed.

End restart.

(** * Properties *)

(** C4: a node survives the end of its process, any number of times.  Open a node on a new file and start a network; let it work, with any clients,
    peers and goroutines; let the process end between any two steps, and open the file again with any configuration that is accepted.  At
    every moment of such a life the ledger is a chain, transaction sets and quorums are stored under their own hashes, and what this run of
    the process has broadcast is its own; and the file holds a checkpoint such that, unless the clock has gone back before it or the int64 that counts the ledgers has wrapped around, the
    next start comes to its end and has the chain of that checkpoint. *)
Theorem node_survives_restarts {D T C : Type} {StoreD : Store D} {LawsD : StoreLaws D} {StoreT : Store T} {LawsT : StoreLaws T}
    {TxDb : TxDatabase D T} {TxLaws : TxDatabaseLaws D T} {Buckets : BucketDatabase D} {LawsB : BucketLaws D}
    {Pbc : PbCodec} {GoRt : GoRuntime} {Crypto : CryptoLib} {Ed : Ed25519} {QuorumCodec : Codec Quorum}
    {StatementCodec : Codec Statement} (fuel : nat) (conf : Config) (s : NodeServer (Node D C)) :
  life (T:=T) fuel conf s →
  in_order conf s ∧
  ∃ ck, checkpoint_at (node_data s) = Some ck ∧
    ∀ open now t u conf' (s' : NodeServer (Node D C)), open (nc_DBPath conf') = inr (node_data s) → boot open now conf' = Ok s' →
      current t ck →
      ∃ n, Start fuel t u (nc_NetworkID conf') false (srv_node s') = (n, Ok tt) ∧ recovered ck (e_lm (nd_engine n)).
Proof.
  intros Hl. destruct (life_ok fuel conf s Hl) as [Hok Hr]. split; [by apply node_ok_in_order|].
  apply node_ok_durable in Hok. pose proof Hok as ((_ & _ & ck & Hck & _) & _). exists ck. split; [done|].
  intros open now t u conf' s' Ho Hb Ht. by apply (restart_recovers fuel open now t u conf' (node_data s) ck s').
Qed.

(** C38: the constructors of all the components, with their checks and the buckets they make in their order, make the node that the other theorems are
    about, over the same database with its buckets: one succeeds with a node exactly when the other does.  The nine buckets can then be
    used, what was in the file is still there and nothing else is, and a file that has the buckets is not changed. *)
Theorem boot_is_NewNode {D C : Type} {StoreD : Store D} {LawsD : StoreLaws D} {Buckets : BucketDatabase D} {LawsB : BucketLaws D}
    {Pbc : PbCodec} {GoRt : GoRuntime} {Crypto : CryptoLib} {Ed : Ed25519} {QuorumCodec : Codec Quorum}
    {StatementCodec : Codec Statement} (open : string → string + D) (now : Z) (conf : Config) (d : D) :
  open (nc_DBPath conf) = inr d → db_ok d →
  (∀ s : NodeServer (Node D C), boot open now conf = Ok s ↔ NewNode now conf (with_buckets d) = Ok s) ∧
  (∀ b, b ∈ boot_buckets ∨ db_bucket d b → db_bucket (with_buckets d) b) ∧
  (∀ b k, db_view (with_buckets d) b k = db_view d b k) ∧
  ((∀ b, b ∈ boot_buckets → db_bucket d b) → with_buckets d = d).
Proof.
  intros Ho Hd. split; [intros s; by apply boot_run|]. destruct (with_buckets_adds d Hd) as (_ & H1 & H2 & H3). by split_and!.
Qed.

(** * Two runs of a node *)

Module two_runs.
Import states solo solo_node.

(** The node of [solo_node] on the file [d]. *)
Definition made (d : boltdb) (now : Z) : NodeServer (Node boltdb string) :=
  match boot (λ _, inr d) now conf with Ok s => s | _ => s0 end.
Definition is_Ok {A} (r : res A) : bool := match r with Ok _ => true | _ => false end.
Lemma made_eq d now s : is_Ok (boot (C:=string) (λ _, inr d) now conf) = true → made d now = s → boot (λ _, inr d) now conf = Ok s.
Proof. unfold made. destruct (boot (λ _, inr d) now conf); [by intros _ <-|done..]. Qed.

(** The first run closes a ledger; then the process ends, and starts again a minute later. *)
Definition first : NodeServer (Node boltdb string) := made ∅ 0.
Definition running : Node boltdb string := (Start 40 10 7 (nc_NetworkID conf) true (srv_node first)).1.
Definition said : Engine boltdb string := (send_statement (nd_engine running)).1.
Definition closed : Engine boltdb string := (recv_externalized GenesisBaseReserve 40 20 30 9 said).1.
Definition last_seen : NodeServer (Node boltdb string) := set_node (set_engine closed running) first.
Definition second : NodeServer (Node boltdb string) := made (node_data last_seen) 80.
Definition again : Node boltdb string := (Start 40 90 7 (nc_NetworkID conf) false (srv_node second)).1.

Lemma first_made : boot (λ _, inr ∅) 0 conf = Ok first.
Proof. apply made_eq; [vm_compute; reflexivity|reflexivity]. Qed.
Lemma running_ok : (Start 40 10 7 (nc_NetworkID conf) true (srv_node first)).2 = Ok tt.
Proof. vm_compute. reflexivity. Qed.
Lemma second_made : boot (λ _, inr (node_data last_seen)) 80 conf = Ok second.
Proof. apply made_eq; [vm_compute; reflexivity|reflexivity]. Qed.
Lemma again_ok : (Start 40 90 7 (nc_NetworkID conf) false (srv_node second)).2 = Ok tt.
Proof. vm_compute. reflexivity. Qed.
Example chain_back : NextLedgerHeaderSeq (e_lm closed) = 3 ∧ NextLedgerHeaderSeq (e_lm (nd_engine again)) = 3 ∧
  lm_currLedgerHeaderHash (e_lm (nd_engine again)) = lm_currLedgerHeaderHash (e_lm closed).
Proof. vm_compute. repeat split; reflexivity. Qed.

Lemma empty_blank : blank (∅ : boltdb).
Proof. split; [exact I|]. intros k. split; reflexivity. Qed.
Lemma first_life : life (T:=boltdb) 40 conf last_seen.
Proof.
  refine (life_step 40 conf (set_node (set_engine said running) first) last_seen _ (engine_goes_on said closed running first (es_ext _ _ 20 30 9 said))).
  refine (life_step 40 conf (set_node running first) _ _ (engine_moves running first said (es_send _ _ (nd_engine running)))).
  exact (life_new 40 (λ _, inr ∅) 0 10 7 conf ∅ first running eq_refl empty_blank first_made (run_eq _ _ _ running_ok)).
Qed.
Lemma second_life : life (T:=boltdb) 40 conf (set_node again second).
Proof.
  exact (life_restart 40 conf last_seen (λ _, inr (node_data last_seen)) 80 90 7 conf second again first_life eq_refl
    second_made (run_eq _ _ _ again_ok)).
Qed.

Lemma node_survives_restarts_witness : in_order conf (set_node again second).
Proof. exact (proj1 (node_survives_restarts 40 conf (set_node again second) second_life)). Defined.

Lemma boot_is_NewNode_witness : NewNode 0 conf (with_buckets (∅ : boltdb)) = Ok first.
Proof.
  exact (proj1 (proj1 (boot_is_NewNode (C:=string) (λ _, inr (∅ : boltdb)) 0 conf ∅ eq_refl I) first) first_made).
Defined.

End two_runs.
