(* ===== verification/Client.v ===== *)
(** The client of a node, [client/client.go], [client/types/tx.go], [client/resolver.go] and [client/watcher.go].

    The gRPC stub is an interface: a call gives an answer or an error, and changes the world on the other side.  Every
    call is made with a deadline of one second.  [CreateTestAccount] waits for a transaction in a select over a
    ticker and a timer; the time is part of the model there. *)

From Stdlib Require Import Ascii.
From S2P Require Import Prelude Lru Pb Db Crypto Keypair Account TxManager Ledger Build Quorum Ballot Rpc Peer Federated Decree Nomination Future Validator Engine Server Config Node.

Module client.

(** * Status codes *)

Inductive TxStatusCode := NotExist | Rejected | Accepted | Confirmed | Failed | Unknown.

Definition String (ts : TxStatusCode) : string :=
  match ts with
  | NotExist => "not exist"
  | Rejected => "rejected"
  | Accepted => "accepted"
  | Confirmed => "confirmed"
  | Failed => "failed"
  | Unknown => "unknown"
  end.

Record TxStatus := mkTxStatus { StatusCode : TxStatusCode; ErrorMessage : string; Tx : option Pb.Tx }.

(** The switch of [QueryTx]. *)
Definition code_of (c : Pb.TxStatusCode) : TxStatusCode :=
  match c with
  | NOTEXIST => NotExist
  | REJECTED => Rejected
  | ACCEPTED => Accepted
  | CONFIRMED => Confirmed
  | FAILED => Failed
  | TxStatusCode_other _ => Unknown
  end.

(** * The client *)

(** [rpcpb.NodeClient]: an error, or the field of the response. *)
Class NodeClient (W : Type) := {
  call_SubmitTx : SubmitTxRequest → W → W * (string + unit);
  call_QueryTx : QueryTxRequest → W → W * (string + option Pb.TxStatus);
  call_GetAccount : GetAccountRequest → W → W * (string + string);
  call_CreateTestAccount : CreateTestAccountRequest → W → W * (string + string);
}.

Record GrpcClient := mkGrpcClient { networkID : string; coreEndpoints : string }.

(** [grpc.Dial] gives a connection or an error. *)
Definition New {Crypto : CryptoLib} (dial : string → option string) (networkID coreEndpoints : string) : res GrpcClient :=
  match dial coreEndpoints with
  | Some err => Err ("connect to core servers failed: " +:+ err)
  | None => Ok (mkGrpcClient (SHA256Hash networkID) coreEndpoints)
  end.

Section calls.
Context {W : Type} {Stub : NodeClient W} {Pbc : PbCodec}.
Implicit Types c : GrpcClient.

(** The answer of a call. *)
Definition call {A} (f : W → W * (string + A)) : M W A := λ w,
  match f w with
  | (w, inl err) => (w, Err err)
  | (w, inr a) => (w, Ok a)
  end.

Definition SubmitTx c (txKey signature data : string) : M W unit :=
  call (call_SubmitTx (mkSubmitTxRequest (networkID c) data txKey signature)).

Definition QueryTx c (txKey : string) : M W TxStatus :=
  let! resp := call (call_QueryTx (mkQueryTxRequest (networkID c) txKey)) in
  let! status := lift (deref resp) in
  let code := code_of (st_StatusCode status) in
  if decide (0 < Z.of_nat (String.length (st_Data status))) then
    let! tx := wrap "decode tx failed: " (lift (decode_res (st_Data status))) in
    ret (mkTxStatus code (st_ErrorMessage status) (Some tx))
  else ret (mkTxStatus code (st_ErrorMessage status) None).

Definition GetAccount c (accountID : string) : M W Account :=
  let! data := call (call_GetAccount (mkGetAccountRequest (networkID c) accountID)) in
  wrap "decode account failed: " (lift (decode_res data)).

(** ** Waiting for a transaction

    Milliseconds since the ticker and the timer were started.  The ticker fires every two seconds and keeps one tick for a
    receiver that is late; the next tick after one that was taken at [last] comes at the next multiple of the period. *)
Definition tick_period : Z := 2000.
Definition timeout : Z := 30000.
Definition next_tick (last : Z) : Z := tick_period * (last / tick_period + 1).

(** The body of the ticker's case: [None] is [continue]. *)
Definition check_tx c (accountID txKey : string) : M W (option Account) :=
  let! status := wrap "query tx failed: " (QueryTx c txKey) in
  match StatusCode status with
  | NotExist => fail "tx not found"
  | Rejected => fail ("tx rejected: " +:+ ErrorMessage status)
  | Accepted => ret None
  | Confirmed => let! account := wrap "get account failed: " (GetAccount c accountID) in ret (Some account)
  | Failed => fail ("tx failed: " +:+ ErrorMessage status)
  | Unknown => fail "tx status unknown"
  end.

(** The select takes the case that is ready first; when both are, [pick] says which.  The [i]-th check takes [dur i]. *)
Fixpoint wait_tx (fuel : nat) (pick : nat → bool) (dur : nat → Z) (i : nat) (now last : Z) c (accountID txKey : string) : M W Account :=
  match fuel with
  | O => lift NoFuel
  | S fuel =>
      let tick := Z.max now (next_tick last) in
      let expired := Z.max now timeout in
      if bool_decide (tick < expired) || (bool_decide (tick = expired) && pick i) then
        let! account := check_tx c accountID txKey in
        match account with
        | Some account => ret account
        | None => wait_tx fuel pick dur (S i) (tick + dur i) tick c accountID txKey
        end
      else fail "query result takes too long"
  end.

Definition CreateTestAccount (fuel : nat) (pick : nat → bool) (dur : nat → Z) c (accountID : string) : M W Account :=
  let! txKey := call (call_CreateTestAccount (mkCreateTestAccountRequest (networkID c) accountID)) in
  wait_tx fuel pick dur 0 0 0 c accountID txKey.

End calls.

(** ** The name resolver of the balancer *)

Inductive Operation := Add | Delete.
Record Update := mkUpdate { Op : Operation; Addr : string }.
Record watcher := mkWatcher { updatesChan : list (list Update); closed : bool }.

(** [strings.Split(target, ",")] *)
Fixpoint Split (s : string) : list string :=
  match s with
  | EmptyString => [""]
  | String.String a s =>
      if ascii_dec a "," then "" :: Split s
      else match Split s with
           | [] => [String.String a ""]
           | h :: t => String.String a h :: t
           end
  end.

Definition Resolve (target : string) : res watcher :=
  if decide (target = "") then Err "target is empty"
  else Ok (mkWatcher [mkUpdate Add <$> Split target] false).

(** [None] when the receive blocks. *)
Definition Next (w : watcher) : option (watcher * res (list Update)) :=
  match updatesChan w with
  | updates :: l => Some (mkWatcher l (closed w), Ok updates)
  | [] => if closed w then Some (w, Err "watcher is closed") else None
  end.
Definition Close (w : watcher) : res watcher :=
  if closed w then Panic "close of closed channel" else Ok (mkWatcher (updatesChan w) true).

(** * Lemmas *)

(** Splitting what was joined. *)
Fixpoint no_comma (s : string) : Prop :=
  match s with
  | EmptyString => True
  | String.String a s => a ≠ ","%char ∧ no_comma s
  end.
Lemma Split_last s : no_comma s → Split s = [s].
Proof. induction s as [|a s IH]; simpl; [done|]. intros [Ha Hs]. destruct (ascii_dec a ","); [done|]. by rewrite IH. Qed.
Lemma Split_app s t : no_comma s → Split (s +:+ "," +:+ t) = s :: Split t.
Proof. induction s as [|a s IH]; simpl; [done|]. intros [Ha Hs]. destruct (ascii_dec a ","); [done|]. by rewrite IH. Qed.
Lemma Split_concat l : l ≠ [] → Forall no_comma l → Split (String.concat "," l) = l.
Proof.
  intros Hl Hc. induction Hc as [|s l Hs Hc IH]; [done|]. destruct l as [|s' l]; [by apply Split_last|].
  change (String.concat "," (s :: s' :: l)) with (s +:+ "," +:+ String.concat "," (s' :: l)). by rewrite Split_app, IH.
Qed.
Lemma concat_not_empty l : l ≠ [] → l ≠ [""] → String.concat "," l ≠ "".
Proof. destruct l as [|[|] [|]]; done. Qed.

(** [n] checks in a row that find the transaction accepted. *)
Inductive polled {W} `{!NodeClient W} `{!PbCodec} (c : GrpcClient) (txKey : string) : nat → W → W → Prop :=
| polled_0 w : polled c txKey 0 w w
| polled_S n w w1 w2 status : QueryTx c txKey w = (w1, Ok status) → StatusCode status = Accepted → polled c txKey n w1 w2 →
    polled c txKey (S n) w w2.

Section waiting.
Context {W : Type} {Stub : NodeClient W} {Pbc : PbCodec}.
Variables (pick : nat → bool) (dur : nat → Z) (c : GrpcClient) (accountID txKey : string).
Hypothesis dur_short : ∀ i, 0 <= dur i < tick_period.

Lemma check_tx_continues w w' : check_tx c accountID txKey w = (w', Ok None) →
  ∃ status, QueryTx c txKey w = (w', Ok status) ∧ StatusCode status = Accepted.
Proof.
  unfold check_tx. intros (w1 & status & Hq%wrap_Ok & H)%bind_Ok. exists status.
  destruct (StatusCode status) eqn:Hs; try done; [by injection H as <-|]. by apply bind_Ok in H as (? & ? & _ & [=]).
Qed.

(** How the wait ends: with a check that says something else than accepted, or with the timer after [n] checks. *)
Definition ends (n m : nat) (w : W) (out : W * res Account) : Prop :=
  (∃ k w1, (k < m)%nat ∧ polled c txKey k w w1 ∧ (∀ w2, check_tx c accountID txKey w1 ≠ (w2, Ok None)) ∧
     out = ((check_tx c accountID txKey w1).1, let? a := (check_tx c accountID txKey w1).2 in deref a)) ∨
  (∃ k w1, (n <= k <= m)%nat ∧ polled c txKey k w w1 ∧ out = (w1, Err "query result takes too long")).

Lemma ends_step n m w w1 status out :
  QueryTx c txKey w = (w1, Ok status) → StatusCode status = Accepted → ends n m w1 out → ends (S n) (S m) w out.
Proof.
  intros Hq Hs [(k & w2 & Hk & Hp & H)|(k & w2 & Hk & Hp & H)].
  - left. exists (S k), w2. split_and!; [lia|by eapply polled_S|apply H..].
  - right. exists (S k), w2. split_and!; [lia|lia|by eapply polled_S|done].
Qed.
Lemma ends_mono n n' m m' w out : (n' <= n)%nat → (m <= m')%nat → ends n m w out → ends n' m' w out.
Proof.
  intros Hn Hm [(k & w2 & Hk & H)|(k & w2 & Hk & H)]; [left|right]; exists k, w2; (split; [lia|exact H]).
Qed.

(** At the [i]-th round the last tick came on time, at [2000 * i], and the check since then took less than a period. *)
Lemma wait_tx_ends rounds : ∀ fuel i now w, (rounds + i = 15)%nat → (rounds < fuel)%nat →
  tick_period * Z.of_nat i <= now < tick_period * Z.of_nat i + tick_period →
  ends (rounds - 1) rounds w (wait_tx fuel pick dur i now (tick_period * Z.of_nat i) c accountID txKey w).
Proof.
  induction rounds as [|rounds IH]; intros fuel i now w Hi Hf Hnow; (destruct fuel as [|fuel]; [lia|]); cbn [wait_tx];
    assert (next_tick (tick_period * Z.of_nat i) = tick_period * Z.of_nat (S i)) as Ht
      by (unfold next_tick; rewrite (Z.mul_comm tick_period (Z.of_nat i)), Z.div_mul by done; lia);
    rewrite Ht; unfold tick_period, timeout in *.
  - rewrite !bool_decide_false by lia. right. exists O, w. split_and!; [lia|lia|constructor|done].
  - rewrite (Z.max_r now (2000 * Z.of_nat (S i))) by lia. destruct (_ || _) eqn:Hor.
    + destruct (check_tx c accountID txKey w) as [w1 [[a|]|e|p|]] eqn:Hc;
        try (left; exists O, w; rewrite Hc; (split; [lia|]); (split; [constructor|]); (split; [congruence|]);
             unfold bind; by rewrite Hc).
      rewrite (bind_eq_Ok _ _ _ _ _ Hc). destruct (check_tx_continues w w1 Hc) as (status & Hq & Hs).
      apply (ends_mono (S (rounds - 1)) _ (S rounds)); [lia|lia|].
      apply (ends_step _ _ _ w1 status); [done..|]. apply IH; [lia|lia|]. specialize (dur_short i). unfold tick_period in dur_short. lia.
    + apply orb_false_iff in Hor as [Hd%bool_decide_eq_false _]. assert (rounds = O) as -> by lia.
      right. exists O, w. split_and!; [lia|lia|constructor|done].
Qed.

End waiting.

(** ** A client in front of a node

    The calls reach the handlers of the server; an error is the text of the status, and a handler that crashes is an error as well. *)
Section direct.
Context {N : Type} {Backend : NodeBackend N} {Crypto : CryptoLib} {Ed : Ed25519} {Pbc : PbCodec}.
Variables (show : Status → string) (lost : string).

Definition deliver {A} (m : M (NodeServer N) (Status + A)) (s : NodeServer N) : NodeServer N * (string + A) :=
  match m s with
  | (s', Ok (inl st)) => (s', inl (show st))
  | (s', Ok (inr a)) => (s', inr a)
  | (s', _) => (s', inl lost)
  end.
Definition direct : NodeClient (NodeServer N) := {|
  call_SubmitTx req := deliver (Server.SubmitTx req);
  call_QueryTx req := deliver (Server.QueryTx req);
  call_GetAccount req := deliver (Server.server_GetAccount req);
  call_CreateTestAccount req := deliver (Server.CreateTestAccount req);
|}.
End direct.

Section accepted.
Context {D C : Type} {StoreD : Store D} {Pbc : PbCodec} {GoRt : GoRuntime} {Crypto : CryptoLib} {Ed : Ed25519}.
Context {QuorumCodec : Codec Quorum} {StatementCodec : Codec Statement}.

Lemma signed_payload seed tx payload sg : build.Tx_Sign seed (Some tx) = Ok (payload, sg) → Decode payload = Some tx.
Proof.
  unfold build.Tx_Sign, encode_res. destruct (DecodeKey seed); simpl; try done. case_decide; [done|].
  destruct (Encode tx) as [b|] eqn:Hb; simpl; [|done]. destruct (Sign seed b); simpl; try done. intros [= <- _]. by apply Decode_Encode.
Qed.
Lemma submit_goes (req : SubmitTxRequest) tx (s : NodeServer (Node D C)) :
  (AddTx GenesisBaseReserve (sr_TxKey req) tx (s_tm s)).2 = Ok tt → ∃ s', submit req tx s = (s', Ok (inr tt)).
Proof.
  intros H. unfold submit, ask_wait, ask, serve_tx, Node_NodeBackend, answer_tx, on_engine, on_ledger, on_validator, on_lm, on_tm.
  unfold s_tm, e_lm, s_engine in H. unfold_m. simpl.
  destruct (AddTx _ _ _ _) as [tm r]. simpl in H. subst r. by eexists.
Qed.
End accepted.

End client.

(** * Properties *)

(** The wait for a test account is short.  When no check takes as long as the two seconds between two ticks (a call has a deadline of
    one second), the client stops after at most fifteen checks of the transaction: at the first one that does not find it
    accepted, with the account, an error or the panic of a missing status, or else when the timer fires, after at least
    fourteen checks. *)
Theorem CreateTestAccount_returns {W : Type} {Stub : client.NodeClient W} {Pbc : PbCodec} (pick : nat → bool) (dur : nat → Z)
    (c : client.GrpcClient) (accountID txKey : string) (w w1 : W) :
  (∀ i, 0 <= dur i < client.tick_period) →
  client.call_CreateTestAccount (mkCreateTestAccountRequest (client.networkID c) accountID) w = (w1, inr txKey) →
  client.ends c accountID txKey 14 15 w1 (client.CreateTestAccount 16 pick dur c accountID w).
Proof.
  intros Hd Hc. unfold client.CreateTestAccount.
  rewrite (bind_eq_Ok _ _ _ w1 txKey) by (unfold client.call; by rewrite Hc).
  change 0 with (client.tick_period * Z.of_nat 0) at 2. apply (client.wait_tx_ends pick dur c accountID txKey Hd 15); [done|lia|].
  unfold client.tick_period. lia.
Qed.

(** C18: from the builder to the next proposal and back.  A client of the network of a node, by name, submits a transaction that it has
    signed with the seed of the paying account, with a sequence number that is not negative; if the transaction manager takes the transaction, the client gets no error, the
    transaction is among those that the node makes its next proposal from ([GetTxList]) and is to be broadcast, and asking for its key gives the status accepted. *)
Theorem client_sees_accepted {D C : Type} {StoreD : Store D} {Pbc : PbCodec} {GoRt : GoRuntime} {Crypto : CryptoLib} {Ed : Ed25519}
    {QuorumCodec : Codec Quorum} {StatementCodec : Codec Statement} (show : Status → string) (lost : string)
    (raw pub seed : string) (tx : Tx) (payload signature txKey : string)
    (dial : string → option string) (name endpoints : string) (c : client.GrpcClient) (s : NodeServer (Node D C)) :
  pair_of KeyTypeAccountID raw pub seed → tx_AccountID tx = pub →
  build.Tx_Sign seed (Some tx) = Ok (payload, signature) → build.Tx_GetTxKey (Some tx) = Ok txKey →
  client.New dial name endpoints = Ok c → srv_networkID s = SHA256Hash name →
  txKey ∉ tm_txSet (s_tm s) → 0 <= tx_SeqNum tx → (AddTx GenesisBaseReserve txKey tx (s_tm s)).2 = Ok tt →
  ∃ s' s'', @client.SubmitTx _ (client.direct show lost) c txKey signature payload s = (s', Ok tt) ∧
    (∃ l, GetTxList (s_tm s') = (s_tm s', Ok l) ∧ tx ∈ l) ∧ tm_txChan (s_tm s') = tm_txChan (s_tm s) ++ [tx] ∧
    @client.QueryTx _ (client.direct show lost) _ c txKey s' = (s'', Ok (client.mkTxStatus client.Accepted "" None)).
Proof.
  intros Hp Hid Hs Hkey Hc Hnet Hnew Hseq Hadd.
  destruct (signed_submit raw pub seed tx payload signature txKey s Hp Hid Hs Hkey) as [Hk Hsub].
  set (req := mkSubmitTxRequest (srv_networkID s) payload txKey signature) in *.
  destruct (client.submit_goes req tx s Hadd) as [s' Hs']. rewrite Hs' in Hsub.
  destruct (tx_key_valid tx tx txKey txKey Hk Hk) as [Hv _].
  apply client.signed_payload in Hs as Hdec.
  assert (seq_fits req) as Hfit by (intros tx1 H1; simpl in H1; rewrite Hdec in H1; by injection H1 as <-).
  destruct (submitted_accepted req s s' Hnew Hv Hfit Hsub) as [(tx' & Ha & Hch & Hl) [s'' Hq]].
  unfold client.New in Hc. destruct (dial endpoints); [done|]. injection Hc as <-.
  exists s', s''. unfold client.SubmitTx, client.QueryTx, client.call, client.direct, client.deliver. simpl. rewrite <- Hnet.
  change (mkSubmitTxRequest _ _ _ _) with req. rewrite Hsub. split; [done|].
  destruct Ha as [Ha _]. simpl in Ha. assert (tx' = tx) as -> by congruence.
  split; [done|]. split; [done|]. unfold bind. simpl in Hq. rewrite Hq. done.
Qed.

(** The balancer gets the endpoints as they were listed.  From a list of addresses without commas, joined with commas, the
    resolver makes a watcher whose first [Next] adds just these addresses, in order; the next one blocks until the watcher is
    closed, and then fails. *)
Theorem Resolve_roundtrip (addrs : list string) :
  addrs ≠ [] → addrs ≠ [""] → Forall client.no_comma addrs →
  ∃ w w1 w2, client.Resolve (String.concat "," addrs) = Ok w ∧
    client.Next w = Some (w1, Ok (client.mkUpdate client.Add <$> addrs)) ∧ client.Next w1 = None ∧
    client.Close w1 = Ok w2 ∧ client.Next w2 = Some (w2, Err "watcher is closed").
Proof.
  intros Hne Hne' Hc. unfold client.Resolve. rewrite decide_False by (by apply client.concat_not_empty).
  rewrite client.Split_concat by done. by repeat eexists.
Qed.

(** * Clients at work *)

(** A node that confirms at the third check; the solo node of [Node], and a client with the master's seed. *)
Module clients.
Import states solo solo_node.

Definition account : Account := mkAccount "me" 7 "" 1 0 [] None.
Definition third : client.NodeClient nat := {|
  client.call_SubmitTx _ w := (w, inr tt);
  client.call_QueryTx _ w := (S w, inr (Some (mkTxStatus (if decide (w < 2)%nat then ACCEPTED else CONFIRMED) "" "")));
  client.call_GetAccount _ w := (w, inr (default "" (Encode account)));
  client.call_CreateTestAccount _ w := (w, inr "key");
|}.
Definition c : client.GrpcClient := client.mkGrpcClient "net" "here:1".
Example third_check : @client.CreateTestAccount _ third _ 16 (λ _, true) (λ _, 900) c "me" 0%nat = (3%nat, Ok account).
Proof. vm_compute. reflexivity. Qed.
Lemma CreateTestAccount_returns_witness :
  @client.ends _ third _ c "me" "key" 14 15 0%nat (@client.CreateTestAccount _ third _ 16 (λ _, true) (λ _, 900) c "me" 0%nat).
Proof.
  apply (@CreateTestAccount_returns _ third _ (λ _, true) (λ _, 900) c "me" "key" 0%nat 0%nat); [|reflexivity].
  intros i. unfold client.tick_period. lia.
Defined.

Definition name : string := "0123456789abcdef0123456789abcdef".
Definition payload : string := default "" (Encode note).
Lemma client_sees_accepted_witness : ∃ s' s'',
  @client.SubmitTx _ (client.direct status_Message "") (client.mkGrpcClient (SHA256Hash name) "here:1") (sr_TxKey request)
    (sr_Signature request) payload (at_engine closed) = (s', Ok tt) ∧
  (∃ l, GetTxList (s_tm s') = (s_tm s', Ok l) ∧ note ∈ l) ∧
  @client.QueryTx _ (client.direct status_Message "") _ (client.mkGrpcClient (SHA256Hash name) "here:1") (sr_TxKey request) s' =
    (s'', Ok (client.mkTxStatus client.Accepted "" None)).
Proof.
  assert (pair_of KeyTypeAccountID name master.1 master.2) as Hp by (split; [by vm_compute|]; split; by vm_compute).
  assert (build.Tx_Sign master.2 (Some note) = Ok (payload, sr_Signature request)) as Hs by (vm_compute; reflexivity).
  assert (build.Tx_GetTxKey (Some note) = Ok (sr_TxKey request)) as Hk by (vm_compute; reflexivity).
  assert (client.New (λ _, None) name "here:1" = Ok (client.mkGrpcClient (SHA256Hash name) "here:1")) as Hc by reflexivity.
  assert (srv_networkID (at_engine closed) = SHA256Hash name) as Hn by (vm_compute; reflexivity).
  assert ((AddTx GenesisBaseReserve (sr_TxKey request) note (s_tm (at_engine closed))).2 = Ok tt) as Ha by (vm_compute; reflexivity).
  destruct (client_sees_accepted status_Message "" name master.1 master.2 note payload (sr_Signature request) (sr_TxKey request)
    (λ _, None) name "here:1" _ (at_engine closed) Hp eq_refl Hs Hk Hc Hn (bool_decide_eq_false_1 _ (proj1 request_facts)) ltac:(vm_compute; discriminate) Ha)
    as (s' & s'' & H1 & H3 & _ & H2).
  exists s', s''. split; [exact H1|]. split; [exact H3|exact H2].
Defined.

Lemma Resolve_roundtrip_witness : ∃ w, client.Resolve "a:1,b:2" = Ok w ∧
  ∃ w1, client.Next w = Some (w1, Ok [client.mkUpdate client.Add "a:1"; client.mkUpdate client.Add "b:2"]).
Proof.
  destruct (Resolve_roundtrip ["a:1"; "b:2"]) as (w & w1 & _ & H1 & H2 & _); [done|done|by repeat constructor|].
  exists w. split; [exact H1|]. exists w1. exact H2.
Defined.

End clients.
