(* ===== verification/Network.v ===== *)
(** Two nodes: what one node broadcasts, in the course of its life as [Node] describes it, arrives at the server of another one
    that it has greeted. *)

From stdpp Require Import relations.
From S2P Require Import Prelude Lru Pb Db Crypto Keypair Account TxManager Ledger Frame Build Quorum Ballot Rpc Peer Federated Decree Nomination Outgoing Future Validator Engine EngineSafety Server Config Node.

(** C16: nodes understand each other.  Let a node with a node key pair open a network and live through any sequence of steps, and
    let a server of the same network have taken its hello.  Then whatever the node has broadcast passes the validation of the
    server and is handed over unchanged: a transaction to the transaction manager under its own key, a statement in
    the name of the sender to the consensus engine. *)
Theorem notices_arrive {D T C N : Type} {StoreD : Store D} {LawsD : StoreLaws D} {StoreT : Store T} {LawsT : StoreLaws T}
    {TxDb : TxDatabase D T} {TxLaws : TxDatabaseLaws D T} {Pbc : PbCodec} {GoRt : GoRuntime} {Crypto : CryptoLib}
    {Ed : Ed25519} {QuorumCodec : Codec Quorum} {StatementCodec : Codec Statement} {Backend : NodeBackend N} (fuel : nat) (now t u : Z)
    (conf : Config) (d : D) (s0 s : NodeServer (Node D C)) (n1 : Node D C) (raw addr : string) (r r1 : NodeServer N) h cs req :
  pair_of KeyTypeNodeID raw (nc_NodeID conf) (nc_Seed conf) →
  new_database d → NewNode now conf d = Ok s0 →
  Start fuel t u (nc_NetworkID conf) true (srv_node s0) = (n1, Ok tt) → rtc (node_step (T:=T) fuel) (set_node n1 s0) s →
  srv_networkID r = nc_NetworkID conf →
  server_Hello (Some (node_metadata addr (nc_NodeID conf))) (srv_networkID r) r = (r1, Ok (inr h)) →
  (cs, req) ∈ e_broadcasts (s_engine s) ++ nd_txNotices (srv_node s) →
  let out := (Notify (Some (node_metadata addr (nc_NodeID conf))) req r1).1 in
  (∃ tx key, Decode (nr_Data req) = Some tx ∧ GetTxKey tx = Ok key ∧
    out = (ask_wait serve_tx future.f_Tx_err (future.mkTx new_future key tx) r1).1) ∨
  (∃ stmt, Decode (nr_Data req) = Some stmt ∧ s_NodeID stmt = nc_NodeID conf ∧
    out = (ask_wait serve_stmt future.f_Stmt_err (future.mkStatement new_future stmt) r1).1).
Proof.
  intros Hp Hd H0 Hst Hr Hnet Hh Hin out. destruct (node_facts fuel now t u conf d s0 s n1 Hd H0 Hst Hr) as (_ & _ & _ & Hn).
  destruct req as [net ty data sg]. destruct (Hn cs _ Hin) as (Enet & Hsg & Hk). simpl in *. subst net out. rewrite <-Hnet.
  destruct Hk as [(-> & tx & Htx)|(-> & stmt & Hstmt & Hid)]; [left|right].
  - destruct (Notify_tx_taken raw _ _ addr tx data sg r r1 h Hp Htx Hsg Hh) as (key & Hkey & Ho).
    exists tx, key. split_and!; [by apply Decode_Encode|done|exact Ho].
  - exists stmt. split_and!; [by apply Decode_Encode|done|]. exact (Notify_stmt_taken raw _ _ addr stmt data sg r r1 h Hp Hstmt Hsg Hh).
Qed.

(** A client gives a node a transaction, and the node passes it on to a server that it has met. *)
Module two_nodes.
Import states solo solo_node.
#[local] Existing Instance desk.desk_backend.

Definition raw : string := "0123456789abcdef0123456789abcdef".
Definition nodeid : string := EncodeKey (mkULTKey KeyTypeNodeID raw).
Definition conf : Config :=
  mkConfig "validator" (b58_Encode raw) "here:1" [] 5 nodeid seed "log" "boltdb" "path" (Some quorum) 5.
Definition ctx : EngineContext boltdb string :=
  mkEngineContext boltdb string (b58_Encode raw) seed nodeid "validator" MaxDecrees
    (Some (Peer.NewManager [] (b58_Encode raw) "here:1" nodeid 5)) (Some tt) (Some (NewLedgerManager (TxManager.NewManager db)))
    (Some tt) (Some quorum) 5.
Definition e0 : Engine boltdb string :=
  mkEngine boltdb string (b58_Encode raw) seed nodeid "validator" quorum qhash MaxDecrees 5
    (Peer.NewManager [] (b58_Encode raw) "here:1" nodeid 5)
    (NewValidator (NewLedgerManager (TxManager.NewManager db)) MaxDecrees) ∅ [] [] [] 0 zero_time [] [].
Definition s0 : NodeServer (Node boltdb string) :=
  mkNodeServer (Node boltdb string) (b58_Encode raw) "here:1" nodeid ∅ (mkNode boltdb string e0 None []).
Lemma two_s0_new : NewNode 0 conf db = Ok s0.
Proof.
  assert (ValidateEngineContext (Some ctx) = Ok tt) as Hv by (vm_compute; reflexivity).
  assert (quorum_hash quorum = Ok qhash) as Hq by (vm_compute; reflexivity).
  assert (NewEngine 0 (Some ctx) = Ok e0) as He.
  { unfold NewEngine. rewrite Hv. cbn [deref res_bind ctx ec_PM ec_LM ec_Quorum]. by rewrite Hq. }
  unfold NewNode. change (mkEngineContext _ _ _ _ _ _ _ _ _ _ _ _ _) with ctx. rewrite He. reflexivity.
Qed.

Definition n1 : Node boltdb string := (Start 40 10 7 (nc_NetworkID conf) true (srv_node s0)).1.
Definition s1 : NodeServer (Node boltdb string) := (SubmitTx request (set_node n1 s0)).1.
Definition s2 : NodeServer (Node boltdb string) := set_node (relay_tx (srv_node s1)).1 s1.
Lemma two_started : (Start 40 10 7 (nc_NetworkID conf) true (srv_node s0)).2 = Ok tt.
Proof. vm_compute. reflexivity. Qed.
Lemma relayed : rtc (node_step (T:=boltdb) 40) (set_node n1 s0) s2.
Proof.
  refine (rtc_l _ _ s1 _ (ns_SubmitTx 40 request (set_node n1 s0)) _). exact (rtc_once _ _ (ns_relay 40 s1)).
Qed.

Definition server : NodeServer desk.node := mkNodeServer desk.node (b58_Encode raw) "there:1" "you" ∅ (desk.mkNode [] [] []).
Definition met : NodeServer desk.node := (server_Hello (Some (node_metadata "here:1" nodeid)) (srv_networkID server) server).1.
Definition notice : NotifyRequest := mkNotifyRequest (b58_Encode raw) TX (default "" (Encode note))
  (match Sign seed (default "" (Encode note)) with Ok x => x | _ => "" end).

Lemma notices_arrive_witness : ∃ key, GetTxKey note = Ok key ∧
  (Notify (Some (node_metadata "here:1" nodeid)) notice met).1 =
  (ask_wait serve_tx future.f_Tx_err (future.mkTx new_future key note) met).1.
Proof.
  assert (pair_of KeyTypeNodeID raw (nc_NodeID conf) (nc_Seed conf)) as Hp by (split; [by vm_compute|]; split; by vm_compute).
  assert (server_Hello (Some (node_metadata "here:1" (nc_NodeID conf))) (srv_networkID server) server =
          (met, Ok (inr (node_metadata "there:1" "you")))) as Hh by (vm_compute; reflexivity).
  assert (e_broadcasts (s_engine s2) ++ nd_txNotices (srv_node s2) = [([], notice)]) as Hn by (vm_compute; reflexivity).
  assert (([], notice) ∈ e_broadcasts (s_engine s2) ++ nd_txNotices (srv_node s2)) as Hin by (rewrite Hn; by left).
  destruct (notices_arrive 40 0 10 7 conf db s0 s2 n1 raw "here:1" server met _ [] notice Hp new_db two_s0_new (run_eq _ _ _ two_started) relayed
    eq_refl Hh Hin) as [(tx & key & Hd & Hk & Ho)|(stmt & Hd & _)].
  - assert (tx = note) as -> by (vm_compute in Hd; by injection Hd as <-). exists key. split; [exact Hk|exact Ho].
  - exfalso. vm_compute in Hd. discriminate.
Defined.

End two_nodes.
