(* ===== verification/Cmd.v ===== *)
(** The programs: the logger [log/logger.go], and the commands [ult start] ([cmd/ult]), [ultcli gennodeid] and [genaccountid]
    ([cmd/ultcli]) and [ulthub serve] ([cmd/ulthub]).

    Files, flags and the HTTP server are arguments; the end of a process by [log.Fatal] is [Panic], as elsewhere.  A line of the log is its
    level and its text; the sampling of equal lines by zap is left out. *)

From Stdlib Require Import Ascii.
From S2P Require Import Prelude Lru Pb Db Crypto Keypair Account TxManager Ledger Frame Checkpoint Quorum Ballot Rpc Peer Federated Decree Nomination Future Validator Engine Server Config Node Boot Restart Client.

(** * The logger *)

Module log.

Inductive Level := DebugLevel | InfoLevel | WarnLevel | ErrorLevel | FatalLevel.
Definition rank (l : Level) : Z :=
  match l with DebugLevel => -1 | InfoLevel => 0 | WarnLevel => 1 | ErrorLevel => 2 | FatalLevel => 5 end.

(** [rootLogger] with its configuration; both are zero before [Initialize]. *)
Record Logger := mkLogger { level : Level; outputs : list string; lines : list (Level * string) }.
Abbreviation rootLogger := (option Logger).

(** [build] is the error of [config.Build]. *)
Definition Initialize (build : option string) (logFile : string) : M rootLogger unit := λ r,
  match build with
  | Some err => (r, Panic err)
  | None => (Some (mkLogger InfoLevel ["stdout"; logFile] []), Ok tt)
  end.
Definition SetLevel (l : Level) : M rootLogger unit :=
  let! r := get in
  let! lg := lift (deref r) in
  put (Some (mkLogger l (outputs lg) (lines lg))).
Definition OpenDebug : M rootLogger unit := SetLevel DebugLevel.
Definition CloseDebug : M rootLogger unit := SetLevel InfoLevel.

(** [rootLogger.log] of zap. *)
Definition write (l : Level) (msg : string) : M rootLogger unit :=
  let! r := get in
  let! lg := lift (deref r) in
  if decide (rank l < rank (level lg)) then ret tt
  else put (Some (mkLogger (level lg) (outputs lg) (lines lg ++ [(l, msg)]))).
Definition Error (msg : string) : M rootLogger unit := write ErrorLevel msg.
Definition Fatal {A} (msg : string) : M rootLogger A := do! write FatalLevel msg in panic msg.
Definition Warn (msg : string) : M rootLogger unit := write WarnLevel msg.
Definition Info (msg : string) : M rootLogger unit := write InfoLevel msg.
Definition Debug (msg : string) : M rootLogger unit := write DebugLevel msg.

(** The lines that are written at a level. *)
Definition shown (l : Level) (msgs : list (Level * string)) : list (Level * string) := filter (λ m, rank l <= rank m.1) msgs.

Lemma write_run lg l msg :
  write l msg (Some lg) = (Some (mkLogger (level lg) (outputs lg) (lines lg ++ shown (level lg) [(l, msg)])), Ok tt).
Proof.
  unfold write, bind, get, lift, shown. simpl. rewrite filter_cons, filter_nil. simpl. destruct lg as [lv o ls]. simpl.
  case_decide; case_decide; try lia; [by rewrite app_nil_r|done].
Qed.
Lemma write_all lg msgs :
  mfor msgs (λ '(l, msg), write l msg) (Some lg) = (Some (mkLogger (level lg) (outputs lg) (lines lg ++ shown (level lg) msgs)), Ok tt).
Proof.
  revert lg. induction msgs as [|[l msg] msgs IH]; intros lg; cbn [mfor]; [rewrite app_nil_r; by destruct lg|].
  rewrite (bind_eq_Ok _ _ _ _ _ (write_run lg l msg)), IH. simpl. unfold shown. rewrite <- (assoc (++)), <- filter_app. done.
Qed.
(** Without [Initialize] every line is a nil dereference. *)
Lemma write_nil l msg : write l msg None = (None, Panic "nil pointer dereference").
Proof. done. Qed.

End log.

(** * The commands *)

Module cmd.

Section ult.
Context {D T C : Type} {StoreD : Store D} {StoreT : Store T} {TxDb : TxDatabase D T} {Buckets : BucketDatabase D}.
Context {Pbc : PbCodec} {GoRt : GoRuntime} {Crypto : CryptoLib} {Ed : Ed25519}.
Context {QuorumCodec : Codec Quorum} {StatementCodec : Codec Statement}.

Record flags := mkFlags { config : string; newnode : bool; debug : bool }.

(** [viper.ReadInConfig], [config.Build] of the logger and [bolt.Open]. *)
Record machine := mkMachine { read : string → string + viper; build : option string; open : string → string + D }.

Definition or_exit {A} (w : string) (r : res A) : M log.rootLogger A :=
  match r with Err e => log.Fatal (w +:+ e) | r => lift r end.

(** [ult start] up to the point where it waits for the stop: the node, or the end of the process.  [now], [t] and [u] are the readings of the clock. *)
Definition ult_start (fuelq fuel : nat) (now t u : Z) (m : machine) (fl : flags) : M log.rootLogger (Config * NodeServer (Node D C)) :=
  if decide (config fl = "") then log.Fatal "config file not provided"
  else
    let! v := match read m (config fl) with
              | inl err => log.Fatal ("read in configuration failed: " +:+ err)
              | inr v => ret v
              end in
    let! conf := or_exit "" (NewConfig fuelq v) in
    do! log.Initialize (build m) (nc_LogFile conf) in
    do! (if debug fl then log.OpenDebug else ret tt) in
    let! s := lift (boot (open m) now conf) in
    match Start fuel t u (nc_NetworkID conf) (newnode fl) (srv_node s) with
    | (n, Ok _) => ret (conf, set_node n s)
    | (_, Err e) => fail e
    | (_, Panic w) => panic w
    | (_, NoFuel) => lift NoFuel
    end.

End ult.
Arguments machine D : clear implicits.

(** [ultcli gennodeid] and [genaccountid]: the line that is printed. *)
Section ultcli.
Context {Crypto : CryptoLib} {Ed : Ed25519}.

Definition newline : string := String (ascii_of_nat 10) "".
Definition gennodeid (random : res string) : M log.rootLogger string :=
  let! '(pub, seed) := or_exit "generate random node ID failed: " (GetNodeKeypair random) in
  ret ("NodeID: " +:+ pub +:+ ", Seed: " +:+ seed +:+ newline).
Definition genaccountid (random : res string) : M log.rootLogger string :=
  let! '(pub, seed) := or_exit "generate random account ID failed: " (GetAccountKeypair random) in
  ret ("AccountID: " +:+ pub +:+ ", Seed: " +:+ seed +:+ newline).
End ultcli.

End cmd.

(** * The hub *)

Module hub.

(** The resolver and the watcher of [cmd/ulthub/service] are those of [client], text for text. *)
Definition Resolve : string → res client.watcher := client.Resolve.
Definition Next : client.watcher → option (client.watcher * res (list client.Update)) := client.Next.
Definition Close : client.watcher → res client.watcher := client.Close.

Record Hub := mkHub { coreEndpoints : string }.
Definition NewHub (dial : string → option string) (coreEndpoints : string) : res Hub :=
  match dial coreEndpoints with
  | Some err => Err ("connect to core servers failed: " +:+ err)
  | None => Ok (mkHub coreEndpoints)
  end.

(** The handlers read no request, write no answer, and do not use the client of the hub. *)
Definition SummitTx (h : Hub) : M log.rootLogger unit := log.Info "got summit tx request".
Definition QueryTx (h : Hub) : M log.rootLogger unit := log.Info "got query tx request".

(** The filter around a handler, which leaves the status code of the answer. *)
Definition responseFilter (chain : M log.rootLogger Z) : M log.rootLogger Z :=
  let! code := chain in
  do! (if decide (code ≠ 200) then log.Error "failed" else ret tt) in
  do! log.Info "success" in
  ret code.

(** The routes of the web service: its filter is around each of them.  An answer that no one writes has the status 200. *)
Definition handle (h : Hub) (method path : string) : M log.rootLogger Z :=
  if decide (path = "/ultiledger/tx" ∧ method = "POST") then responseFilter (do! SummitTx h in ret 200)
  else if decide (path = "/ultiledger/tx" ∧ method = "GET") then responseFilter (do! QueryTx h in ret 200)
  else ret (if decide (path = "/ultiledger/tx") then 405 else 404).
Definition NewHandler (dial : string → option string) (coreEndpoints : string) : res Hub :=
  res_wrap "create http hub failed: " (NewHub dial coreEndpoints).
(** [ulthub serve] up to the loop of the server. *)
Definition serve (dial : string → option string) (endpoints : string) : M log.rootLogger Hub :=
  cmd.or_exit "create http handler failed: " (NewHandler dial endpoints).

End hub.

(** * Properties *)

(** C24: [ult start] brings a node back.  However a node has lived on its file, with however many restarts: the command, given a configuration that
    is accepted and names that file, comes to a running node, whose ledger is that of the checkpoint in the file, unless the clock has
    gone back before it or the int64 that counts the ledgers has wrapped around; and that node goes on with the life. *)
Theorem ult_start_brings_back {D T C : Type} {StoreD : Store D} {LawsD : StoreLaws D} {StoreT : Store T} {LawsT : StoreLaws T}
    {TxDb : TxDatabase D T} {TxLaws : TxDatabaseLaws D T} {Buckets : BucketDatabase D} {LawsB : BucketLaws D}
    {Pbc : PbCodec} {GoRt : GoRuntime} {Crypto : CryptoLib} {Ed : Ed25519} {QuorumCodec : Codec Quorum} {StatementCodec : Codec Statement}
    (fuelq fuel : nat) (conf0 conf : Config) (s0 : NodeServer (Node D C)) (m : cmd.machine D) (fl : cmd.flags) (v : viper) :
  life (T:=T) fuel conf0 s0 →
  cmd.config fl ≠ "" → cmd.newnode fl = false → cmd.read m (cmd.config fl) = inr v → cmd.build m = None →
  NewConfig fuelq v = Ok conf → (∀ q, nc_Quorum conf = Some q → is_Some (Encode q)) →
  cmd.open m (nc_DBPath conf) = inr (node_data s0) →
  ∃ ck, checkpoint_at (node_data s0) = Some ck ∧
    ∀ now t u lg, current t ck →
      ∃ lg' (s : NodeServer (Node D C)), cmd.ult_start fuelq fuel now t u m fl lg = (lg', Ok (conf, s)) ∧ recovered ck (e_lm (s_engine s)) ∧ life (T:=T) fuel conf s.
Proof.
  intros Hl Hf Hn Hread Hb Hc Hq Ho. destruct (life_ok fuel conf0 s0 Hl) as [Hok _]. apply node_ok_durable in Hok.
  pose proof Hok as ((Hdb & _ & ck & Hck & _) & _). exists ck. split; [done|]. intros now t u lg Ht.
  destruct (config_makes_node (C:=C) fuelq v conf now (with_buckets (node_data s0)) Hc Hq) as (s & Hs).
  apply (boot_run (cmd.open m) now conf _ s Ho Hdb) in Hs.
  destruct (restart_recovers fuel (cmd.open m) now t u conf _ ck s Hok Hck Ht Ho Hs) as (n & Hst & Hrec).
  unfold cmd.ult_start. rewrite decide_False by done. rewrite Hread. rewrite (bind_eq_Ok _ _ _ lg v) by done.
  rewrite (bind_eq_Ok _ _ _ lg conf) by (unfold cmd.or_exit; by rewrite Hc).
  set (lg1 := Some (log.mkLogger log.InfoLevel ["stdout"; nc_LogFile conf] [])).
  rewrite (bind_eq_Ok _ _ _ lg1 tt) by (unfold log.Initialize; by rewrite Hb).
  assert (∃ lg2, (if cmd.debug fl then log.OpenDebug else ret tt) lg1 = (lg2, Ok tt)) as [lg2 H2] by (destruct (cmd.debug fl); by eexists).
  rewrite (bind_eq_Ok _ _ _ _ _ H2). rewrite (bind_eq_Ok _ _ _ lg2 s) by (unfold lift; by rewrite Hs). rewrite Hn, Hst.
  exists lg2, (set_node n s). split; [done|]. split; [exact Hrec|].
  exact (life_restart fuel conf0 s0 (cmd.open m) now t u conf s n Hl Ho Hs Hst).
Qed.

(** The keys that are printed work.  From 32 random bytes [gennodeid] prints a node key and a seed such that what is signed with the seed
    verifies under the key, and [genaccountid] an account key and its seed; nothing else than the random source can fail. *)
Theorem printed_keys_sign {Crypto : CryptoLib} {Ed : Ed25519} (raw : string) (lg : log.rootLogger) :
  String.length raw = 32%nat →
  ∃ node account seed,
    cmd.gennodeid (Ok raw) lg = (lg, Ok ("NodeID: " +:+ node +:+ ", Seed: " +:+ seed +:+ cmd.newline)) ∧
    cmd.genaccountid (Ok raw) lg = (lg, Ok ("AccountID: " +:+ account +:+ ", Seed: " +:+ seed +:+ cmd.newline)) ∧
    (let? k := DecodeKey node in Ok (key_Code k)) = Ok KeyTypeNodeID ∧ IsValidAccountKey account = true ∧
    ∀ data, ∃ sn, Sign seed data = Ok sn ∧ Verify node sn data = true ∧ Verify account sn data = true.
Proof.
  intros Hr. set (pub code := EncodeKey (mkULTKey code (ed_Public (ed_NewKeyFromSeed raw)))). set (seed := EncodeKey (mkULTKey KeyTypeSeed raw)).
  assert (∀ code, pair_of code raw (pub code) seed) as Hp by done.
  pose proof (pair_of_public KeyTypeNodeID raw _ _ ltac:(by vm_compute) (Hp _)) as Hn.
  pose proof (pair_of_public KeyTypeAccountID raw _ _ ltac:(by vm_compute) (Hp _)) as Ha.
  exists (pub KeyTypeNodeID), (pub KeyTypeAccountID), seed. split; [done|]. split; [done|].
  unfold IsValidAccountKey, has_code, Verify. rewrite Hn, Ha. split_and!; [done..|].
  intros data. eexists. split; [by eapply (pair_of_Sign KeyTypeNodeID)|]. by split; eapply pair_of_verified.
Qed.

(** [ult start] without a configuration, or with one that cannot be read, never says so: the logger is only made from the configuration, and
    using it before is a nil dereference. *)
Theorem start_errors_are_lost {D C : Type} {StoreD : Store D} {Buckets : BucketDatabase D} {Pbc : PbCodec} {GoRt : GoRuntime}
    {Crypto : CryptoLib} {Ed : Ed25519} {QuorumCodec : Codec Quorum} {StatementCodec : Codec Statement}
    (fuelq fuel : nat) (now t u : Z) (m : cmd.machine D) (fl : cmd.flags) (e : string) :
  cmd.config fl = "" ∨ cmd.read m (cmd.config fl) = inl e →
  cmd.ult_start (C:=C) fuelq fuel now t u m fl None = (None, Panic "nil pointer dereference").
Proof.
  intros H. unfold cmd.ult_start. case_decide; [done|]. destruct H as [?| ->]; done.
Qed.

(** The hub serves nothing.  Its process never makes the logger, so each of its two routes is a nil dereference; and with a logger, a request would be
    answered with status 200 and an empty body, without a call to a node. *)
Theorem hub_routes_crash (h : hub.Hub) (method : string) (lg : log.Logger) :
  method = "POST" ∨ method = "GET" →
  hub.handle h method "/ultiledger/tx" None = (None, Panic "nil pointer dereference") ∧
  (hub.handle h method "/ultiledger/tx" (Some lg)).2 = Ok 200.
Proof.
  intros [-> | ->]; (split; [done|]); unfold hub.handle, hub.responseFilter, hub.SummitTx, hub.QueryTx, log.Info; simpl;
    unfold bind; repeat (rewrite log.write_run; simpl); done.
Qed.

(** * The node of [two_runs], from the command line *)

Module start_again.
Import states solo solo_node two_runs.

Definition machine : cmd.machine boltdb := cmd.mkMachine (λ _, inr file) None (λ _, inr (node_data last_seen)).
Definition fl : cmd.flags := cmd.mkFlags "node.toml" false true.

Lemma ult_start_brings_back_witness :
  ∃ ck, checkpoint_at (node_data last_seen) = Some ck ∧ ∀ t, current t ck →
    ∃ lg' s, cmd.ult_start (C:=string) 3 40 80 t 7 machine fl None = (lg', Ok (file_conf, s)) ∧ recovered ck (e_lm (s_engine s)).
Proof.
  assert (NewConfig 3 file = Ok file_conf) as Hc by (vm_compute; reflexivity).
  assert (∀ q, nc_Quorum file_conf = Some q → is_Some (Encode q)) as He by (intros q [= <-]; by eexists).
  destruct (ult_start_brings_back (T:=boltdb) 3 40 conf file_conf last_seen machine fl file first_life ltac:(discriminate) eq_refl eq_refl eq_refl Hc He eq_refl)
    as (ck & Hck & H).
  exists ck. split; [exact Hck|]. intros t Ht. destruct (H 80 t 7 None Ht) as (lg & s & H1 & H2 & _). exists lg, s. split; [exact H1|exact H2].
Defined.

End start_again.
